(* ===== verification/_CoqProject ===== *)
-Q . S2P
Prelude.v
Endian.v
StringPiece.v
Buffer.v
Codec.v
CodecProps.v
Muduo.v
Queues.v
LogStream.v
Http.v
Events.v
Ring.v
MuduoBase.v
Server.v
ServerSpec.v
ServerInv.v
ServerProps.v
Wiring.v
Hub.v
TimerRace.v
RecvFifo.v
Heap.v
RecvList.v
SendFifo.v
SendRace.v
Client.v
ParserTotal.v
Wire.v
PythonClient.v
Utf8.v
Window.v
Api.v
ClientList.v
ApiSpec.v
ApiProps.v
Restart.v
Threads.v
EndToEnd.v
Rpc.v
Network.v
NetworkProps.v
Programs.v
ProgramsProps.v
