(* ===== verification/Prelude.v ===== *)
(** * stupidP2P: a verified model of the relay server and of its clients

    stupidP2P lets devices behind routers talk to each other through a server.
    A device runs the client library, in C or in Python; it registers an id,
    subscribes to the ids of other devices, and what it sends is relayed by the
    server to the devices that subscribed to it.  Messages travel on TCP as frames: a length of four
    bytes, big endian, then a command code and its argument; the server answers a
    command with the code and 0x80, and a result.

    ** The program and the files

    The server, p2pServer/ in C++ on the library muduo:
    - [Server]: p2pServer.h and p2pServer.cc, one definition per handler
      ([onConnection], [onMessage] and the functions it calls, [onTimer]).  The
      state [p2pServer] has the table of connections, whose [ConnInfo] the
      handlers reach through aliasing pointers, the list [_connectionList] with
      iterators as identities of nodes, the map [_connections], the mutex, and
      the calls of the network library as a trace.
    - [ServerSpec]: what each handler does to the state, as functions
      ([register_post], [subscribe_post], [message_post], ...), and the proofs
      that the handlers do that.
    - [ServerInv]: the step relation of the callbacks (a connection comes up,
      data arrives in any pieces, a connection goes down, its object is
      destroyed, the timer fires), the invariant, and its preservation.
    - [ServerProps]: the properties of the server.
    - [Hub]: what the server promises, without its data structures, frames and
      times: members, who gets whose data, and which member an id stands for; and
      that the server implements it.
    - [Wiring]: the constructor and [start] of the class, which put the handlers
      behind the callbacks of a [TcpServer]; the callbacks and accessors of
      TcpServer.h, TcpConnection.h, TcpClient.h, Channel.h and of smaller headers.
    - [TimerRace]: the turns of the loop of [onTimer], interleaved with the callbacks
      of the connections, which run in another thread.
    - [Codec], [CodecProps]: codec.h, the framing, with the relation [decodes] as
      the specification of a stream.
    - [Buffer], [StringPiece], [Endian], [Muduo] (Timestamp.h, Mutex.h,
      Condition.h, TcpConnection.h): the headers of muduo these use.
    - [Queues] (BlockingQueue.h, BoundedBlockingQueue.h), [LogStream], [Http]
      (HttpRequest.h, HttpResponse.h, HttpContext.h), [Events] (Atomic.h,
      Channel.h), [MuduoBase] (Logging.h, Date.h, Types.h, CurrentThread.h,
      Singleton.h, ThreadLocal.h, ThreadLocalSingleton.h, WeakCallback.h,
      GzipFile.h, EventLoop.h): further headers of muduo that define code.

    The client, API/C/ in C:
    - [Ring], [RecvFifo], [SendFifo]: the two circular arrays of netWork.h.
    - [Heap], [RecvList]: blocks of malloc and calloc with their identity, and the
      doubly linked list of netWork.h on them.
    - [SendRace]: push and pop of the queue of commands, cut into their accesses
      to memory and interleaved.
    - [Client]: [stupid_p2p_t] and [parse_recv_net_command] (netWork.c).
    - [ParserTotal]: that the parser ends on every state, and [to_hex].
    - [Api]: stupidP2P.c, the list of clients, every function a user calls, and
      one turn of each of the three threads of a client.
    - [ClientList], [ApiSpec]: what the list of clients stands for, and what the
      functions and the turns do.
    - [ApiProps]: the properties of the library.
    - [Restart]: what a restart of the connection keeps and changes.
    - [Threads]: the three threads as whole functions, from their start on.

    The second client, API/Python/:
    - [PythonClient]: stupidP2P.py, its three classes, and its parser compared with
      the one in C.
    - [Utf8]: the encoding of its texts.
    - [Window]: test/main.py, the handlers of a window with a button per function.

    Server and clients together:
    - [Wire]: the shape of what the server sends, and how it may be cut.
    - [EndToEnd]: one message from a client through the server to another one.
    - [Rpc]: one call of the library, to the server and back.
    - [Network]: the server and any number of clients.  A step is a call of a user,
      a turn of a thread, a piece of bytes that arrives somewhere, or an event of
      the server; every step runs the functions of [Server] and [Api].  A
      connection may break, and the client then opens another one.  The invariant
      says where each byte is between the two ends of a connection.
    - [NetworkProps]: the theorems about networks, and a network that runs.

    The programs: [Programs] has p2pServer/main.cc and API/C/test/main.c, the
    latter on the model of the library; [ProgramsProps] what they do.

    ** How the code is rendered

    An operation that can fail returns [res]: a failed [assert], an access out of
    bounds, a dereference of null, a bad [free], a signed overflow, the use of an
    invalid iterator, a second [lock] by the holder of a mutex.  So a theorem that
    a function returns [Ok] says that none of these happens, and the theorems
    about defects name the one that does.  Integers are [Z] with the wrap-around
    of their type written out ([u8] to [i64]); a byte is a [Z] below 256; an
    object in memory is a list and a pointer into it an offset.  State is passed
    explicitly, in the monads [M] of the server and [W] of the client.

    Code that is not among the sources is a parameter.  [Host] is the byte order;
    [TcpLib] has the effect of TcpConnection.cc on the state of a connection, with
    [TcpLibOk] what the class documents; [Alloc] says which allocations succeed,
    [OS] what the system calls return, [PySocket] what the socket of the Python
    client does, [TcpServerLib] the functions of TcpServer.cc; while a command of
    the client waits, the other threads are an arbitrary function of the state.  Each has a concrete
    instance in the examples that accompany the theorems.  What [getopt] and
    [fgets] return is an argument of the test program, and what [int] makes of a
    text one of the window.

    Code that runs in several threads is a step relation.  In [Queues] and
    [MuduoBase.Once] a step is what lies between two operations on a mutex or on
    [pthread_once]; in [SendRace] it is one access to memory, since [pop] does not
    take the mutex; in [TimerRace] it is a turn of the loop or a whole callback.

    Loops that are not structural have fuel, computed from the state before the
    loop: the readable bytes for [Codec.onMessage] and for the parser, each turn
    of which consumes a header; the length of the list for [unsubscribe_all] and for [onTimer]; the
    number of clients for the walks over their list; the number of queued
    commands and of heap blocks for the loops that empty them; 30 for the attempts
    of the test program; 302 for the sleeps of the Python client, whose restart has
    as many attempts as it is given.  The theorems conclude that the functions
    return [Ok], so the fuel is enough; for the parser this is proved for every
    state (C16).

    ** What is proved

    - The system: in every state a network of the server and any number of
      considerate clients reaches, with connections that break and clients that
      connect again, the hub has handled, on each connection, a prefix of what was
      sent there, and each user was given a prefix of what the hub sent to him (C1);
      the rest can be delivered (C2), and is when nothing is on the way (C6); data
      reaches subscribers only, and only data that was sent (C3); a restart keeps the
      commands and the data that wait, but the hub takes the client for a new one
      (C5); no turn fails, the sending thread sends all that waits, the receive buffer
      has always room, and a restart closes the old socket and connects or tries
      again (C7).  A polite call returns what the hub answers (C4).
    - The server: with polite clients it is the hub (C8), and its registry is exact
      (C29).  Without that assumption: an invariant of all reachable states (C9), that
      no callback fails in them but for an invalid iterator (C10), that the handlers
      refine the abstract effect of a message (C11), what data, a disconnection and
      the timer do (C26, C28, C30).
    - The timer in its own thread: which callbacks may come between its turns (C27).
    - The codec: independent of how the stream is cut (C12), inverse to sending
      for messages of at most 65536 bytes (C13), invalid lengths (C37).
    - The wire: what the server sends to considerate clients is what the client's
      parser takes (C14).
    - The client in C: the parser (C15, C16); commands and their replies (C21); the
      receiving thread, which delivers messages of at most 2048 bytes however they are
      cut (C22), and the checking thread, which notices a silent server (C23); the
      data for the user, up to 1024 payloads at a time (C24); start and end of a
      client, the last one of the list included (C31, C32); the data structures as queues
      (C34 to C36), and pushes by several threads (C25); a pop that interferes with
      a push (C40).
    - The client in Python: it understands the same bytes as the one in C, for the
      messages the latter can take, however they are cut (C17), sends the same frames, and waits as long (C20).  The
      window on it: a text that is typed in one is shown in another (C18), and
      which events raise an exception (C19).
    - The library: the buffer is a queue of bytes (C33); blocking queues are
      first in first out and lose no wake-up in any interleaving (C38, C39).
    - Defects are theorems about a run that shows them: C40, and lemmas of
      [ServerProps], [TimerRace], [ApiProps], [Client], [SendFifo], [Restart],
      [Threads], [PythonClient], [Window] and [ProgramsProps], where the effects of
      single commands, the options and the output of the test program are, too.

    ** What is not modelled

    The event loop, the sockets, the threads and the log of muduo, whose functions
    are not among the sources but only there as a compiled library: of its headers
    what they define is modelled, and not what they declare.  The writing of log
    lines; the layout of the window, which is generated.  Turns of the three threads
    of a client do not overlap, except that any of them can run while a command
    waits, and inside push and pop of the queue.  The callbacks of one connection
    thread do not overlap, as the library documents; single accesses to memory
    inside a turn of the timer do not either.

    The theorems about [Network] assume, as hypotheses or in its steps:
    - [considerate]: no client registers under a second id, under the reserved one or
      on a connection that is being closed, and no message has more than 2048 bytes.
      The server accepts both, and the client in Python has no such limit; what then
      happens is [ServerProps.stale_registration], [Client.parse_overflow] and
      [Client.parse_stalls].
    - [sends_all], [plenty]: [send] takes all it is given and [malloc] succeeds (a
      user's call may still be refused).
    - A client does not send more than 8192 commands, after which its queue frees a
      block twice ([SendFifo]).
    - A client restarts when no frame was cut off in its receive buffer; one that
      restarts with the beginning of a frame there, which is continued with bytes of
      the new connection ([Restart]), counts from then on as a client of another
      make, of which only the bytes it sends are known.
    - The bytes on a connection are all those given to [send], also on a connection
      that is being closed, where the library drops them: the streams of [Wire] are
      upper bounds there.

    [stupid_p2p_init] is one step, although the threads it starts may run before it
    ends; what then goes wrong is [Threads.early_beat]. *)

From stdpp Require Export base list numbers gmap strings.
From Stdlib Require Export ZArith Lia.

#[global] Open Scope Z_scope.

(** ** The result monad: what an operation of the C and C++ code can do *)

(** The ways in which an operation can fail to return a value. *)
Inductive err :=
  | AssertFail        (* an [assert] of the source evaluates to false *)
  | LengthError       (* [std::length_error], thrown by [std::vector::resize] *)
  | OutOfBounds       (* an access outside of an array or of an object *)
  | NullDeref         (* a null pointer is dereferenced *)
  | BadFree           (* [free] of a pointer that is not a live allocation *)
  | SignedOverflow    (* a signed addition leaves its type *)
  | InvalidIterator   (* an invalidated or past-the-end iterator is used *)
  | Deadlock          (* a non-recursive mutex is locked twice by its holder *)
  | IndexError        (* Python: [pop] from an empty deque *)
  | AttributeError    (* Python: an attribute of the object is not there yet *)
  | UnicodeError      (* Python: text that cannot be encoded, bytes that are no text *)
  | OutOfFuel.        (* the bound of a loop is too small: proved not to happen *)

#[global] Instance err_eq_dec : EqDecision err.
Proof. solve_decision. Defined.

Inductive res (A : Type) :=
  | Ok (a : A)
  | Err (e : err).
Arguments Ok {A} a.
Arguments Err {A} e.

Definition res_bind {A B} (m : res A) (k : A -> res B) : res B :=
  match m with Ok a => k a | Err e => Err e end.

Definition res_map {A B} (f : A -> B) (m : res A) : res B :=
  match m with Ok a => Ok (f a) | Err e => Err e end.

Definition is_ok {A} (m : res A) : bool :=
  match m with Ok _ => true | Err _ => false end.

Declare Scope res_scope.
Delimit Scope res_scope with res.
Notation "'let*' p := m 'in' k" := (res_bind m (fun p => k))
  (at level 10, p as pattern, m at level 100, k at level 200) : res_scope.
#[global] Open Scope res_scope.

(** [assert(c)]: the Makefile does not define NDEBUG, so the check is made. *)
Definition assert_ (c : bool) : res unit :=
  if c then Ok tt else Err AssertFail.

(** ** Machine integers *)

Definition wrapu (w x : Z) : Z := x mod 2 ^ w.
Definition wraps (w x : Z) : Z := (x + 2 ^ (w - 1)) mod 2 ^ w - 2 ^ (w - 1).

Abbreviation u8 := (wrapu 8).
Abbreviation u16 := (wrapu 16).
Abbreviation u32 := (wrapu 32).
Abbreviation u64 := (wrapu 64).
Abbreviation i8 := (wraps 8).
Abbreviation i16 := (wraps 16).
Abbreviation i32 := (wraps 32).
Abbreviation i64 := (wraps 64).

Definition is_byte (b : Z) : Prop := 0 <= b < 256.
#[global] Instance is_byte_dec b : Decision (is_byte b).
Proof. unfold is_byte. apply _. Defined.

Definition bytes (l : list Z) : Prop := Forall is_byte l.

(** ** Lists indexed by [Z] *)

Definition zlen {A} (l : list A) : Z := Z.of_nat (length l).
Definition ztake {A} (n : Z) (l : list A) : list A := take (Z.to_nat n) l.
Definition zdrop {A} (n : Z) (l : list A) : list A := drop (Z.to_nat n) l.

#[global] Arguments zlen : simpl never.
#[global] Arguments ztake : simpl never.
#[global] Arguments zdrop : simpl never.
#[global] Arguments wrapu : simpl never.
#[global] Arguments wraps : simpl never.

(** [n] elements from position [i] on; outside of the object it is an error. *)
Definition read_at {A} (l : list A) (i n : Z) : res (list A) :=
  if (0 <=? i) && (0 <=? n) && (i + n <=? zlen l)
  then Ok (ztake n (zdrop i l)) else Err OutOfBounds.

(** [memcpy]/[std::copy] of [d] to position [i] of the object [l]. *)
Definition write_at {A} (l : list A) (i : Z) (d : list A) : res (list A) :=
  if (0 <=? i) && (i + zlen d <=? zlen l)
  then Ok (ztake i l ++ d ++ zdrop (i + zlen d) l) else Err OutOfBounds.

(** Characters of a C string literal. *)
Definition chars (s : string) : list Z :=
  (fun c => Z.of_nat (Ascii.nat_of_ascii c)) <$> String.list_ascii_of_string s.

(** ** Byte encodings of integers *)

Fixpoint le_bytes (n : nat) (x : Z) : list Z :=
  match n with
  | O => []
  | S n => x mod 256 :: le_bytes n (x / 256)
  end.

Fixpoint le_val (l : list Z) : Z :=
  match l with
  | [] => 0
  | b :: l => b + 256 * le_val l
  end.

Definition be_bytes (n : nat) (x : Z) : list Z := reverse (le_bytes n x).
Definition be_val (l : list Z) : Z := le_val (reverse l).

(** ** Lemmas: the result monad *)

Lemma res_bind_ok {A B} (m : res A) (k : A -> res B) v :
  res_bind m k = Ok v <-> exists a, m = Ok a /\ k a = Ok v.
Proof. destruct m; simpl; naive_solver. Qed.

Lemma res_bind_err {A B} (m : res A) (k : A -> res B) e :
  res_bind m k = Err e <-> m = Err e \/ exists a, m = Ok a /\ k a = Err e.
Proof. destruct m; simpl; naive_solver. Qed.

Lemma res_bind_assoc {A B C} (m : res A) (k : A -> res B) (k' : B -> res C) :
  res_bind (res_bind m k) k' = res_bind m (fun a => res_bind (k a) k').
Proof. by destruct m. Qed.

Lemma assert_ok c u : assert_ c = Ok u <-> c = true.
Proof. destruct c, u; simpl; naive_solver. Qed.

(** ** Lemmas: machine integers *)

Lemma wrapu_id w x : 0 <= x < 2 ^ w -> wrapu w x = x.
Proof. apply Z.mod_small. Qed.

Lemma wrapu_range w x : 0 <= w -> 0 <= wrapu w x < 2 ^ w.
Proof. intros. apply Z.mod_pos_bound. apply Z.pow_pos_nonneg; lia. Qed.

Lemma pow2_half w : 0 < w -> 2 ^ w = 2 * 2 ^ (w - 1).
Proof. intros. rewrite <- Z.pow_succ_r by lia. f_equal. lia. Qed.

Lemma wraps_id w x : 0 < w -> - 2 ^ (w - 1) <= x < 2 ^ (w - 1) -> wraps w x = x.
Proof.
  intros Hw Hx. unfold wraps. pose proof (pow2_half w Hw).
  rewrite Z.mod_small; lia.
Qed.

Lemma wraps_range w x : 0 < w -> - 2 ^ (w - 1) <= wraps w x < 2 ^ (w - 1).
Proof.
  intros Hw. unfold wraps. pose proof (pow2_half w Hw).
  assert (0 < 2 ^ w) by (apply Z.pow_pos_nonneg; lia).
  pose proof (Z.mod_pos_bound (x + 2 ^ (w - 1)) (2 ^ w)). lia.
Qed.

Lemma wraps_wrapu w x : 0 < w -> wraps w (wrapu w x) = wraps w x.
Proof.
  intros Hw. unfold wraps, wrapu.
  by rewrite Z.add_mod_idemp_l by (apply Z.pow_nonzero; lia).
Qed.

Lemma wrapu_wraps w x : 0 < w -> wrapu w (wraps w x) = wrapu w x.
Proof.
  intros Hw. unfold wraps, wrapu.
  rewrite Zminus_mod_idemp_l. f_equal. lia.
Qed.

Lemma wrapu_idemp w x : 0 <= w -> wrapu w (wrapu w x) = wrapu w x.
Proof. intros. apply Z.mod_mod. apply Z.pow_nonzero; lia. Qed.

(** ** Lemmas: lists indexed by [Z] *)

Lemma zlen_nonneg {A} (l : list A) : 0 <= zlen l.
Proof. unfold zlen; lia. Qed.
Lemma zlen_nil {A} : zlen (@nil A) = 0.
Proof. done. Qed.
Lemma zlen_cons {A} (x : A) l : zlen (x :: l) = 1 + zlen l.
Proof. unfold zlen; simpl; lia. Qed.
Lemma zlen_app {A} (l k : list A) : zlen (l ++ k) = zlen l + zlen k.
Proof. unfold zlen. rewrite length_app; lia. Qed.
Lemma zlen_0 {A} (l : list A) : zlen l = 0 -> l = [].
Proof. destruct l; unfold zlen; simpl; [done | lia]. Qed.
Lemma zlen_ztake {A} n (l : list A) : 0 <= n <= zlen l -> zlen (ztake n l) = n.
Proof. unfold zlen, ztake. rewrite length_take. lia. Qed.
Lemma zlen_zdrop {A} n (l : list A) : 0 <= n <= zlen l -> zlen (zdrop n l) = zlen l - n.
Proof. unfold zlen, zdrop. rewrite length_drop. lia. Qed.
Lemma ztake_zdrop {A} n (l : list A) : ztake n l ++ zdrop n l = l.
Proof. apply take_drop. Qed.
Lemma ztake_0 {A} n (l : list A) : n <= 0 -> ztake n l = [].
Proof. intros. unfold ztake. replace (Z.to_nat n) with O by lia. done. Qed.
Lemma zdrop_0 {A} n (l : list A) : n <= 0 -> zdrop n l = l.
Proof. intros. unfold zdrop. replace (Z.to_nat n) with O by lia. done. Qed.
Lemma ztake_all {A} n (l : list A) : zlen l <= n -> ztake n l = l.
Proof. unfold zlen, ztake. intros. apply take_ge. lia. Qed.
Lemma zdrop_all {A} n (l : list A) : zlen l <= n -> zdrop n l = [].
Proof. unfold zlen, zdrop. intros. apply drop_ge. lia. Qed.
Lemma ztake_app_l {A} n (l k : list A) : n <= zlen l -> ztake n (l ++ k) = ztake n l.
Proof. unfold zlen, ztake. intros. apply take_app_le. lia. Qed.
Lemma zdrop_app_l {A} n (l k : list A) : n <= zlen l -> zdrop n (l ++ k) = zdrop n l ++ k.
Proof. unfold zlen, zdrop. intros. apply drop_app_le. lia. Qed.
Lemma ztake_app_r {A} n (l k : list A) :
  zlen l <= n -> ztake n (l ++ k) = l ++ ztake (n - zlen l) k.
Proof.
  unfold zlen, ztake. intros. rewrite take_app_ge by lia.
  do 2 f_equal. lia.
Qed.
Lemma zdrop_app_r {A} n (l k : list A) :
  zlen l <= n -> zdrop n (l ++ k) = zdrop (n - zlen l) k.
Proof.
  unfold zlen, zdrop. intros. rewrite drop_app_ge by lia. f_equal. lia.
Qed.
Lemma ztake_app_eq {A} n (l k : list A) : n = zlen l -> ztake n (l ++ k) = l.
Proof. intros ->. rewrite ztake_app_l, ztake_all by lia. done. Qed.
Lemma zdrop_app_eq {A} n (l k : list A) : n = zlen l -> zdrop n (l ++ k) = k.
Proof. intros ->. rewrite zdrop_app_r, zdrop_0 by lia. done. Qed.
Lemma zdrop_zdrop {A} n m (l : list A) :
  0 <= n -> 0 <= m -> zdrop n (zdrop m l) = zdrop (m + n) l.
Proof. intros. unfold zdrop. rewrite drop_drop. f_equal. lia. Qed.
Lemma ztake_ztake {A} n m (l : list A) :
  ztake n (ztake m l) = ztake (Z.min n m) l.
Proof. unfold ztake. rewrite take_take. f_equal. lia. Qed.
Lemma zdrop_ztake {A} n m (l : list A) :
  0 <= n -> zdrop n (ztake m l) = ztake (m - n) (zdrop n l).
Proof. intros. unfold ztake, zdrop. rewrite skipn_firstn_comm. do 2 f_equal. lia. Qed.

Lemma read_at_ok {A} (l : list A) i n :
  0 <= i -> 0 <= n -> i + n <= zlen l -> read_at l i n = Ok (ztake n (zdrop i l)).
Proof.
  intros. unfold read_at.
  rewrite !(proj2 (Z.leb_le _ _)) by lia. done.
Qed.

Lemma write_at_ok {A} (l d : list A) i :
  0 <= i -> i + zlen d <= zlen l ->
  write_at l i d = Ok (ztake i l ++ d ++ zdrop (i + zlen d) l).
Proof.
  intros. unfold write_at.
  rewrite !(proj2 (Z.leb_le _ _)) by lia. done.
Qed.

Lemma read_at_inv {A} (l : list A) i n d :
  read_at l i n = Ok d -> 0 <= i /\ 0 <= n /\ i + n <= zlen l /\ d = ztake n (zdrop i l).
Proof. unfold read_at. case_match; naive_solver lia. Qed.

Lemma write_at_inv {A} (l d l' : list A) i :
  write_at l i d = Ok l' ->
  0 <= i /\ i + zlen d <= zlen l /\ l' = ztake i l ++ d ++ zdrop (i + zlen d) l.
Proof. unfold write_at. case_match; naive_solver lia. Qed.

(** ** Lemmas: byte encodings *)

Lemma length_le_bytes n x : length (le_bytes n x) = n.
Proof. revert x; induction n; intros; simpl; auto. Qed.

Lemma zlen_be_bytes n x : zlen (be_bytes n x) = Z.of_nat n.
Proof. unfold zlen, be_bytes. by rewrite length_reverse, length_le_bytes. Qed.

Lemma le_bytes_bytes n x : bytes (le_bytes n x).
Proof.
  revert x; induction n as [|n IH]; intros x; constructor; [|apply IH].
  unfold is_byte. apply Z.mod_pos_bound. lia.
Qed.

Lemma be_bytes_bytes n x : bytes (be_bytes n x).
Proof. unfold be_bytes, bytes. apply Forall_reverse, le_bytes_bytes. Qed.

Lemma pow_256_S n : 2 ^ (8 * Z.of_nat (S n)) = 256 * 2 ^ (8 * Z.of_nat n).
Proof.
  replace (8 * Z.of_nat (S n)) with (8 + 8 * Z.of_nat n) by lia.
  rewrite Z.pow_add_r by lia. done.
Qed.

Lemma le_val_le_bytes n x : le_val (le_bytes n x) = x mod 2 ^ (8 * Z.of_nat n).
Proof.
  revert x; induction n as [|n IH]; intros x; simpl le_bytes; simpl le_val.
  - by rewrite Z.mod_1_r.
  - rewrite IH, pow_256_S.
    assert (0 < 2 ^ (8 * Z.of_nat n)) by (apply Z.pow_pos_nonneg; lia).
    rewrite Z.rem_mul_r by lia. lia.
Qed.

Lemma le_val_range l : bytes l -> 0 <= le_val l < 2 ^ (8 * zlen l).
Proof.
  induction 1 as [|b l Hb _ IH]; [done|].
  simpl le_val. unfold zlen in *. cbn [length]. rewrite pow_256_S.
  unfold is_byte in Hb. lia.
Qed.

Lemma le_bytes_le_val l : bytes l -> le_bytes (length l) (le_val l) = l.
Proof.
  induction 1 as [|b l Hb _ IH]; [done|].
  simpl. unfold is_byte in Hb. f_equal.
  - rewrite Z.mul_comm, Z.mod_add, Z.mod_small; lia.
  - rewrite Z.mul_comm, Z.div_add, Z.div_small by lia. done.
Qed.

Lemma be_val_be_bytes n x : be_val (be_bytes n x) = x mod 2 ^ (8 * Z.of_nat n).
Proof. unfold be_val, be_bytes. by rewrite reverse_involutive, le_val_le_bytes. Qed.

Lemma be_bytes_be_val l : bytes l -> be_bytes (length l) (be_val l) = l.
Proof.
  intros H. unfold be_val, be_bytes. rewrite <- (length_reverse l).
  rewrite le_bytes_le_val; [apply reverse_involutive | by apply Forall_reverse].
Qed.

Lemma be_val_range l : bytes l -> 0 <= be_val l < 2 ^ (8 * zlen l).
Proof.
  intros H. unfold be_val, zlen. rewrite <- (length_reverse l).
  apply le_val_range. by apply Forall_reverse.
Qed.

Lemma le_bytes_mod n x y :
  x mod 2 ^ (8 * Z.of_nat n) = y mod 2 ^ (8 * Z.of_nat n) -> le_bytes n x = le_bytes n y.
Proof.
  intros H. rewrite <- (le_bytes_le_val (le_bytes n x)), <- (le_bytes_le_val (le_bytes n y))
    by apply le_bytes_bytes.
  by rewrite !length_le_bytes, !le_val_le_bytes, H.
Qed.

Lemma be_bytes_mod n x y :
  x mod 2 ^ (8 * Z.of_nat n) = y mod 2 ^ (8 * Z.of_nat n) -> be_bytes n x = be_bytes n y.
Proof. intros H. unfold be_bytes. by rewrite (le_bytes_mod n x y H). Qed.

Lemma bytes_app l k : bytes (l ++ k) <-> bytes l /\ bytes k.
Proof. apply Forall_app. Qed.
Lemma bytes_ztake n l : bytes l -> bytes (ztake n l).
Proof. apply Forall_take. Qed.
Lemma bytes_zdrop n l : bytes l -> bytes (zdrop n l).
Proof. apply Forall_drop. Qed.

(** ** Automation *)

Create HintDb p2p.
Create Rewrite HintDb zlen.
#[export] Hint Resolve zlen_nonneg le_bytes_bytes be_bytes_bytes bytes_ztake bytes_zdrop : p2p.
#[export] Hint Rewrite @zlen_nil @zlen_cons @zlen_app zlen_be_bytes : zlen.

(** Normalises lengths in the goal and in the hypotheses. *)
Ltac zlen_simpl := autorewrite with zlen in *.

(** [lia] that knows that lengths of lists are not negative. *)
Ltac zlia :=
  zlen_simpl;
  repeat match goal with
  | |- context [zlen ?l] =>
      lazymatch goal with H : 0 <= zlen l |- _ => fail | _ => pose proof (zlen_nonneg l) end
  | _ : context [zlen ?l] |- _ =>
      lazymatch goal with H : 0 <= zlen l |- _ => fail | _ => pose proof (zlen_nonneg l) end
  end; lia.

(** Inverts a successful run of a monadic operation. *)
Ltac res_inv :=
  repeat match goal with
  | H : res_bind _ _ = Ok _ |- _ =>
      let a := fresh "a" in let E := fresh "E" in
      apply res_bind_ok in H as (a & E & H)
  | H : assert_ _ = Ok _ |- _ => apply assert_ok in H
  | H : Ok _ = Ok _ |- _ => injection H as H
  | H : Err _ = Ok _ |- _ => discriminate H
  | x : unit |- _ => destruct x
  end.

(** Decides a boolean comparison of integers from the context. *)
Ltac bool_lia :=
  repeat match goal with
  | |- context [?x <=? ?y] =>
      first [ rewrite (proj2 (Z.leb_le x y)) by zlia
            | rewrite (proj2 (Z.leb_gt x y)) by zlia ]
  | |- context [?x <? ?y] =>
      first [ rewrite (proj2 (Z.ltb_lt x y)) by zlia
            | rewrite (proj2 (Z.ltb_ge x y)) by zlia ]
  | |- context [?x =? ?y] =>
      first [ rewrite (proj2 (Z.eqb_eq x y)) by zlia
            | rewrite (proj2 (Z.eqb_neq x y)) by zlia ]
  end; simpl.
