(* ===== verification/Endian.v ===== *)
(** * Byte order conversions (muduo/net/Endian.h)

    The conversions are written for both byte orders of the host: on a little
    endian host [htobe32] reverses the bytes, on a big endian host it is the
    identity.  The lemmas show that what ends up in memory, hence on the wire,
    is the big endian image of the number on either host, and that the
    conversions back and forth are inverse to each other. *)

From S2P Require Import Prelude.

Inductive endian := LittleEndian | BigEndian.

#[global] Instance endian_eq_dec : EqDecision endian.
Proof. solve_decision. Defined.

(** The byte order of the host, a constant of the compiler. *)
Class Host := host_endian : endian.

Section endian.
Context {host : Host}.

(** Memory image of an [n]-byte unsigned integer, and the integer read back. *)
Definition store (n : nat) (x : Z) : list Z :=
  match host_endian with LittleEndian => le_bytes n x | BigEndian => be_bytes n x end.

Definition load (l : list Z) : Z :=
  match host_endian with LittleEndian => le_val l | BigEndian => be_val l end.

(** [htobe16/32/64] and [be16/32/64toh] of <endian.h>, by the width in bytes. *)
Definition bswap (n : nat) (x : Z) : Z := be_val (le_bytes n x).

Definition htobe (n : nat) (x : Z) : Z :=
  match host_endian with LittleEndian => bswap n x | BigEndian => x end.

Definition betoh (n : nat) (x : Z) : Z :=
  match host_endian with LittleEndian => bswap n x | BigEndian => x end.

Definition hostToNetwork64 (host64 : Z) : Z := htobe 8 (u64 host64).
Definition hostToNetwork32 (host32 : Z) : Z := htobe 4 (u32 host32).
Definition hostToNetwork16 (host16 : Z) : Z := htobe 2 (u16 host16).
Definition networkToHost64 (net64 : Z) : Z := betoh 8 (u64 net64).
Definition networkToHost32 (net32 : Z) : Z := betoh 4 (u32 net32).
Definition networkToHost16 (net16 : Z) : Z := betoh 2 (u16 net16).

(** ** Lemmas *)

Lemma bswap_range n x : 0 <= bswap n x < 2 ^ (8 * Z.of_nat n).
Proof.
  pose proof (be_val_range (le_bytes n x) (le_bytes_bytes n x)) as H.
  unfold zlen in H. by rewrite length_le_bytes in H.
Qed.

Lemma bswap_bswap n x : bswap n (bswap n x) = x mod 2 ^ (8 * Z.of_nat n).
Proof.
  unfold bswap. unfold be_val at 2.
  rewrite <- (length_le_bytes n x) at 1. rewrite <- length_reverse.
  rewrite le_bytes_le_val by (apply Forall_reverse, le_bytes_bytes).
  unfold be_val. by rewrite reverse_involutive, le_val_le_bytes.
Qed.

Lemma length_store n x : length (store n x) = n.
Proof.
  unfold store, be_bytes. case_match; rewrite ?length_reverse; apply length_le_bytes.
Qed.

Lemma store_bytes n x : bytes (store n x).
Proof. unfold store. case_match; auto with p2p. Qed.

(** The memory image of a converted number is its big endian image. *)
Lemma store_htobe n x :
  store n (htobe n (wrapu (8 * Z.of_nat n) x)) = be_bytes n x.
Proof.
  unfold store, htobe. destruct host_endian.
  - unfold bswap. replace n with (length (le_bytes n (wrapu (8 * Z.of_nat n) x))) at 1
      by apply length_le_bytes.
    unfold be_val. rewrite <- length_reverse.
    rewrite le_bytes_le_val by (apply Forall_reverse, le_bytes_bytes).
    apply be_bytes_mod. unfold wrapu. apply Z.mod_mod, Z.pow_nonzero; lia.
  - apply be_bytes_mod. unfold wrapu. apply Z.mod_mod, Z.pow_nonzero; lia.
Qed.

(** Reading [n] bytes of the wire and converting them gives their big endian value. *)
Lemma betoh_load n l :
  length l = n -> bytes l -> betoh n (wrapu (8 * Z.of_nat n) (load l)) = be_val l.
Proof.
  intros <- Hl. unfold betoh, load. destruct host_endian.
  - rewrite wrapu_id by (apply le_val_range in Hl; unfold zlen in Hl; lia).
    unfold bswap. by rewrite le_bytes_le_val.
  - rewrite wrapu_id by (apply be_val_range in Hl; unfold zlen in Hl; lia). done.
Qed.

Lemma betoh_htobe n x :
  0 <= x < 2 ^ (8 * Z.of_nat n) -> betoh n (htobe n x) = x.
Proof.
  intros. unfold betoh, htobe. destruct host_endian; [|done].
  rewrite bswap_bswap. by apply Z.mod_small.
Qed.

Lemma htobe_range n x :
  0 <= x < 2 ^ (8 * Z.of_nat n) -> 0 <= htobe n x < 2 ^ (8 * Z.of_nat n).
Proof. intros. unfold htobe. destruct host_endian; [apply bswap_range | done]. Qed.

(** Converting to network order and back is the identity on every 64, 32 and
    16 bit value, of either signedness. *)
Lemma network_roundtrip x :
  networkToHost64 (hostToNetwork64 x) = u64 x /\
  networkToHost32 (hostToNetwork32 x) = u32 x /\
  networkToHost16 (hostToNetwork16 x) = u16 x.
Proof.
  unfold networkToHost64, hostToNetwork64, networkToHost32, hostToNetwork32,
    networkToHost16, hostToNetwork16.
  assert (forall n, betoh n (wrapu (8 * Z.of_nat n) (htobe n (wrapu (8 * Z.of_nat n) x))) =
                    wrapu (8 * Z.of_nat n) x) as H.
  { intros n. assert (0 <= wrapu (8 * Z.of_nat n) x < 2 ^ (8 * Z.of_nat n))
      by (apply wrapu_range; lia).
    rewrite (wrapu_id _ (htobe _ _)) by by apply htobe_range.
    by apply betoh_htobe. }
  split; [apply (H 8%nat) | split; [apply (H 4%nat) | apply (H 2%nat)]].
Qed.

End endian.
