(* ===== verification/StringPiece.v ===== *)
(** * Views of byte strings (muduo/base/StringPiece.h)

    A [const char*] is an object (the bytes of an array or of a string) and an
    offset into it; reading outside of the object is an error.  A [StringPiece]
    is such a pointer, possibly null, and a length of type [int].  The lemmas
    give the meaning of every operation on the bytes the piece denotes and show
    that the comparison operators are the lexicographic order. *)

From S2P Require Import Prelude.

Record cptr := mkPtr { blk : list Z; off : Z }.

(** The [n] bytes at a pointer; [n] is a [size_t]. *)
Definition deref (p : option cptr) (n : Z) : res (list Z) :=
  if n =? 0 then Ok []
  else match p with
       | None => Err NullDeref
       | Some p => read_at (blk p) (off p) n
       end.

Definition ptr_add (p : option cptr) (n : Z) : option cptr :=
  match p with None => None | Some p => Some (mkPtr (blk p) (off p + n)) end.

(** The number of bytes before the first NUL. *)
Fixpoint strlen_list (l : list Z) : res Z :=
  match l with
  | [] => Err OutOfBounds
  | c :: l => if c =? 0 then Ok 0 else let* n := strlen_list l in Ok (1 + n)
  end.

Definition strlen (p : option cptr) : res Z :=
  match p with
  | None => Err NullDeref
  | Some p => if (0 <=? off p) && (off p <=? zlen (blk p))
              then strlen_list (zdrop (off p) (blk p)) else Err OutOfBounds
  end.

(** The sign of what [memcmp] returns on two arrays of the same length. *)
Fixpoint bytes_cmp (a b : list Z) : Z :=
  match a, b with
  | x :: a, y :: b => if x <? y then -1 else if y <? x then 1 else bytes_cmp a b
  | _, _ => 0
  end.

Definition memcmp (p q : option cptr) (n : Z) : res Z :=
  let* a := deref p (u64 n) in let* b := deref q (u64 n) in Ok (bytes_cmp a b).

Record StringPiece := mkPiece { ptr_ : option cptr; length_ : Z }.

#[global] Instance cptr_eq_dec : EqDecision cptr.
Proof. solve_decision. Defined.
#[global] Instance StringPiece_eq_dec : EqDecision StringPiece.
Proof. solve_decision. Defined.

Module SP.

(** Constructors: empty, from a C string, from a [string], from pointer and length. *)
Definition empty_piece : StringPiece := mkPiece None 0.
Definition of_cstr (str : option cptr) : res StringPiece :=
  let* n := strlen str in Ok (mkPiece str (i32 n)).
Definition of_string (str : list Z) : StringPiece :=
  mkPiece (Some (mkPtr str 0)) (i32 (zlen str)).
Definition of_ptr (offset : option cptr) (len : Z) : StringPiece := mkPiece offset len.

Definition data (s : StringPiece) : option cptr := ptr_ s.
Definition size (s : StringPiece) : Z := length_ s.
Definition empty (s : StringPiece) : bool := length_ s =? 0.
Definition begin (s : StringPiece) : option cptr := ptr_ s.
Definition end_ (s : StringPiece) : option cptr := ptr_add (ptr_ s) (length_ s).

Definition clear (s : StringPiece) : StringPiece := mkPiece None 0.
Definition set_buf (s : StringPiece) (buffer : option cptr) (len : Z) : StringPiece :=
  mkPiece buffer len.
Definition set_cstr (s : StringPiece) (str : option cptr) : res StringPiece :=
  let* n := strlen str in Ok (mkPiece str (i32 n)).

(** [operator[]]: no check against [length_]. *)
Definition at_ (s : StringPiece) (i : Z) : res Z :=
  let* l := deref (ptr_add (ptr_ s) i) 1 in
  match l with c :: _ => Ok c | [] => Err OutOfBounds end.

Definition remove_prefix (s : StringPiece) (n : Z) : StringPiece :=
  mkPiece (ptr_add (ptr_ s) n) (i32 (length_ s - n)).
Definition remove_suffix (s : StringPiece) (n : Z) : StringPiece :=
  mkPiece (ptr_ s) (i32 (length_ s - n)).

Definition eqb (s x : StringPiece) : res bool :=
  if length_ s =? length_ x
  then let* r := memcmp (ptr_ s) (ptr_ x) (length_ s) in Ok (r =? 0)
  else Ok false.
Definition neqb (s x : StringPiece) : res bool :=
  let* b := eqb s x in Ok (negb b).

(** [STRINGPIECE_BINARY_PREDICATE(cmp, auxcmp)]. *)
Definition min_length (s x : StringPiece) : Z :=
  if length_ s <? length_ x then length_ s else length_ x.
Definition binary_predicate (cmp auxcmp : Z -> Z -> bool) (s x : StringPiece) : res bool :=
  let* r := memcmp (ptr_ s) (ptr_ x) (min_length s x) in
  Ok (auxcmp r 0 || ((r =? 0) && cmp (length_ s) (length_ x))).
Definition ltb := binary_predicate Z.ltb Z.ltb.
Definition leb := binary_predicate Z.leb Z.ltb.
Definition geb := binary_predicate Z.geb Z.gtb.
Definition gtb := binary_predicate Z.gtb Z.gtb.

Definition compare (s x : StringPiece) : res Z :=
  let* r := memcmp (ptr_ s) (ptr_ x) (min_length s x) in
  if r =? 0
  then if length_ s <? length_ x then Ok (-1)
       else if length_ x <? length_ s then Ok 1 else Ok r
  else Ok r.

(** [string(data(), size())]: the [int] length is converted to [size_t]. *)
Definition as_string (s : StringPiece) : res (list Z) := deref (data s) (u64 (size s)).
Definition CopyToString (s : StringPiece) : res (list Z) := deref (ptr_ s) (u64 (length_ s)).

Definition starts_with (s x : StringPiece) : res bool :=
  if length_ x <=? length_ s
  then let* r := memcmp (ptr_ s) (ptr_ x) (length_ x) in Ok (r =? 0)
  else Ok false.

End SP.

(** ** What a piece denotes *)

Definition denotes (s : StringPiece) (l : list Z) : Prop :=
  length_ s = zlen l /\ zlen l < 2 ^ 31 /\ deref (ptr_ s) (zlen l) = Ok l.

(** The reference: lexicographic comparison of byte strings. *)
Fixpoint lex_cmp (a b : list Z) : comparison :=
  match a, b with
  | [], [] => Eq
  | [], _ :: _ => Lt
  | _ :: _, [] => Gt
  | x :: a, y :: b => match x ?= y with Eq => lex_cmp a b | c => c end
  end.

Definition cmp_sign (c : comparison) : Z :=
  match c with Lt => -1 | Eq => 0 | Gt => 1 end.

(** ** Lemmas *)

Lemma lex_cmp_eq a b : lex_cmp a b = Eq <-> a = b.
Proof.
  revert b; induction a as [|x a IH]; intros [|y b]; simpl; try done.
  destruct (Z.compare_spec x y); rewrite ?IH; naive_solver lia.
Qed.

Lemma lex_cmp_antisym a b : lex_cmp b a = CompOpp (lex_cmp a b).
Proof.
  revert b; induction a as [|x a IH]; intros [|y b]; simpl; try done.
  rewrite (Z.compare_antisym x y). destruct (x ?= y); simpl; auto.
Qed.

Lemma lex_cmp_trans a b c : lex_cmp a b = Lt -> lex_cmp b c = Lt -> lex_cmp a c = Lt.
Proof.
  revert b c; induction a as [|x a IH]; intros [|y b] [|z c]; simpl; try done.
  destruct (Z.compare_spec x y), (Z.compare_spec y z), (Z.compare_spec x z);
    try done; subst; try lia; eauto.
Qed.

Lemma deref_0 p : deref p 0 = Ok [].
Proof. done. Qed.

Lemma deref_prefix p l k :
  deref p (zlen (l ++ k)) = Ok (l ++ k) -> deref p (zlen l) = Ok l.
Proof.
  unfold deref. destruct (Z.eqb_spec (zlen l) 0) as [E|E].
  { by rewrite (zlen_0 _ E). }
  destruct (Z.eqb_spec (zlen (l ++ k)) 0); [zlia|].
  destruct p as [p|]; [|done]. intros H.
  apply read_at_inv in H as (? & ? & Hz & H). rewrite zlen_app in *.
  rewrite read_at_ok by zlia. f_equal.
  transitivity (ztake (zlen l) (l ++ k)); [|by rewrite ztake_app_eq].
  rewrite H, ztake_ztake. f_equal. zlia.
Qed.

Lemma denotes_prefix s n l k :
  denotes s (l ++ k) -> n = zlen l -> deref (ptr_ s) (u64 n) = Ok l.
Proof.
  intros (? & ? & H) ->. rewrite wrapu_id by zlia. by eapply deref_prefix.
Qed.

Lemma denotes_all s l : denotes s l -> deref (ptr_ s) (u64 (length_ s)) = Ok l.
Proof.
  intros H. assert (length_ s = zlen l) as -> by apply H.
  apply denotes_prefix with (k := []); by rewrite ?app_nil_r.
Qed.

Lemma bytes_cmp_lex a b :
  length a = length b -> bytes_cmp a b = cmp_sign (lex_cmp a b).
Proof.
  revert b; induction a as [|x a IH]; intros [|y b]; simpl; try done.
  intros [= H]. destruct (Z.compare_spec x y); subst.
  - by rewrite Z.ltb_irrefl, IH.
  - by bool_lia.
  - by bool_lia.
Qed.

(** Comparing the common prefix and then the lengths is comparing the strings. *)
Lemma bytes_cmp_take a b :
  let n := Z.min (zlen a) (zlen b) in
  let r := bytes_cmp (ztake n a) (ztake n b) in
  lex_cmp a b = if r =? 0 then zlen a ?= zlen b else if r <? 0 then Lt else Gt.
Proof.
  cbv zeta. revert b; induction a as [|x a IH]; intros [|y b]; [done..|].
  - cbn [lex_cmp]. set (n := Z.min (zlen a) (zlen b)).
    assert (Z.min (zlen (x :: a)) (zlen (y :: b)) = Z.succ n) as -> by (unfold n; zlia).
    assert (forall (l : list Z) (c : Z), ztake (Z.succ n) (c :: l) = c :: ztake n l) as Hs.
    { intros. unfold ztake. rewrite Z2Nat.inj_succ by (unfold n; zlia). done. }
    rewrite !Hs. cbn [bytes_cmp]. destruct (Z.compare_spec x y); subst.
    + rewrite Z.ltb_irrefl, IH, !zlen_cons. fold n.
      case_match; [|done]. destruct (Z.compare_spec (zlen a) (zlen b)); symmetry;
      [apply Z.compare_eq_iff | apply Z.compare_lt_iff | apply Z.compare_gt_iff]; lia.
    + by bool_lia.
    + by bool_lia.
Qed.

Lemma memcmp_min s x a b :
  denotes s a -> denotes x b ->
  let n := Z.min (zlen a) (zlen b) in
  memcmp (ptr_ s) (ptr_ x) (SP.min_length s x) = Ok (bytes_cmp (ztake n a) (ztake n b)).
Proof.
  intros Ha Hb n. unfold memcmp.
  assert (SP.min_length s x = n) as ->.
  { unfold SP.min_length, n. destruct Ha as (-> & _), Hb as (-> & _).
    destruct (Z.ltb_spec (zlen a) (zlen b)); lia. }
  assert (0 <= n <= zlen a /\ n <= zlen b) by (unfold n; zlia).
  rewrite (denotes_prefix s n (ztake n a) (zdrop n a)), (denotes_prefix x n (ztake n b) (zdrop n b));
    rewrite ?ztake_zdrop, ?zlen_ztake by lia; done.
Qed.

(** [compare] is the lexicographic comparison of what the pieces denote. *)
Lemma sp_compare_spec s x a b :
  denotes s a -> denotes x b -> SP.compare s x = Ok (cmp_sign (lex_cmp a b)).
Proof.
  intros Ha Hb. unfold SP.compare. rewrite (memcmp_min s x a b Ha Hb). simpl.
  pose proof (bytes_cmp_take a b) as H. cbv zeta in H. revert H.
  set (r := bytes_cmp _ _). intros ->.
  destruct Ha as (-> & _), Hb as (-> & _).
  assert (r = -1 \/ r = 0 \/ r = 1) as Hr.
  { unfold r. rewrite bytes_cmp_lex.
    - destruct (lex_cmp _ _); simpl; auto.
    - unfold ztake. rewrite !length_take. unfold zlen. lia. }
  destruct Hr as [-> | [-> | ->]]; simpl; try done.
  destruct (Z.compare_spec (zlen a) (zlen b)); by bool_lia.
Qed.

(** The four order operators agree with the lexicographic order. *)
Lemma sp_order_spec s x a b :
  denotes s a -> denotes x b ->
  SP.ltb s x = Ok (bool_decide (lex_cmp a b = Lt)) /\
  SP.leb s x = Ok (bool_decide (lex_cmp a b <> Gt)) /\
  SP.gtb s x = Ok (bool_decide (lex_cmp a b = Gt)) /\
  SP.geb s x = Ok (bool_decide (lex_cmp a b <> Lt)).
Proof.
  intros Ha Hb. unfold SP.ltb, SP.leb, SP.gtb, SP.geb, SP.binary_predicate.
  rewrite (memcmp_min s x a b Ha Hb). simpl.
  pose proof (bytes_cmp_take a b) as H. cbv zeta in H. revert H.
  set (r := bytes_cmp _ _). intros ->.
  destruct Ha as (-> & _), Hb as (-> & _).
  assert (forall b1 b2 : bool, b1 = b2 -> Ok b1 = Ok b2) as Hok by by intros ?? ->.
  destruct (Z.eqb_spec r 0) as [->|Hr].
  - simpl. destruct (Z.compare_spec (zlen a) (zlen b));
      repeat split; apply Hok; case_bool_decide; try done; lia.
  - destruct (Z.ltb_spec r 0); repeat split; apply Hok; case_bool_decide; try done; lia.
Qed.

Lemma sp_eqb_spec s x a b :
  denotes s a -> denotes x b -> SP.eqb s x = Ok (bool_decide (a = b)).
Proof.
  intros Ha Hb. unfold SP.eqb.
  destruct (Z.eqb_spec (length_ s) (length_ x)) as [E|E].
  - assert (zlen a = zlen b) as El by (destruct Ha as (<- & _), Hb as (<- & _); done).
    unfold memcmp. rewrite (denotes_all s a Ha). simpl. rewrite E, (denotes_all x b Hb). simpl.
    rewrite bytes_cmp_lex by (unfold zlen in El; lia). f_equal.
    case_bool_decide as Hab.
    + by rewrite (proj2 (lex_cmp_eq a b) Hab).
    + rewrite <- lex_cmp_eq in Hab. by destruct (lex_cmp a b).
  - f_equal. symmetry. apply bool_decide_eq_false. intros ->.
    destruct Ha as (? & _), Hb as (? & _). congruence.
Qed.

Lemma sp_starts_with_spec s x a b :
  denotes s a -> denotes x b -> SP.starts_with s x = Ok (bool_decide (b `prefix_of` a)).
Proof.
  intros Ha Hb. unfold SP.starts_with.
  assert (length_ s = zlen a) as -> by apply Ha.
  assert (length_ x = zlen b) as El by apply Hb. rewrite El.
  destruct (Z.leb_spec (zlen b) (zlen a)).
  - unfold memcmp.
    rewrite (denotes_prefix s (zlen b) (ztake (zlen b) a) (zdrop (zlen b) a));
      rewrite ?ztake_zdrop, ?zlen_ztake by zlia; try done.
    simpl. rewrite <- El, (denotes_all x b Hb). simpl.
    rewrite bytes_cmp_lex.
    + f_equal. case_bool_decide as Hp.
      * destruct Hp as [k ->]. rewrite El, ztake_app_eq by done.
        by rewrite (proj2 (lex_cmp_eq b b) eq_refl).
      * assert (lex_cmp (ztake (zlen b) a) b <> Eq) as Hne.
        { rewrite lex_cmp_eq. intros E. apply Hp. exists (zdrop (zlen b) a).
          by rewrite <- E at 1; rewrite ztake_zdrop. }
        revert Hne. rewrite El. by destruct (lex_cmp _ _).
    + unfold ztake, zlen in *. rewrite length_take. lia.
  - f_equal. symmetry. apply bool_decide_eq_false.
    intros [k ->]. zlia.
Qed.

Lemma sp_of_string_denotes l : zlen l < 2 ^ 31 -> denotes (SP.of_string l) l.
Proof.
  intros H. unfold denotes, SP.of_string. simpl.
  split; [|split; [done|]].
  - apply wraps_id; zlia.
  - unfold deref. destruct (Z.eqb_spec (zlen l) 0) as [E|E].
    + by rewrite (zlen_0 _ E).
    + simpl. rewrite read_at_ok by zlia. by rewrite zdrop_0, ztake_all by lia.
Qed.

Lemma sp_as_string_spec s l :
  denotes s l -> SP.as_string s = Ok l /\ SP.CopyToString s = Ok l.
Proof. intros H. split; by apply denotes_all. Qed.

Lemma sp_remove_prefix_spec s l k :
  denotes s (l ++ k) -> denotes (SP.remove_prefix s (zlen l)) k.
Proof.
  intros (Hl & Hb & Hd). unfold denotes, SP.remove_prefix; simpl.
  rewrite Hl. split; [|split; [zlia|]].
  - rewrite wraps_id; zlia.
  - revert Hd. unfold deref.
    destruct (Z.eqb_spec (zlen k) 0) as [E|E]; [by rewrite (zlen_0 _ E)|].
    destruct (Z.eqb_spec (zlen (l ++ k)) 0); [zlia|].
    destruct (ptr_ s) as [p|]; [|done]. simpl. intros H.
    apply read_at_inv in H as (? & ? & ? & H).
    rewrite read_at_ok by zlia. f_equal.
    transitivity (zdrop (zlen l) (l ++ k)); [|by rewrite zdrop_app_eq].
    rewrite H, zdrop_ztake, zdrop_zdrop by zlia. f_equal. zlia.
Qed.

Lemma sp_remove_suffix_spec s l k :
  denotes s (l ++ k) -> denotes (SP.remove_suffix s (zlen k)) l.
Proof.
  intros (Hl & Hb & Hd). unfold denotes, SP.remove_suffix; simpl.
  rewrite Hl. split; [|split; [zlia|]].
  - rewrite wraps_id; zlia.
  - by eapply deref_prefix.
Qed.
