(* ===== verification/Buffer.v ===== *)
(** * The network buffer (muduo/net/Buffer.h)

    [Buffer] is the vector [buffer_] with the two indices of the class; indices
    and lengths are [size_t] (unsigned 64 bit, the subtractions wrap around) and
    pointers into the vector are offsets.  Every [assert] of the class is a
    check, [std::vector::resize] throws beyond [max_size], and a copy outside of
    the vector is an error, so that the lemmas show that none of these happens.

    The specification of the class is a byte queue: [rep b c] says that the
    readable bytes of [b] are [c], and every operation is shown to do on [b]
    what the operation of the byte queue does on [c]. *)

From S2P Require Import Prelude Endian StringPiece.

Record Buffer := mkBuffer {
  buffer_ : list Z;
  readerIndex_ : Z;
  writerIndex_ : Z
}.

Definition kCheapPrepend : Z := 8.
Definition kInitialSize : Z := 1024.

(** [std::vector<char>::max_size()]. *)
Definition max_size : Z := 2 ^ 63 - 1.

Definition zeros (n : Z) : list Z := replicate (Z.to_nat n) 0.

#[global] Arguments zeros : simpl never.

Definition vec_new (n : Z) : res (list Z) :=
  if max_size <? n then Err LengthError else Ok (zeros n).

Definition vec_resize (l : list Z) (n : Z) : res (list Z) :=
  if max_size <? n then Err LengthError
  else Ok (ztake n l ++ zeros (n - zlen l)).

(** [std::search(first, last, s, s + n)] on the range [l]: the offset of the
    first match, or the length of [l] when there is none. *)
Fixpoint search (l pat : list Z) : Z :=
  if bool_decide (pat `prefix_of` l) then 0
  else match l with [] => 0 | _ :: l => 1 + search l pat end.

(** [memchr] on the range [l]. *)
Fixpoint memchr (l : list Z) (c : Z) : option Z :=
  match l with
  | [] => None
  | x :: l => if x =? c then Some 0 else Z.add 1 <$> memchr l c
  end.

Section buffer.
Context {host : Host}.
(** [Buffer::kCRLF] is defined in Buffer.cc, which is not part of the sources. *)
Context (kCRLF : list Z).

Definition readableBytes (b : Buffer) : Z := u64 (writerIndex_ b - readerIndex_ b).
Definition writableBytes (b : Buffer) : Z := u64 (zlen (buffer_ b) - writerIndex_ b).
Definition prependableBytes (b : Buffer) : Z := readerIndex_ b.

Definition new_Buffer (initialSize : Z) : res Buffer :=
  let* v := vec_new (u64 (kCheapPrepend + initialSize)) in
  let b := mkBuffer v kCheapPrepend kCheapPrepend in
  let* _ := assert_ (readableBytes b =? 0) in
  let* _ := assert_ (writableBytes b =? initialSize) in
  let* _ := assert_ (prependableBytes b =? kCheapPrepend) in
  Ok b.

Definition swap (b rhs : Buffer) : Buffer * Buffer :=
  (mkBuffer (buffer_ rhs) (readerIndex_ rhs) (writerIndex_ rhs),
   mkBuffer (buffer_ b) (readerIndex_ b) (writerIndex_ b)).

Definition peek (b : Buffer) : Z := readerIndex_ b.
Definition beginWrite (b : Buffer) : Z := writerIndex_ b.

Definition range (b : Buffer) (first last : Z) : res (list Z) :=
  read_at (buffer_ b) first (last - first).

Definition findCRLF (b : Buffer) : res (option Z) :=
  let* l := range b (peek b) (beginWrite b) in
  let crlf := peek b + search l (ztake 2 kCRLF) in
  Ok (if crlf =? beginWrite b then None else Some crlf).

Definition findCRLF_from (b : Buffer) (start : Z) : res (option Z) :=
  let* _ := assert_ (peek b <=? start) in
  let* _ := assert_ (start <=? beginWrite b) in
  let* l := range b start (beginWrite b) in
  let crlf := start + search l (ztake 2 kCRLF) in
  Ok (if crlf =? beginWrite b then None else Some crlf).

Definition findEOL (b : Buffer) : res (option Z) :=
  let* l := read_at (buffer_ b) (peek b) (readableBytes b) in
  Ok (Z.add (peek b) <$> memchr l 10).

Definition findEOL_from (b : Buffer) (start : Z) : res (option Z) :=
  let* _ := assert_ (peek b <=? start) in
  let* _ := assert_ (start <=? beginWrite b) in
  let* l := read_at (buffer_ b) start (u64 (beginWrite b - start)) in
  Ok (Z.add start <$> memchr l 10).

Definition retrieveAll (b : Buffer) : Buffer :=
  mkBuffer (buffer_ b) kCheapPrepend kCheapPrepend.

Definition retrieve (b : Buffer) (len : Z) : res Buffer :=
  let* _ := assert_ (len <=? readableBytes b) in
  if len <? readableBytes b
  then Ok (mkBuffer (buffer_ b) (u64 (readerIndex_ b + len)) (writerIndex_ b))
  else Ok (retrieveAll b).

Definition retrieveUntil (b : Buffer) (end_ : Z) : res Buffer :=
  let* _ := assert_ (peek b <=? end_) in
  let* _ := assert_ (end_ <=? beginWrite b) in
  retrieve b (u64 (end_ - peek b)).

Definition retrieveInt64 (b : Buffer) : res Buffer := retrieve b 8.
Definition retrieveInt32 (b : Buffer) : res Buffer := retrieve b 4.
Definition retrieveInt16 (b : Buffer) : res Buffer := retrieve b 2.
Definition retrieveInt8 (b : Buffer) : res Buffer := retrieve b 1.

Definition retrieveAsString (b : Buffer) (len : Z) : res (list Z * Buffer) :=
  let* _ := assert_ (len <=? readableBytes b) in
  let* result := read_at (buffer_ b) (peek b) len in
  let* b := retrieve b len in
  Ok (result, b).

Definition retrieveAllAsString (b : Buffer) : res (list Z * Buffer) :=
  retrieveAsString b (readableBytes b).

Definition toStringPiece (b : Buffer) : StringPiece :=
  SP.of_ptr (Some (mkPtr (buffer_ b) (peek b))) (i32 (readableBytes b)).

Definition makeSpace (b : Buffer) (len : Z) : res Buffer :=
  if u64 (writableBytes b + prependableBytes b) <? u64 (len + kCheapPrepend)
  then
    let* v := vec_resize (buffer_ b) (u64 (writerIndex_ b + len)) in
    Ok (mkBuffer v (readerIndex_ b) (writerIndex_ b))
  else
    let* _ := assert_ (kCheapPrepend <? readerIndex_ b) in
    let readable := readableBytes b in
    let* d := range b (readerIndex_ b) (writerIndex_ b) in
    let* v := write_at (buffer_ b) kCheapPrepend d in
    let b := mkBuffer v kCheapPrepend (u64 (kCheapPrepend + readable)) in
    let* _ := assert_ (readable =? readableBytes b) in
    Ok b.

Definition ensureWritableBytes (b : Buffer) (len : Z) : res Buffer :=
  let* b := (if writableBytes b <? len then makeSpace b len else Ok b) in
  let* _ := assert_ (len <=? writableBytes b) in
  Ok b.

Definition hasWritten (b : Buffer) (len : Z) : res Buffer :=
  let* _ := assert_ (len <=? writableBytes b) in
  Ok (mkBuffer (buffer_ b) (readerIndex_ b) (u64 (writerIndex_ b + len))).

Definition unwrite (b : Buffer) (len : Z) : res Buffer :=
  let* _ := assert_ (len <=? readableBytes b) in
  Ok (mkBuffer (buffer_ b) (readerIndex_ b) (u64 (writerIndex_ b - len))).

(** [append(const char*, size_t)], to which the overload for [void*] casts. *)
Definition append (b : Buffer) (data : option cptr) (len : Z) : res Buffer :=
  let* b := ensureWritableBytes b len in
  let* d := deref data len in
  let* v := write_at (buffer_ b) (beginWrite b) d in
  hasWritten (mkBuffer v (readerIndex_ b) (writerIndex_ b)) len.

Definition append_piece (b : Buffer) (str : StringPiece) : res Buffer :=
  append b (SP.data str) (u64 (SP.size str)).

(** [&x, sizeof x] of a variable of [n] bytes. *)
Definition addr_of (n : nat) (x : Z) : option cptr := Some (mkPtr (store n x) 0).

Definition appendInt64 (b : Buffer) (x : Z) : res Buffer :=
  let be64 := i64 (hostToNetwork64 x) in append b (addr_of 8 be64) 8.
Definition appendInt32 (b : Buffer) (x : Z) : res Buffer :=
  let be32 := i32 (hostToNetwork32 x) in append b (addr_of 4 be32) 4.
Definition appendInt16 (b : Buffer) (x : Z) : res Buffer :=
  let be16 := i16 (hostToNetwork16 x) in append b (addr_of 2 be16) 2.
Definition appendInt8 (b : Buffer) (x : Z) : res Buffer := append b (addr_of 1 x) 1.

Definition peekInt64 (b : Buffer) : res Z :=
  let* _ := assert_ (8 <=? readableBytes b) in
  let* d := read_at (buffer_ b) (peek b) 8 in
  let be64 := i64 (load d) in Ok (i64 (networkToHost64 be64)).
Definition peekInt32 (b : Buffer) : res Z :=
  let* _ := assert_ (4 <=? readableBytes b) in
  let* d := read_at (buffer_ b) (peek b) 4 in
  let be32 := i32 (load d) in Ok (i32 (networkToHost32 be32)).
Definition peekInt16 (b : Buffer) : res Z :=
  let* _ := assert_ (2 <=? readableBytes b) in
  let* d := read_at (buffer_ b) (peek b) 2 in
  let be16 := i16 (load d) in Ok (i16 (networkToHost16 be16)).
Definition peekInt8 (b : Buffer) : res Z :=
  let* _ := assert_ (1 <=? readableBytes b) in
  let* d := read_at (buffer_ b) (peek b) 1 in
  Ok (i8 (load d)).

Definition readInt64 (b : Buffer) : res (Z * Buffer) :=
  let* r := peekInt64 b in let* b := retrieveInt64 b in Ok (r, b).
Definition readInt32 (b : Buffer) : res (Z * Buffer) :=
  let* r := peekInt32 b in let* b := retrieveInt32 b in Ok (r, b).
Definition readInt16 (b : Buffer) : res (Z * Buffer) :=
  let* r := peekInt16 b in let* b := retrieveInt16 b in Ok (r, b).
Definition readInt8 (b : Buffer) : res (Z * Buffer) :=
  let* r := peekInt8 b in let* b := retrieveInt8 b in Ok (r, b).

Definition prepend (b : Buffer) (data : option cptr) (len : Z) : res Buffer :=
  let* _ := assert_ (len <=? prependableBytes b) in
  let r := u64 (readerIndex_ b - len) in
  let* d := deref data len in
  let* v := write_at (buffer_ b) r d in
  Ok (mkBuffer v r (writerIndex_ b)).

Definition prependInt64 (b : Buffer) (x : Z) : res Buffer :=
  let be64 := i64 (hostToNetwork64 x) in prepend b (addr_of 8 be64) 8.
Definition prependInt32 (b : Buffer) (x : Z) : res Buffer :=
  let be32 := i32 (hostToNetwork32 x) in prepend b (addr_of 4 be32) 4.
Definition prependInt16 (b : Buffer) (x : Z) : res Buffer :=
  let be16 := i16 (hostToNetwork16 x) in prepend b (addr_of 2 be16) 2.
Definition prependInt8 (b : Buffer) (x : Z) : res Buffer := prepend b (addr_of 1 x) 1.

Definition shrink (b : Buffer) (reserve : Z) : res Buffer :=
  let* other := new_Buffer kInitialSize in
  let* other := ensureWritableBytes other (u64 (readableBytes b + reserve)) in
  let* other := append_piece other (toStringPiece b) in
  Ok (fst (swap b other)).

(** ** The abstraction *)

Definition wf (b : Buffer) : Prop :=
  0 <= readerIndex_ b <= writerIndex_ b /\
  writerIndex_ b <= zlen (buffer_ b) <= max_size /\ kCheapPrepend <= zlen (buffer_ b).

Definition content (b : Buffer) : list Z :=
  ztake (writerIndex_ b - readerIndex_ b) (zdrop (readerIndex_ b) (buffer_ b)).

(** The readable bytes of [b] are [c]. *)
Definition rep (b : Buffer) (c : list Z) : Prop :=
  exists pre post, buffer_ b = pre ++ c ++ post /\
    readerIndex_ b = zlen pre /\ writerIndex_ b = zlen pre + zlen c /\
    kCheapPrepend <= zlen (buffer_ b) <= max_size.

(** ** Lemmas: the abstraction *)

Lemma zlen_zeros n : 0 <= n -> zlen (zeros n) = n.
Proof. intros. unfold zeros, zlen. rewrite length_replicate. lia. Qed.

Lemma rep_wf b c : rep b c -> wf b /\ content b = c.
Proof.
  intros (pre & post & Hb & Hr & Hw & Hm). unfold wf, content.
  rewrite Hb in *. rewrite Hr, Hw, !zlen_app in *. split; [zlia|].
  rewrite zdrop_app_eq, ztake_app_eq by lia. done.
Qed.

Lemma wf_rep b : wf b -> rep b (content b).
Proof.
  intros (H1 & H2 & H3).
  exists (ztake (readerIndex_ b) (buffer_ b)), (zdrop (writerIndex_ b) (buffer_ b)).
  unfold content.
  rewrite !zlen_ztake by (rewrite ?zlen_zdrop; lia). split; [|lia].
  rewrite <- (ztake_zdrop (readerIndex_ b) (buffer_ b)) at 1. f_equal.
  rewrite <- (ztake_zdrop (writerIndex_ b - readerIndex_ b) (zdrop (readerIndex_ b) (buffer_ b))) at 1.
  f_equal. rewrite zdrop_zdrop by lia. f_equal. lia.
Qed.

Lemma rep_unique b c c' : rep b c -> rep b c' -> c = c'.
Proof. intros [_ <-]%rep_wf [_ <-]%rep_wf. done. Qed.

Lemma rep_readable b c : rep b c -> readableBytes b = zlen c.
Proof.
  intros (pre & post & Hb & Hr & Hw & Hm). unfold readableBytes.
  rewrite Hb in Hm. rewrite wrapu_id; unfold max_size in *; zlia.
Qed.

Lemma rep_writable b c :
  rep b c -> writableBytes b = zlen (buffer_ b) - writerIndex_ b /\ 0 <= writableBytes b.
Proof.
  intros (pre & post & Hb & Hr & Hw & Hm). unfold writableBytes.
  rewrite Hb in *. rewrite wrapu_id; unfold max_size in *; zlia.
Qed.

(** What a view of the readable bytes gives. *)
Lemma rep_read_at b c1 c2 c3 i n :
  rep b (c1 ++ c2 ++ c3) -> i = readerIndex_ b + zlen c1 -> n = zlen c2 ->
  read_at (buffer_ b) i n = Ok c2.
Proof.
  intros (pre & post & Hb & Hr & Hw & Hm) -> ->. rewrite Hb in *.
  rewrite read_at_ok by zlia. f_equal.
  rewrite <- !app_assoc. rewrite (app_assoc pre).
  rewrite zdrop_app_eq, ztake_app_eq by zlia. done.
Qed.

Lemma deref_addr_of n x : deref (addr_of n x) (Z.of_nat n) = Ok (store n x).
Proof.
  unfold deref, addr_of. destruct (Z.eqb_spec (Z.of_nat n) 0) as [E|E].
  - assert (n = O) as -> by lia. unfold store. by case_match.
  - simpl. assert (zlen (store n x) = Z.of_nat n) as Hz
      by (unfold zlen; by rewrite length_store).
    rewrite read_at_ok by lia. by rewrite zdrop_0, ztake_all by lia.
Qed.

(** ** Lemmas: the operations on the abstraction *)

Lemma new_Buffer_spec n :
  0 <= n -> kCheapPrepend + n <= max_size ->
  exists b, new_Buffer n = Ok b /\ rep b [] /\ prependableBytes b = kCheapPrepend.
Proof.
  unfold kCheapPrepend, max_size. intros H1 H2.
  assert (u64 (8 + n) = 8 + n) as Hn by (apply wrapu_id; lia).
  eexists. unfold new_Buffer, vec_new, kCheapPrepend, max_size. rewrite Hn. bool_lia.
  unfold readableBytes, writableBytes, prependableBytes. simpl.
  rewrite zlen_zeros by lia. rewrite !wrapu_id by lia. bool_lia.
  split; [done|]. split; [|done].
  exists (zeros 8), (zeros n). cbn [buffer_ readerIndex_ writerIndex_ app]. rewrite !zlen_zeros, zlen_nil by lia.
  split; [|unfold max_size, kCheapPrepend; lia].
  unfold zeros. rewrite <- replicate_add. f_equal. lia.
Qed.

Lemma retrieve_spec b c k :
  rep b (c ++ k) -> exists b', retrieve b (zlen c) = Ok b' /\ rep b' k.
Proof.
  intros H. unfold retrieve. rewrite (rep_readable _ _ H), zlen_app.
  bool_lia. destruct (Z.ltb_spec (zlen c) (zlen c + zlen k)) as [Hlt|Hlt].
  - eexists. split; [done|]. destruct H as (pre & post & Hb & Hr & Hw & Hm).
    exists (pre ++ c), post. simpl. rewrite Hb, Hr, Hw, wrapu_id.
    + rewrite Hb in Hm. split; [by rewrite <- !app_assoc|]. zlia.
    + rewrite Hb in Hm. unfold max_size in *. zlia.
  - eexists. split; [done|]. rewrite (zlen_0 k) in * by zlia.
    destruct H as (pre & post & Hb & Hr & Hw & Hm).
    exists (ztake 8 (buffer_ b)), (zdrop 8 (buffer_ b)). simpl.
    unfold kCheapPrepend in *. rewrite ztake_zdrop, zlen_ztake, zlen_nil by lia. done.
Qed.

Lemma retrieveAll_spec b c : rep b c -> rep (retrieveAll b) [].
Proof.
  intros (pre & post & Hb & Hr & Hw & Hm).
  exists (ztake 8 (buffer_ b)), (zdrop 8 (buffer_ b)). simpl.
  unfold kCheapPrepend in *. rewrite ztake_zdrop, zlen_ztake, zlen_nil by lia. done.
Qed.

Lemma retrieveUntil_spec b c k :
  rep b (c ++ k) -> exists b', retrieveUntil b (peek b + zlen c) = Ok b' /\ rep b' k.
Proof.
  intros H. unfold retrieveUntil, peek, beginWrite.
  destruct (rep_wf _ _ H) as [(? & ? & ?) _].
  assert (writerIndex_ b = readerIndex_ b + zlen (c ++ k)) as Hw.
  { destruct H as (pre & post & _ & -> & -> & _). done. }
  bool_lia. replace (u64 _) with (zlen c).
  - by apply retrieve_spec.
  - rewrite wrapu_id; unfold max_size in *; zlia.
Qed.

Lemma makeSpace_spec b c len :
  rep b c -> writableBytes b < len -> writerIndex_ b + len <= max_size ->
  exists b', makeSpace b len = Ok b' /\ rep b' c /\ len <= writableBytes b' /\
    Z.min kCheapPrepend (prependableBytes b) <= prependableBytes b' /\
    zlen (buffer_ b') <= Z.max (zlen (buffer_ b)) (writerIndex_ b + len).
Proof.
  intros H Hlen Hmax. destruct (rep_writable b c H) as [Hwr Hwr0].
  pose proof (rep_readable b c H) as Hrd.
  pose proof H as (pre & post & Hb & Hr & Hw & Hm).
  unfold makeSpace, prependableBytes. unfold max_size, kCheapPrepend in *.
  assert (u64 (writableBytes b + readerIndex_ b) = writableBytes b + readerIndex_ b) as ->
    by (apply wrapu_id; rewrite Hb in *; zlia).
  assert (u64 (len + 8) = len + 8) as -> by (apply wrapu_id; zlia).
  destruct (Z.ltb_spec (writableBytes b + readerIndex_ b) (len + 8)) as [Hlt|Hge].
  - assert (u64 (writerIndex_ b + len) = writerIndex_ b + len) as -> by (apply wrapu_id; zlia).
    unfold vec_resize, max_size. bool_lia. eexists. split; [done|].
    assert (rep (mkBuffer (ztake (writerIndex_ b + len) (buffer_ b) ++
              zeros (writerIndex_ b + len - zlen (buffer_ b))) (readerIndex_ b) (writerIndex_ b)) c) as Hrep.
    { exists pre, (post ++ zeros (writerIndex_ b + len - zlen (buffer_ b))).
      cbn [buffer_ readerIndex_ writerIndex_].
      rewrite ztake_all by lia. split; [rewrite Hb at 1; by rewrite <- !app_assoc|].
      rewrite zlen_app, zlen_zeros by lia. unfold max_size, kCheapPrepend. lia. }
    split; [done|]. destruct (rep_writable _ _ Hrep) as [-> _].
    cbn [buffer_ readerIndex_ writerIndex_].
    rewrite ztake_all, zlen_app, zlen_zeros by lia. lia.
  - unfold range. bool_lia.
    rewrite (rep_read_at b [] c []) by (rewrite ?app_nil_r; try done; zlia). simpl.
    rewrite Hrd. rewrite write_at_ok by (rewrite Hb in *; zlia). simpl.
    assert (u64 (8 + zlen c) = 8 + zlen c) as -> by (apply wrapu_id; rewrite Hb in *; zlia).
    set (b' := mkBuffer _ _ _).
    assert (zlen (buffer_ b') = zlen (buffer_ b)) as Hz.
    { unfold b'; cbn [buffer_]. rewrite !zlen_app, zlen_ztake, zlen_zdrop by (rewrite Hb in *; zlia). lia. }
    assert (rep b' c) as Hrep.
    { exists (ztake 8 (buffer_ b)), (zdrop (8 + zlen c) (buffer_ b)).
      rewrite Hz. unfold b', kCheapPrepend, max_size; cbn [buffer_ readerIndex_ writerIndex_].
      rewrite zlen_ztake by (rewrite Hb in *; zlia). done. }
    rewrite (rep_readable _ _ Hrep). bool_lia. exists b'. split; [done|]. split; [done|].
    destruct (rep_writable _ _ Hrep) as [-> _]. rewrite Hz.
    unfold b'; cbn [buffer_ readerIndex_ writerIndex_]. lia.
Qed.

Lemma ensureWritableBytes_spec b c len :
  rep b c -> writerIndex_ b + len <= max_size ->
  exists b', ensureWritableBytes b len = Ok b' /\ rep b' c /\ len <= writableBytes b' /\
    Z.min kCheapPrepend (prependableBytes b) <= prependableBytes b' /\
    zlen (buffer_ b') <= Z.max (zlen (buffer_ b)) (writerIndex_ b + len).
Proof.
  intros H Hmax. unfold ensureWritableBytes.
  destruct (Z.ltb_spec (writableBytes b) len) as [Hlt|Hge]; simpl.
  - destruct (makeSpace_spec b c len H Hlt Hmax) as (b' & -> & ? & ? & ? & ?). simpl.
    bool_lia. by exists b'.
  - bool_lia. exists b. split_and!; [done..|lia|lia].
Qed.

(** [append] adds the bytes it reads at the end of the queue. *)
Lemma append_spec b c p d :
  rep b c -> deref p (zlen d) = Ok d -> writerIndex_ b + zlen d <= max_size ->
  exists b', append b p (zlen d) = Ok b' /\ rep b' (c ++ d) /\
    Z.min kCheapPrepend (prependableBytes b) <= prependableBytes b' /\
    zlen (buffer_ b') <= Z.max (zlen (buffer_ b)) (writerIndex_ b + zlen d).
Proof.
  intros H Hd Hmax. unfold append.
  destruct (ensureWritableBytes_spec b c (zlen d) H Hmax) as (b1 & -> & H1 & Hw & Hp & Hz). simpl.
  rewrite Hd. simpl. destruct (rep_writable _ _ H1) as [Hwr _].
  pose proof H1 as (pre & post & Eb & Er & Ew & Em). unfold beginWrite.
  rewrite write_at_ok by (rewrite Ew; zlia). simpl. unfold hasWritten.
  set (v := _ ++ d ++ _).
  assert (zlen v = zlen (buffer_ b1)) as Hv.
  { unfold v. rewrite !zlen_app, zlen_ztake, zlen_zdrop by (rewrite Ew in *; zlia). lia. }
  assert (writableBytes (mkBuffer v (readerIndex_ b1) (writerIndex_ b1)) = writableBytes b1) as ->.
  { unfold writableBytes. simpl. by rewrite Hv. }
  bool_lia. eexists. split; [done|]. split; [|simpl; by rewrite Hv].
  exists pre, (zdrop (zlen d) post). cbn [buffer_ readerIndex_ writerIndex_].
  rewrite Hv. split; [|split; [done|split; [|done]]].
  - unfold v. rewrite Eb, Ew. rewrite (app_assoc pre c post).
    rewrite ztake_app_eq, zdrop_app_r by zlia. rewrite <- !app_assoc. do 4 f_equal. zlia.
  - rewrite wrapu_id; [|unfold max_size in *]; zlia.
Qed.

Lemma append_piece_spec b c s d :
  rep b c -> denotes s d -> writerIndex_ b + zlen d <= max_size ->
  exists b', append_piece b s = Ok b' /\ rep b' (c ++ d) /\
    Z.min kCheapPrepend (prependableBytes b) <= prependableBytes b' /\
    zlen (buffer_ b') <= Z.max (zlen (buffer_ b)) (writerIndex_ b + zlen d).
Proof.
  intros H (Hl & Hb & Hd) Hmax. unfold append_piece, SP.data, SP.size.
  rewrite Hl, wrapu_id by zlia. by apply append_spec.
Qed.

(** [prepend] puts the bytes in front of the queue, if they fit. *)
Lemma prepend_spec b c p d :
  rep b c -> deref p (zlen d) = Ok d -> zlen d <= prependableBytes b ->
  exists b', prepend b p (zlen d) = Ok b' /\ rep b' (d ++ c).
Proof.
  unfold prependableBytes. intros (pre & post & Eb & Er & Ew & Em) Hd Hp.
  unfold prepend, prependableBytes. bool_lia. rewrite Hd. simpl.
  rewrite wrapu_id by (rewrite Eb in *; unfold max_size in *; zlia).
  rewrite write_at_ok by (rewrite ?Eb in *; zlia). simpl. eexists. split; [done|].
  exists (ztake (zlen pre - zlen d) pre), post. cbn [buffer_ readerIndex_ writerIndex_].
  rewrite Er, Ew. rewrite !zlen_app, !zlen_ztake, zlen_zdrop by (rewrite ?Eb; zlia).
  split; [|split; [done|split; [zlia|rewrite Eb in *; unfold kCheapPrepend in *; zlia]]].
  rewrite Eb. rewrite ztake_app_l, zdrop_app_eq by zlia. by rewrite <- !app_assoc.
Qed.

(** Refused, before anything is written, when they do not fit. *)
Lemma prepend_overflow b p len :
  prependableBytes b < len -> prepend b p len = Err AssertFail.
Proof. intros. unfold prepend. by bool_lia. Qed.

Lemma unwrite_spec b c k :
  rep b (c ++ k) -> exists b', unwrite b (zlen k) = Ok b' /\ rep b' c.
Proof.
  intros H. unfold unwrite. rewrite (rep_readable _ _ H). bool_lia.
  eexists. split; [done|]. destruct H as (pre & post & Eb & Er & Ew & Em).
  exists pre, (k ++ post). cbn [buffer_ readerIndex_ writerIndex_].
  split; [rewrite Eb; by rewrite <- !app_assoc|]. split; [done|]. split; [|done].
  rewrite wrapu_id; rewrite Eb in *; unfold max_size in *; zlia.
Qed.

(** ** Lemmas: integers in network order *)

Lemma store_wraps n x :
  (0 < n)%nat -> store n (wraps (8 * Z.of_nat n) x) = store n x.
Proof.
  intros Hn. unfold store.
  assert (wraps (8 * Z.of_nat n) x mod 2 ^ (8 * Z.of_nat n) = x mod 2 ^ (8 * Z.of_nat n)) as H
    by (apply wrapu_wraps; lia).
  case_match; [by apply le_bytes_mod | by apply be_bytes_mod].
Qed.

(** The image in memory of a signed variable that holds the converted number. *)
Lemma deref_net n x :
  (0 < n)%nat ->
  deref (addr_of n (wraps (8 * Z.of_nat n) (htobe n (wrapu (8 * Z.of_nat n) x)))) (zlen (be_bytes n x))
  = Ok (be_bytes n x).
Proof.
  intros Hn. rewrite zlen_be_bytes, deref_addr_of, store_wraps, store_htobe by done. done.
Qed.

Lemma load_net n d :
  (0 < n)%nat -> length d = n -> bytes d ->
  wraps (8 * Z.of_nat n) (betoh n (wrapu (8 * Z.of_nat n) (wraps (8 * Z.of_nat n) (load d))))
  = wraps (8 * Z.of_nat n) (be_val d).
Proof. intros ? <- ?. rewrite wrapu_wraps, betoh_load by (done || lia). done. Qed.

Lemma wraps_be_val_be_bytes n x :
  (0 < n)%nat -> wraps (8 * Z.of_nat n) (be_val (be_bytes n x)) = wraps (8 * Z.of_nat n) x.
Proof. intros. rewrite be_val_be_bytes. apply wraps_wrapu. lia. Qed.

Definition net_addr (n : nat) (x : Z) : option cptr :=
  addr_of n (wraps (8 * Z.of_nat n) (htobe n (wrapu (8 * Z.of_nat n) x))).

Lemma append_net n b c x :
  (0 < n <= 8)%nat -> rep b c -> writerIndex_ b + 8 <= max_size ->
  exists b', append b (net_addr n x) (Z.of_nat n) = Ok b' /\ rep b' (c ++ be_bytes n x) /\
    zlen (buffer_ b') <= Z.max (zlen (buffer_ b)) (writerIndex_ b + Z.of_nat n).
Proof.
  intros Hn H Hm. rewrite <- (zlen_be_bytes n x).
  destruct (append_spec b c (net_addr n x) (be_bytes n x) H) as (b' & ? & ? & ? & ?);
    [apply deref_net; lia | zlia | by exists b'].
Qed.

Lemma prepend_net n b c x :
  (0 < n <= 8)%nat -> rep b c -> 8 <= prependableBytes b ->
  exists b', prepend b (net_addr n x) (Z.of_nat n) = Ok b' /\ rep b' (be_bytes n x ++ c).
Proof.
  intros Hn H Hm. rewrite <- (zlen_be_bytes n x).
  apply (prepend_spec b c (net_addr n x) (be_bytes n x) H); [apply deref_net; lia | zlia].
Qed.

Lemma deref_byte x : deref (addr_of 1 x) (zlen (be_bytes 1 x)) = Ok (be_bytes 1 x).
Proof. rewrite zlen_be_bytes, deref_addr_of. unfold store. by case_match. Qed.

Lemma appendInt_spec b c x :
  rep b c -> writerIndex_ b + 8 <= max_size ->
  (exists b', appendInt64 b x = Ok b' /\ rep b' (c ++ be_bytes 8 x)) /\
  (exists b', appendInt32 b x = Ok b' /\ rep b' (c ++ be_bytes 4 x)) /\
  (exists b', appendInt16 b x = Ok b' /\ rep b' (c ++ be_bytes 2 x)) /\
  (exists b', appendInt8 b x = Ok b' /\ rep b' (c ++ be_bytes 1 x)).
Proof.
  intros H Hm. split_and!.
  - destruct (append_net 8 b c x) as (b' & ? & ? & _); [lia | done.. | by exists b'].
  - destruct (append_net 4 b c x) as (b' & ? & ? & _); [lia | done.. | by exists b'].
  - destruct (append_net 2 b c x) as (b' & ? & ? & _); [lia | done.. | by exists b'].
  - destruct (append_spec b c (addr_of 1 x) (be_bytes 1 x) H) as (b' & ? & ? & _);
      [apply deref_byte | zlia | by exists b'].
Qed.

Lemma prependInt_spec b c x :
  rep b c -> 8 <= prependableBytes b ->
  (exists b', prependInt64 b x = Ok b' /\ rep b' (be_bytes 8 x ++ c)) /\
  (exists b', prependInt32 b x = Ok b' /\ rep b' (be_bytes 4 x ++ c)) /\
  (exists b', prependInt16 b x = Ok b' /\ rep b' (be_bytes 2 x ++ c)) /\
  (exists b', prependInt8 b x = Ok b' /\ rep b' (be_bytes 1 x ++ c)).
Proof.
  intros H Hm. split_and!.
  - apply (prepend_net 8); [lia | done..].
  - apply (prepend_net 4); [lia | done..].
  - apply (prepend_net 2); [lia | done..].
  - apply (prepend_spec b c (addr_of 1 x) (be_bytes 1 x) H); [apply deref_byte | zlia].
Qed.

Lemma peekInt32_spec b d k :
  rep b (d ++ k) -> zlen d = 4 -> bytes d -> peekInt32 b = Ok (i32 (be_val d)).
Proof.
  intros H Hd Hb. unfold peekInt32. rewrite (rep_readable _ _ H). bool_lia.
  rewrite (rep_read_at b [] d k) by (try done; unfold peek; zlia). simpl. f_equal.
  unfold networkToHost32. apply (load_net 4 d); [lia | unfold zlen in Hd; lia | done].
Qed.

Lemma readInt_spec b x k :
  (rep b (be_bytes 8 x ++ k) -> exists b', readInt64 b = Ok (i64 x, b') /\ rep b' k) /\
  (rep b (be_bytes 4 x ++ k) -> exists b', readInt32 b = Ok (i32 x, b') /\ rep b' k) /\
  (rep b (be_bytes 2 x ++ k) -> exists b', readInt16 b = Ok (i16 x, b') /\ rep b' k) /\
  (rep b (be_bytes 1 x ++ k) -> exists b', readInt8 b = Ok (i8 x, b') /\ rep b' k).
Proof.
  split_and!; intros H; destruct (retrieve_spec _ _ _ H) as (b' & Hb' & Hr);
    rewrite zlen_be_bytes in Hb'; exists b'; (split; [|done]).
  - unfold readInt64, peekInt64, retrieveInt64. rewrite (rep_readable _ _ H). bool_lia.
    rewrite (rep_read_at b [] (be_bytes 8 x) k) by (try done; unfold peek; zlia). simpl.
    unfold networkToHost64. rewrite (load_net 8) by (auto with p2p; lia).
    rewrite (wraps_be_val_be_bytes 8) by lia. change 8 with (Z.of_nat 8) at 1. by rewrite Hb'.
  - unfold readInt32, retrieveInt32. rewrite (peekInt32_spec _ _ _ H) by (auto with p2p; zlia).
    simpl. change 4 with (Z.of_nat 4) at 1. rewrite Hb'.
    by rewrite (wraps_be_val_be_bytes 4) by lia.
  - unfold readInt16, peekInt16, retrieveInt16. rewrite (rep_readable _ _ H). bool_lia.
    rewrite (rep_read_at b [] (be_bytes 2 x) k) by (try done; unfold peek; zlia). simpl.
    unfold networkToHost16. rewrite (load_net 2) by (auto with p2p; lia).
    rewrite (wraps_be_val_be_bytes 2) by lia. change 2 with (Z.of_nat 2) at 1. by rewrite Hb'.
  - unfold readInt8, peekInt8, retrieveInt8. rewrite (rep_readable _ _ H). bool_lia.
    rewrite (rep_read_at b [] (be_bytes 1 x) k) by (try done; unfold peek; zlia). simpl.
    change 1 with (Z.of_nat 1) at 1. rewrite Hb'. simpl.
    assert (load (be_bytes 1 x) = be_val (be_bytes 1 x)) as -> by (unfold load; by case_match).
    by rewrite (wraps_be_val_be_bytes 1) by lia.
Qed.

(** ** Lemmas: searching *)

Lemma memchr_spec l c :
  match memchr l c with
  | None => ~ In c l
  | Some i => exists l1 l2, l = l1 ++ c :: l2 /\ ~ In c l1 /\ i = zlen l1
  end.
Proof.
  induction l as [|x l IH]; simpl; [tauto|].
  destruct (Z.eqb_spec x c) as [->|Hx].
  - exists [], l. split_and!; [done | simpl; tauto | done].
  - destruct (memchr l c) as [i|]; simpl.
    + destruct IH as (l1 & l2 & -> & Hn & ->). exists (x :: l1), l2.
      split; [done|]. split; [simpl; naive_solver | zlia].
    + naive_solver.
Qed.

Lemma search_range l pat : 0 <= search l pat <= zlen l.
Proof.
  induction l as [|x l IH]; simpl; case_bool_decide; zlia.
Qed.

(** [search] finds the first occurrence, and only fails when there is none. *)
Lemma search_spec l pat :
  let i := search l pat in
  (i < zlen l -> pat `prefix_of` zdrop i l) /\
  (forall l1 l2, l = l1 ++ pat ++ l2 -> i <= zlen l1).
Proof.
  simpl. induction l as [|x l [IH1 IH2]]; simpl.
  - split; [case_bool_decide; unfold zlen; simpl; lia|]. intros l1 l2 _. case_bool_decide; zlia.
  - case_bool_decide as Hp.
    { split; [intros _; by rewrite zdrop_0 | intros; zlia]. }
    pose proof (search_range l pat). split.
    + intros Hi. assert (zdrop (1 + search l pat) (x :: l) = zdrop (search l pat) l) as ->.
      { rewrite <- zdrop_zdrop by lia. done. }
      apply IH1. zlia.
    + intros [|y l1] l2 E; simpl in E.
      * exfalso. apply Hp. rewrite E. by exists l2.
      * injection E as -> E. specialize (IH2 _ _ E). zlia.
Qed.

(** The line searches look at the readable bytes only. *)
Lemma findEOL_spec b c :
  rep b c -> findEOL b = Ok (Z.add (peek b) <$> memchr c 10).
Proof.
  intros H. unfold findEOL. rewrite (rep_readable _ _ H).
  rewrite (rep_read_at b [] c []) by (rewrite ?app_nil_r; try done; unfold peek; zlia). done.
Qed.

Lemma findEOL_from_spec b c k :
  rep b (c ++ k) -> findEOL_from b (peek b + zlen c) = Ok (Z.add (peek b + zlen c) <$> memchr k 10).
Proof.
  intros H. pose proof H as (pre & post & Hb & Hr & Hw & Hm).
  unfold findEOL_from, beginWrite, peek. rewrite Hw, zlen_app, <- Hr. bool_lia.
  rewrite wrapu_id by (rewrite Hb in Hm; unfold max_size in Hm; zlia).
  rewrite (rep_read_at b c k []) by (rewrite ?app_nil_r; try done; zlia). done.
Qed.

Lemma findCRLF_spec b c :
  rep b c ->
  findCRLF b = Ok (let i := search c (ztake 2 kCRLF) in
                   if i =? zlen c then None else Some (peek b + i)).
Proof.
  intros H. pose proof H as (pre & post & Hb & Hr & Hw & Hm).
  unfold findCRLF, range, beginWrite, peek.
  rewrite (rep_read_at b [] c []) by (rewrite ?app_nil_r; try done; zlia). simpl.
  rewrite Hw, <- Hr.
  destruct (Z.eqb_spec (search c (ztake 2 kCRLF)) (zlen c)); by bool_lia.
Qed.

Lemma findCRLF_from_spec b c k :
  rep b (c ++ k) ->
  findCRLF_from b (peek b + zlen c) =
    Ok (let i := search k (ztake 2 kCRLF) in
        if i =? zlen k then None else Some (peek b + zlen c + i)).
Proof.
  intros H. pose proof H as (pre & post & Hb & Hr & Hw & Hm).
  unfold findCRLF_from, range, beginWrite, peek. rewrite Hw, zlen_app, <- Hr. bool_lia.
  rewrite (rep_read_at b c k []) by (rewrite ?app_nil_r; try done; zlia). simpl.
  destruct (Z.eqb_spec (search k (ztake 2 kCRLF)) (zlen k)); by bool_lia.
Qed.

Lemma toStringPiece_denotes b c :
  rep b c -> zlen c < 2 ^ 31 -> denotes (toStringPiece b) c.
Proof.
  intros H Hc. unfold denotes, toStringPiece, SP.of_ptr. simpl.
  rewrite (rep_readable _ _ H). split; [apply wraps_id; zlia|]. split; [done|].
  unfold deref. destruct (Z.eqb_spec (zlen c) 0) as [E|E]; [by rewrite (zlen_0 _ E)|].
  simpl. apply (rep_read_at b [] c []); rewrite ?app_nil_r; try done; unfold peek; zlia.
Qed.

Lemma retrieveAsString_spec b c k :
  rep b (c ++ k) -> exists b', retrieveAsString b (zlen c) = Ok (c, b') /\ rep b' k.
Proof.
  intros H. unfold retrieveAsString. rewrite (rep_readable _ _ H). bool_lia.
  rewrite (rep_read_at b [] c k) by (try done; unfold peek; zlia). simpl.
  destruct (retrieve_spec b c k H) as (b' & -> & ?). by exists b'.
Qed.

Lemma retrieveAllAsString_spec b c :
  rep b c -> exists b', retrieveAllAsString b = Ok (c, b') /\ rep b' [].
Proof.
  intros H. unfold retrieveAllAsString. rewrite (rep_readable _ _ H).
  apply retrieveAsString_spec. by rewrite app_nil_r.
Qed.

(** Shrinking keeps the readable bytes and leaves room for [reserve] more. *)
Lemma shrink_spec b c reserve :
  rep b c -> zlen c < 2 ^ 31 -> 0 <= reserve < 2 ^ 62 ->
  exists b', shrink b reserve = Ok b' /\ rep b' c.
Proof.
  intros H Hc Hr. unfold shrink.
  destruct (new_Buffer_spec kInitialSize) as (o & -> & Ho & Hop);
    [done | unfold kInitialSize, kCheapPrepend, max_size; lia |]. simpl.
  rewrite (rep_readable _ _ H), wrapu_id by zlia.
  assert (writerIndex_ o = 8) as Ho8.
  { destruct Ho as (pre & post & _ & Er & -> & _). unfold prependableBytes in Hop.
    rewrite <- Er, Hop. done. }
  destruct (ensureWritableBytes_spec o [] (zlen c + reserve) Ho) as (o1 & -> & Ho1 & Hw & _);
    [rewrite Ho8; unfold max_size; lia|]. simpl.
  destruct (append_piece_spec o1 [] (toStringPiece b) c Ho1) as (o2 & -> & Ho2 & _).
  - by apply toStringPiece_denotes.
  - destruct (rep_writable _ _ Ho1) as [Hwr _].
    destruct Ho1 as (pre & post & Eb & Er & Ew & Em). rewrite Eb in *. zlia.
  - simpl. exists (fst (swap b o2)). split; [done|]. by destruct o2.
Qed.

End buffer.

(** ** The class as a byte queue *)

Module ByteQueue.

Inductive op :=
  | Append (d : list Z) | AppendInt32 (x : Z)
  | Retrieve (n : Z) | RetrieveAll | RetrieveAsString (n : Z)
  | PeekInt32 | ReadInt32 | Unwrite (n : Z).

Inductive out := NoOut | IntOut (x : Z) | StrOut (l : list Z).

(** The operations on the class. *)
Definition buffer_step {host : Host} (b : Buffer) (o : op) : res (out * Buffer) :=
  match o with
  | Append d => let* b := append b (Some (mkPtr d 0)) (zlen d) in Ok (NoOut, b)
  | AppendInt32 x => let* b := appendInt32 b x in Ok (NoOut, b)
  | Retrieve n => let* b := retrieve b n in Ok (NoOut, b)
  | RetrieveAll => Ok (NoOut, retrieveAll b)
  | RetrieveAsString n => let* (s, b) := retrieveAsString b n in Ok (StrOut s, b)
  | PeekInt32 => let* x := peekInt32 b in Ok (IntOut x, b)
  | ReadInt32 => let* (x, b) := readInt32 b in Ok (IntOut x, b)
  | Unwrite n => let* b := unwrite b n in Ok (NoOut, b)
  end.

(** The operations on a queue of bytes: what the class promises. *)
Definition queue_step (c : list Z) (o : op) : res (out * list Z) :=
  match o with
  | Append d => Ok (NoOut, c ++ d)
  | AppendInt32 x => Ok (NoOut, c ++ be_bytes 4 x)
  | Retrieve n => let* _ := assert_ (n <=? zlen c) in Ok (NoOut, zdrop n c)
  | RetrieveAll => Ok (NoOut, [])
  | RetrieveAsString n => let* _ := assert_ (n <=? zlen c) in Ok (StrOut (ztake n c), zdrop n c)
  | PeekInt32 => let* _ := assert_ (4 <=? zlen c) in Ok (IntOut (i32 (be_val (ztake 4 c))), c)
  | ReadInt32 =>
      let* _ := assert_ (4 <=? zlen c) in Ok (IntOut (i32 (be_val (ztake 4 c))), zdrop 4 c)
  | Unwrite n => let* _ := assert_ (n <=? zlen c) in Ok (NoOut, ztake (zlen c - n) c)
  end.

Definition run {S} (step : S -> op -> res (out * S)) : S -> list op -> res (list out * S) :=
  fix go s ops :=
    match ops with
    | [] => Ok ([], s)
    | o :: ops =>
        let* (x, s) := step s o in
        let* (xs, s) := go s ops in
        Ok (x :: xs, s)
    end.

(** Arguments are bytes and sizes; [op_cost] is the memory an operation may ask for. *)
Definition op_ok (o : op) : Prop :=
  match o with
  | Append d => bytes d
  | Retrieve n | RetrieveAsString n | Unwrite n => 0 <= n < 2 ^ 64
  | _ => True
  end.

Definition op_cost (o : op) : Z :=
  match o with Append d => zlen d | AppendInt32 _ => 8 | _ => 0 end.

Fixpoint cost (ops : list op) : Z :=
  match ops with [] => 0 | o :: ops => op_cost o + cost ops end.

Section refinement.
Context {host : Host}.

(** What one operation leaves: the same output, the same bytes, no growth
    beyond its cost. *)
Definition agrees (b : Buffer) (o : op) (r : res (out * Buffer)) (q : res (out * list Z)) : Prop :=
  match q with
  | Ok (x, c') => exists b', r = Ok (x, b') /\ rep b' c' /\ bytes c' /\
                    zlen (buffer_ b') <= zlen (buffer_ b) + op_cost o
  | Err e => r = Err e
  end.

Lemma rep_split b c n :
  rep b c -> 0 <= n <= zlen c -> rep b (ztake n c ++ zdrop n c) /\ zlen (ztake n c) = n.
Proof. intros. rewrite ztake_zdrop, zlen_ztake by lia. done. Qed.

Lemma retrieve_size b n b' : retrieve b n = Ok b' -> zlen (buffer_ b') = zlen (buffer_ b).
Proof. unfold retrieve. intros. res_inv. case_match; res_inv; by subst. Qed.

Lemma retrieve_agrees b c n :
  rep b c -> 0 <= n ->
  match assert_ (n <=? zlen c) with
  | Ok _ => exists b', retrieve b n = Ok b' /\ rep b' (zdrop n c)
  | Err e => retrieve b n = Err e
  end.
Proof.
  intros H Hn. destruct (Z.leb_spec n (zlen c)) as [Hle|Hgt]; simpl.
  - destruct (rep_split b c n H) as [H' Hz]; [lia|].
    destruct (retrieve_spec b _ _ H') as (b' & E & ?). rewrite Hz in E. by exists b'.
  - unfold retrieve. rewrite (rep_readable _ _ H). by bool_lia.
Qed.

Lemma peekInt32_agrees b c :
  rep b c -> bytes c ->
  peekInt32 b = let* _ := assert_ (4 <=? zlen c) in Ok (i32 (be_val (ztake 4 c))).
Proof.
  intros H Hc. destruct (Z.leb_spec 4 (zlen c)) as [Hle|Hgt]; simpl.
  - destruct (rep_split b c 4 H) as [H' Hz]; [lia|].
    apply (peekInt32_spec b _ _ H'); auto with p2p.
  - unfold peekInt32. rewrite (rep_readable _ _ H). by bool_lia.
Qed.

Lemma step_agrees b c o :
  rep b c -> bytes c -> op_ok o -> zlen (buffer_ b) + op_cost o <= max_size ->
  agrees b o (buffer_step b o) (queue_step c o).
Proof.
  intros H Hc Ho Hm. unfold agrees.
  assert (writerIndex_ b <= zlen (buffer_ b)) as Hw by (apply rep_wf in H; apply H).
  destruct o as [d|x|n| |n| | |n]; cbn [buffer_step queue_step op_cost op_ok] in *.
  - destruct (append_spec b c (Some (mkPtr d 0)) d H) as (b' & -> & Hr & _ & Hz).
    + unfold deref. destruct (Z.eqb_spec (zlen d) 0) as [E|E]; [by rewrite (zlen_0 _ E)|].
      simpl. rewrite read_at_ok by zlia. by rewrite zdrop_0, ztake_all by lia.
    + lia.
    + exists b'. rewrite bytes_app. split_and!; try done. zlia.
  - destruct (append_net 4 b c x) as (b' & Hb' & Hr & Hz); [lia | done | lia |].
    exists b'. change (appendInt32 b x) with (append b (net_addr 4 x) (Z.of_nat 4)).
    rewrite Hb', bytes_app. split_and!; auto with p2p. lia.
  - pose proof (retrieve_agrees b c n H (proj1 Ho)) as Hr.
    destruct (assert_ _); simpl; [|by rewrite Hr].
    destruct Hr as (b' & E & Hr). exists b'. rewrite E.
    split_and!; auto with p2p. rewrite (retrieve_size _ _ _ E). lia.
  - exists (retrieveAll b). split_and!; [done | by eapply retrieveAll_spec | by constructor | simpl; lia].
  - pose proof (retrieve_agrees b c n H (proj1 Ho)) as Hr.
    unfold retrieveAsString. rewrite (rep_readable _ _ H).
    destruct (Z.leb_spec n (zlen c)) as [Hle|Hgt]; simpl in *; [|done].
    destruct (rep_split b c n H) as [H' Hz]; [lia|].
    rewrite (rep_read_at b [] (ztake n c) (zdrop n c)) by (try done; unfold peek; zlia). simpl.
    destruct Hr as (b' & E & Hr). exists b'. rewrite E.
    split_and!; auto with p2p. rewrite (retrieve_size _ _ _ E). lia.
  - rewrite (peekInt32_agrees b c H Hc). destruct (assert_ _); simpl; [|done].
    exists b. split_and!; [done.. | lia].
  - pose proof (retrieve_agrees b c 4 H ltac:(lia)) as Hr.
    unfold readInt32, retrieveInt32. rewrite (peekInt32_agrees b c H Hc).
    destruct (assert_ _); simpl; [|done].
    destruct Hr as (b' & E & Hr). exists b'. rewrite E.
    split_and!; auto with p2p. rewrite (retrieve_size _ _ _ E). lia.
  - destruct (Z.leb_spec n (zlen c)) as [Hle|Hgt]; simpl.
    + destruct (rep_split b c (zlen c - n) H) as [H' Hz]; [lia|].
      destruct (unwrite_spec b _ _ H') as (b' & E & Hr).
      rewrite zlen_zdrop in E by lia. replace (zlen c - (zlen c - n)) with n in E by lia.
      exists b'. rewrite E. split_and!; auto with p2p.
      unfold unwrite in E. res_inv. subst. simpl. lia.
    + unfold unwrite. rewrite (rep_readable _ _ H). by bool_lia.
Qed.

(** Every run of operations on a buffer is the run on the byte queue: same
    outputs, same remaining bytes, and an assertion fails in one exactly when
    it fails in the other. *)
Lemma run_agrees ops b c :
  rep b c -> bytes c -> Forall op_ok ops -> zlen (buffer_ b) + cost ops <= max_size ->
  match run queue_step c ops with
  | Ok (xs, c') => exists b', run buffer_step b ops = Ok (xs, b') /\ rep b' c'
  | Err e => run buffer_step b ops = Err e
  end.
Proof.
  revert b c. induction ops as [|o ops IH]; intros b c H Hc Ho Hm; simpl; [by exists b|].
  apply Forall_cons in Ho as [Ho Hops].
  assert (cost (o :: ops) = op_cost o + cost ops) as Hcost by done. rewrite Hcost in Hm.
  assert (0 <= cost ops) as Hc0.
  { clear. induction ops as [|[] ops IH]; simpl; zlia. }
  pose proof (step_agrees b c o H Hc Ho ltac:(lia)) as Hs. unfold agrees in Hs.
  destruct (queue_step c o) as [[x c']|e]; simpl; [|by rewrite Hs].
  destruct Hs as (b' & -> & Hr & Hc' & Hz). simpl.
  specialize (IH b' c' Hr Hc' Hops ltac:(lia)).
  destruct (run queue_step c' ops) as [[xs c'']|e]; simpl; [|by rewrite IH].
  destruct IH as (b'' & -> & ?). by exists b''.
Qed.

(** C33: a new buffer is an empty queue of bytes.  For every sequence of operations
    the outputs are those of the queue, the readable bytes afterwards are the
    queue, and an assertion fails exactly when the queue has too few bytes: moving
    and growing the storage is invisible. *)
Theorem buffer_is_byte_queue (initialSize : Z) (ops : list op) :
  0 <= initialSize -> Forall op_ok ops -> kCheapPrepend + initialSize + cost ops <= max_size ->
  exists b, new_Buffer initialSize = Ok b /\
    match run queue_step [] ops with
    | Ok (xs, c) => exists b', run buffer_step b ops = Ok (xs, b') /\ wf b' /\ content b' = c
    | Err e => run buffer_step b ops = Err e
    end.
Proof.
  intros Hi Ho Hm.
  assert (0 <= cost ops) as Hc0 by (clear; induction ops as [|[] ops IH]; simpl; zlia).
  destruct (new_Buffer_spec initialSize Hi) as (b & E & Hb & _); [lia|]. exists b. split; [done|].
  assert (zlen (buffer_ b) = kCheapPrepend + initialSize) as Hz.
  { unfold new_Buffer, vec_new in E. res_inv. subst b. simpl. unfold kCheapPrepend, max_size in *.
    rewrite wrapu_id in * by lia.
    rewrite (proj2 (Z.ltb_ge _ _)) in E0 by lia. injection E0 as <-. apply zlen_zeros. lia. }
  pose proof (run_agrees ops b [] Hb ltac:(constructor) Ho ltac:(lia)) as H.
  destruct (run queue_step [] ops) as [[xs c]|e]; [|done].
  destruct H as (b' & E' & Hr). exists b'. split; [done | by apply rep_wf].
Qed.

End refinement.

Lemma buffer_is_byte_queue_witness :
  exists b b', @new_Buffer 2 = Ok b /\
    run (@buffer_step LittleEndian) b [AppendInt32 258; Append [7; 8]; ReadInt32; Unwrite 1; RetrieveAsString 1] =
      Ok ([NoOut; NoOut; IntOut 258; NoOut; StrOut [7]], b') /\ content b' = [].
Proof.
  destruct (@buffer_is_byte_queue LittleEndian 2
    [AppendInt32 258; Append [7; 8]; ReadInt32; Unwrite 1; RetrieveAsString 1]) as (b & E & b' & Hr & _ & Hc).
  - discriminate.
  - repeat constructor; vm_compute; reflexivity || discriminate.
  - vm_compute. discriminate.
  - exists b, b'. split; [exact E|]. split; [exact Hr | exact Hc].
Defined.

End ByteQueue.
