(* ===== verification/Codec.v ===== *)
(** * The length header codec of the server (p2pServer/codec.h)

    [LengthHeaderCodec] cuts the byte stream of a connection into messages with
    a four byte big endian length in front, and puts that header on outgoing
    messages.  The state [S] stands for whatever the message callback and
    [conn->shutdown()] act on; the server instantiates it.

    The specification is the relation [decodes]: which messages a stream holds,
    what is left of it, and whether it starts with an invalid length. *)

From S2P Require Import Prelude Endian StringPiece Buffer.

Section codec.
Context {host : Host}.
Context {S : Type} (messageCallback_ : S -> list Z -> res S) (shutdown : S -> res S).

Definition kHeaderLen : Z := 4.

(** The [while] loop of [onMessage]; every turn that goes on consumes a header,
    so the number of readable bytes bounds the number of turns. *)
Fixpoint onMessage_loop (fuel : nat) (s : S) (buf : Buffer) : res (S * Buffer) :=
  match fuel with
  | O => Err OutOfFuel
  | Datatypes.S fuel =>
    if kHeaderLen <=? readableBytes buf then
      let* data := read_at (buffer_ buf) (peek buf) 4 in
      let be32 := i32 (load data) in
      let len := i32 (networkToHost32 be32) in
      if (65536 <? len) || (len <? 0) then
        let* s := shutdown s in
        Ok (s, buf)
      else if u64 (len + kHeaderLen) <=? readableBytes buf then
        let* buf := retrieve buf kHeaderLen in
        let* message := read_at (buffer_ buf) (peek buf) len in
        let* s := messageCallback_ s message in
        let* buf := retrieve buf (u64 len) in
        onMessage_loop fuel s buf
      else Ok (s, buf)
    else Ok (s, buf)
  end.

Definition onMessage (s : S) (buf : Buffer) : res (S * Buffer) :=
  onMessage_loop (Datatypes.S (Z.to_nat (readableBytes buf))) s buf.

(** [send]: the buffer that is handed to [conn->send]. *)
Definition send_buffer (message : StringPiece) : res Buffer :=
  let* buf := new_Buffer kInitialSize in
  let* buf := append buf (SP.data message) (u64 (SP.size message)) in
  let len := i32 (SP.size message) in
  let be32 := i32 (hostToNetwork32 len) in
  prepend buf (addr_of 4 be32) 4.

(** ** Specification *)

Definition max_message : Z := 65536.

Definition header (c : list Z) : Z := i32 (be_val (ztake 4 c)).

Definition bad_header (c : list Z) : Prop := max_message < header c \/ header c < 0.
#[global] Instance bad_header_dec c : Decision (bad_header c).
Proof. unfold bad_header. apply _. Defined.

(** [decodes c ms rest bad]: the stream [c] starts with the messages [ms], then
    comes [rest], which is incomplete, or has an invalid header when [bad]. *)
Inductive decodes : list Z -> list (list Z) -> list Z -> bool -> Prop :=
  | decodes_short c :
      zlen c < 4 -> decodes c [] c false
  | decodes_bad c :
      4 <= zlen c -> bad_header c -> decodes c [] c true
  | decodes_wait c :
      4 <= zlen c -> ~ bad_header c -> zlen c < 4 + header c -> decodes c [] c false
  | decodes_frame hdr m k ms rest bad :
      zlen hdr = 4 -> i32 (be_val hdr) = zlen m -> zlen m <= max_message ->
      decodes k ms rest bad -> decodes (hdr ++ m ++ k) (m :: ms) rest bad.

(** The image of a message on the wire. *)
Definition encode (m : list Z) : list Z := be_bytes 4 (zlen m) ++ m.

(** What the connection makes of the messages, in their order. *)
Fixpoint deliver (s : S) (ms : list (list Z)) : res S :=
  match ms with
  | [] => Ok s
  | m :: ms => let* s := messageCallback_ s m in deliver s ms
  end.

(** ** Lemmas: the relation *)

Lemma header_app hdr k : zlen hdr = 4 -> header (hdr ++ k) = i32 (be_val hdr).
Proof. intros. unfold header. by rewrite ztake_app_eq by lia. Qed.

Lemma frame_header hdr m k :
  zlen hdr = 4 -> i32 (be_val hdr) = zlen m -> zlen m <= max_message ->
  4 <= zlen (hdr ++ m ++ k) /\ ~ bad_header (hdr ++ m ++ k) /\
  header (hdr ++ m ++ k) = zlen m.
Proof.
  intros H1 H2 H3. assert (header (hdr ++ m ++ k) = zlen m) as Hh by by rewrite header_app.
  unfold bad_header. rewrite Hh. unfold max_message in *. split_and!; zlia.
Qed.

Lemma decodes_det c ms rest bad ms' rest' bad' :
  decodes c ms rest bad -> decodes c ms' rest' bad' ->
  ms = ms' /\ rest = rest' /\ bad = bad'.
Proof.
  intros H. revert ms' rest' bad'. induction H as [c H|c H1 H2|c H1 H2 H3|hdr m k ms rest bad H1 H2 H3 H IH];
    intros ms' rest' bad' H'.
  - inversion H'; subst; try done; try lia. exfalso. zlia.
  - inversion H' as [| | |hdr m k]; subst; try done; try lia.
    destruct (frame_header hdr m k) as (_ & ? & _); done.
  - inversion H' as [| | |hdr m k]; subst; try done; try lia.
    destruct (frame_header hdr m k) as (_ & _ & Hh); [done..|]. rewrite Hh in H3. zlia.
  - destruct (frame_header hdr m k H1 H2 H3) as (F1 & F2 & F3).
    inversion H' as [| | |hdr' m' k' ? ? ? G1 G2 G3 G]; subst; try done; try (exfalso; zlia).
    apply app_inj_1 in H0 as [-> E]; [|unfold zlen in *; lia].
    apply app_inj_1 in E as [-> ->]; [|unfold zlen in *; lia].
    destruct (IH _ _ _ G) as (-> & -> & ->). done.
Qed.

Lemma frame_split c :
  4 <= zlen c -> ~ bad_header c -> 4 + header c <= zlen c ->
  exists hdr m k, c = hdr ++ m ++ k /\ zlen hdr = 4 /\
    i32 (be_val hdr) = zlen m /\ zlen m <= max_message.
Proof.
  intros H1 H2 H3. unfold bad_header in H2.
  exists (ztake 4 c), (ztake (header c) (zdrop 4 c)), (zdrop (header c) (zdrop 4 c)).
  rewrite !ztake_zdrop, !zlen_ztake by (rewrite ?zlen_zdrop; lia).
  split_and!; try done; unfold header in *; lia.
Qed.

Lemma decodes_total c : exists ms rest bad, decodes c ms rest bad.
Proof.
  remember (length c) as n eqn:Hn. assert (length c <= n)%nat as H by lia. clear Hn.
  revert c H. induction n as [|n IH]; intros c H.
  { exists [], c, false. apply decodes_short. unfold zlen. lia. }
  destruct (decide (zlen c < 4)). { exists [], c, false. by apply decodes_short. }
  destruct (decide (bad_header c)). { exists [], c, true. apply decodes_bad; [lia|done]. }
  destruct (decide (zlen c < 4 + header c)).
  { exists [], c, false. apply decodes_wait; [lia|done..]. }
  destruct (frame_split c) as (hdr & m & k & -> & H1 & H2 & H3); [lia | done | lia |].
  destruct (IH k) as (ms & rest & bad & Hk).
  { rewrite !length_app in H. unfold zlen in *. lia. }
  exists (m :: ms), rest, bad. by apply decodes_frame.
Qed.

(** What is left over is a suffix: no byte is invented or reordered. *)
Lemma decodes_suffix c ms rest bad : decodes c ms rest bad -> exists k, c = k ++ rest.
Proof.
  induction 1 as [c| c| c|hdr m k ms rest bad _ _ _ _ [k' ->]]; try by exists [].
  exists (hdr ++ m ++ k'). by rewrite <- !app_assoc.
Qed.

Lemma decodes_encode m k ms rest bad :
  zlen m <= max_message -> decodes k ms rest bad -> decodes (encode m ++ k) (m :: ms) rest bad.
Proof.
  intros Hm Hk. unfold encode. rewrite <- app_assoc. apply decodes_frame; try done.
  rewrite (wraps_be_val_be_bytes 4) by lia.
  apply wraps_id; unfold max_message in *; zlia.
Qed.

(** The wire image of a sequence of messages decodes to the sequence. *)
Lemma decodes_encode_all ms k ms' rest bad :
  Forall (fun m => zlen m <= max_message) ms ->
  decodes k ms' rest bad -> decodes (concat (encode <$> ms) ++ k) (ms ++ ms') rest bad.
Proof.
  intros H Hk. induction H as [|m ms Hm _ IH]; [done|].
  simpl. rewrite <- app_assoc. by apply decodes_encode.
Qed.

(** A stream may arrive in any pieces: decoding what was left over followed by
    the next piece continues the decoding of the whole stream. *)
Lemma decodes_app c1 c2 ms1 rest1 ms2 rest2 bad :
  decodes c1 ms1 rest1 false -> decodes (rest1 ++ c2) ms2 rest2 bad ->
  decodes (c1 ++ c2) (ms1 ++ ms2) rest2 bad.
Proof.
  intros H. remember false as f eqn:Hf. revert Hf.
  induction H as [c| c| c|hdr m k ms rest bad' H1 H2 H3 _ IH]; intros Hf H'; try done.
  rewrite <- !app_assoc. simpl. apply decodes_frame; auto.
Qed.

(** After an invalid header nothing is decoded any more, whatever arrives. *)
Lemma decodes_stuck c ms rest c2 :
  decodes c ms rest true -> decodes (rest ++ c2) [] (rest ++ c2) true.
Proof.
  intros H. remember true as t eqn:Ht. revert Ht.
  induction H as [c| c H1 H2| c|]; intros; try done; [|auto].
  apply decodes_bad; [zlia|]. unfold bad_header, header in *. by rewrite ztake_app_l by lia.
Qed.

(** ** Lemmas: the code *)

Lemma deliver_app s ms ms' :
  deliver s (ms ++ ms') = let* s := deliver s ms in deliver s ms'.
Proof. revert s; induction ms as [|m ms IH]; intros s; simpl; [done|]. destruct (messageCallback_ s m); simpl; auto. Qed.

(** What a run of the loop returns, from what the stream decodes to. *)
Definition outcome (s : S) (ms : list (list Z)) (bad : bool) : res S :=
  let* s := deliver s ms in if bad then shutdown s else Ok s.

Definition run_outcome (rest : list Z) (o : res S) (r : res (S * Buffer)) : Prop :=
  match o with
  | Ok s => exists b, r = Ok (s, b) /\ rep b rest
  | Err e => r = Err e
  end.

(** The header the loop reads is the header of the stream. *)
Lemma loop_header b c :
  rep b c -> bytes c -> 4 <= zlen c ->
  read_at (buffer_ b) (peek b) 4 = Ok (ztake 4 c) /\
  i32 (networkToHost32 (i32 (load (ztake 4 c)))) = header c.
Proof.
  intros H Hc H4. split.
  - apply (rep_read_at b [] (ztake 4 c) (zdrop 4 c));
      [by rewrite app_nil_l, ztake_zdrop | unfold peek; zlia | by rewrite zlen_ztake by lia].
  - apply (load_net 4); [lia | | auto with p2p].
    unfold ztake. rewrite length_take. unfold zlen in H4. lia.
Qed.

Lemma onMessage_loop_spec c ms rest bad :
  decodes c ms rest bad -> forall fuel s b,
  rep b c -> bytes c -> (length c < fuel)%nat ->
  run_outcome rest (outcome s ms bad) (onMessage_loop fuel s b).
Proof.
  induction 1 as [c H|c H1 H2|c H1 H2 H3|hdr m k ms rest bad H1 H2 H3 _ IH];
    intros [|fuel] s b Hb Hc Hf; try lia; cbn [onMessage_loop];
    rewrite (rep_readable _ _ Hb); unfold kHeaderLen, outcome; simpl.
  - bool_lia. by exists b.
  - destruct (loop_header b c Hb Hc H1) as [-> E]. bool_lia. rewrite E.
    unfold bad_header, max_message in H2.
    assert ((65536 <? header c) || (header c <? 0) = true) as -> by lia.
    destruct (shutdown s); simpl; [by exists b | done].
  - destruct (loop_header b c Hb Hc H1) as [-> E]. bool_lia. rewrite E.
    unfold bad_header, max_message in H2. bool_lia.
    rewrite wrapu_id by lia. bool_lia. by exists b.
  - destruct (frame_header hdr m k H1 H2 H3) as (F1 & F2 & F3).
    destruct (loop_header b _ Hb Hc F1) as [-> E]. bool_lia. rewrite E, F3.
    unfold max_message in *. bool_lia. rewrite !wrapu_id by zlia. bool_lia.
    destruct (retrieve_spec b hdr (m ++ k) Hb) as (b1 & E1 & Hb1). rewrite H1 in E1.
    rewrite E1. simpl.
    rewrite (rep_read_at b1 [] m k) by (try done; unfold peek; zlia). simpl.
    destruct (messageCallback_ s m) as [s'|e]; simpl; [|done].
    destruct (retrieve_spec b1 m k Hb1) as (b2 & -> & Hb2). simpl.
    apply bytes_app in Hc as [_ Hc]. apply bytes_app in Hc as [_ Hc].
    apply IH; [done..|]. rewrite !length_app in Hf. unfold zlen in H1. lia.
Qed.

Lemma onMessage_spec c ms rest bad s b :
  decodes c ms rest bad -> rep b c -> bytes c ->
  run_outcome rest (outcome s ms bad) (onMessage s b).
Proof.
  intros Hd Hb Hc. unfold onMessage. eapply onMessage_loop_spec; [done..|].
  rewrite (rep_readable _ _ Hb). unfold zlen. lia.
Qed.

Lemma send_buffer_spec s m :
  denotes s m -> exists b, send_buffer s = Ok b /\ rep b (encode m).
Proof.
  intros H. unfold send_buffer.
  destruct (new_Buffer_spec kInitialSize) as (b & -> & Hb & Hp);
    [done | unfold kInitialSize, kCheapPrepend, max_size; lia |]. simpl.
  assert (writerIndex_ b = 8) as Hw.
  { destruct Hb as (pre & post & _ & Er & -> & _). unfold prependableBytes in Hp.
    rewrite <- Er, Hp. done. }
  pose proof H as (Hl & Hz & _).
  destruct (append_piece_spec b [] s m Hb H) as (b1 & E1 & Hb1 & Hp1 & _);
    [rewrite Hw; unfold max_size; lia|].
  unfold append_piece in E1. rewrite E1. simpl in *.
  unfold SP.size. rewrite Hl. rewrite (wraps_id 32 (zlen m)) by zlia.
  apply (prepend_net 4 b1 m (zlen m)); [lia | done | unfold kCheapPrepend in *; lia].
Qed.

End codec.

#[global] Arguments send_buffer : simpl never.
