(* ===== verification/CodecProps.v ===== *)
(** * Streams through the codec

    A connection gets its bytes in pieces of any size.  Here the codec runs once
    per piece, as the library calls it: what the message callback sees depends on
    the stream only, not on the pieces; an invalid header stops the decoding for
    good; and what [send] puts on the wire comes out as the same messages. *)

From S2P Require Import Prelude Endian StringPiece Buffer Codec.

Section feed.
Context {host : Host}.
Context {S : Type} (messageCallback_ : S -> list Z -> res S) (shutdown : S -> res S).

(** The pieces of a stream, one after the other: the bytes are appended to the
    input buffer, then the codec looks at it. *)
Fixpoint feed (s : S) (buf : Buffer) (pieces : list (list Z)) : res (S * Buffer) :=
  match pieces with
  | [] => Ok (s, buf)
  | d :: pieces =>
      let* buf := append buf (Some (mkPtr d 0)) (zlen d) in
      let* (s, buf) := onMessage messageCallback_ shutdown s buf in
      feed s buf pieces
  end.

(** [shutdown] as often as there are pieces. *)
Fixpoint shutdowns (n : nat) (s : S) : res S :=
  match n with O => Ok s | Datatypes.S n => let* s := shutdown s in shutdowns n s end.

(** ** Lemmas *)

Lemma deref_bytes d : deref (Some (mkPtr d 0)) (zlen d) = Ok d.
Proof.
  unfold deref. destruct (Z.eqb_spec (zlen d) 0) as [E|E]; [by rewrite (zlen_0 _ E)|].
  simpl. rewrite read_at_ok by zlia. by rewrite zdrop_0, ztake_all by lia.
Qed.

(** Decoding never makes the buffer larger. *)
Lemma onMessage_loop_size fuel : forall s b s' b',
  onMessage_loop messageCallback_ shutdown fuel s b = Ok (s', b') -> zlen (buffer_ b') = zlen (buffer_ b).
Proof.
  induction fuel as [|fuel IH]; intros s b s' b'; cbn [onMessage_loop]; [done|].
  intros H. repeat (case_match; res_inv; try by subst).
  match goal with H : onMessage_loop _ _ _ _ _ = Ok _ |- _ => rewrite (IH _ _ _ _ H) end.
  by repeat match goal with H : retrieve _ _ = Ok _ |- _ => rewrite (ByteQueue.retrieve_size _ _ _ H); clear H end.
Qed.

Lemma decodes_bad_app c1 c2 ms rest :
  decodes c1 ms rest true -> decodes (c1 ++ c2) ms (rest ++ c2) true.
Proof.
  intros H. remember true as t eqn:Ht. revert Ht.
  induction H as [c| c H1 H2| c|hdr m k ms rest bad H1 H2 H3 _ IH]; intros; try done; subst.
  - eapply decodes_stuck. by apply decodes_bad.
  - rewrite <- !app_assoc. apply decodes_frame; auto.
Qed.

(** A prefix of a good stream is good, and the rest goes on from what is left. *)
Lemma decodes_split c1 c2 ms rest :
  decodes (c1 ++ c2) ms rest false ->
  exists ms1 rest1 ms2, decodes c1 ms1 rest1 false /\ decodes (rest1 ++ c2) ms2 rest false /\ ms = ms1 ++ ms2.
Proof.
  intros H. destruct (decodes_total c1) as (ms1 & rest1 & [] & H1).
  { destruct (decodes_det _ _ _ _ _ _ _ H (decodes_bad_app _ _ _ _ H1)) as (_ & _ & [=]). }
  destruct (decodes_total (rest1 ++ c2)) as (ms2 & rest2 & bad & H2).
  destruct (decodes_det _ _ _ _ _ _ _ H (decodes_app _ _ _ _ _ _ _ H1 H2)) as (-> & -> & <-). eauto 10.
Qed.

Lemma decodes_rest_bytes c ms rest bad : decodes c ms rest bad -> bytes c -> bytes rest.
Proof. intros [k ->]%decodes_suffix [_ ?]%bytes_app. done. Qed.

(** One piece. *)
Lemma feed_step d pieces s b k ms rest bad :
  rep b k -> bytes k -> bytes d -> zlen (buffer_ b) + zlen d <= max_size ->
  decodes (k ++ d) ms rest bad ->
  match outcome messageCallback_ shutdown s ms bad with
  | Ok s' => exists b', feed s b (d :: pieces) = feed s' b' pieces /\ rep b' rest /\ bytes rest /\
               zlen (buffer_ b') <= zlen (buffer_ b) + zlen d
  | Err e => feed s b (d :: pieces) = Err e
  end.
Proof.
  intros Hb Hk Hd Hm Hdec. cbn [feed].
  assert (writerIndex_ b <= zlen (buffer_ b)) as Hw by (apply rep_wf in Hb; apply Hb).
  destruct (append_spec b k _ d Hb (deref_bytes d)) as (b1 & -> & Hb1 & _ & Hz); [lia|]. cbn [res_bind].
  assert (bytes (k ++ d)) as Hkd by by apply bytes_app.
  pose proof (onMessage_spec messageCallback_ shutdown _ _ _ _ s b1 Hdec Hb1 Hkd) as Hs.
  unfold run_outcome in Hs. destruct (outcome _ _ _ _ _) as [s'|e]; [|by rewrite Hs].
  destruct Hs as (b2 & E & Hr). rewrite E. cbn [res_bind]. exists b2.
  pose proof (onMessage_loop_size _ _ _ _ _ E) as E2. pose proof (zlen_nonneg d).
  split_and!; [done | done | by eapply decodes_rest_bytes | lia].
Qed.

Lemma feed_spec pieces : forall s b k ms rest,
  rep b k -> bytes k -> Forall bytes pieces -> zlen (buffer_ b) + zlen (concat pieces) <= max_size ->
  decodes (k ++ concat pieces) ms rest false ->
  (pieces = [] -> k = rest /\ ms = []) ->
  run_outcome rest (deliver messageCallback_ s ms) (feed s b pieces).
Proof.
  induction pieces as [|d pieces IH]; intros s b k ms rest Hb Hk Hp Hm Hdec Hnil.
  { destruct Hnil as [-> ->]; [done|]. by exists b. }
  apply Forall_cons in Hp as [Hd Hp]. simpl in Hm, Hdec. rewrite zlen_app in Hm. rewrite app_assoc in Hdec.
  pose proof (zlen_nonneg (concat pieces)).
  apply decodes_split in Hdec as (ms1 & rest1 & ms2 & H1 & H2 & ->).
  pose proof (feed_step d pieces s b k ms1 rest1 false Hb Hk Hd ltac:(lia) H1) as Hs.
  rewrite deliver_app. unfold outcome in Hs. destruct (deliver messageCallback_ s ms1) as [s'|e]; cbn [res_bind] in *; [|done].
  destruct Hs as (b' & -> & Hb' & Hr1 & Hz). apply (IH s' b' rest1); try done; [lia|].
  intros ->. rewrite app_nil_r in H2.
  assert (decodes rest1 [] rest1 false) as H3.
  { clear -H1. remember false as f eqn:Hf. revert Hf.
    induction H1; intros; try done; subst; [by apply decodes_short | by apply decodes_wait | auto]. }
  destruct (decodes_det _ _ _ _ _ _ _ H2 H3) as (-> & -> & _). done.
Qed.

(** ** Properties *)

(** C12: the codec is insensitive to how the stream is cut.  From an empty buffer,
    for every way to cut a stream with valid headers into pieces, the callback
    gets exactly the messages of the stream, in order, each once; an error of the
    callback is passed on; and what stays in the buffer is the incomplete rest. *)
Theorem codec_stream (s : S) (b : Buffer) (pieces : list (list Z)) ms rest :
  rep b [] -> Forall bytes pieces -> zlen (buffer_ b) + zlen (concat pieces) <= max_size ->
  decodes (concat pieces) ms rest false ->
  match deliver messageCallback_ s ms with
  | Ok s' => exists b', feed s b pieces = Ok (s', b') /\ rep b' rest
  | Err e => feed s b pieces = Err e
  end.
Proof.
  intros Hb Hp Hm Hd. apply (feed_spec pieces s b []); try done; [constructor|].
  intros ->. destruct (decodes_det _ _ _ _ _ _ _ Hd (decodes_short [] ltac:(done))) as (-> & -> & _). done.
Qed.

(** C37: a header below zero or above 65536 in a piece of bytes that meets an empty
    buffer ends the connection: the messages in front of it are delivered, [shutdown] is called, and for every later piece
    [shutdown] is called again and no message is ever delivered. *)
Theorem codec_bad_header (s s1 : S) (b : Buffer) (d : list Z) (pieces : list (list Z)) ms rest :
  rep b [] -> Forall bytes (d :: pieces) -> zlen (buffer_ b) + zlen (concat (d :: pieces)) <= max_size ->
  decodes d ms rest true -> deliver messageCallback_ s ms = Ok s1 ->
  match shutdowns (Datatypes.S (length pieces)) s1 with
  | Ok s' => exists b', feed s b (d :: pieces) = Ok (s', b') /\ rep b' (rest ++ concat pieces)
  | Err e => feed s b (d :: pieces) = Err e
  end.
Proof.
  intros Hb [Hd Hp]%Forall_cons Hm Hdec Hdel. simpl in Hm. rewrite zlen_app in Hm.
  pose proof (zlen_nonneg (concat pieces)).
  pose proof (feed_step d pieces s b [] ms rest true Hb ltac:(constructor) Hd ltac:(lia) Hdec) as Hs.
  unfold outcome in Hs. rewrite Hdel in Hs. cbn [res_bind] in Hs. cbn [shutdowns length].
  destruct (shutdown s1) as [s2|e]; cbn [res_bind]; [|done]. destruct Hs as (b' & -> & Hb' & Hr & Hz).
  assert (decodes rest [] rest true) as Hst.
  { pose proof (decodes_stuck _ _ _ [] Hdec) as H0. by rewrite app_nil_r in H0. }
  assert (zlen (buffer_ b') + zlen (concat pieces) <= max_size) as Hm' by lia.
  clear - Hp Hb' Hr Hst Hm'. revert s2 b' rest Hb' Hr Hst Hm'.
  induction Hp as [|d pieces Hd _ IH]; intros s b rest Hb Hr Hst Hm.
  { exists b. simpl. by rewrite app_nil_r. }
  simpl in Hm. rewrite zlen_app in Hm. pose proof (zlen_nonneg (concat pieces)).
  pose proof (feed_step d pieces s b rest [] (rest ++ d) true Hb Hr Hd ltac:(lia)
    (decodes_stuck _ _ _ d Hst)) as Hs.
  unfold outcome in Hs. simpl (deliver _ _ _) in Hs. cbn [res_bind] in Hs. cbn [shutdowns length].
  destruct (shutdown s) as [s2|e]; cbn [res_bind]; [|done]. destruct Hs as (b' & -> & Hb' & Hr' & Hz).
  simpl (concat _). rewrite app_assoc. apply IH; [done | done | by eapply decodes_stuck | lia].
Qed.

(** C13: [send] and [onMessage] are inverse to each other, for messages of at most
    65536 bytes.  [send] puts each of the messages [ms] on the wire; whatever pieces the receiver gets these bytes in,
    its callback gets exactly [ms], and its buffer is empty afterwards. *)
Theorem codec_roundtrip (s s' : S) (b : Buffer) (ps : list StringPiece) ms (pieces : list (list Z)) :
  Forall2 denotes ps ms -> Forall (fun m => zlen m <= max_message /\ bytes m) ms ->
  deliver messageCallback_ s ms = Ok s' ->
  exists bufs, Forall2 (fun p b => send_buffer p = Ok b) ps bufs /\
    (rep b [] -> concat pieces = concat (content <$> bufs) ->
     zlen (buffer_ b) + zlen (concat pieces) <= max_size ->
     exists b', feed s b pieces = Ok (s', b') /\ rep b' []).
Proof.
  intros Hps Hms Hdel.
  assert (exists bufs, Forall2 (fun p b => send_buffer p = Ok b) ps bufs /\ content <$> bufs = encode <$> ms)
    as (bufs & Hbufs & E).
  { clear -Hps. induction Hps as [|p m ps ms Hp _ (bufs & H1 & H2)]; [by exists []|].
    destruct (send_buffer_spec p m Hp) as (b & Hb & Hr). exists (b :: bufs). split; [by constructor|].
    simpl. f_equal; [apply (rep_wf _ _ Hr) | exact H2]. }
  exists bufs. split; [done|]. intros Hb Hc Hm. rewrite E in Hc.
  assert (bytes (concat pieces)) as Hbytes.
  { rewrite Hc. clear -Hms. induction Hms as [|m ms [_ Hm] _ IH]; [constructor|].
    cbn [fmap list_fmap concat]. apply bytes_app. split; [|done]. unfold encode. apply bytes_app. auto with p2p. }
  assert (decodes (concat pieces) ms [] false) as Hd.
  { pose proof (decodes_encode_all ms [] [] [] false) as Hall. rewrite !app_nil_r in Hall. rewrite Hc. apply Hall.
    - eapply Forall_impl; [exact Hms | by intros m [? _]].
    - apply decodes_short. rewrite zlen_nil. lia. }
  assert (Forall bytes pieces) as Hp.
  { clear -Hbytes. induction pieces as [|d pieces IH]; [constructor|]. simpl in Hbytes.
    apply bytes_app in Hbytes as [? ?]. constructor; auto. }
  pose proof (feed_spec pieces s b [] ms [] Hb ltac:(constructor) Hp Hm Hd) as Hs.
  rewrite Hdel in Hs. apply Hs. intros ->. split; [done|].
  by destruct ms as [|m ms].
Qed.

End feed.

(** ** The theorems at concrete streams *)

#[local] Instance sample_host : Host := LittleEndian.

(** The callback records the messages; [shutdown] records an empty one. *)
Definition record (s : list (list Z)) (m : list Z) : res (list (list Z)) := Ok (s ++ [m]).
Definition record_shutdown (s : list (list Z)) : res (list (list Z)) := Ok (s ++ [[]]).

Lemma sample_buffer : exists b, new_Buffer kInitialSize = Ok b /\ rep b [] /\ zlen (buffer_ b) = 1032.
Proof.
  destruct (new_Buffer_spec kInitialSize) as (b & E & H & _); [done | vm_compute; discriminate |].
  exists b. split; [done|]. split; [done|]. vm_compute in E. injection E as <-. reflexivity.
Qed.

Lemma codec_stream_witness :
  exists b b', feed record record_shutdown [] b [[0; 0]; [0; 2; 104]; [105; 0; 0; 0; 0; 9]] =
    Ok ([[104; 105]; []], b') /\ rep b' [9].
Proof.
  destruct sample_buffer as (b & _ & Hb & Hz). exists b.
  apply (codec_stream record record_shutdown [] b [[0; 0]; [0; 2; 104]; [105; 0; 0; 0; 0; 9]] [[104; 105]; []] [9] Hb).
  - apply (bool_decide_unpack _). vm_compute. exact I.
  - rewrite Hz. vm_compute. discriminate.
  - apply (decodes_frame [0; 0; 0; 2] [104; 105]); [reflexivity | reflexivity | vm_compute; discriminate |].
    apply (decodes_frame [0; 0; 0; 0] []); [reflexivity | reflexivity | vm_compute; discriminate |].
    apply decodes_short. reflexivity.
Defined.

Lemma codec_bad_header_witness :
  exists b b', feed record record_shutdown [] b [[0; 0; 0; 1; 7; 255; 0; 0; 0]; [1; 2]] =
    Ok ([[7]; []; []], b') /\ rep b' [255; 0; 0; 0; 1; 2].
Proof.
  destruct sample_buffer as (b & _ & Hb & Hz). exists b.
  apply (codec_bad_header record record_shutdown [] [[7]] b [0; 0; 0; 1; 7; 255; 0; 0; 0] [[1; 2]] [[7]]
    [255; 0; 0; 0] Hb).
  - apply (bool_decide_unpack _). vm_compute. exact I.
  - rewrite Hz. vm_compute. discriminate.
  - apply (decodes_frame [0; 0; 0; 1] [7]); [reflexivity | reflexivity | vm_compute; discriminate |].
    apply decodes_bad; [vm_compute; discriminate | right; reflexivity].
  - reflexivity.
Defined.

Lemma codec_roundtrip_witness :
  exists b b', feed record record_shutdown [] b [[0; 0; 0]; [2; 104]; [105]] = Ok ([[104; 105]], b') /\ rep b' [].
Proof.
  destruct sample_buffer as (b & _ & Hb & Hz). exists b.
  destruct (codec_roundtrip record record_shutdown [] [[104; 105]] b [SP.of_string [104; 105]] [[104; 105]]
    [[0; 0; 0]; [2; 104]; [105]]) as (bufs & Hbufs & H).
  - repeat constructor; vm_compute; reflexivity || discriminate.
  - apply (bool_decide_unpack _). vm_compute. exact I.
  - reflexivity.
  - apply H; [exact Hb | | rewrite Hz; vm_compute; discriminate].
    inversion Hbufs as [|p b0 ps bs E Hnil]; subst. inversion Hnil; subst.
    vm_compute in E. injection E as <-. reflexivity.
Defined.
