(* ===== verification/Muduo.v ===== *)
(** * What the server uses of the muduo headers

    - [Timestamp] (muduo/base/Timestamp.h): microseconds in a signed 64 bit
      integer; [timeDifference] is computed in IEEE double precision as the
      header does, with the [SpecFloat] operations.
    - [MutexLock] and its holder (muduo/base/Mutex.h), [Condition] (Condition.h).
    - [TcpConnection] (muduo/net/TcpConnection.h): the state, the context and
      the input buffer of a connection with the accessors of the header.  The
      member functions defined in TcpConnection.cc, which is not among the
      sources, are the class [TcpLib]; [TcpLibOk] is what its users rely on. *)

From S2P Require Import Prelude Endian StringPiece Buffer.
From Stdlib Require Import SpecFloat.

(** ** IEEE doubles *)

Abbreviation double := spec_float.
Definition double_of_Z (x : Z) : double := binary_normalize 53 1024 x 0 false.
Definition double_div (x y : double) : double := SFdiv 53 1024 x y.
Definition double_mul (x y : double) : double := SFmul 53 1024 x y.
Definition double_ltb (x y : double) : bool := SFltb x y.
Definition double_gtb (x y : double) : bool := SFltb y x.

(** [static_cast<int64_t>] of a double: truncation toward zero. *)
Definition double_trunc (x : double) : Z :=
  match x with
  | S754_finite s m e =>
      let a := if 0 <=? e then Z.pos m * 2 ^ e else Z.pos m / 2 ^ (- e) in
      if s then - a else a
  | _ => 0
  end.

(** ** Timestamp.h *)

Record Timestamp := mkTimestamp { microSecondsSinceEpoch_ : Z }.

#[global] Instance Timestamp_eq_dec : EqDecision Timestamp.
Proof. solve_decision. Defined.

Module Time.

Definition kMicroSecondsPerSecond : Z := 1000 * 1000.

Definition new_Timestamp : Timestamp := mkTimestamp 0.
Definition of_micros (microSecondsSinceEpochArg : Z) : Timestamp :=
  mkTimestamp microSecondsSinceEpochArg.
Definition swap (t that : Timestamp) : Timestamp * Timestamp :=
  (mkTimestamp (microSecondsSinceEpoch_ that), mkTimestamp (microSecondsSinceEpoch_ t)).
Definition valid (t : Timestamp) : bool := 0 <? microSecondsSinceEpoch_ t.
Definition microSecondsSinceEpoch (t : Timestamp) : Z := microSecondsSinceEpoch_ t.
(** The division of C truncates toward zero. *)
Definition secondsSinceEpoch (t : Timestamp) : Z :=
  Z.quot (microSecondsSinceEpoch_ t) kMicroSecondsPerSecond.
Definition invalid : Timestamp := new_Timestamp.
Definition fromUnixTime (t microseconds : Z) : Timestamp :=
  mkTimestamp (i64 (t * kMicroSecondsPerSecond + microseconds)).
Definition fromUnixTime_seconds (t : Z) : Timestamp := fromUnixTime t 0.

Definition ltb (lhs rhs : Timestamp) : bool :=
  microSecondsSinceEpoch lhs <? microSecondsSinceEpoch rhs.
Definition eqb (lhs rhs : Timestamp) : bool :=
  microSecondsSinceEpoch lhs =? microSecondsSinceEpoch rhs.

Definition timeDifference (high low : Timestamp) : double :=
  let diff := i64 (microSecondsSinceEpoch high - microSecondsSinceEpoch low) in
  double_div (double_of_Z diff) (double_of_Z kMicroSecondsPerSecond).

Definition addTime (timestamp : Timestamp) (seconds : double) : Timestamp :=
  let delta := double_trunc (double_mul seconds (double_of_Z kMicroSecondsPerSecond)) in
  mkTimestamp (i64 (microSecondsSinceEpoch timestamp + delta)).

End Time.

(** ** Mutex.h *)

(** The pthread mutex with the thread id of its holder; 0 is no holder. *)
Record MutexLock := mkMutex { mutex_locked : bool; holder_ : Z }.

#[global] Instance MutexLock_eq_dec : EqDecision MutexLock.
Proof. solve_decision. Defined.

Module Mutex.

Definition new_MutexLock : MutexLock := mkMutex false 0.

Definition isLockedByThisThread (tid : Z) (m : MutexLock) : bool := holder_ m =? tid.
Definition assertLocked (tid : Z) (m : MutexLock) : res unit :=
  assert_ (isLockedByThisThread tid m).
Definition unassignHolder (m : MutexLock) : MutexLock := mkMutex (mutex_locked m) 0.
Definition assignHolder (tid : Z) (m : MutexLock) : MutexLock := mkMutex (mutex_locked m) tid.

(** Locking a mutex that is already held does not return. *)
Definition lock (tid : Z) (m : MutexLock) : res MutexLock :=
  if mutex_locked m then Err Deadlock
  else Ok (assignHolder tid (mkMutex true (holder_ m))).

Definition unlock (m : MutexLock) : res MutexLock :=
  let m := unassignHolder m in
  let* _ := assert_ (mutex_locked m) in
  Ok (mkMutex false (holder_ m)).

(** The destructor; [pthread_mutex_destroy] refuses a mutex that is locked. *)
Definition delete_MutexLock (m : MutexLock) : res unit :=
  let* _ := assert_ (holder_ m =? 0) in
  assert_ (negb (mutex_locked m)).

End Mutex.

(** Condition.h: [wait] gives the mutex up between the construction and the
    destruction of an [UnassignGuard], and has it again when it returns. *)
Module Cond.

Definition wait_release (m : MutexLock) : res MutexLock :=
  let m := Mutex.unassignHolder m in
  let* _ := assert_ (mutex_locked m) in
  Ok (mkMutex false (holder_ m)).

Definition wait_reacquire (tid : Z) (m : MutexLock) : res MutexLock :=
  if mutex_locked m then Err Deadlock
  else Ok (Mutex.assignHolder tid (mkMutex true (holder_ m))).

End Cond.

(** ** TcpConnection.h *)

Inductive StateE := kDisconnected | kConnecting | kConnected | kDisconnecting.

#[global] Instance StateE_eq_dec : EqDecision StateE.
Proof. solve_decision. Defined.

(** [context_] is a [boost::any]: empty, or what the user of the class stored. *)
Record TcpConnection (Ctx : Type) := mkConn {
  state_ : StateE;
  reading_ : bool;
  inputBuffer_ : Buffer;
  context_ : option Ctx
}.
Arguments mkConn {Ctx} _ _ _ _.
Arguments state_ {Ctx} _.
Arguments reading_ {Ctx} _.
Arguments inputBuffer_ {Ctx} _.
Arguments context_ {Ctx} _.

Module Conn.
Section conn.
Context {Ctx : Type}.
Implicit Type c : TcpConnection Ctx.

Definition connected c : bool := bool_decide (state_ c = kConnected).
Definition disconnected c : bool := bool_decide (state_ c = kDisconnected).
Definition isReading c : bool := reading_ c.
Definition setContext c (context : option Ctx) : TcpConnection Ctx :=
  mkConn (state_ c) (reading_ c) (inputBuffer_ c) context.
Definition getContext c : option Ctx := context_ c.
Definition inputBuffer c : Buffer := inputBuffer_ c.
Definition setState c (s : StateE) : TcpConnection Ctx :=
  mkConn s (reading_ c) (inputBuffer_ c) (context_ c).
Definition setInputBuffer c (b : Buffer) : TcpConnection Ctx :=
  mkConn (state_ c) (reading_ c) b (context_ c).

End conn.
End Conn.

(** The effect on [state_] of the functions of TcpConnection.cc. *)
Class TcpLib := {
  tcp_send : StateE -> StateE;
  tcp_shutdown : StateE -> StateE;
  tcp_forceCloseWithDelay : StateE -> StateE
}.

(** What the documentation of the class says about them: sending does not
    change the state, and after a shutdown or a forced close the connection
    does not count as connected; a closed connection stays closed and a
    connection that is not closed is not closed by the call itself. *)
Class TcpLibOk `{TcpLib} := {
  tcp_send_state s : tcp_send s = s;
  tcp_shutdown_not_connected s : tcp_shutdown s <> kConnected;
  tcp_forceClose_not_connected s : tcp_forceCloseWithDelay s <> kConnected;
  tcp_shutdown_closed s : tcp_shutdown s = kDisconnected <-> s = kDisconnected;
  tcp_forceClose_closed s : tcp_forceCloseWithDelay s = kDisconnected <-> s = kDisconnected
}.
