(* ===== verification/Queues.v ===== *)
(** * Blocking queues (muduo/base/BlockingQueue.h, BoundedBlockingQueue.h)

    A monitor: the functions of a queue run under its mutex, wait on a condition
    while they cannot go on, and notify the other condition when they have
    changed the queue.  The threads of a program interleave: a state holds what
    every thread is doing, and [qstep] is what one thread can do next.  What a
    class contributes is the code between two releases of the mutex, the class
    [Monitor]; what is proved of the interleavings relies on its laws
    [MonitorOk], which both queues satisfy. *)

From S2P Require Import Prelude Endian StringPiece Buffer Muduo.

(** ** The code of the classes *)

Inductive condition := notEmpty_ | notFull_.

#[global] Instance condition_eq_dec : EqDecision condition.
Proof. solve_decision. Defined.

(** How a thread leaves the monitor: it waits on a condition, or it returns,
    after it notified a condition or none. *)
Inductive leave (T : Type) :=
  | Waits (c : condition)
  | Returns (r : option T) (notified : option condition).
Arguments Waits {T} c.
Arguments Returns {T} r notified.

(** [boost::circular_buffer]: when it is full, [push_back] drops the oldest element. *)
Record circular_buffer (T : Type) := mkCirc { cb_capacity : Z; cb_items : list T }.
Arguments mkCirc {T} _ _.
Arguments cb_capacity {T} _.
Arguments cb_items {T} _.

Module Circ.
Section circ.
Context {T : Type}.
Implicit Type q : circular_buffer T.
Definition full q : bool := zlen (cb_items q) =? cb_capacity q.
Definition empty q : bool := zlen (cb_items q) =? 0.
Definition push_back q (x : T) : circular_buffer T :=
  if cb_capacity q =? 0 then q
  else if full q then mkCirc (cb_capacity q) (drop 1 (cb_items q) ++ [x])
  else mkCirc (cb_capacity q) (cb_items q ++ [x]).
Definition front q : res T :=
  match cb_items q with x :: _ => Ok x | [] => Err AssertFail end.
Definition pop_front q : res (circular_buffer T) :=
  match cb_items q with _ :: l => Ok (mkCirc (cb_capacity q) l) | [] => Err AssertFail end.
End circ.
End Circ.

Module Bounded.
Section bounded.
Context {T : Type}.
Implicit Type q : circular_buffer T.

Definition new_queue (maxSize : Z) : circular_buffer T := mkCirc maxSize [].

(** The body of [put] and of [take] from the test of the loop on. *)
Definition put q (x : T) : res (leave T * circular_buffer T) :=
  if Circ.full q then Ok (Waits notFull_, q)
  else
    let* _ := assert_ (negb (Circ.full q)) in
    Ok (Returns None (Some notEmpty_), Circ.push_back q x).

Definition take q : res (leave T * circular_buffer T) :=
  if Circ.empty q then Ok (Waits notEmpty_, q)
  else
    let* _ := assert_ (negb (Circ.empty q)) in
    let* front := Circ.front q in
    let* q := Circ.pop_front q in
    Ok (Returns (Some front) (Some notFull_), q).

Definition empty q : bool := Circ.empty q.
Definition full q : bool := Circ.full q.
Definition size q : Z := zlen (cb_items q).
Definition capacity q : Z := cb_capacity q.
End bounded.
End Bounded.

Module Unbounded.
Section unbounded.
Context {T : Type}.
Implicit Type q : list T.

Definition put q (x : T) : res (leave T * list T) :=
  Ok (Returns None (Some notEmpty_), q ++ [x]).

Definition take q : res (leave T * list T) :=
  match q with
  | [] => Ok (Waits notEmpty_, q)
  | front :: rest =>
      let* _ := assert_ (negb (bool_decide (q = []))) in
      Ok (Returns (Some front) None, rest)
  end.

Definition size q : Z := zlen q.
End unbounded.
End Unbounded.

(** ** The interface *)

Class Monitor (Q T : Type) := {
  m_put : Q -> T -> res (leave T * Q);
  m_take : Q -> res (leave T * Q)
}.

(** [m_room] is the number of elements that still fit, [None] without a bound. *)
Class MonitorOk (Q T : Type) `{Monitor Q T} := {
  m_items : Q -> list T;
  m_room : Q -> option Z;
  m_inv : Q -> Prop;
  m_room_nonneg q n : m_inv q -> m_room q = Some n -> 0 <= n;
  m_put_full q x : m_inv q -> m_room q = Some 0 -> m_put q x = Ok (Waits notFull_, q);
  m_put_room q x : m_inv q -> m_room q <> Some 0 ->
    exists q', m_put q x = Ok (Returns None (Some notEmpty_), q') /\ m_inv q' /\
      m_items q' = m_items q ++ [x] /\ m_room q' = Z.pred <$> m_room q;
  m_take_empty q : m_inv q -> m_items q = [] -> m_take q = Ok (Waits notEmpty_, q);
  m_take_some q x l : m_inv q -> m_items q = x :: l ->
    exists n q', m_take q = Ok (Returns (Some x) n, q') /\ m_inv q' /\ m_items q' = l /\
      m_room q' = Z.succ <$> m_room q /\ n <> Some notEmpty_ /\
      (n = Some notFull_ \/ m_room q = None)
}.

#[global] Instance bounded_monitor (T : Type) : Monitor (circular_buffer T) T :=
  {| m_put := Bounded.put; m_take := Bounded.take |}.
#[global] Instance unbounded_monitor (T : Type) : Monitor (list T) T :=
  {| m_put := Unbounded.put; m_take := Unbounded.take |}.

#[global] Program Instance bounded_ok (T : Type) : MonitorOk (circular_buffer T) T := {|
  m_items := cb_items;
  m_room q := Some (cb_capacity q - zlen (cb_items q));
  m_inv q := zlen (cb_items q) <= cb_capacity q
|}.
Next Obligation. intros T q n Hq Hn. simpl in *. injection Hn as <-. lia. Qed.
Next Obligation.
  intros T q x Hq [= Hr]. simpl. unfold Bounded.put, Circ.full. by bool_lia.
Qed.
Next Obligation.
  intros T q x Hq Hr. simpl in *. assert (zlen (cb_items q) <> cb_capacity q) by (intros E; apply Hr; f_equal; lia).
  unfold Bounded.put, Circ.push_back, Circ.full. bool_lia. eexists. split; [done|].
  pose proof (zlen_nonneg (cb_items q)). bool_lia. simpl.
  split_and!; [zlia | done | f_equal; zlia].
Qed.
Next Obligation.
  intros T q Hq E. simpl in *. unfold Bounded.take, Circ.empty. by rewrite E.
Qed.
Next Obligation.
  intros T q x l Hq E. simpl in *. unfold Bounded.take, Circ.empty, Circ.front, Circ.pop_front. rewrite E in *.
  pose proof (zlen_nonneg l). bool_lia. eexists _, _. split; [done|]. simpl.
  split_and!; [zlia | done | f_equal; zlia | done | by left].
Qed.

#[global] Program Instance unbounded_ok (T : Type) : MonitorOk (list T) T := {|
  m_items q := q; m_room _ := None; m_inv _ := True
|}.
Next Obligation. done. Qed.
Next Obligation. done. Qed.
Next Obligation. intros T q x _ _. simpl. eauto. Qed.
Next Obligation. intros T q _ E. simpl in *. by rewrite E. Qed.
Next Obligation. intros T q x l _ E. simpl in *. rewrite E. simpl. eauto 10. Qed.

(** ** The threads *)

Section machine.
Context {Q T : Type} `{mon : Monitor Q T}.

Inductive call := Put (x : T) | Take.

(** What a thread is doing: it has called a function and wants the mutex, it is
    in the monitor, it waits on a condition, it was woken and wants the mutex
    back, or it has returned. *)
Inductive pc :=
  | Entering (o : call)
  | Inside (o : call)
  | Waiting (o : call) (c : condition)
  | Woken (o : call)
  | Returned (o : call) (r : option T).

(** [put_log] and [take_log] are what was put and taken so far, in order. *)
Record qstate := mkQ {
  q_mutex : MutexLock;
  q_queue : Q;
  q_threads : gmap nat pc;
  put_log : list T;
  take_log : list T
}.

Definition q_init (q : Q) : qstate := mkQ Mutex.new_MutexLock q ∅ [] [].

Definition body (o : call) (q : Q) : res (leave T * Q) :=
  match o with Put x => m_put q x | Take => m_take q end.

(** [pthread_cond_signal]: one of the threads that wait, if there is one. *)
Inductive notify : option condition -> gmap nat pc -> gmap nat pc -> Prop :=
  | notify_nothing ths : notify None ths ths
  | notify_nobody c ths :
      (forall u o, ths !! u <> Some (Waiting o c)) -> notify (Some c) ths ths
  | notify_one c u o ths :
      ths !! u = Some (Waiting o c) -> notify (Some c) ths (<[u := Woken o]> ths).

Definition puts (o : call) : list T := match o with Put x => [x] | Take => [] end.
Definition takes (r : option T) : list T := match r with Some x => [x] | None => [] end.

Inductive qstep : qstate -> qstate -> Prop :=
  | q_call t o m q ths pl tl :
      (ths !! t = None \/ exists o' r, ths !! t = Some (Returned o' r)) ->
      qstep (mkQ m q ths pl tl) (mkQ m q (<[t := Entering o]> ths) pl tl)
  | q_enter t o m m' q ths pl tl :
      ths !! t = Some (Entering o) -> Mutex.lock (Z.of_nat t) m = Ok m' ->
      qstep (mkQ m q ths pl tl) (mkQ m' q (<[t := Inside o]> ths) pl tl)
  | q_wait t o c m m' q q' ths pl tl :
      ths !! t = Some (Inside o) -> body o q = Ok (Waits c, q') -> Cond.wait_release m = Ok m' ->
      qstep (mkQ m q ths pl tl) (mkQ m' q' (<[t := Waiting o c]> ths) pl tl)
  | q_return t o r n m m' q q' ths ths' pl tl :
      ths !! t = Some (Inside o) -> body o q = Ok (Returns r n, q') ->
      notify n ths ths' -> Mutex.unlock m = Ok m' ->
      qstep (mkQ m q ths pl tl)
        (mkQ m' q' (<[t := Returned o r]> ths') (pl ++ puts o) (tl ++ takes r))
  | q_spurious t o c m q ths pl tl :
      ths !! t = Some (Waiting o c) ->
      qstep (mkQ m q ths pl tl) (mkQ m q (<[t := Woken o]> ths) pl tl)
  | q_reacquire t o m m' q ths pl tl :
      ths !! t = Some (Woken o) -> Cond.wait_reacquire (Z.of_nat t) m = Ok m' ->
      qstep (mkQ m q ths pl tl) (mkQ m' q (<[t := Inside o]> ths) pl tl).

Definition q_reachable (q : Q) (s : qstate) : Prop := rtc qstep (q_init q) s.

(** ** Counting threads *)

Definition count (p : pc -> bool) (ths : gmap nat pc) : Z :=
  Z.of_nat (size (filter (fun kv => p kv.2 = true) ths)).

Definition b2z (b : bool) : Z := if b then 1 else 0.

Definition is_take (o : call) : bool := match o with Take => true | Put _ => false end.

(** Threads that will look at the queue again without being notified. *)
Definition active (side : bool) (x : pc) : bool :=
  match x with Inside o | Woken o => Bool.eqb (is_take o) side | _ => false end.
Definition waiting (side : bool) (x : pc) : bool :=
  match x with Waiting o _ => Bool.eqb (is_take o) side | _ => false end.

Lemma count_insert p ths t x :
  count p (<[t := x]> ths) = count p ths - b2z (default false (p <$> ths !! t)) + b2z (p x).
Proof.
  unfold count. rewrite map_filter_insert. set (P := fun kv : nat * pc => p kv.2 = true).
  destruct (ths !! t) as [y|] eqn:E; simpl.
  - destruct (p y) eqn:Hy, (decide _) as [Hx|Hx]; simpl in *.
    + rewrite map_size_insert_Some by (exists y; by apply map_lookup_filter_Some). rewrite Hx. simpl. lia.
    + rewrite map_filter_delete, map_size_delete_Some by (exists y; by apply map_lookup_filter_Some).
      assert (size (filter P ths) <> 0%nat) as Hs.
      { intros Hs%map_size_empty_iff. assert (filter P ths !! t = Some y) as H0 by (by apply map_lookup_filter_Some).
        by rewrite Hs, lookup_empty in H0. }
      apply not_true_is_false in Hx. rewrite Hx. simpl. unfold P in *. lia.
    + rewrite map_size_insert_None by (apply map_lookup_filter_None; right; intros z Hz Hp; unfold P in Hp; simplify_eq; simpl in Hp; congruence).
      rewrite Hx. simpl. lia.
    + rewrite map_filter_delete, map_size_delete_None by (apply map_lookup_filter_None; right; intros z Hz Hp; unfold P in Hp; simplify_eq; simpl in Hp; congruence).
      apply not_true_is_false in Hx. rewrite Hx. simpl. lia.
  - destruct (decide _) as [Hx|Hx]; simpl in *.
    + rewrite map_size_insert_None by (apply map_lookup_filter_None; by left). rewrite Hx. simpl. lia.
    + rewrite delete_id by done. apply not_true_is_false in Hx. rewrite Hx. simpl. lia.
Qed.

Lemma count_nonneg p ths : 0 <= count p ths.
Proof. unfold count. lia. Qed.

Lemma count_pos p ths t x : ths !! t = Some x -> p x = true -> 0 < count p ths.
Proof.
  intros Ht Hp. pose proof (count_insert p ths t x) as H. rewrite insert_id, Ht in H by done.
  simpl in H. rewrite Hp in H. simpl in H. unfold count in *.
  destruct (size _) eqn:E; [|lia]. apply map_size_empty_iff in E.
  assert (filter (fun kv : nat * pc => p kv.2 = true) ths !! t = Some x) as H0 by (by apply map_lookup_filter_Some).
  by rewrite E, lookup_empty in H0.
Qed.

Lemma count_zero p ths : (forall t x, ths !! t = Some x -> p x = false) -> count p ths = 0.
Proof.
  intros H. unfold count. rewrite (proj2 (map_size_empty_iff _)); [done|].
  apply map_empty. intros t. apply map_lookup_filter_None. right. intros x Ht. simpl. by rewrite (H t x Ht).
Qed.

(** ** The invariant of the interleavings *)

Context {ok : MonitorOk Q T}.

Record qinv (s : qstate) : Prop := {
  qi_inv : m_inv (q_queue s);
  qi_log : take_log s ++ m_items (q_queue s) = put_log s;
  qi_free : mutex_locked (q_mutex s) = false -> holder_ (q_mutex s) = 0;
  qi_held : mutex_locked (q_mutex s) = true -> exists t o, q_threads s !! t = Some (Inside o);
  qi_excl t o : q_threads s !! t = Some (Inside o) ->
    mutex_locked (q_mutex s) = true /\ holder_ (q_mutex s) = Z.of_nat t;
  qi_cond t o c : q_threads s !! t = Some (Waiting o c) -> c = if is_take o then notEmpty_ else notFull_;
  qi_take : 0 < count (waiting true) (q_threads s) ->
    zlen (m_items (q_queue s)) <= count (active true) (q_threads s);
  qi_put : 0 < count (waiting false) (q_threads s) ->
    exists n, m_room (q_queue s) = Some n /\ n <= count (active false) (q_threads s)
}.

Lemma qinv_init q : m_inv q -> m_items q = [] -> qinv (q_init q).
Proof.
  intros Hq Hi. assert (forall p, count p (∅ : gmap nat pc) = 0) as H0.
  { intros p. apply count_zero. intros t x Ht. by rewrite lookup_empty in Ht. }
  split; simpl; rewrite ?Hi, ?H0; try done; intros *; try lia; by rewrite lookup_empty.
Qed.

(** What a notification does to the numbers of threads. *)
Lemma notify_counts n ths ths' :
  notify n ths ths' ->
  (forall t o c, ths !! t = Some (Waiting o c) -> c = if is_take o then notEmpty_ else notFull_) ->
  (forall t o, ths' !! t = Some (Inside o) <-> ths !! t = Some (Inside o)) /\
  (forall t o c, ths' !! t = Some (Waiting o c) -> ths !! t = Some (Waiting o c)) /\
  forall side, exists k, 0 <= k <= 1 /\
    count (waiting side) ths' = count (waiting side) ths - k /\
    count (active side) ths' = count (active side) ths + k /\
    (k = 0 -> n = Some (if side then notEmpty_ else notFull_) -> count (waiting side) ths = 0).
Proof.
  intros Hn Hc. destruct Hn as [ths|c ths Hno|c u o ths Hu].
  - split_and!; [done | done |]. intros side. exists 0. split_and!; try lia. done.
  - split_and!; [done | done |]. intros side. exists 0. split_and!; try lia. intros _ [= ->].
    apply count_zero. intros t x Hx. destruct x as [ | |o c| | ]; try done. simpl.
    pose proof (Hc t o c Hx) as E. destruct (Bool.eqb (is_take o) side) eqn:Es; [|done].
    apply Bool.eqb_prop in Es. subst c. destruct (Hno t o). by rewrite Es in Hx.
  - split_and!.
    + intros t o'. destruct (decide (t = u)) as [->|]; [|by rewrite lookup_insert_ne by done].
      rewrite lookup_insert_eq, Hu. naive_solver.
    + intros t o' c'. destruct (decide (t = u)) as [->|]; [|by rewrite lookup_insert_ne by done].
      by rewrite lookup_insert_eq.
    + intros side. rewrite !count_insert, Hu. simpl. pose proof (Hc u o c Hu) as E. subst c.
      destruct (Bool.eqb (is_take o) side) eqn:Es; simpl.
      * exists 1. split_and!; try lia.
      * exists 0. split_and!; try lia. intros _ [= E]. destruct (is_take o), side; done.
Qed.

(** A thread changes what it does, and neither waits nor is inside before. *)
Lemma qinv_thread s m t x :
  qinv s -> (forall o, q_threads s !! t <> Some (Inside o)) -> (forall o c, x <> Waiting o c) ->
  (forall side, b2z (active side x) >= b2z (default false (active side <$> q_threads s !! t))) ->
  (m = q_mutex s /\ (forall o, x <> Inside o) \/
   mutex_locked (q_mutex s) = false /\ mutex_locked m = true /\ holder_ m = Z.of_nat t /\ exists o, x = Inside o) ->
  qinv (mkQ m (q_queue s) (<[t := x]> (q_threads s)) (put_log s) (take_log s)).
Proof.
  intros [I1 I2 I3 I4 I5 I6 I7 I8] Ht Hx Ha Hm. pose proof (Ha true) as HaT. pose proof (Ha false) as HaF.
  assert (forall side, b2z (waiting side x) = 0) as Hw by (intros side; destruct x; try done; by destruct (Hx o c)).
  pose proof (Hw true) as HwT. pose proof (Hw false) as HwF.
  assert (forall o : option pc, forall side, 0 <= b2z (default false (waiting side <$> o))) as Hd
    by (intros [y|] side; simpl; [destruct (waiting side y)|]; simpl; lia).
  pose proof (Hd (q_threads s !! t) true). pose proof (Hd (q_threads s !! t) false).
  split; cbn [q_mutex q_queue q_threads put_log take_log]; try done.
  - intros Hl. destruct Hm as [[-> _]|(_ & ? & _)]; [auto | congruence].
  - intros Hl. destruct Hm as [[-> _]|(_ & _ & _ & o & ->)].
    + destruct (I4 Hl) as (u & o & Hu). exists u, o. rewrite lookup_insert_ne; [done|]. intros <-. by apply (Ht o).
    + exists t, o. apply lookup_insert_eq.
  - intros u o. destruct (decide (u = t)) as [->|Hne].
    + rewrite lookup_insert_eq. intros [= ->]. destruct Hm as [[_ Hno]|(_ & ? & ? & _)]; [by destruct (Hno o) | done].
    + rewrite lookup_insert_ne by done. intros Hu. destruct (I5 u o Hu) as [Hl Hh].
      destruct Hm as [[-> _]|(Hf & _)]; [done | congruence].
  - intros u o c. destruct (decide (u = t)) as [->|Hne].
    + rewrite lookup_insert_eq. intros [= ->]. by destruct (Hx o c).
    + rewrite lookup_insert_ne by done. apply I6.
  - rewrite !count_insert. intros Hc. specialize (I7 ltac:(lia)). lia.
  - rewrite !count_insert. intros Hc. destruct (I8 ltac:(lia)) as (n & ? & ?). exists n. split; [done | lia].
Qed.

(** What the code of the classes can do, from the laws. *)
Lemma body_cases o q :
  m_inv q ->
  (body o q = Ok (Waits (if is_take o then notEmpty_ else notFull_), q) /\
     (if is_take o then m_items q = [] else m_room q = Some 0)) \/
  exists r n q', body o q = Ok (Returns r n, q') /\ m_inv q' /\
    m_items q ++ puts o = takes r ++ m_items q' /\
    (if is_take o then 0 < zlen (m_items q) /\ m_room q' = Z.succ <$> m_room q /\ n <> Some notEmpty_ /\
                       (n = Some notFull_ \/ m_room q = None)
     else m_room q <> Some 0 /\ m_room q' = Z.pred <$> m_room q /\ n = Some notEmpty_) /\
    zlen (m_items q') = zlen (m_items q) + (if is_take o then -1 else 1).
Proof.
  intros Hq. destruct o as [x|]; simpl.
  - destruct (decide (m_room q = Some 0)) as [Hr|Hr].
    + left. split; [by apply m_put_full | done].
    + right. destruct (m_put_room q x Hq Hr) as (q' & E & Hq' & Hi & Hr').
      eexists None, _, q'. rewrite Hi. split_and!; [done | done | done | done | done | done | zlia].
  - destruct (m_items q) as [|x l] eqn:E.
    + left. split; [by apply m_take_empty | done].
    + right. destruct (m_take_some q x l Hq E) as (n & q' & Et & Hq' & Hi & Hr' & Hn & Hn').
      exists (Some x), n, q'. rewrite Hi. rewrite app_nil_r. split_and!; try done; zlia.
Qed.

(** A thread inside gives the mutex up; [ths'] is what its notification left. *)
Lemma qinv_leave s ths' m' t o x q' pl tl :
  qinv s -> q_threads s !! t = Some (Inside o) ->
  mutex_locked m' = false -> holder_ m' = 0 -> m_inv q' -> tl ++ m_items q' = pl ->
  (forall u o', ths' !! u = Some (Inside o') <-> q_threads s !! u = Some (Inside o')) ->
  (forall u o' c, ths' !! u = Some (Waiting o' c) -> q_threads s !! u = Some (Waiting o' c)) ->
  (forall o', x <> Inside o') -> (forall o' c, x = Waiting o' c -> c = if is_take o' then notEmpty_ else notFull_) ->
  (0 < count (waiting true) (<[t := x]> ths') -> zlen (m_items q') <= count (active true) (<[t := x]> ths')) ->
  (0 < count (waiting false) (<[t := x]> ths') ->
     exists n, m_room q' = Some n /\ n <= count (active false) (<[t := x]> ths')) ->
  qinv (mkQ m' q' (<[t := x]> ths') pl tl).
Proof.
  intros [I1 I2 I3 I4 I5 I6 I7 I8] Ht Hl Hh Hq Hlog Hin Hwt Hx Hxc Hct Hcp.
  split; cbn [q_mutex q_queue q_threads put_log take_log]; try done.
  - by rewrite Hl.
  - intros u o'. destruct (decide (u = t)) as [->|Hne].
    + rewrite lookup_insert_eq. intros [= ->]. by destruct (Hx o').
    + rewrite lookup_insert_ne, Hin by done. intros Hu.
      destruct (I5 u o' Hu) as [_ E1], (I5 t o Ht) as [_ E2]. destruct Hne. lia.
  - intros u o' c. destruct (decide (u = t)) as [->|Hne].
    + rewrite lookup_insert_eq. intros [= ->]. by apply Hxc.
    + rewrite lookup_insert_ne by done. intros Hu. by apply (I6 u), Hwt.
Qed.

Lemma qinv_wait s t o c m' q' :
  qinv s -> q_threads s !! t = Some (Inside o) -> body o (q_queue s) = Ok (Waits c, q') ->
  Cond.wait_release (q_mutex s) = Ok m' ->
  qinv (mkQ m' q' (<[t := Waiting o c]> (q_threads s)) (put_log s) (take_log s)).
Proof.
  intros H Ht Hb Hm. pose proof H as [I1 I2 I3 I4 I5 I6 I7 I8].
  unfold Cond.wait_release, Mutex.unassignHolder in Hm. res_inv. subst m'.
  destruct (body_cases o (q_queue s) I1) as [[Eb Hc]|(r & n & q2 & Eb & _)]; [|congruence].
  rewrite Eb in Hb. injection Hb as <- <-.
  apply (qinv_leave s (q_threads s) _ t o); try done.
  - by intros o' c [= <- <-].
  - rewrite !count_insert, Ht. simpl. destruct (is_take o) eqn:Ho; simpl.
    + rewrite Hc. change (zlen []) with 0. intros _. pose proof (count_pos (active true) _ t _ Ht) as Hp. simpl in Hp.
      rewrite Ho in Hp. specialize (Hp eq_refl). lia.
    + intros Hw. specialize (I7 ltac:(lia)). lia.
  - rewrite !count_insert, Ht. simpl. destruct (is_take o) eqn:Ho; simpl.
    + intros Hw. destruct (I8 ltac:(lia)) as (n & ? & ?). exists n. split; [done|lia].
    + intros _. exists 0. split; [done|]. pose proof (count_pos (active false) _ t _ Ht) as Hp. simpl in Hp.
      rewrite Ho in Hp. specialize (Hp eq_refl). lia.
Qed.

Lemma qinv_return s t o r n m' q' ths' :
  qinv s -> q_threads s !! t = Some (Inside o) -> body o (q_queue s) = Ok (Returns r n, q') ->
  notify n (q_threads s) ths' -> Mutex.unlock (q_mutex s) = Ok m' ->
  qinv (mkQ m' q' (<[t := Returned o r]> ths') (put_log s ++ puts o) (take_log s ++ takes r)).
Proof.
  intros H Ht Hb Hn Hm. pose proof H as [I1 I2 I3 I4 I5 I6 I7 I8].
  unfold Mutex.unlock, Mutex.unassignHolder in Hm. res_inv. subst m'.
  destruct (body_cases o (q_queue s) I1) as [[Eb Hc]|(r2 & n2 & q2 & Eb & Hq2 & Hlog & Hside & Hz)]; [congruence|].
  rewrite Eb in Hb. injection Hb as -> -> ->.
  destruct (notify_counts _ _ _ Hn I6) as (Hin & Hwt & Hcnt).
  destruct (Hcnt true) as (kt & Ekt & HwT & HaT & HkT). destruct (Hcnt false) as (kf & Ekf & HwF & HaF & HkF).
  assert (ths' !! t = Some (Inside o)) as Ht' by by apply Hin.
  apply (qinv_leave s ths' _ t o); try done.
  - rewrite <- I2, <- !app_assoc. by rewrite Hlog.
  - rewrite !count_insert, Ht'. simpl. destruct (is_take o) eqn:Ho; simpl.
    + intros Hw. specialize (I7 ltac:(lia)). lia.
    + destruct Hside as (_ & _ & ->). intros Hw. destruct (decide (kt = 0)) as [->|].
      * specialize (HkT eq_refl eq_refl). lia.
      * specialize (I7 ltac:(lia)). lia.
  - rewrite !count_insert, Ht'. simpl. destruct (is_take o) eqn:Ho; simpl.
    + destruct Hside as (_ & Hr & _ & Hnf). intros Hw. destruct (I8 ltac:(lia)) as (k & Hk & Hle).
      destruct Hnf as [-> | Hnf]; [|congruence]. exists (k + 1). rewrite Hr, Hk. split; [done|].
      destruct (decide (kf = 0)) as [->|]; [|lia]. specialize (HkF eq_refl eq_refl). lia.
    + destruct Hside as (_ & Hr & ->). intros Hw. destruct (I8 ltac:(lia)) as (k & Hk & Hle).
      exists (k - 1). rewrite Hr, Hk. split; [done|lia].
Qed.

Lemma qinv_step s s' : qinv s -> qstep s s' -> qinv s'.
Proof.
  intros H Hs. destruct Hs as [t o m q ths pl tl Ht|t o m m' q ths pl tl Ht Hm|t o c m m' q q' ths pl tl Ht Hb Hm
    |t o r n m m' q q' ths ths' pl tl Ht Hb Hn Hm|t o c m q ths pl tl Ht|t o m m' q ths pl tl Ht Hm].
  - apply (qinv_thread _ m t (Entering o) H); simpl; try done.
    + intros o' E. destruct Ht as [Ht|(? & ? & Ht)]; congruence.
    + intros side. destruct Ht as [->|(? & ? & ->)]; simpl; lia.
    + by left.
  - unfold Mutex.lock in Hm. destruct (mutex_locked m) eqn:El; [done|]. injection Hm as <-.
    apply (qinv_thread _ _ t (Inside o) H); simpl; try done.
    + congruence.
    + intros side. rewrite Ht. simpl. destruct (Bool.eqb _ _); simpl; lia.
    + right. eauto 10.
  - by apply (qinv_wait _ t o c m' q' H).
  - by apply (qinv_return _ t o r n m' q' ths' H).
  - apply (qinv_thread _ m t (Woken o) H); simpl; try done.
    + congruence.
    + intros side. rewrite Ht. simpl. destruct (Bool.eqb _ _); simpl; lia.
    + by left.
  - unfold Cond.wait_reacquire in Hm. destruct (mutex_locked m) eqn:El; [done|]. injection Hm as <-.
    apply (qinv_thread _ _ t (Inside o) H); simpl; try done.
    + congruence.
    + intros side. rewrite Ht. simpl. lia.
    + right. eauto 10.
Qed.

Lemma qinv_reachable q s : m_inv q -> m_items q = [] -> q_reachable q s -> qinv s.
Proof.
  intros Hq Hi Hr. pose proof (qinv_init q Hq Hi) as H0. unfold q_reachable in Hr. revert H0.
  induction Hr as [s|s1 s2 s3 Hs _ IH]; [done|]. intros H0. apply IH. by eapply qinv_step.
Qed.

(** A notification never blocks. *)
Lemma notify_total n ths : exists ths', notify n ths ths'.
Proof.
  destruct n as [c|]; [|exists ths; constructor].
  set (p := fun kv : nat * pc => match kv.2 with Waiting _ d => bool_decide (d = c) | _ => false end = true).
  destruct (decide (filter p ths = ∅)) as [E|E].
  - exists ths. constructor. intros u o Hu. assert (filter p ths !! u = Some (Waiting o c)) as H.
    { apply map_lookup_filter_Some. split; [done|]. unfold p. simpl. by rewrite bool_decide_true. }
    by rewrite E, lookup_empty in H.
  - apply map_choose in E as (u & x & [Hu Hx]%map_lookup_filter_Some). unfold p in Hx. simpl in Hx.
    destruct x as [| |o d| |]; try done. apply bool_decide_eq_true in Hx as ->.
    eexists. by apply (notify_one c u o).
Qed.

(** What fits and what is there add up to what fitted at the start. *)
Lemma room_constant q0 s :
  m_inv q0 -> m_items q0 = [] -> q_reachable q0 s ->
  m_room (q_queue s) = (fun n => n - zlen (m_items (q_queue s))) <$> m_room q0.
Proof.
  intros Hq Hi Hr. set (f := fun q : Q => Z.add (zlen (m_items q)) <$> m_room q).
  assert (f (q_queue s) = f q0) as E.
  { pose proof (qinv_init q0 Hq Hi) as H0. unfold q_reachable in Hr.
    change (f q0) with (f (q_queue (q_init q0))). revert H0.
    induction Hr as [|s1 s2 s3 Hs _ IH]; [done|]. intros H1. rewrite IH by (by eapply qinv_step).
    destruct Hs as [| |t o c m m' q q' ths pl tl Ht Hb Hm|t o r n m m' q q' ths ths' pl tl Ht Hb Hn Hm| |];
      try done; simpl; destruct (body_cases o q (qi_inv _ H1)) as [[E Hc]|(r2 & n2 & q2 & E & _ & _ & Hside & Hz)];
      rewrite E in Hb; try done; injection Hb; intros; subst; try done.
    unfold f. rewrite Hz. destruct (is_take o); destruct Hside as (_ & -> & _); destruct (m_room q); simpl; try done;
      f_equal; lia. }
  unfold f in E. rewrite Hi in E. change (zlen []) with 0 in E.
  destruct (m_room (q_queue s)), (m_room q0); simpl in *; try done. injection E as E. f_equal. lia.
Qed.

(** ** Properties *)

(** C38: in every interleaving of any threads that put and take, the elements come
    out in the order in which they were put in, each once, and what was put and
    not taken is in the queue; there are never more than the queue was made for;
    the code runs in one thread at a time, its assertions hold, and the thread
    that runs it can leave the monitor. *)
Theorem blocking_queue_fifo (q0 : Q) (s : qstate) :
  m_inv q0 -> m_items q0 = [] -> q_reachable q0 s ->
  take_log s ++ m_items (q_queue s) = put_log s /\
  (forall n, m_room q0 = Some n -> zlen (m_items (q_queue s)) <= n) /\
  (forall t u o o', q_threads s !! t = Some (Inside o) -> q_threads s !! u = Some (Inside o') -> t = u) /\
  (forall t o, q_threads s !! t = Some (Inside o) ->
     exists s', qstep s s' /\ mutex_locked (q_mutex s') = false).
Proof.
  intros Hq Hi Hr. pose proof (qinv_reachable q0 s Hq Hi Hr) as H.
  pose proof (room_constant q0 s Hq Hi Hr) as Hc. pose proof H as [I1 I2 I3 I4 I5 I6 I7 I8]. split_and!.
  - done.
  - intros n Hn. rewrite Hn in Hc. simpl in Hc. pose proof (m_room_nonneg _ _ I1 Hc). lia.
  - intros t u o o' Ht Hu. destruct (I5 t o Ht) as [_ E1], (I5 u o' Hu) as [_ E2]. lia.
  - intros t o Ht. destruct (I5 t o Ht) as [Hl _]. destruct s as [m q ths pl tl]. simpl in *.
    destruct (body_cases o q I1) as [[E _]|(r & n & q' & E & _)].
    + eexists. split; [eapply q_wait; [exact Ht | exact E |] | ].
      * unfold Cond.wait_release, Mutex.unassignHolder. simpl. by rewrite Hl.
      * done.
    + destruct (notify_total n ths) as [ths' Hn].
      eexists. split; [eapply q_return; [exact Ht | exact E | exact Hn |] | ].
      * unfold Mutex.unlock, Mutex.unassignHolder. simpl. by rewrite Hl.
      * done.
Qed.

(** C39: no wake-up is lost, although [notify] wakes one thread only.  A thread
    that waits in [take] while no other taker is on its way back to the queue
    waits rightly: the queue is empty.  A thread that waits in [put] while no
    other putter is on its way waits rightly: the queue is full. *)
Theorem no_lost_wakeup (q0 : Q) (s : qstate) :
  m_inv q0 -> m_items q0 = [] -> q_reachable q0 s ->
  (forall t c, q_threads s !! t = Some (Waiting Take c) ->
     (forall u x, q_threads s !! u = Some x -> active true x = false) -> m_items (q_queue s) = []) /\
  (forall t x c, q_threads s !! t = Some (Waiting (Put x) c) ->
     (forall u y, q_threads s !! u = Some y -> active false y = false) -> m_room (q_queue s) = Some 0).
Proof.
  intros Hq Hi Hr. pose proof (qinv_reachable q0 s Hq Hi Hr) as [I1 I2 I3 I4 I5 I6 I7 I8]. split.
  - intros t c Ht Hno. pose proof (count_pos (waiting true) _ t _ Ht eq_refl) as Hp.
    specialize (I7 Hp). rewrite (count_zero _ _ Hno) in I7.
    apply zlen_0. pose proof (zlen_nonneg (m_items (q_queue s))). lia.
  - intros t x c Ht Hno. pose proof (count_pos (waiting false) _ t _ Ht eq_refl) as Hp.
    destruct (I8 Hp) as (n & Hn & Hle). rewrite (count_zero _ _ Hno) in Hle.
    pose proof (m_room_nonneg _ _ I1 Hn). rewrite Hn. f_equal. lia.
Qed.

End machine.

(** ** The theorems at a concrete run *)

Lemma sample_wait :
  q_reachable (Bounded.new_queue 1)
    (mkQ Mutex.new_MutexLock (Bounded.new_queue 1) {[1%nat := Waiting (Take (T:=Z)) notEmpty_]} [] []).
Proof.
  eapply rtc_l; [apply (q_call 1 Take); left; reflexivity|].
  eapply rtc_l; [eapply (q_enter 1 Take); reflexivity|].
  eapply rtc_l; [eapply (q_wait 1 Take notEmpty_); reflexivity|].
  reflexivity.
Qed.

Lemma sample_put :
  q_reachable (Bounded.new_queue 1)
    (mkQ Mutex.new_MutexLock (mkCirc 1 [7]) {[1%nat := Returned (Put 7) None]} [7] []).
Proof.
  eapply rtc_l; [apply (q_call 1 (Put 7)); left; reflexivity|].
  eapply rtc_l; [eapply (q_enter 1 (Put 7)); reflexivity|].
  eapply rtc_l; [eapply (q_return 1 (Put 7)); [reflexivity | reflexivity | | reflexivity]|].
  { apply notify_nobody. intros u o Hu. rewrite insert_insert_eq, lookup_insert_Some in Hu.
    destruct Hu as [[_ Hu]|[_ Hu]]; [discriminate Hu | by rewrite lookup_empty in Hu]. }
  reflexivity.
Qed.

Lemma blocking_queue_fifo_witness :
  let s := mkQ Mutex.new_MutexLock (mkCirc 1 [7]) {[1%nat := Returned (Put 7) None]} [7] [] in
  q_reachable (Bounded.new_queue 1) s /\ take_log s ++ cb_items (q_queue s) = put_log s.
Proof.
  intros s. split; [exact sample_put|].
  destruct (blocking_queue_fifo (Bounded.new_queue 1) s) as [E _];
    [vm_compute; discriminate | reflexivity | exact sample_put | exact E].
Defined.

Lemma no_lost_wakeup_witness :
  let s := mkQ Mutex.new_MutexLock (Bounded.new_queue 1) {[1%nat := Waiting (Take (T:=Z)) notEmpty_]} [] [] in
  q_reachable (Bounded.new_queue 1) s /\ cb_items (q_queue s) = [].
Proof.
  intros s. split; [exact sample_wait|].
  destruct (no_lost_wakeup (Bounded.new_queue 1) s) as [Hget _];
    [vm_compute; discriminate | reflexivity | exact sample_wait |].
  apply (Hget 1%nat notEmpty_); [reflexivity|].
  intros u x Hu. simpl in Hu. apply lookup_singleton_Some in Hu as [_ <-]. reflexivity.
Defined.
