(* ===== verification/LogStream.v ===== *)
(** * Log lines (muduo/base/LogStream.h)

    Every [LOG_INFO << ...] of the server is written into a [FixedBuffer] of 4000
    bytes.  A piece that does not fit is left out whole; what was written before
    stays.  The formatting of numbers is in LogStream.cc, which is not among the
    sources. *)

From S2P Require Import Prelude Endian StringPiece Buffer.

Definition kSmallBuffer : Z := 4000.
Definition kLargeBuffer : Z := 4000 * 1000.

(** The two functions whose address marks a buffer in a core dump. *)
Inductive cookie := cookieStart | cookieEnd.

Record FixedBuffer := mkFixed { fb_cookie : cookie; fb_data : list Z; fb_cur : Z }.

Module Fixed.

(** The array of the object before its constructor runs is [junk]. *)
Definition new_FixedBuffer (junk : list Z) : FixedBuffer := mkFixed cookieStart junk 0.
Definition delete_FixedBuffer (b : FixedBuffer) : FixedBuffer := mkFixed cookieEnd (fb_data b) (fb_cur b).

Definition data (b : FixedBuffer) : option cptr := Some (mkPtr (fb_data b) 0).
Definition length (b : FixedBuffer) : Z := i32 (fb_cur b).
Definition current (b : FixedBuffer) : Z := fb_cur b.
Definition end_ (b : FixedBuffer) : Z := zlen (fb_data b).
Definition avail (b : FixedBuffer) : Z := i32 (end_ b - fb_cur b).
Definition add (b : FixedBuffer) (len : Z) : FixedBuffer := mkFixed (fb_cookie b) (fb_data b) (fb_cur b + len).
Definition reset (b : FixedBuffer) : FixedBuffer := mkFixed (fb_cookie b) (fb_data b) 0.
Definition bzero (b : FixedBuffer) : FixedBuffer :=
  mkFixed (fb_cookie b) (replicate (List.length (fb_data b)) 0) (fb_cur b).
Definition setCookie (b : FixedBuffer) (c : cookie) : FixedBuffer := mkFixed c (fb_data b) (fb_cur b).

Definition append (b : FixedBuffer) (buf : option cptr) (len : Z) : res FixedBuffer :=
  if len <? u64 (avail b) then
    let* d := deref buf len in
    let* v := write_at (fb_data b) (fb_cur b) d in
    Ok (mkFixed (fb_cookie b) v (fb_cur b + len))
  else Ok b.

Definition toString (b : FixedBuffer) : res (list Z) := deref (data b) (u64 (length b)).
Definition toStringPiece (b : FixedBuffer) : StringPiece := SP.of_ptr (data b) (length b).

End Fixed.

(** [Fmt]: a number formatted by the constructor into 32 bytes. *)
Record Fmt := mkFmt { fmt_buf : list Z; fmt_length : Z }.

Module Log.

Definition from_bool (b : FixedBuffer) (v : bool) : res FixedBuffer :=
  Fixed.append b (Some (mkPtr (if v then [49; 0] else [48; 0]) 0)) 1.
Definition from_char (b : FixedBuffer) (v : Z) : res FixedBuffer :=
  Fixed.append b (Some (mkPtr [v] 0)) 1.
Definition from_cstr (b : FixedBuffer) (str : option cptr) : res FixedBuffer :=
  match str with
  | Some _ => let* n := strlen str in Fixed.append b str n
  | None => Fixed.append b (Some (mkPtr (chars "(null)" ++ [0]) 0)) 6
  end.
Definition from_ucstr (b : FixedBuffer) (str : option cptr) : res FixedBuffer := from_cstr b str.
Definition from_string (b : FixedBuffer) (v : list Z) : res FixedBuffer :=
  Fixed.append b (Some (mkPtr (v ++ [0]) 0)) (zlen v).
Definition from_piece (b : FixedBuffer) (v : StringPiece) : res FixedBuffer :=
  Fixed.append b (SP.data v) (u64 (SP.size v)).
Definition from_buffer (b : FixedBuffer) (v : FixedBuffer) : res FixedBuffer :=
  from_piece b (Fixed.toStringPiece v).
Definition append (b : FixedBuffer) (data : option cptr) (len : Z) : res FixedBuffer :=
  Fixed.append b data (u64 len).
Definition from_fmt (b : FixedBuffer) (f : Fmt) : res FixedBuffer :=
  append b (Some (mkPtr (fmt_buf f) 0)) (fmt_length f).
Definition resetBuffer (b : FixedBuffer) : FixedBuffer := Fixed.reset b.

End Log.

(** ** Specification *)

(** What is streamed, and the bytes it stands for. *)
Inductive log_item :=
  | LBool (v : bool) | LChar (v : Z) | LCStr (s : list Z) | LNull
  | LString (s : list Z) | LPiece (p : StringPiece) (s : list Z) | LFmt (f : Fmt).

Definition piece_bytes (i : log_item) : list Z :=
  match i with
  | LBool v => if v then [49] else [48]
  | LChar v => [v]
  | LCStr s | LString s | LPiece _ s => s
  | LNull => chars "(null)"
  | LFmt f => ztake (fmt_length f) (fmt_buf f)
  end.

Definition piece_ok (i : log_item) : Prop :=
  match i with
  | LCStr s => (0 ∉ s) /\ zlen s < 2 ^ 31
  | LString s => zlen s < 2 ^ 31
  | LPiece p s => denotes p s
  | LFmt f => 0 <= fmt_length f <= zlen (fmt_buf f) /\ zlen (fmt_buf f) = 32
  | _ => True
  end.

Definition stream (b : FixedBuffer) (i : log_item) : res FixedBuffer :=
  match i with
  | LBool v => Log.from_bool b v
  | LChar v => Log.from_char b v
  | LCStr s => Log.from_cstr b (Some (mkPtr (s ++ [0]) 0))
  | LNull => Log.from_cstr b None
  | LString s => Log.from_string b s
  | LPiece p _ => Log.from_piece b p
  | LFmt f => Log.from_fmt b f
  end.

Fixpoint stream_all (b : FixedBuffer) (items : list log_item) : res FixedBuffer :=
  match items with [] => Ok b | i :: items => let* b := stream b i in stream_all b items end.

(** The pieces that fit, one byte being left over. *)
Fixpoint line (room : Z) (ps : list (list Z)) : list Z :=
  match ps with
  | [] => []
  | p :: ps => if zlen p <? room then p ++ line (room - zlen p) ps else line room ps
  end.

Record fixed_rep (size : Z) (b : FixedBuffer) (c : list Z) : Prop := {
  fx_size : zlen (fb_data b) = size;
  fx_bound : 0 < size < 2 ^ 31;
  fx_cur : fb_cur b = zlen c;
  fx_fits : zlen c < size;
  fx_data : ztake (zlen c) (fb_data b) = c
}.

(** ** Lemmas *)

Lemma fixed_append size b c p d :
  fixed_rep size b c -> deref p (zlen d) = Ok d ->
  exists b', Fixed.append b p (zlen d) = Ok b' /\
    fixed_rep size b' (if zlen d <? size - zlen c then c ++ d else c).
Proof.
  intros H Hd. pose proof H as [H1 H2 H3 H4 H5]. unfold Fixed.append, Fixed.avail, Fixed.end_.
  rewrite H1, H3. rewrite wraps_id, wrapu_id by zlia.
  destruct (Z.ltb_spec (zlen d) (size - zlen c)) as [Hlt|Hge]; [|by exists b].
  rewrite Hd. cbn [res_bind]. rewrite write_at_ok by zlia. cbn [res_bind]. eexists. split; [done|].
  rewrite H5. split; cbn [fb_data fb_cur]; try done; rewrite ?zlen_app, ?zlen_zdrop by zlia; try zlia.
  by rewrite app_assoc, ztake_app_eq by zlia.
Qed.

Lemma strlen_spec s k : 0 ∉ s -> strlen_list (s ++ 0 :: k) = Ok (zlen s).
Proof.
  induction s as [|x s IH]; intros Hs; [done|]. apply not_elem_of_cons in Hs as [Hx Hs].
  simpl. rewrite (proj2 (Z.eqb_neq _ _)) by done. rewrite IH by done. simpl. by rewrite zlen_cons.
Qed.

Lemma deref_start s k : deref (Some (mkPtr (s ++ k) 0)) (zlen s) = Ok s.
Proof.
  unfold deref. destruct (Z.eqb_spec (zlen s) 0) as [E|E]; [by rewrite (zlen_0 _ E)|].
  simpl. rewrite read_at_ok by zlia. by rewrite zdrop_0, ztake_app_eq by lia.
Qed.

Lemma stream_spec size b c i :
  fixed_rep size b c -> piece_ok i ->
  exists b', stream b i = Ok b' /\
    fixed_rep size b' (if zlen (piece_bytes i) <? size - zlen c then c ++ piece_bytes i else c).
Proof.
  intros H Hi. destruct i as [[]|v|s| |s|p s|f]; simpl in *.
  - apply (fixed_append size b c _ [49] H). apply (deref_start [49] [0]).
  - apply (fixed_append size b c _ [48] H). apply (deref_start [48] [0]).
  - apply (fixed_append size b c _ [v] H). apply (deref_start [v] []).
  - destruct Hi as [Hn Hl]. unfold Log.from_cstr, strlen. simpl.
    rewrite (proj2 (Z.leb_le _ _)) by zlia. rewrite zdrop_0, strlen_spec by done. cbn [res_bind].
    apply (fixed_append size b c _ s H), deref_start.
  - apply (fixed_append size b c _ (chars "(null)") H). apply (deref_start (chars "(null)") [0]).
  - apply (fixed_append size b c _ s H), deref_start.
  - destruct Hi as (E & Hl & Hd). unfold Log.from_piece, SP.size, SP.data. rewrite E, wrapu_id by zlia.
    by apply (fixed_append size b c _ s H).
  - destruct Hi as [Hl Hb]. unfold Log.from_fmt, Log.append. rewrite wrapu_id by lia.
    assert (zlen (ztake (fmt_length f) (fmt_buf f)) = fmt_length f) as E by (apply zlen_ztake; lia).
    pose proof (fixed_append size b c (Some (mkPtr (fmt_buf f) 0)) _ H
      (eq_trans (f_equal (fun l => deref (Some (mkPtr l 0)) _) (eq_sym (ztake_zdrop (fmt_length f) (fmt_buf f))))
        (deref_start _ _))) as Ha.
    rewrite E in *. exact Ha.
Qed.

Lemma stream_all_spec items : forall size b c,
  fixed_rep size b c -> Forall piece_ok items ->
  exists b', stream_all b items = Ok b' /\
    fixed_rep size b' (c ++ line (size - zlen c) (piece_bytes <$> items)).
Proof.
  induction items as [|i items IH]; intros size b c H Hi.
  { exists b. simpl. by rewrite app_nil_r. }
  apply Forall_cons in Hi as [Hi Hs]. destruct (stream_spec size b c i H Hi) as (b1 & E1 & H1).
  simpl. rewrite E1. cbn [res_bind].
  destruct (Z.ltb_spec (zlen (piece_bytes i)) (size - zlen c)) as [Hlt|Hge].
  - destruct (IH size b1 _ H1 Hs) as (b' & E & H'). exists b'. split; [done|].
    rewrite zlen_app in H'. rewrite <- app_assoc in H'.
    by replace (size - zlen c - zlen (piece_bytes i)) with (size - (zlen c + zlen (piece_bytes i))) by lia.
  - by apply IH.
Qed.

(** ** Properties *)

(** Streaming any sequence of values into a log line never writes outside of
    its 4000 bytes; the line is the concatenation of the values, except those that
    did not fit where they came, which are left out whole; and at least one byte
    stays free. *)
Lemma log_line_bounded (junk : list Z) (items : list log_item) :
  zlen junk = kSmallBuffer -> Forall piece_ok items ->
  exists b, stream_all (Fixed.new_FixedBuffer junk) items = Ok b /\
    Fixed.toString b = Ok (line kSmallBuffer (piece_bytes <$> items)) /\
    0 < Fixed.avail b /\ zlen (fb_data b) = kSmallBuffer.
Proof.
  intros Hj Hi. assert (fixed_rep kSmallBuffer (Fixed.new_FixedBuffer junk) []) as H0
    by (split; simpl; unfold kSmallBuffer; try done; zlia).
  destruct (stream_all_spec items _ _ _ H0 Hi) as (b & E & [H1 H2 H3 H4 H5]). exists b.
  rewrite zlen_nil, Z.sub_0_r in *. simpl ([] ++ _) in *. set (l := line _ _) in *.
  split; [done|]. unfold Fixed.toString, Fixed.length, Fixed.data, Fixed.avail, Fixed.end_.
  rewrite H1, H3, !wraps_id by zlia. rewrite wrapu_id by zlia. split_and!; [|lia|done].
  rewrite <- (ztake_zdrop (zlen l) (fb_data b)), H5. apply deref_start.
Qed.

Lemma log_line_bounded_witness :
  exists b, stream_all (Fixed.new_FixedBuffer (replicate (Z.to_nat 4000) 170))
      [LCStr (chars "device id: "); LString (replicate (Z.to_nat 4000) 65); LBool true] = Ok b /\
    Fixed.toString b = Ok (chars "device id: 1").
Proof.
  destruct (log_line_bounded (replicate (Z.to_nat 4000) 170)
    [LCStr (chars "device id: "); LString (replicate (Z.to_nat 4000) 65); LBool true]) as (b & E & Hs & _).
  - vm_compute. reflexivity.
  - constructor; [|constructor; [|constructor; [exact I | constructor]]].
    + split; [apply (bool_decide_unpack _); vm_compute; exact I | vm_compute; reflexivity].
    + vm_compute. reflexivity.
  - exists b. split; [exact E|]. rewrite Hs. vm_compute. reflexivity.
Defined.
