(* ===== verification/Http.v ===== *)
(** * HTTP requests and responses (muduo/net/http/HttpRequest.h, HttpResponse.h, HttpContext.h)

    The parts of muduo's HTTP classes that are in the headers: what is stored of
    a request and of a response, and how a header line is cut into a field and a
    value.  The parser that calls them is in HttpContext.cc, which is not among
    the sources.  A pair of [const char*] into one object is the object and two
    offsets. *)

From S2P Require Import Prelude Endian StringPiece Buffer Muduo.

Inductive Method := kInvalid | kGet | kPost | kHead | kPut | kDelete.
Inductive Version := kUnknown | kHttp10 | kHttp11.

#[global] Instance Method_eq_dec : EqDecision Method.
Proof. solve_decision. Defined.
#[global] Instance Version_eq_dec : EqDecision Version.
Proof. solve_decision. Defined.

Record HttpRequest := mkRequest {
  method_ : Method;
  version_ : Version;
  path_ : list Z;
  query_ : list Z;
  receiveTime_ : Timestamp;
  headers_ : gmap (list Z) (list Z)
}.

(** [string(start, end)]. *)
Definition string_of (b : list Z) (start end_ : Z) : res (list Z) := read_at b start (end_ - start).

(** [isspace] of the C locale. *)
Definition isspace (c : Z) : bool := ((9 <=? c) && (c <=? 13)) || (c =? 32).

(** [while (colon < end && isspace( *colon)) ++colon;] *)
Fixpoint skip_spaces (fuel : nat) (b : list Z) (colon end_ : Z) : res Z :=
  if colon <? end_ then
    match fuel with
    | O => Err OutOfFuel
    | S fuel =>
        let* l := read_at b colon 1 in
        if isspace (default 0 (head l)) then skip_spaces fuel b (colon + 1) end_ else Ok colon
    end
  else Ok colon.

(** [while (!value.empty() && isspace(value[value.size()-1])) value.resize(value.size()-1);] *)
Fixpoint trim_end (fuel : nat) (value : list Z) : res (list Z) :=
  match last value with
  | None => Ok value
  | Some c =>
      if isspace c then
        match fuel with O => Err OutOfFuel | S fuel => trim_end fuel (ztake (zlen value - 1) value) end
      else Ok value
  end.

Module Request.

Definition new_HttpRequest : HttpRequest := mkRequest kInvalid kUnknown [] [] Time.new_Timestamp ∅.

Definition setVersion (r : HttpRequest) (v : Version) : HttpRequest :=
  mkRequest (method_ r) v (path_ r) (query_ r) (receiveTime_ r) (headers_ r).
Definition getVersion (r : HttpRequest) : Version := version_ r.
Definition set_method (r : HttpRequest) (m : Method) : HttpRequest :=
  mkRequest m (version_ r) (path_ r) (query_ r) (receiveTime_ r) (headers_ r).

Definition setMethod (r : HttpRequest) (b : list Z) (start end_ : Z) : res (bool * HttpRequest) :=
  let* _ := assert_ (bool_decide (method_ r = kInvalid)) in
  let* m := string_of b start end_ in
  let method :=
    if decide (m = chars "GET") then kGet
    else if decide (m = chars "POST") then kPost
    else if decide (m = chars "HEAD") then kHead
    else if decide (m = chars "PUT") then kPut
    else if decide (m = chars "DELETE") then kDelete
    else kInvalid in
  Ok (negb (bool_decide (method = kInvalid)), set_method r method).

Definition method (r : HttpRequest) : Method := method_ r.

Definition methodString (r : HttpRequest) : list Z :=
  match method_ r with
  | kGet => chars "GET"
  | kPost => chars "POST"
  | kHead => chars "HEAD"
  | kPut => chars "PUT"
  | kDelete => chars "DELETE"
  | kInvalid => chars "UNKNOWN"
  end.

Definition setPath (r : HttpRequest) (b : list Z) (start end_ : Z) : res HttpRequest :=
  let* p := string_of b start end_ in
  Ok (mkRequest (method_ r) (version_ r) p (query_ r) (receiveTime_ r) (headers_ r)).
Definition path (r : HttpRequest) : list Z := path_ r.
Definition setQuery (r : HttpRequest) (b : list Z) (start end_ : Z) : res HttpRequest :=
  let* q := string_of b start end_ in
  Ok (mkRequest (method_ r) (version_ r) (path_ r) q (receiveTime_ r) (headers_ r)).
Definition query (r : HttpRequest) : list Z := query_ r.
Definition setReceiveTime (r : HttpRequest) (t : Timestamp) : HttpRequest :=
  mkRequest (method_ r) (version_ r) (path_ r) (query_ r) t (headers_ r).
Definition receiveTime (r : HttpRequest) : Timestamp := receiveTime_ r.

Definition addHeader (r : HttpRequest) (b : list Z) (start colon end_ : Z) : res HttpRequest :=
  let* field := string_of b start colon in
  let colon := colon + 1 in
  let* colon := skip_spaces (Z.to_nat (end_ - colon)) b colon end_ in
  let* value := string_of b colon end_ in
  let* value := trim_end (length value) value in
  Ok (mkRequest (method_ r) (version_ r) (path_ r) (query_ r) (receiveTime_ r)
        (<[field := value]> (headers_ r))).

Definition getHeader (r : HttpRequest) (field : list Z) : list Z :=
  match headers_ r !! field with Some v => v | None => [] end.
Definition headers (r : HttpRequest) : gmap (list Z) (list Z) := headers_ r.

Definition swap (r that : HttpRequest) : HttpRequest * HttpRequest :=
  let (t1, t2) := Time.swap (receiveTime_ r) (receiveTime_ that) in
  (mkRequest (method_ that) (version_ that) (path_ that) (query_ that) t1 (headers_ that),
   mkRequest (method_ r) (version_ r) (path_ r) (query_ r) t2 (headers_ r)).

End Request.

(** [enum HttpStatusCode] by its values. *)
Definition k200Ok : Z := 200.
Definition k301MovedPermanently : Z := 301.
Definition k400BadRequest : Z := 400.
Definition k404NotFound : Z := 404.

Record HttpResponse := mkResponse {
  resp_headers_ : gmap (list Z) (list Z);
  statusCode_ : Z;
  statusMessage_ : list Z;
  closeConnection_ : bool;
  body_ : list Z
}.

Module Response.

Definition new_HttpResponse (close : bool) : HttpResponse := mkResponse ∅ 0 [] close [].
Definition setStatusCode (r : HttpResponse) (code : Z) : HttpResponse :=
  mkResponse (resp_headers_ r) code (statusMessage_ r) (closeConnection_ r) (body_ r).
Definition setStatusMessage (r : HttpResponse) (message : list Z) : HttpResponse :=
  mkResponse (resp_headers_ r) (statusCode_ r) message (closeConnection_ r) (body_ r).
Definition setCloseConnection (r : HttpResponse) (on : bool) : HttpResponse :=
  mkResponse (resp_headers_ r) (statusCode_ r) (statusMessage_ r) on (body_ r).
Definition closeConnection (r : HttpResponse) : bool := closeConnection_ r.
Definition addHeader (r : HttpResponse) (key value : list Z) : HttpResponse :=
  mkResponse (<[key := value]> (resp_headers_ r)) (statusCode_ r) (statusMessage_ r) (closeConnection_ r) (body_ r).
Definition setContentType (r : HttpResponse) (contentType : list Z) : HttpResponse :=
  addHeader r (chars "Content-Type") contentType.
Definition setBody (r : HttpResponse) (body : list Z) : HttpResponse :=
  mkResponse (resp_headers_ r) (statusCode_ r) (statusMessage_ r) (closeConnection_ r) body.

End Response.

Inductive HttpRequestParseState := kExpectRequestLine | kExpectHeaders | kExpectBody | kGotAll.

#[global] Instance HttpRequestParseState_eq_dec : EqDecision HttpRequestParseState.
Proof. solve_decision. Defined.

Record HttpContext := mkContext { parse_state_ : HttpRequestParseState; request_ : HttpRequest }.

Module Context.

Definition new_HttpContext : HttpContext := mkContext kExpectRequestLine Request.new_HttpRequest.
Definition gotAll (c : HttpContext) : bool := bool_decide (parse_state_ c = kGotAll).
Definition reset (c : HttpContext) : HttpContext :=
  let dummy := Request.new_HttpRequest in
  mkContext kExpectRequestLine (fst (Request.swap (request_ c) dummy)).
Definition request (c : HttpContext) : HttpRequest := request_ c.

End Context.

(** ** Lemmas *)

Definition spaces (l : list Z) : Prop := Forall (fun c => isspace c = true) l.

(** The text does not begin with a space, and does not end with one. *)
Definition tight (v : list Z) : Prop :=
  (forall c, head v = Some c -> isspace c = false) /\ (forall c, last v = Some c -> isspace c = false).

Lemma read_one (b1 b2 : list Z) (c : Z) : read_at (b1 ++ c :: b2) (zlen b1) 1 = Ok [c].
Proof.
  rewrite read_at_ok by zlia. rewrite zdrop_app_eq by lia. done.
Qed.

Lemma skip_spaces_spec sp : forall fuel (pre v post : list Z),
  spaces sp -> (forall c, head v = Some c -> isspace c = false) -> (length (sp ++ v) <= fuel)%nat ->
  skip_spaces fuel (pre ++ sp ++ v ++ post) (zlen pre) (zlen pre + zlen sp + zlen v) = Ok (zlen pre + zlen sp).
Proof.
  induction sp as [|x sp IH]; intros fuel pre v post Hsp Hv Hf.
  - rewrite zlen_nil, Z.add_0_r. simpl ([] ++ _) in *. destruct v as [|c v].
    + rewrite zlen_nil, Z.add_0_r. destruct fuel; simpl; by rewrite Z.ltb_irrefl.
    + destruct fuel as [|fuel]; [simpl in Hf; lia|]. cbn [skip_spaces].
      rewrite (proj2 (Z.ltb_lt _ _)) by zlia. rewrite <- app_comm_cons, read_one. cbn [res_bind]. simpl.
      by rewrite (Hv c).
  - apply Forall_cons in Hsp as [Hx Hsp]. destruct fuel as [|fuel]; [simpl in Hf; lia|].
    cbn [skip_spaces]. rewrite (proj2 (Z.ltb_lt _ _)) by zlia. rewrite <- app_comm_cons, read_one.
    cbn [res_bind]. simpl (head _). simpl (default _ _). rewrite Hx.
    pose proof (IH fuel (pre ++ [x]) v post Hsp Hv ltac:(simpl in Hf; lia)) as H.
    rewrite <- app_assoc in H. simpl ([x] ++ _) in H. rewrite zlen_app in H. change (zlen [x]) with 1 in H.
    rewrite zlen_cons. replace (zlen pre + (1 + zlen sp)) with (zlen pre + 1 + zlen sp) by lia. exact H.
Qed.

Lemma trim_end_spec sp : forall fuel v,
  spaces sp -> (forall c, last v = Some c -> isspace c = false) -> (length sp <= fuel)%nat ->
  trim_end fuel (v ++ sp) = Ok v.
Proof.
  induction sp as [|x sp IH] using rev_ind; intros fuel v Hsp Hv Hf.
  - rewrite app_nil_r. destruct fuel; simpl; destruct (last v) as [c|] eqn:E; try done; by rewrite (Hv c).
  - apply Forall_app in Hsp as [Hsp Hx]. apply Forall_cons in Hx as [Hx _].
    rewrite length_app in Hf. simpl in Hf. destruct fuel as [|fuel]; [lia|].
    cbn [trim_end]. rewrite app_assoc, last_snoc, Hx.
    assert (ztake (zlen ((v ++ sp) ++ [x]) - 1) ((v ++ sp) ++ [x]) = v ++ sp) as ->.
    { apply ztake_app_eq. rewrite (zlen_app (v ++ sp)). change (zlen [x]) with 1. lia. }
    apply IH; [done | done | lia].
Qed.

(** The line [field: value] in an object, with spaces around the value. *)
Lemma addHeader_spec r (pre field sp1 v sp2 post : list Z) :
  spaces sp1 -> spaces sp2 -> tight v -> (v = [] -> sp2 = []) ->
  let b := pre ++ field ++ 58 :: sp1 ++ v ++ sp2 ++ post in
  let colon := zlen pre + zlen field in
  Request.addHeader r b (zlen pre) colon (colon + 1 + zlen sp1 + zlen v + zlen sp2) =
    Ok (mkRequest (method_ r) (version_ r) (path_ r) (query_ r) (receiveTime_ r) (<[field := v]> (headers_ r))).
Proof.
  intros H1 H2 [Hh Hl] Hnil b colon. unfold Request.addHeader, string_of.
  assert (read_at b (zlen pre) (colon - zlen pre) = Ok field) as ->.
  { unfold b, colon. rewrite read_at_ok by zlia. rewrite zdrop_app_eq by lia. by rewrite ztake_app_eq by lia. }
  cbn [res_bind].
  set (end_ := colon + 1 + zlen sp1 + zlen v + zlen sp2).
  assert (skip_spaces (Z.to_nat (end_ - (colon + 1))) b (colon + 1) end_ = Ok (colon + 1 + zlen sp1)) as ->.
  { pose proof (skip_spaces_spec sp1 (Z.to_nat (end_ - (colon + 1))) (pre ++ field ++ [58]) (v ++ sp2) post H1) as H.
    unfold b, end_, colon in *. rewrite <- !app_assoc in H. simpl ([58] ++ _) in H.
    rewrite !zlen_app in H. change (zlen [58]) with 1 in H.
    rewrite !Z.add_assoc in H. apply H.
    - intros c. destruct v as [|x v]; [|apply Hh]. rewrite Hnil by done. done.
    - rewrite !length_app. unfold zlen. lia. }
  cbn [res_bind].
  assert (read_at b (colon + 1 + zlen sp1) (end_ - (colon + 1 + zlen sp1)) = Ok (v ++ sp2)) as ->.
  { unfold b, end_, colon. rewrite read_at_ok by zlia.
    replace (pre ++ field ++ 58 :: sp1 ++ v ++ sp2 ++ post) with ((pre ++ field ++ [58] ++ sp1) ++ (v ++ sp2) ++ post)
      by (by rewrite <- !app_assoc).
    rewrite zdrop_app_eq by (rewrite !zlen_app; change (zlen [58]) with 1; lia).
    rewrite ztake_app_eq by (rewrite zlen_app; lia). done. }
  cbn [res_bind]. rewrite trim_end_spec; [done | done | done | rewrite length_app; lia].
Qed.

Lemma setMethod_methodString r :
  method_ r = kInvalid -> forall m, m <> kInvalid ->
  let text := Request.methodString (Request.set_method r m) in
  Request.setMethod r text 0 (zlen text) = Ok (true, Request.set_method r m).
Proof. intros E m Hm. unfold Request.setMethod. rewrite E. by destruct m. Qed.

(** ** Properties *)

(** A header line [field: value] of a request, wherever it is in the input and
    however many spaces surround the value, is stored as the field with the value
    without the spaces; the other headers and the rest of the request stay; and
    no byte outside of the line is read. *)
Lemma http_header_parsed (r : HttpRequest) (pre field sp1 v sp2 post : list Z) :
  spaces sp1 -> spaces sp2 -> tight v -> (v = [] -> sp2 = []) ->
  let b := pre ++ field ++ 58 :: sp1 ++ v ++ sp2 ++ post in
  let colon := zlen pre + zlen field in
  exists r', Request.addHeader r b (zlen pre) colon (colon + 1 + zlen sp1 + zlen v + zlen sp2) = Ok r' /\
    Request.getHeader r' field = v /\
    (forall f, f <> field -> Request.getHeader r' f = Request.getHeader r f) /\
    Request.method r' = Request.method r /\ Request.path r' = Request.path r /\
    Request.query r' = Request.query r.
Proof.
  intros H1 H2 H3 H4 b colon. eexists. split; [by apply addHeader_spec|].
  unfold Request.getHeader. simpl. rewrite lookup_insert_eq. split_and!; try done.
  intros f Hf. by rewrite lookup_insert_ne.
Qed.

Lemma http_header_parsed_witness :
  exists r', Request.addHeader Request.new_HttpRequest (chars "Host:  example.org ") 0 4 19 = Ok r' /\
    Request.getHeader r' (chars "Host") = chars "example.org".
Proof.
  destruct (http_header_parsed Request.new_HttpRequest [] (chars "Host") [32; 32] (chars "example.org") [32] [])
    as (r' & E & Hg & _).
  - repeat constructor.
  - repeat constructor.
  - split; intros c Hc; vm_compute in Hc; injection Hc as <-; reflexivity.
  - discriminate.
  - exists r'. split; [exact E | exact Hg].
Defined.
