(* ===== verification/Events.v ===== *)
(** * Atomic counters and event masks (muduo/base/Atomic.h, muduo/net/Channel.h)

    [AtomicIntegerT] over an integer of [w] bits: the builtins of the compiler
    wrap around, the addition the class does itself must not overflow.  [Channel]
    is the set of events a file descriptor is watched for.  The values of the
    event constants and [update] are in Channel.cc, which is not among the
    sources. *)

From S2P Require Import Prelude.

(** ** Atomic.h *)

Section atomic.
Context (w : Z).

Record AtomicIntegerT := mkAtomic { value_ : Z }.

Definition new_AtomicIntegerT : AtomicIntegerT := mkAtomic 0.

(** [__sync_val_compare_and_swap], [__sync_fetch_and_add] and
    [__sync_lock_test_and_set]: what they return and what they leave. *)
Definition compare_and_swap (a : AtomicIntegerT) (old new : Z) : Z * AtomicIntegerT :=
  (value_ a, if value_ a =? old then mkAtomic new else a).
Definition fetch_and_add (a : AtomicIntegerT) (x : Z) : Z * AtomicIntegerT :=
  (value_ a, mkAtomic (wraps w (value_ a + x))).
Definition test_and_set (a : AtomicIntegerT) (x : Z) : Z * AtomicIntegerT := (value_ a, mkAtomic x).

(** The addition of the class; overflow of a signed type is undefined. *)
Definition signed_add (x y : Z) : res Z :=
  if (- 2 ^ (w - 1) <=? x + y) && (x + y <? 2 ^ (w - 1)) then Ok (x + y) else Err SignedOverflow.

Definition atomic_get (a : AtomicIntegerT) : Z * AtomicIntegerT := compare_and_swap a 0 0.
Definition getAndAdd (a : AtomicIntegerT) (x : Z) : Z * AtomicIntegerT := fetch_and_add a x.
Definition addAndGet (a : AtomicIntegerT) (x : Z) : res (Z * AtomicIntegerT) :=
  let (v, a) := getAndAdd a x in
  let* r := signed_add v x in Ok (r, a).
Definition incrementAndGet (a : AtomicIntegerT) : res (Z * AtomicIntegerT) := addAndGet a 1.
Definition decrementAndGet (a : AtomicIntegerT) : res (Z * AtomicIntegerT) := addAndGet a (-1).
Definition atomic_add (a : AtomicIntegerT) (x : Z) : AtomicIntegerT := snd (getAndAdd a x).
Definition increment (a : AtomicIntegerT) : res AtomicIntegerT :=
  let* (_, a) := incrementAndGet a in Ok a.
Definition decrement (a : AtomicIntegerT) : res AtomicIntegerT :=
  let* (_, a) := decrementAndGet a in Ok a.
Definition getAndSet (a : AtomicIntegerT) (newValue : Z) : Z * AtomicIntegerT := test_and_set a newValue.

(** Reading does not change the counter, also when it is 0. *)
Lemma atomic_get_pure a : atomic_get a = (value_ a, a).
Proof.
  unfold atomic_get, compare_and_swap. destruct (Z.eqb_spec (value_ a) 0) as [E|E]; [|done].
  destruct a as [v]. simpl in *. by subst.
Qed.

(** [n] tickets: whoever draws them, and in whatever order the calls come. *)
Fixpoint tickets (n : nat) (a : AtomicIntegerT) : res (list Z * AtomicIntegerT) :=
  match n with
  | O => Ok ([], a)
  | S n =>
      let* (v, a) := incrementAndGet a in
      let* (vs, a) := tickets n a in
      Ok (v :: vs, a)
  end.

(** The tickets are the next [n] numbers, so no two calls return the same. *)
Lemma tickets_spec n a :
  0 < w -> - 2 ^ (w - 1) <= value_ a -> value_ a + Z.of_nat n < 2 ^ (w - 1) ->
  tickets n a = Ok ((fun i => value_ a + 1 + Z.of_nat i) <$> seq 0 n, mkAtomic (value_ a + Z.of_nat n)).
Proof.
  revert a. induction n as [|n IH]; intros [v] Hw Hlo Hhi; cbn [value_] in *.
  { simpl. by rewrite Z.add_0_r. }
  cbn [tickets]. unfold incrementAndGet, addAndGet, getAndAdd, fetch_and_add, signed_add. cbn [value_].
  rewrite (proj2 (Z.leb_le _ _)), (proj2 (Z.ltb_lt _ _)) by lia. cbn [andb res_bind].
  rewrite wraps_id by lia. rewrite IH by (cbn [value_]; lia). cbn [res_bind value_].
  do 2 f_equal; [|f_equal; lia]. simpl. f_equal; [lia|]. rewrite <- fmap_S_seq, <- list_fmap_compose.
  apply list_fmap_ext. intros i x _. unfold compose. lia.
Qed.

Lemma tickets_distinct n a vs a' :
  0 < w -> - 2 ^ (w - 1) <= value_ a -> value_ a + Z.of_nat n < 2 ^ (w - 1) ->
  tickets n a = Ok (vs, a') -> NoDup vs.
Proof.
  intros Hw Hlo Hhi. rewrite tickets_spec by done. intros [= <- _].
  apply NoDup_fmap_2; [|apply NoDup_seq]. intros i j. lia.
Qed.

End atomic.

(** ** Channel.h *)

Record Channel := mkChannel {
  fd_ : Z;
  events_ : Z;
  revents_ : Z;
  index_ : Z;
  logHup_ : bool;
  updates : list Z    (* the masks handed to the loop by [update] *)
}.

Section channel.
Context (kNoneEvent kReadEvent kWriteEvent : Z).

Definition channel_update (c : Channel) : Channel :=
  mkChannel (fd_ c) (events_ c) (revents_ c) (index_ c) (logHup_ c) (updates c ++ [events_ c]).
Definition set_events (c : Channel) (e : Z) : Channel :=
  mkChannel (fd_ c) e (revents_ c) (index_ c) (logHup_ c) (updates c).

Definition channel_fd (c : Channel) : Z := fd_ c.
Definition channel_events (c : Channel) : Z := events_ c.
Definition set_revents (c : Channel) (revt : Z) : Channel :=
  mkChannel (fd_ c) (events_ c) revt (index_ c) (logHup_ c) (updates c).
Definition isNoneEvent (c : Channel) : bool := events_ c =? kNoneEvent.
Definition enableReading (c : Channel) : Channel :=
  channel_update (set_events c (Z.lor (events_ c) kReadEvent)).
Definition disableReading (c : Channel) : Channel :=
  channel_update (set_events c (Z.land (events_ c) (Z.lnot kReadEvent))).
Definition enableWriting (c : Channel) : Channel :=
  channel_update (set_events c (Z.lor (events_ c) kWriteEvent)).
Definition disableWriting (c : Channel) : Channel :=
  channel_update (set_events c (Z.land (events_ c) (Z.lnot kWriteEvent))).
Definition disableAll (c : Channel) : Channel := channel_update (set_events c kNoneEvent).
Definition isWriting (c : Channel) : bool := negb (Z.land (events_ c) kWriteEvent =? 0).
Definition isReadingEvents (c : Channel) : bool := negb (Z.land (events_ c) kReadEvent =? 0).
Definition channel_index (c : Channel) : Z := index_ c.
Definition set_index (c : Channel) (idx : Z) : Channel :=
  mkChannel (fd_ c) (events_ c) (revents_ c) idx (logHup_ c) (updates c).
Definition doNotLogHup (c : Channel) : Channel :=
  mkChannel (fd_ c) (events_ c) (revents_ c) (index_ c) false (updates c).

(** The constants are different bits. *)
Hypothesis none_zero : kNoneEvent = 0.
Hypothesis read_nonzero : kReadEvent <> 0.
Hypothesis write_nonzero : kWriteEvent <> 0.
Hypothesis disjoint : Z.land kReadEvent kWriteEvent = 0.

Lemma land_lor_same x k : Z.land (Z.lor x k) k = k.
Proof.
  apply Z.bits_inj'. intros n Hn. rewrite Z.land_spec, Z.lor_spec.
  destruct (Z.testbit x n), (Z.testbit k n); done.
Qed.

Lemma land_clear_same x k : Z.land (Z.land x (Z.lnot k)) k = 0.
Proof.
  apply Z.bits_inj'. intros n Hn. rewrite !Z.land_spec, Z.lnot_spec, Z.bits_0 by done.
  destruct (Z.testbit x n), (Z.testbit k n); done.
Qed.

Lemma disjoint_bit n : Z.testbit kReadEvent n && Z.testbit kWriteEvent n = false.
Proof. rewrite <- Z.land_spec, disjoint. apply Z.bits_0. Qed.

Lemma land_lor_other x : Z.land (Z.lor x kReadEvent) kWriteEvent = Z.land x kWriteEvent.
Proof.
  apply Z.bits_inj'. intros n Hn. rewrite !Z.land_spec, Z.lor_spec. pose proof (disjoint_bit n).
  destruct (Z.testbit x n), (Z.testbit kReadEvent n), (Z.testbit kWriteEvent n); done.
Qed.

Lemma land_clear_other x : Z.land (Z.land x (Z.lnot kReadEvent)) kWriteEvent = Z.land x kWriteEvent.
Proof.
  apply Z.bits_inj'. intros n Hn. rewrite !Z.land_spec, Z.lnot_spec by done. pose proof (disjoint_bit n).
  destruct (Z.testbit x n), (Z.testbit kReadEvent n), (Z.testbit kWriteEvent n); done.
Qed.

(** Reading is switched on and off without touching writing, and the loop is
    told the new mask each time. *)
Lemma reading_switch c :
  isReadingEvents (enableReading c) = true /\ isReadingEvents (disableReading c) = false /\
  isWriting (enableReading c) = isWriting c /\ isWriting (disableReading c) = isWriting c /\
  isNoneEvent (disableAll c) = true /\ isReadingEvents (disableAll c) = false /\
  last (updates (enableReading c)) = Some (events_ (enableReading c)).
Proof.
  unfold isReadingEvents, isWriting, isNoneEvent. cbn [events_ enableReading disableReading disableAll channel_update set_events updates].
  rewrite land_lor_same, land_clear_same, land_lor_other, land_clear_other, none_zero, Z.land_0_l, last_snoc.
  rewrite (proj2 (Z.eqb_neq _ _)) by done. done.
Qed.

End channel.
