(* ===== verification/Ring.v ===== *)
(** * Circular arrays

    Both queues of the C client (API/C/netWork.h) are arrays of a fixed size
    with a read and a write pointer that go back to the start after the last
    slot.  A pointer into the array is its index.  [ring] relates the array and
    the pointers to the queue they stand for; what the queues do with lengths
    and with memory is in RecvFifo.v and SendFifo.v. *)

From S2P Require Import Prelude.

(** Access to one slot of an array. *)
Definition get_at {A} (l : list A) (i : Z) : res A :=
  if 0 <=? i then match l !! Z.to_nat i with Some x => Ok x | None => Err OutOfBounds end
  else Err OutOfBounds.
Definition set_at {A} (l : list A) (i : Z) (x : A) : res (list A) :=
  if (0 <=? i) && (i <? zlen l) then Ok (<[Z.to_nat i := x]> l) else Err OutOfBounds.

(** [if (p == &a[n - 1]) p = a; else p++;] *)
Definition advance (n i : Z) : Z := if i =? n - 1 then 0 else i + 1.

(** Signed 32 bit addition; overflow is undefined. *)
Definition add32 (x y : Z) : res Z :=
  if (- 2 ^ 31 <=? x + y) && (x + y <? 2 ^ 31) then Ok (x + y) else Err SignedOverflow.

Lemma add32_ok x y : - 2 ^ 31 <= x + y < 2 ^ 31 -> add32 x y = Ok (x + y).
Proof. intros. unfold add32. bool_lia. done. Qed.

Lemma get_at_ok {A} (l : list A) i x : 0 <= i -> l !! Z.to_nat i = Some x -> get_at l i = Ok x.
Proof. intros ? H. unfold get_at. bool_lia. by rewrite H. Qed.

Lemma set_at_ok {A} (l : list A) i x :
  0 <= i < zlen l -> set_at l i x = Ok (<[Z.to_nat i := x]> l).
Proof. intros. unfold set_at. bool_lia. done. Qed.

Section ring.
Context {A : Type} (n : Z).

Record ring (data : list A) (r w : Z) (q : list A) : Prop := {
  ring_size : zlen data = n;
  ring_r : 0 <= r < n;
  ring_w : w = (r + zlen q) mod n;
  ring_fits : zlen q <= n;
  ring_slots k x : q !! k = Some x -> data !! Z.to_nat ((r + Z.of_nat k) mod n) = Some x
}.

Lemma advance_mod i : 0 <= i < n -> advance n i = (i + 1) mod n.
Proof.
  intros H. unfold advance. destruct (Z.eqb_spec i (n - 1)) as [->|].
  - replace (n - 1 + 1) with (1 * n) by lia. by rewrite Z.mod_mul by lia.
  - rewrite Z.mod_small; lia.
Qed.

Lemma advance_range i : 0 <= i < n -> 0 <= advance n i < n.
Proof. intros H. rewrite advance_mod by done. apply Z.mod_pos_bound. lia. Qed.

Lemma ring_w_range data r w q : ring data r w q -> 0 <= w < n.
Proof. intros [_ Hr -> _ _]. apply Z.mod_pos_bound. lia. Qed.

Lemma ring_empty data r : zlen data = n -> 0 <= r < n -> ring data r r [].
Proof.
  intros Hs Hr. split; try done; rewrite ?zlen_nil; [|lia].
  rewrite Z.add_0_r, Z.mod_small; lia.
Qed.

(** Two different offsets below the size name two different slots. *)
Lemma slot_ne r a b : 0 < n -> 0 <= a < n -> 0 <= b < n -> a <> b -> (r + a) mod n <> (r + b) mod n.
Proof.
  intros Hn Ha Hb Hne H. apply Hne.
  assert ((a - b) mod n = 0) as Hm.
  { replace (a - b) with ((r + a) - (r + b)) by lia.
    by rewrite Zminus_mod, H, Z.sub_diag, Z.mod_0_l by lia. }
  apply Z.mod_divide in Hm as [k Hk]; [|lia].
  assert (- n < k * n < n) by lia. assert (-1 < k < 1) as Hk0 by nia.
  assert (k = 0) as -> by lia. lia.
Qed.

Lemma ring_push data r w q x :
  ring data r w q -> zlen q < n ->
  exists data', set_at data w x = Ok data' /\ ring data' r (advance n w) (q ++ [x]).
Proof.
  intros H Hq. pose proof (ring_w_range _ _ _ _ H) as Hw. destruct H as [Hs Hr Ew _ Hd].
  exists (<[Z.to_nat w := x]> data). split; [by rewrite set_at_ok by lia|]. split.
  - unfold zlen in *. by rewrite length_insert.
  - done.
  - rewrite advance_mod by done. rewrite Ew, zlen_app.
    rewrite Z.add_mod_idemp_l by lia. f_equal. zlia.
  - zlia.
  - intros k y Hk.
    assert (Z.of_nat k < zlen q + 1) as Hkq.
    { apply lookup_lt_Some in Hk. rewrite length_app in Hk. unfold zlen. simpl in Hk. lia. }
    destruct (decide (Z.of_nat k = zlen q)) as [E|E].
    + assert (y = x) as ->.
      { rewrite lookup_app_r in Hk by (unfold zlen in E; lia).
        replace (k - length q)%nat with 0%nat in Hk by (unfold zlen in E; lia).
        simpl in Hk. congruence. }
      rewrite E, <- Ew. apply list_lookup_insert_eq. unfold zlen in Hs. lia.
    + rewrite list_lookup_insert_ne.
      * apply Hd. by rewrite lookup_app_l in Hk by (unfold zlen in *; lia).
      * intros E'. rewrite Ew in E'.
        apply (slot_ne r (zlen q) (Z.of_nat k)); [lia | zlia | lia | lia |].
        pose proof (Z.mod_pos_bound (r + zlen q) n). pose proof (Z.mod_pos_bound (r + Z.of_nat k) n). lia.
Qed.

Lemma ring_top data r w x q : ring data r w (x :: q) -> get_at data r = Ok x.
Proof.
  intros [_ Hr _ _ Hd]. apply get_at_ok; [lia|]. specialize (Hd 0%nat x eq_refl).
  by rewrite Z.add_0_r, Z.mod_small in Hd by lia.
Qed.

Lemma ring_pop data r w x q : ring data r w (x :: q) -> ring data (advance n r) w q.
Proof.
  intros [Hs Hr Ew Hf Hd]. rewrite advance_mod by done. split.
  - done.
  - apply Z.mod_pos_bound. lia.
  - rewrite Ew, Z.add_mod_idemp_l by lia. f_equal. zlia.
  - zlia.
  - intros k y Hk. specialize (Hd (S k) y Hk).
    rewrite Z.add_mod_idemp_l by lia. by replace (r + 1 + Z.of_nat k) with (r + Z.of_nat (S k)) by lia.
Qed.

End ring.

#[global] Arguments advance : simpl never.
#[global] Arguments add32 : simpl never.
