(* ===== verification/MuduoBase.v ===== *)
(** * Small classes of muduo (muduo/base/Logging.h, Date.h, Types.h, CurrentThread.h,
    Singleton.h, ThreadLocal.h, ThreadLocalSingleton.h, WeakCallback.h, GzipFile.h,
    muduo/net/EventLoop.h)

    What these headers define themselves; what they declare only is a parameter.
    [Names]: the name of a source file in a log line, and which log statements are
    compiled to a call.  [Calendar]: days of the week.  [Casts]: Types.h.
    [Threads]: the cached thread id, and that a loop stays in its thread.
    [Once]: Singleton.h with any number of threads.  [PerThread]: an object per
    thread.  [Handles]: who closes a file, and callbacks on objects that may be
    gone. *)

From S2P Require Import Prelude Endian StringPiece Ring.

(** ** Logging.h *)

Module Names.

Inductive LogLevel := TRACE | DEBUG | INFO | WARN | ERROR | FATAL | NUM_LOG_LEVELS.

Definition level (l : LogLevel) : Z :=
  match l with TRACE => 0 | DEBUG => 1 | INFO => 2 | WARN => 3 | ERROR => 4 | FATAL => 5 | NUM_LOG_LEVELS => 6 end.

(** Whether [LOG_TRACE], [LOG_DEBUG] and [LOG_INFO] create a [Logger], given
    [logLevel()]; the other macros always do. *)
Definition logs (g_logLevel l : LogLevel) : bool :=
  match l with
  | TRACE | DEBUG | INFO => level g_logLevel <=? level l
  | _ => true
  end.

(** [CheckNotNull]: the pointer, and whether it was logged as fatal. *)
Definition CheckNotNull {A} (ptr : option A) : option A * bool :=
  match ptr with None => (None, true) | Some p => (Some p, false) end.

Record SourceFile := mkSourceFile { data_ : cptr; size_ : Z }.

(** [strrchr(s, '/')] on a string that starts at [off]: the position in the array. *)
Fixpoint last_slash (l : list Z) (i : Z) (found : option Z) : res (option Z) :=
  match l with
  | [] => Err OutOfBounds
  | c :: l => if c =? 0 then Ok found
              else last_slash l (i + 1) (if c =? 47 then Some i else found)
  end.
Definition strrchr_slash (p : cptr) : res (option cptr) :=
  let* r := last_slash (zdrop (off p) (blk p)) (off p) None in
  Ok (mkPtr (blk p) <$> r).

Fixpoint strlen_list (l : list Z) : res Z :=
  match l with
  | [] => Err OutOfBounds
  | c :: l => if c =? 0 then Ok 0 else let* n := strlen_list l in Ok (1 + n)
  end.
Definition strlen (p : cptr) : res Z := strlen_list (zdrop (off p) (blk p)).

(** The constructor for a string literal, an array of [N] characters. *)
Definition of_array (arr : list Z) : res SourceFile :=
  let p := mkPtr arr 0 in
  let size := zlen arr - 1 in
  let* slash := strrchr_slash p in
  match slash with
  | Some q => let d := mkPtr (blk q) (off q + 1) in Ok (mkSourceFile d (size - i32 (off d - off p)))
  | None => Ok (mkSourceFile p size)
  end.

(** The constructor for a pointer. *)
Definition of_filename (filename : cptr) : res SourceFile :=
  let* slash := strrchr_slash filename in
  let d := match slash with Some q => mkPtr (blk q) (off q + 1) | None => filename end in
  let* n := strlen d in
  Ok (mkSourceFile d (i32 n)).

(** The part of a name after its last slash. *)
Definition basename (s : list Z) : list Z :=
  foldl (fun acc c => if c =? 47 then [] else acc ++ [c]) [] s.

Lemma basename_snoc s c : basename (s ++ [c]) = (if c =? 47 then [] else basename s ++ [c]).
Proof. unfold basename. by rewrite foldl_app. Qed.

Lemma basename_suffix s : exists d, s = d ++ basename s /\ (47 ∉ basename s) /\ (d = [] \/ exists d', d = d' ++ [47]).
Proof.
  induction s as [|c s IH] using rev_ind; [exists []; set_solver|].
  rewrite basename_snoc. destruct (Z.eqb_spec c 47) as [->|Hc].
  - exists (s ++ [47]). split_and!; [by rewrite app_nil_r | set_solver | eauto].
  - destruct IH as (d & E & Hn & Hd). exists d. split_and!; [by rewrite app_assoc, <- E | set_solver | done].
Qed.

Lemma last_slash_spec s : forall r i found,
  Forall (fun c => c <> 0) s ->
  last_slash (s ++ 0 :: r) i found =
    Ok (if decide (47 ∈ s) then Some (i + zlen s - zlen (basename s) - 1) else found).
Proof.
  assert (forall s i found, Forall (fun c => c <> 0) s -> forall r,
    last_slash (s ++ 0 :: r) i found =
      Ok (foldl (fun st c => (st.1 + 1, if c =? 47 then Some st.1 else st.2)) (i, found) s).2) as H.
  { clear s. intros s. induction s as [|c s IH]; intros i found Hs r; [done|]. apply Forall_cons in Hs as [Hc Hs].
    simpl. rewrite (proj2 (Z.eqb_neq _ _) Hc). by rewrite IH. }
  intros r i found Hs. rewrite H by done. f_equal. clear.
  assert (forall s, foldl (fun st c => (st.1 + 1, if c =? 47 then Some st.1 else st.2)) (i, found) s =
    (i + zlen s, if decide (47 ∈ s) then Some (i + zlen s - zlen (basename s) - 1) else found)) as ->; [|done].
  clear s. intros s. induction s as [|c s IH] using rev_ind.
  { simpl. unfold zlen. simpl. by rewrite Z.add_0_r. }
  rewrite foldl_app, IH. simpl. rewrite basename_snoc, !zlen_app. change (zlen [c]) with 1.
  destruct (Z.eqb_spec c 47) as [->|Hc].
  - rewrite decide_True by set_solver. change (zlen []) with 0. f_equal; [lia|]. f_equal. lia.
  - rewrite zlen_app. change (zlen [c]) with 1. f_equal; [lia|].
    destruct (decide (47 ∈ s)); [rewrite decide_True by set_solver; f_equal; lia | by rewrite decide_False by set_solver].
Qed.

Lemma strlen_list_spec s r : Forall (fun c => c <> 0) s -> strlen_list (s ++ 0 :: r) = Ok (zlen s).
Proof.
  induction 1 as [|c s Hc _ IH]; [done|]. simpl. rewrite (proj2 (Z.eqb_neq _ _) Hc), IH. simpl. by rewrite zlen_cons.
Qed.

(** The two constructors of [SourceFile] agree on the name of a file: both
    point at the part after the last slash, with its length. *)
Lemma source_file_basename (s : list Z) :
  Forall (fun c => c <> 0) s -> zlen s < 2 ^ 31 - 1 ->
  exists f, of_array (s ++ [0]) = Ok f /\ of_filename (mkPtr (s ++ [0]) 0) = Ok f /\
    deref (Some (data_ f)) (size_ f) = Ok (basename s) /\
    exists d, s = d ++ basename s /\ (47 ∉ basename s) /\ (d = [] \/ exists d', d = d' ++ [47]).
Proof.
  intros Hs Hl. destruct (basename_suffix s) as (d & E & Hn & Hd). pose proof (zlen_nonneg d).
  pose proof (f_equal zlen E) as Hz. rewrite zlen_app in Hz. pose proof (zlen_nonneg (basename s)).
  assert (s ++ [0] = d ++ basename s ++ [0]) as Es by (rewrite E at 1; by rewrite <- app_assoc).
  exists (mkSourceFile (mkPtr (s ++ [0]) (zlen d)) (zlen (basename s))).
  assert (strrchr_slash (mkPtr (s ++ [0]) 0) = Ok (if decide (47 ∈ s) then Some (mkPtr (s ++ [0]) (zlen d - 1)) else None)) as Hsl.
  { unfold strrchr_slash. cbn [off blk]. change (zdrop 0 (s ++ [0])) with (s ++ [0]). rewrite last_slash_spec by done.
    cbn [res_bind]. case_decide; [|done]. simpl. do 3 f_equal. lia. }
  assert (47 ∉ s -> d = []) as Hno.
  { intros Hin. destruct Hd as [?|[d' ->]]; [done|]. destruct Hin. rewrite E, <- app_assoc.
    apply elem_of_app. right. left. }
  assert (strlen (mkPtr (s ++ [0]) (zlen d)) = Ok (zlen (basename s))) as Hlen.
  { unfold strlen. cbn [off blk]. rewrite Es.
    rewrite (zdrop_app_eq (zlen d) d) by done. apply strlen_list_spec.
    rewrite E in Hs. by apply Forall_app in Hs as [_ Hs]. }
  split_and!; [| | |eauto].
  - unfold of_array. rewrite Hsl. cbn [res_bind]. rewrite zlen_app. change (zlen [0]) with 1. case_decide as Hin.
    + cbn [blk off]. rewrite wraps_id by lia. do 3 f_equal; [f_equal; lia | lia].
    + rewrite (Hno Hin) in *. change (zlen []) with 0 in *. do 2 f_equal. lia.
  - unfold of_filename. rewrite Hsl. cbn [res_bind]. case_decide as Hin.
    + cbn [blk off]. replace (zlen d - 1 + 1) with (zlen d) by lia. rewrite Hlen. cbn [res_bind].
      by rewrite wraps_id by lia.
    + rewrite (Hno Hin) in *. change (zlen []) with 0 in *. rewrite Hlen. cbn [res_bind]. by rewrite wraps_id by lia.
  - cbn [data_ size_]. unfold deref. destruct (Z.eqb_spec (zlen (basename s)) 0) as [E0|_].
    { destruct (basename s); [done | rewrite zlen_cons in E0; zlia]. }
    cbn [blk off]. rewrite read_at_ok by (rewrite ?zlen_app; zlia). rewrite Es.
    rewrite (zdrop_app_eq (zlen d) d) by done. by rewrite ztake_app_eq.
Qed.

End Names.

(** ** Date.h *)

Module Calendar.

Record Date := mkDate { julianDayNumber_ : Z }.
Record YearMonthDay := mkYMD { ymd_year : Z; ymd_month : Z; ymd_day : Z }.

Definition kDaysPerWeek : Z := 7.
Definition new_Date : Date := mkDate 0.
Definition of_julian (n : Z) : Date := mkDate n.
Definition swap (d that : Date) : Date * Date := (that, d).
Definition valid (d : Date) : bool := 0 <? julianDayNumber_ d.
Definition julianDayNumber (d : Date) : Z := julianDayNumber_ d.
(** [%] of C++, which truncates. *)
Definition weekDay (d : Date) : res Z :=
  let* n := add32 (julianDayNumber_ d) 1 in Ok (Z.rem n kDaysPerWeek).
Definition ltb (x y : Date) : bool := julianDayNumber x <? julianDayNumber y.
Definition eqb (x y : Date) : bool := julianDayNumber x =? julianDayNumber y.

Section fields.
(** [yearMonthDay] is in Date.cc. *)
Context (yearMonthDay : Date -> YearMonthDay).
Definition year (d : Date) : Z := ymd_year (yearMonthDay d).
Definition month (d : Date) : Z := ymd_month (yearMonthDay d).
Definition day (d : Date) : Z := ymd_day (yearMonthDay d).
End fields.

(** The day of the week of a valid date is one of seven, and goes round with the
    days; the last day number overflows. *)
Lemma week_day_cycles (n : Z) :
  0 < n < 2 ^ 31 - 2 ->
  exists k, weekDay (of_julian n) = Ok k /\ 0 <= k < 7 /\
    weekDay (of_julian (n + 1)) = Ok (if k =? 6 then 0 else k + 1).
Proof.
  intros H. exists ((n + 1) mod 7). unfold weekDay, of_julian, kDaysPerWeek. cbn [julianDayNumber_].
  rewrite !add32_ok by lia. cbn [res_bind]. rewrite !Z.rem_mod_nonneg by lia.
  pose proof (Z.mod_pos_bound (n + 1) 7 ltac:(lia)) as Hb. split_and!; [done | lia | lia |]. f_equal.
  rewrite <- (Z.add_mod_idemp_l (n + 1) 1) by lia. destruct (Z.eqb_spec ((n + 1) mod 7) 6) as [->|Hne]; [done|].
  apply Z.mod_small. lia.
Qed.

Example first_of_1970 : weekDay (of_julian 2440588) = Ok 4.
Proof. reflexivity. Qed.
Example last_day_number : weekDay (of_julian (2 ^ 31 - 1)) = Err SignedOverflow.
Proof. reflexivity. Qed.

End Calendar.

(** ** Types.h *)

Module Casts.

(** [memset(p, 0, n)] at the position [i] of an object. *)
Definition memZero (l : list Z) (i n : Z) : res (list Z) := write_at l i (replicate (Z.to_nat n) 0).

Definition implicit_cast {From To} (convert : From -> To) (f : From) : To := convert f.

(** [dynamic] is [dynamic_cast<To>], which gives null for an object of another
    class. *)
Definition down_cast {From To} (dynamic : From -> option To) (f : option From) : res (option To) :=
  match f with
  | None => Ok None
  | Some x => match dynamic x with Some y => Ok (Some y) | None => Err AssertFail end
  end.

Lemma memZero_clears l i n :
  0 <= i -> 0 <= n -> i + n <= zlen l ->
  memZero l i n = Ok (ztake i l ++ replicate (Z.to_nat n) 0 ++ zdrop (i + n) l).
Proof.
  intros. unfold memZero. assert (zlen (replicate (Z.to_nat n) 0) = n) as Hz
    by (unfold zlen; rewrite length_replicate; lia).
  by rewrite write_at_ok, Hz by lia.
Qed.

End Casts.

(** ** CurrentThread.h and the loop thread of EventLoop.h *)

Module Threads.

(** The thread-local [t_cachedTid] of each thread; 0 before it is set. *)
Abbreviation cache := (gmap nat Z).

Section tids.
(** [cacheTid] stores [gettid()], which is not 0. *)
Context (gettid : nat -> Z).

(** The id, the cache afterwards, and whether the system was asked. *)
Definition tid (t : nat) (c : cache) : Z * cache * bool :=
  if default 0 (c !! t) =? 0 then (gettid t, <[t := gettid t]> c, true) else (default 0 (c !! t), c, false).

(** [isInLoopThread] of a loop with the given [threadId_], called by [t]. *)
Definition isInLoopThread (threadId_ : Z) (t : nat) (c : cache) : bool * cache :=
  let '(v, c, _) := tid t c in (threadId_ =? v, c).

(** [abortNotInLoopThread] logs and aborts. *)
Definition assertInLoopThread (threadId_ : Z) (t : nat) (c : cache) : res cache :=
  let (b, c) := isInLoopThread threadId_ t c in if b then Ok c else Err AssertFail.

Definition cached (c : cache) : Prop := forall t v, c !! t = Some v -> v = gettid t.

(** The id is right whether or not it is cached, and the system is asked once. *)
Lemma tid_cached (t : nat) (c : cache) :
  (forall t, gettid t <> 0) -> cached c ->
  exists c' b, tid t c = (gettid t, c', b) /\ cached c' /\ tid t c' = (gettid t, c', false).
Proof.
  intros H0 Hc. unfold tid. destruct (c !! t) as [v|] eqn:E; simpl.
  - rewrite (Hc t v E), (proj2 (Z.eqb_neq _ _) (H0 t)). exists c, false. split_and!; [done | done |].
    rewrite E. simpl. by rewrite (Hc t v E), (proj2 (Z.eqb_neq _ _) (H0 t)).
  - exists (<[t := gettid t]> c), true. split_and!; [done | |].
    + intros t' v' [[<- <-]|[_ H]]%lookup_insert_Some; [done | by apply Hc].
    + rewrite lookup_insert_eq. simpl. by rewrite (proj2 (Z.eqb_neq _ _) (H0 t)).
Qed.

(** The assertion holds exactly in the thread of the loop. *)
Lemma loop_thread_checked (loop t : nat) (c : cache) :
  (forall t, gettid t <> 0) -> (forall a b, gettid a = gettid b -> a = b) -> cached c ->
  (exists c', assertInLoopThread (gettid loop) t c = Ok c') <-> loop = t.
Proof.
  intros H0 Hinj Hc. destruct (tid_cached t c H0 Hc) as (c' & b & E & _).
  unfold assertInLoopThread, isInLoopThread. rewrite E.
  destruct (Z.eqb_spec (gettid loop) (gettid t)) as [Hl|Hl]; split; intros H.
  - by apply Hinj.
  - by exists c'.
  - by destruct H.
  - by subst.
Qed.

End tids.

End Threads.

(** ** Singleton.h *)

Module Once.

(** [pthread_once_t]: not called, called by a thread that is not done, done. *)
Inductive once := NotYet | Running (t : nat) | Done.

(** The next step of a thread inside [instance()]; [Returned v] has the result. *)
Inductive pc := Enter | New | AtExit | Leave | Check | Returned (v : nat).

Record singleton := mkSingleton {
  ponce_ : once;
  value_ : option nat;
  objects : list nat;      (* every object that was created, newest first *)
  exit_handlers : nat;     (* how often [destroy] was given to [atexit] *)
  threads : gmap nat pc
}.

Section instance.
(** Whether the class has a member [no_destroy]. *)
Context (has_no_destroy : bool).

(** One step of the thread [t]; [None] while another thread runs [init].  The
    states [New] to [Leave] are [init], called by [pthread_once]. *)
Definition step_of (t : nat) (p : pc) (s : singleton) : option (res (pc * singleton)) :=
  match p with
  | Enter =>
      match ponce_ s with
      | NotYet => Some (Ok (New, mkSingleton (Running t) (value_ s) (objects s) (exit_handlers s) (threads s)))
      | Running _ => None
      | Done => Some (Ok (Check, s))
      end
  | New =>
      let v := length (objects s) in
      Some (Ok (AtExit, mkSingleton (ponce_ s) (Some v) (v :: objects s) (exit_handlers s) (threads s)))
  | AtExit =>
      Some (Ok (Leave, if has_no_destroy then s
                       else mkSingleton (ponce_ s) (value_ s) (objects s) (S (exit_handlers s)) (threads s)))
  | Leave => Some (Ok (Check, mkSingleton Done (value_ s) (objects s) (exit_handlers s) (threads s)))
  | Check =>
      match value_ s with
      | Some v => Some (Ok (Returned v, s))
      | None => Some (Err AssertFail)
      end
  | Returned _ => None
  end.

Definition set_pc (t : nat) (p : pc) (s : singleton) : singleton :=
  mkSingleton (ponce_ s) (value_ s) (objects s) (exit_handlers s) (<[t := p]> (threads s)).

(** [destroy()]: the object that is deleted. *)
Definition destroy (s : singleton) : option nat * singleton :=
  (value_ s, mkSingleton (ponce_ s) None (objects s) (exit_handlers s) (threads s)).

(** A thread calls [instance()], for the first time or again, or makes a step. *)
Inductive sstep : singleton -> singleton -> Prop :=
  | s_call s t :
      (forall p, threads s !! t = Some p -> exists v, p = Returned v) -> sstep s (set_pc t Enter s)
  | s_step s t p p' s' :
      threads s !! t = Some p -> step_of t p s = Some (Ok (p', s')) -> sstep s (set_pc t p' s').

Definition start : singleton := mkSingleton NotYet None [] 0 ∅.

(** Where the threads are, given how far [pthread_once] is. *)
Definition thread_ok (s : singleton) (t : nat) (p : pc) : Prop :=
  match p with
  | Enter => True
  | New | AtExit | Leave => ponce_ s = Running t
  | Check => ponce_ s = Done
  | Returned v => ponce_ s = Done /\ value_ s = Some v
  end.

Definition runner_ok (s : singleton) (p : pc) : Prop :=
  match p with
  | New => value_ s = None /\ objects s = [] /\ exit_handlers s = 0%nat
  | AtExit => value_ s = Some 0%nat /\ objects s = [0%nat] /\ exit_handlers s = 0%nat
  | Leave => value_ s = Some 0%nat /\ objects s = [0%nat] /\ exit_handlers s = (if has_no_destroy then 0 else 1)%nat
  | _ => False
  end.

Record once_inv (s : singleton) : Prop := {
  oi_threads t p : threads s !! t = Some p -> thread_ok s t p;
  oi_once : match ponce_ s with
            | NotYet => value_ s = None /\ objects s = [] /\ exit_handlers s = 0%nat
            | Running t => exists p, threads s !! t = Some p /\ runner_ok s p
            | Done => value_ s = Some 0%nat /\ objects s = [0%nat] /\
                      exit_handlers s = (if has_no_destroy then 0 else 1)%nat
            end
}.

Lemma once_inv_start : once_inv start.
Proof. split; [intros t p; unfold start; simpl; by rewrite lookup_empty | done]. Qed.

(** The runner moves on; the other threads do not look at what it changes. *)
Lemma thread_ok_ext s s' t p :
  ponce_ s' = ponce_ s -> (ponce_ s = Done -> value_ s' = value_ s) -> thread_ok s t p -> thread_ok s' t p.
Proof. intros E Ev. destruct p; simpl; rewrite ?E; try done. intros [Hd Hv]. by rewrite Ev. Qed.

Lemma once_inv_step s s' : sstep s s' -> once_inv s -> once_inv s'.
Proof.
  intros [s1 t Hret|s1 t p p' s2 Hp Hstep] [H1 H2].
  - split; simpl.
    + intros t' p' [[<- <-]|[_ Hx]]%lookup_insert_Some; [done|]. by apply (H1 t' p').
    + destruct (ponce_ s1) as [|r|] eqn:E; [done| |done]. destruct H2 as (p & Hr & Hok). exists p. split; [|done].
      rewrite lookup_insert_ne; [done|]. intros <-. destruct (Hret p Hr) as [v ->]. done.
  - pose proof (H1 t p Hp) as Ht.
    assert (forall t' p', t' <> t -> threads s1 !! t' = Some p' -> ponce_ s1 = Running t ->
      p' = Enter) as Hothers.
    { intros t' q Hne Hq Hr. pose proof (H1 t' q Hq) as Hk. destruct q; simpl in Hk; [done|..]; (congruence || (destruct Hk; congruence)). }
    destruct p; simpl in Ht, Hstep.
    + destruct (ponce_ s1) as [|r|] eqn:E; [|done|]; injection Hstep as <- <-; split; simpl.
      * intros t' q [[<- <-]|[Hne Hx]]%lookup_insert_Some; [done|]. pose proof (H1 t' q Hx) as Hk.
        destruct q; simpl in *; [done|..]; (congruence || (destruct Hk; congruence)).
      * exists New. by rewrite lookup_insert_eq.
      * intros t' q [[<- <-]|[Hne Hx]]%lookup_insert_Some; [done|]. by apply (H1 t' q).
      * by rewrite E.
    + rewrite Ht in H2. destruct H2 as (q & Hq & Hok). rewrite Hp in Hq. injection Hq as <-. destruct Hok as (_ & Ho & Hx).
      injection Hstep as <- <-. split; simpl.
      * intros t' q [[<- <-]|[Hne Hy]]%lookup_insert_Some; [done|]. by rewrite (Hothers t' q).
      * rewrite Ht, Ho. exists AtExit. by rewrite lookup_insert_eq.
    + rewrite Ht in H2. destruct H2 as (q & Hq & Hok). rewrite Hp in Hq. injection Hq as <-. destruct Hok as (Hv & Ho & Hx).
      injection Hstep as <- <-. destruct has_no_destroy eqn:Eb; split; simpl.
      1, 3: intros t' q [[<- <-]|[Hne Hy]]%lookup_insert_Some; [done|]; by rewrite (Hothers t' q).
      all: rewrite Ht; exists Leave; rewrite lookup_insert_eq; simpl; by rewrite Eb, ?Hx.
    + rewrite Ht in H2. destruct H2 as (q & Hq & Hok). rewrite Hp in Hq. injection Hq as <-. destruct Hok as (Hv & Ho & Hx).
      injection Hstep as <- <-. split; simpl; [|done].
      intros t' q [[<- <-]|[Hne Hy]]%lookup_insert_Some; [done|]. by rewrite (Hothers t' q).
    + destruct (value_ s1) as [v|] eqn:Ev; [|done]. injection Hstep as <- <-.
      split; simpl; [|rewrite Ht in *; by rewrite Ev].
      intros t' q [[<- <-]|[Hne Hy]]%lookup_insert_Some; [done|]. by apply (H1 t' q).
    + done.
Qed.

(** However the calls of [instance()] by any number of threads overlap, one
    object is created, its destruction is registered once, every call that
    returns has that object, and the assertion never fails. *)
Lemma singleton_once (s : singleton) :
  rtc sstep start s ->
  (length (objects s) <= 1)%nat /\ (exit_handlers s <= 1)%nat /\
  (forall t1 t2 v1 v2, threads s !! t1 = Some (Returned v1) -> threads s !! t2 = Some (Returned v2) ->
     v1 = v2 /\ value_ s = Some v1) /\
  (forall t p e, threads s !! t = Some p -> step_of t p s <> Some (Err e)).
Proof.
  intros H. assert (once_inv s) as [H1 H2].
  { pose proof once_inv_start as H0. revert H0. induction H as [x|x y z Hxy _ IH]; [done|].
    intros Hx. by apply IH, (once_inv_step x). }
  assert (length (objects s) <= 1 /\ exit_handlers s <= 1)%nat as [Ho He].
  { destruct (ponce_ s) as [|r|].
    - destruct H2 as (_ & -> & ->). simpl. lia.
    - destruct H2 as (p & _ & Hok). destruct p; try done; destruct Hok as (_ & -> & ->); simpl; destruct has_no_destroy; lia.
    - destruct H2 as (_ & -> & ->). simpl. destruct has_no_destroy; lia. }
  split_and!; [done | done | |].
  - intros t1 t2 v1 v2 E1 E2. destruct (H1 _ _ E1) as [_ V1]. destruct (H1 _ _ E2) as [_ V2].
    split; [congruence | done].
  - intros t p e Hp Hs. pose proof (H1 t p Hp) as Ht. destruct p; simpl in *.
    + by destruct (ponce_ s).
    + done.
    + done.
    + done.
    + rewrite Ht in H2. destruct H2 as (Hv & _). by rewrite Hv in Hs.
    + done.
Qed.

End instance.

(** Two threads: the second calls while the first creates the object. *)
Lemma singleton_once_witness :
  exists s, rtc (sstep false) start s /\ objects s = [0%nat] /\
    threads s !! 1%nat = Some (Returned 0) /\ threads s !! 2%nat = Some (Returned 0) /\ (exit_handlers s <= 1)%nat.
Proof.
  set (s := mkSingleton Done (Some 0%nat) [0%nat] 1 {[1%nat := Returned 0; 2%nat := Returned 0]}).
  assert (rtc (sstep false) start s) as H.
  { eapply rtc_l; [apply (s_call false start 1); intros p; vm_compute; discriminate|].
    eapply rtc_l; [eapply (s_step false _ 1 Enter New); reflexivity|].
    eapply rtc_l; [apply (s_call false _ 2); intros p; vm_compute; discriminate|].
    eapply rtc_l; [eapply (s_step false _ 1 New AtExit); reflexivity|].
    eapply rtc_l; [eapply (s_step false _ 1 AtExit Leave); reflexivity|].
    eapply rtc_l; [eapply (s_step false _ 1 Leave Check); reflexivity|].
    eapply rtc_l; [eapply (s_step false _ 2 Enter Check); reflexivity|].
    eapply rtc_l; [eapply (s_step false _ 2 Check (Returned 0)); reflexivity|].
    eapply rtc_l; [eapply (s_step false _ 1 Check (Returned 0)); reflexivity|].
    match goal with |- rtc _ ?x _ => assert (x = s) as -> by (vm_compute; reflexivity) end. apply rtc_refl. }
  exists s. split; [exact H|]. split; [reflexivity|]. split; [reflexivity|]. split; [reflexivity|].
  apply (singleton_once false s H).
Defined.

End Once.

(** ** ThreadLocal.h and ThreadLocalSingleton.h *)

Module PerThread.

(** [specific]: what [pthread_setspecific] stored for each thread; [t_value]: the
    [__thread] variable of ThreadLocalSingleton.h; [live]: the objects that were
    created and not deleted. *)
Record state := mkState {
  specific : gmap nat nat;
  t_value : gmap nat nat;
  live : gset nat;
  next : nat
}.

Definition start : state := mkState ∅ ∅ ∅ 0.

(** [ThreadLocal::value()]; [setspecific] is the result of the call, which
    [MCHECK] asserts to be 0. *)
Definition value (setspecific : Z) (t : nat) (s : state) : res (nat * state) :=
  match specific s !! t with
  | Some v => Ok (v, s)
  | None =>
      let v := next s in
      if setspecific =? 0 then Ok (v, mkState (<[t := v]> (specific s)) (t_value s) ({[v]} ∪ live s) (S v))
      else Err AssertFail
  end.

(** [delete obj]. *)
Definition delete_obj (v : nat) (s : state) : res state :=
  if decide (v ∈ live s) then Ok (mkState (specific s) (t_value s) (live s ∖ {[v]}) (next s)) else Err BadFree.

(** [ThreadLocal::destructor], as the end of a thread calls it: with the value
    that is not null, which is reset first. *)
Definition thread_exit (t : nat) (s : state) : res state :=
  match specific s !! t with
  | None => Ok s
  | Some v => delete_obj v (mkState (delete t (specific s)) (t_value s) (live s) (next s))
  end.

(** [Deleter::set], which does not look at the result of [pthread_setspecific]. *)
Definition deleter_set (t v : nat) (s : state) : res state :=
  match specific s !! t with
  | Some _ => Err AssertFail
  | None => Ok (mkState (<[t := v]> (specific s)) (t_value s) (live s) (next s))
  end.

(** [ThreadLocalSingleton::instance()]. *)
Definition instance (t : nat) (s : state) : res (nat * state) :=
  match t_value s !! t with
  | Some v => Ok (v, s)
  | None =>
      let v := next s in
      let* s := deleter_set t v (mkState (specific s) (<[t := v]> (t_value s)) ({[v]} ∪ live s) (S v)) in
      Ok (v, s)
  end.

Definition pointer (t : nat) (s : state) : option nat := t_value s !! t.

(** [ThreadLocalSingleton::destructor] at the end of a thread. *)
Definition singleton_exit (t : nat) (s : state) : res state :=
  match specific s !! t with
  | None => Ok s
  | Some obj =>
      let s := mkState (delete t (specific s)) (t_value s) (live s) (next s) in
      if decide (t_value s !! t = Some obj) then
        let* s := delete_obj obj s in
        Ok (mkState (specific s) (delete t (t_value s)) (live s) (next s))
      else Err AssertFail
  end.

(** What threads do with a [ThreadLocalSingleton]: they use it, or end. *)
Inductive op := Use (t : nat) | Exit (t : nat).

Definition run_op (s : state) (o : op) : res state :=
  match o with Use t => let* (_, s) := instance t s in Ok s | Exit t => singleton_exit t s end.
Fixpoint run (os : list op) (s : state) : res state :=
  match os with [] => Ok s | o :: os => let* s := run_op s o in run os s end.

Record inv (s : state) : Prop := {
  iv_same : t_value s = specific s;
  iv_live v : v ∈ live s <-> exists t, specific s !! t = Some v;
  iv_inj t1 t2 v : specific s !! t1 = Some v -> specific s !! t2 = Some v -> t1 = t2;
  iv_next t v : specific s !! t = Some v -> (v < next s)%nat
}.

Lemma inv_use t s : inv s -> exists v s', instance t s = Ok (v, s') /\ inv s' /\ specific s' !! t = Some v /\
  (forall t', t' <> t -> specific s' !! t' = specific s !! t').
Proof.
  intros [I1 I2 I3 I4]. unfold instance. destruct (t_value s !! t) as [v|] eqn:E.
  - exists v, s. split_and!; [done | done | by rewrite <- I1 | done].
  - unfold deleter_set. cbn [specific]. rewrite <- I1, E. cbn [res_bind t_value live next].
    eexists _, _. split; [done|]. split; [|split; [simpl; apply lookup_insert_eq | intros t' Ht; simpl; rewrite lookup_insert_ne by done; by rewrite I1]].
    rewrite I1 in E. split; simpl; rewrite ?I1.
    + done.
    + intros v. rewrite elem_of_union, elem_of_singleton, I2. split.
      * intros [->|[t' Ht]]; [exists t; apply lookup_insert_eq|]. exists t'. rewrite lookup_insert_ne; [done|]. congruence.
      * intros [t' [[_ ?]|[_ ?]]%lookup_insert_Some]; [by left | right; eauto].
    + intros t1 t2 v [[<- <-]|[N1 H1]]%lookup_insert_Some [[<- E2]|[N2 H2]]%lookup_insert_Some; try done.
      * apply I4 in H2. lia.
      * subst v. apply I4 in H1. lia.
      * by apply (I3 t1 t2 v).
    + intros t' v [[_ <-]|[_ H]]%lookup_insert_Some; [lia|]. apply I4 in H. lia.
Qed.

Lemma inv_exit t s : inv s -> exists s', singleton_exit t s = Ok s' /\ inv s' /\ specific s' = delete t (specific s).
Proof.
  intros [I1 I2 I3 I4]. unfold singleton_exit. destruct (specific s !! t) as [v|] eqn:E.
  - cbn [t_value]. rewrite I1, decide_True by done. unfold delete_obj. cbn [live].
    rewrite decide_True by (apply I2; eauto). cbn [res_bind specific live next t_value].
    eexists. split; [done|]. split; [|done]. split; simpl.
    + done.
    + intros x. rewrite elem_of_difference, elem_of_singleton, I2. split.
      * intros [[t' Ht] Hx]. exists t'. rewrite lookup_delete_ne; [done|]. intros <-. congruence.
      * intros [t' [Hne Ht]%lookup_delete_Some]. split; [eauto|]. intros ->. by apply Hne, (I3 t t' v).
    + intros t1 t2 x [_ H1]%lookup_delete_Some [_ H2]%lookup_delete_Some. by apply (I3 t1 t2 x).
    + intros t' x [_ H]%lookup_delete_Some. by apply (I4 t').
  - exists s. split_and!; [done | done |]. by rewrite delete_id.
Qed.

Lemma run_inv os : forall s, inv s -> exists s', run os s = Ok s' /\ inv s'.
Proof.
  induction os as [|o os IH]; intros s H; [by exists s|]. cbn [run]. destruct o as [t|t]; simpl.
  - destruct (inv_use t s H) as (v & s1 & E & H1 & _). rewrite E. cbn [res_bind]. by apply IH.
  - destruct (inv_exit t s H) as (s1 & E & H1 & _). rewrite E. cbn [res_bind]. by apply IH.
Qed.

Lemma inv_start : inv start.
Proof.
  split; simpl; [done | | |].
  - intros v. split; [set_solver | by intros [t ?]].
  - by intros t1 t2 v ?.
  - by intros t v ?.
Qed.

(** Whatever threads use a [ThreadLocalSingleton] and end, in any order, no
    assertion fails and nothing is deleted twice; a thread always gets the same
    object, other threads get other objects, and the objects that live are those
    of the threads that used one and have not ended. *)
Lemma thread_local_objects (os : list op) :
  exists s, run os start = Ok s /\
    (forall v, v ∈ live s <-> exists t, pointer t s = Some v) /\
    (forall t1 t2 v, pointer t1 s = Some v -> pointer t2 s = Some v -> t1 = t2) /\
    (forall t, exists v s', instance t s = Ok (v, s') /\ instance t s' = Ok (v, s') /\
       (forall t' v', t' <> t -> pointer t' s = Some v' -> v' <> v)).
Proof.
  destruct (run_inv os start inv_start) as (s & E & H). exists s. split; [done|]. unfold pointer.
  rewrite (iv_same s H). split_and!; [apply H | apply H |].
  intros t. destruct (inv_use t s H) as (v & s1 & E1 & H1 & Hv & Ho). exists v, s1. split_and!; [done | |].
  - unfold instance. by rewrite (iv_same s1 H1), Hv.
  - intros t' v' Hne Hv' ->. apply Hne, (iv_inj s1 H1 t' t v); [by rewrite Ho | done].
Qed.

End PerThread.

(** ** GzipFile.h and WeakCallback.h *)

Module Handles.

(** The [file_] of each [GzipFile] object in scope; the files that [gzopen]
    returned, and those given to [gzclose]. *)
Record files := mkFiles {
  file_ : gmap nat (option nat);
  opened : list nat;
  closed : list nat
}.

Definition start : files := mkFiles ∅ [] [].

Definition the_file (x : nat) (s : files) : res (option nat) :=
  match file_ s !! x with Some f => Ok f | None => Err OutOfBounds end.

(** [openForRead] and the other three, which differ in the mode only: [x] is the
    new object, [gzopen] returns [f]. *)
Definition open (x : nat) (f : option nat) (s : files) : files :=
  mkFiles (<[x := f]> (file_ s)) (match f with Some h => h :: opened s | None => opened s end) (closed s).

(** [GzipFile(GzipFile&& rhs)]. *)
Definition move_construct (x rhs : nat) (s : files) : res files :=
  let* f := the_file rhs s in
  Ok (mkFiles (<[rhs := None]> (<[x := f]> (file_ s))) (opened s) (closed s)).

Definition swap (x rhs : nat) (s : files) : res files :=
  let* f := the_file x s in
  let* g := the_file rhs s in
  Ok (mkFiles (<[rhs := f]> (<[x := g]> (file_ s))) (opened s) (closed s)).

(** [operator=(GzipFile&& rhs)]. *)
Definition move_assign (x rhs : nat) (s : files) : res files := swap x rhs s.

Definition valid (x : nat) (s : files) : res bool :=
  let* f := the_file x s in Ok (match f with Some _ => true | None => false end).

(** [~GzipFile()]. *)
Definition destruct_file (x : nat) (s : files) : res files :=
  let* f := the_file x s in
  Ok (mkFiles (delete x (file_ s)) (opened s) (match f with Some h => h :: closed s | None => closed s end)).

Inductive op :=
  | Open (x : nat) (f : option nat)
  | MoveConstruct (x rhs : nat)
  | MoveAssign (x rhs : nat)
  | Destruct (x : nat).

(** New objects are new, [gzopen] returns a file that is not open yet, and an
    operation is on objects in scope. *)
Definition allowed (s : files) (o : op) : Prop :=
  match o with
  | Open x f => file_ s !! x = None /\ (forall h, f = Some h -> h ∉ opened s)
  | MoveConstruct x rhs => file_ s !! x = None /\ is_Some (file_ s !! rhs)
  | MoveAssign x rhs => is_Some (file_ s !! x) /\ is_Some (file_ s !! rhs)
  | Destruct x => is_Some (file_ s !! x)
  end.

Definition run_op (s : files) (o : op) : res files :=
  match o with
  | Open x f => Ok (open x f s)
  | MoveConstruct x rhs => move_construct x rhs s
  | MoveAssign x rhs => move_assign x rhs s
  | Destruct x => destruct_file x s
  end.

Inductive runs : files -> Prop :=
  | runs_start : runs start
  | runs_op s o s' : runs s -> allowed s o -> run_op s o = Ok s' -> runs s'.

(** A file is with exactly one object, or closed. *)
Record inv (s : files) : Prop := {
  iv_opened : NoDup (opened s);
  iv_closed : NoDup (closed s);
  iv_owner h : h ∈ opened s <-> h ∈ closed s \/ exists x, file_ s !! x = Some (Some h);
  iv_open x h : file_ s !! x = Some (Some h) -> h ∉ closed s;
  iv_one x y h : file_ s !! x = Some (Some h) -> file_ s !! y = Some (Some h) -> x = y
}.

(** Objects exchange their files: every file stays with one object. *)
Lemma inv_rename (s : files) m (r : nat -> nat) :
  (forall x h, m !! x = Some (Some h) -> file_ s !! r x = Some (Some h)) ->
  (forall x h, file_ s !! x = Some (Some h) -> exists y, m !! y = Some (Some h)) ->
  (forall x y h, m !! x = Some (Some h) -> m !! y = Some (Some h) -> r x = r y -> x = y) ->
  inv s -> inv (mkFiles m (opened s) (closed s)).
Proof.
  intros Hr Hs Hinj [I1 I2 I3 I4 I5]. split; simpl; [done | done | | |].
  - intros h. rewrite I3. split; (intros [?|[x Hx]]; [by left | right]); [by apply (Hs x) | eauto].
  - intros x h Hx. by apply (I4 (r x)), Hr.
  - intros x y h Hx Hy. apply (Hinj x y h Hx Hy). apply (I5 _ _ h); by apply Hr.
Qed.

Lemma inv_open s x f : inv s -> allowed s (Open x f) -> inv (open x f s).
Proof.
  intros H [Hx Hf].
  destruct H as [I1 I2 I3 I4 I5], f as [h|].
  - specialize (Hf h eq_refl). assert (h ∉ closed s) as Hcl by (intros Hc; apply Hf, I3; by left).
    assert (forall y, file_ s !! y <> Some (Some h)) as Hno by (intros y Hy; apply Hf, I3; eauto).
    split; simpl.
    + by constructor.
    + done.
    + intros g. rewrite elem_of_cons, I3. split.
      * intros [->|[?|[y Hy]]]; [right; exists x; apply lookup_insert_eq | by left |].
         right. exists y. rewrite lookup_insert_ne; [done|]. congruence.
      * intros [?|[y [[_ [= ->]]|[_ Hy]]%lookup_insert_Some]]; [auto | auto | right; right; eauto].
    + intros y g [[_ [= <-]]|[_ Hy]]%lookup_insert_Some; [done | by apply (I4 y)].
    + intros y z g [[<- [= <-]]|[_ Hy]]%lookup_insert_Some [[<- E]|[_ Hz]]%lookup_insert_Some;
        [done | by apply Hno in Hz | injection E as ->; by apply Hno in Hy | by apply (I5 y z g)].
  - apply (inv_rename s _ id); simpl; [| |done|by split].
    + intros y h [[_ ?]|[_ Hy]]%lookup_insert_Some; done.
    + intros y h Hy. exists y. rewrite lookup_insert_ne; [done|]. congruence.
Qed.

Lemma inv_move s x rhs s' : inv s -> allowed s (MoveConstruct x rhs) -> move_construct x rhs s = Ok s' -> inv s'.
Proof.
  intros H [Hx [f Hf]] E.
  unfold move_construct, the_file in E. rewrite Hf in E. injection E as <-.
  assert (x <> rhs) as Hne by congruence.
  apply (inv_rename s _ (fun y => if decide (y = x) then rhs else y)); [| | |done].
  - intros y h [[_ ?]|[N1 [[<- ->]|[N2 Hy]]%lookup_insert_Some]]%lookup_insert_Some; [done | by rewrite decide_True |].
    by rewrite decide_False.
  - intros y h Hy. destruct (decide (y = rhs)) as [->|N].
    + exists x. rewrite lookup_insert_ne, lookup_insert_eq by done. congruence.
    + exists y. rewrite !lookup_insert_ne; congruence.
  - intros y z h [[_ ?]|[N1 _]]%lookup_insert_Some [[_ ?]|[N2 _]]%lookup_insert_Some; try done.
    repeat case_decide; congruence.
Qed.

Lemma inv_swap s x rhs s' : inv s -> allowed s (MoveAssign x rhs) -> move_assign x rhs s = Ok s' -> inv s'.
Proof.
  intros H [[f Hf] [g Hg]] E.
  unfold move_assign, swap, the_file in E. rewrite Hf in E. cbn [res_bind] in E.
  rewrite Hg in E. injection E as <-.
  apply (inv_rename s _ (fun y => if decide (y = rhs) then x else if decide (y = x) then rhs else y)); [| | |done].
  - intros y h [[<- [= ->]]|[N1 [[<- [= ->]]|[N2 Hy]]%lookup_insert_Some]]%lookup_insert_Some.
    + by rewrite decide_True.
    + by rewrite decide_False, decide_True by congruence.
    + by rewrite !decide_False by congruence.
  - intros y h Hy. destruct (decide (y = x)) as [->|N1]; [|destruct (decide (y = rhs)) as [->|N2]].
    + exists rhs. rewrite lookup_insert_eq. congruence.
    + exists x. rewrite lookup_insert_ne, lookup_insert_eq by congruence. congruence.
    + exists y. by rewrite !lookup_insert_ne by congruence.
  - intros y z h _ _. repeat case_decide; congruence.
Qed.

Lemma inv_destruct s x s' : inv s -> allowed s (Destruct x) -> destruct_file x s = Ok s' -> inv s'.
Proof.
  intros H [f Hf] E.
  unfold destruct_file, the_file in E. rewrite Hf in E. injection E as <-.
  destruct f as [h|].
  - destruct H as [I1 I2 I3 I4 I5]. split; simpl.
    + done.
    + constructor; [by apply (I4 x) | done].
    + intros g. rewrite I3, elem_of_cons. split.
      * intros [?|[y Hy]]; [auto|]. destruct (decide (y = x)) as [->|N]; [left; left; congruence|].
         right. exists y. by rewrite lookup_delete_ne.
      * intros [[->|?]|[y [_ Hy]%lookup_delete_Some]]; eauto.
    + intros y g [N Hy]%lookup_delete_Some. rewrite elem_of_cons. intros [->|Hc]; [by apply N, (I5 x y h)|].
      by apply (I4 y g).
    + intros y z g [_ Hy]%lookup_delete_Some [_ Hz]%lookup_delete_Some. by apply (I5 y z g).
  - apply (inv_rename s _ id); [| |done|done].
    + by intros y h [_ Hy]%lookup_delete_Some.
    + intros y h Hy. exists y. rewrite lookup_delete_ne; [done|]. congruence.
Qed.

Lemma inv_op s o s' : inv s -> allowed s o -> run_op s o = Ok s' -> inv s'.
Proof.
  destruct o as [x f|x rhs|x rhs|x]; intros H Ha E;
    [injection E as <-; by apply inv_open | by eapply inv_move | by eapply inv_swap | by eapply inv_destruct].
Qed.

(** However [GzipFile] objects are moved and assigned, no file is closed
    twice or while an object still has it; when no object is in scope any more,
    every file that was opened is closed. *)
Lemma files_closed_once (s : files) :
  runs s -> NoDup (closed s) /\ (forall x h, file_ s !! x = Some (Some h) -> h ∈ opened s /\ h ∉ closed s) /\
    (file_ s = ∅ -> closed s ≡ₚ opened s).
Proof.
  intros H. assert (inv s) as [I1 I2 I3 I4 I5].
  { induction H as [|s o s' _ IH Ha E]; [|by apply (inv_op s o)].
    split; simpl; try constructor; try (by intros); try (by intros [?|[? ?]]); set_solver. }
  split_and!; [done | |].
  - intros x h Hx. split; [apply I3; eauto | by apply (I4 x)].
  - intros He. apply NoDup_Permutation; [done | done |]. intros h. rewrite I3, He. split; [by left|].
    intros [?|[x Hx]]; [done|]. by rewrite lookup_empty in Hx.
Qed.

(** [WeakCallback]: the function is called when the object still lives. *)
Definition weak_call {A S} (objects : gmap nat A) (object_ : nat) (function_ : A -> S -> S) (s : S) : S :=
  match objects !! object_ with Some ptr => function_ ptr s | None => s end.

End Handles.

(** ** The theorems at concrete inputs *)

Lemma source_file_basename_witness :
  exists f, Names.of_array (chars "net/Buffer.cc" ++ [0]) = Ok f /\
    deref (Some (Names.data_ f)) (Names.size_ f) = Ok (chars "Buffer.cc").
Proof.
  destruct (Names.source_file_basename (chars "net/Buffer.cc")) as (f & E & _ & Hd & _).
  - apply (bool_decide_unpack _). vm_compute. exact I.
  - vm_compute. reflexivity.
  - exists f. split; [exact E | exact Hd].
Defined.

Import Handles.

(** A file is opened, moved into another object, and both objects end. *)
Lemma files_closed_once_witness :
  exists s, runs s /\ closed s ≡ₚ [7%nat] /\ NoDup (closed s).
Proof.
  set (s1 := open 1 (Some 7%nat) start).
  set (s2 := mkFiles {[1%nat := None; 2%nat := Some 7%nat]} [7%nat] []).
  set (s3 := mkFiles {[2%nat := Some 7%nat]} [7%nat] []).
  set (s4 := mkFiles ∅ [7%nat] [7%nat]).
  assert (runs s4) as H.
  { apply (runs_op s3 (Destruct 2)); [|by eexists|reflexivity].
    apply (runs_op s2 (Destruct 1)); [|by eexists|reflexivity].
    apply (runs_op s1 (MoveConstruct 2 1)); [|split; [reflexivity | by eexists]|reflexivity].
    apply (runs_op start (Open 1 (Some 7%nat))); [apply runs_start | | reflexivity].
    split; [reflexivity | intros h _ Hh; inversion Hh]. }
  exists s4. destruct (files_closed_once s4 H) as (Hn & _ & Hc).
  split; [exact H|]. split; [by apply Hc | exact Hn].
Defined.
