(* ===== verification/Server.v ===== *)
(** * The relay server (p2pServer/p2pServer.h, p2pServer/p2pServer.cc)

    A [TcpConnectionPtr] is the identity of a connection object; the objects are
    in the table [conns], so that the pointers to the [ConnInfo] of a connection
    that a handler obtains twice alias, as in the code.  [_connectionList] is the
    list of weak pointers, whose nodes have identities of their own: an iterator
    is the identity of a node.  Calls of the network library are recorded in
    [trace], in their order.

    A handler is a function of the monad [M]: the state of the server is passed
    on, and an error ends the run. *)

From S2P Require Import Prelude Endian StringPiece Buffer Codec Muduo.

Abbreviation device := (list Z).
Abbreviation connid := nat.

(** [enum ProtocolCode] and [enum CallBackStatus]. *)
Definition REGISTER_DEVICE : Z := 1.
Definition SUBSCRIBE_DEVICE : Z := 2.
Definition SEND_DATA : Z := 3.
Definition UNREGISTER_DEVICE : Z := 4.
Definition UNSUBSCRIBE_DEVICE : Z := 5.
Definition CHECK_DEVICE_ALIVE : Z := 6.
Definition HEART_BEAT : Z := 7.
Definition CALL_BACK_MASK : Z := 128.
Definition EXEC_FAIL : Z := 0.
Definition EXEC_SUCCESS : Z := 1.

(** The id of a connection that is not registered: [string("delete")]. *)
Definition deleted : device := Eval vm_compute in chars "delete".

Record ConnInfo := mkInfo {
  deviceId : device;
  lastReceiveTime : Timestamp;
  position : nat;
  subscribeIdList : list device;
  sendToList : list connid
}.

Definition set_deviceId (d : device) (i : ConnInfo) : ConnInfo :=
  mkInfo d (lastReceiveTime i) (position i) (subscribeIdList i) (sendToList i).
Definition set_lastReceiveTime (t : Timestamp) (i : ConnInfo) : ConnInfo :=
  mkInfo (deviceId i) t (position i) (subscribeIdList i) (sendToList i).
Definition set_subscribeIdList (l : list device) (i : ConnInfo) : ConnInfo :=
  mkInfo (deviceId i) (lastReceiveTime i) (position i) l (sendToList i).
Definition set_sendToList (l : list connid) (i : ConnInfo) : ConnInfo :=
  mkInfo (deviceId i) (lastReceiveTime i) (position i) (subscribeIdList i) l.

Definition subscribeIdListAdd (id : device) (i : ConnInfo) : ConnInfo :=
  if decide (id ∈ subscribeIdList i) then i
  else set_subscribeIdList (subscribeIdList i ++ [id]) i.
Definition subscribeIdListClear (i : ConnInfo) : ConnInfo := set_subscribeIdList [] i.
Definition sendToListAdd (conn : connid) (i : ConnInfo) : ConnInfo :=
  if decide (conn ∈ sendToList i) then i
  else set_sendToList (sendToList i ++ [conn]) i.
(** [std::list::remove] takes out every element equal to [conn]. *)
Definition sendToListRemove (conn : connid) (i : ConnInfo) : ConnInfo :=
  set_sendToList (filter (.≠ conn) (sendToList i)) i.
Definition sendToListClear (i : ConnInfo) : ConnInfo := set_sendToList [] i.

(** [std::list::erase] at the position [std::find] returned: the first match. *)
Fixpoint erase_first (d : device) (l : list device) : list device :=
  match l with
  | [] => []
  | x :: l => if decide (x = d) then l else x :: erase_first d l
  end.

(** Calls of the network library. *)
Inductive effect :=
  | ESend (conn : connid) (data : list Z)
  | EShutdown (conn : connid)
  | EForceCloseWithDelay (conn : connid).

#[global] Instance effect_eq_dec : EqDecision effect.
Proof. solve_decision. Defined.

Record p2pServer := mkServer {
  conns : gmap connid (TcpConnection ConnInfo);
  _idleSeconds : Z;
  _connectionList : list (nat * connid);
  next_node : nat;
  _mutex : MutexLock;
  _connections : gmap device connid;
  trace : list effect
}.

Definition set_conns x (s : p2pServer) : p2pServer :=
  mkServer x (_idleSeconds s) (_connectionList s) (next_node s) (_mutex s) (_connections s) (trace s).
Definition set_connectionList x (s : p2pServer) : p2pServer :=
  mkServer (conns s) (_idleSeconds s) x (next_node s) (_mutex s) (_connections s) (trace s).
Definition set_next_node x (s : p2pServer) : p2pServer :=
  mkServer (conns s) (_idleSeconds s) (_connectionList s) x (_mutex s) (_connections s) (trace s).
Definition set_mutex x (s : p2pServer) : p2pServer :=
  mkServer (conns s) (_idleSeconds s) (_connectionList s) (next_node s) x (_connections s) (trace s).
Definition set_connections x (s : p2pServer) : p2pServer :=
  mkServer (conns s) (_idleSeconds s) (_connectionList s) (next_node s) (_mutex s) x (trace s).
Definition set_trace x (s : p2pServer) : p2pServer :=
  mkServer (conns s) (_idleSeconds s) (_connectionList s) (next_node s) (_mutex s) (_connections s) x.

(** The constructor of the class. *)
Definition new_p2pServer (idleSeconds : Z) : p2pServer :=
  mkServer ∅ idleSeconds [] 0 Mutex.new_MutexLock ∅ [].

(** ** The monad of the handlers *)

Definition M (A : Type) : Type := p2pServer -> res (A * p2pServer).
Definition ret {A} (a : A) : M A := fun s => Ok (a, s).
Definition fail {A} (e : err) : M A := fun _ => Err e.
Definition bind {A B} (m : M A) (k : A -> M B) : M B :=
  fun s => let* (a, s) := m s in k a s.
Definition get : M p2pServer := fun s => Ok (s, s).
Definition modify (f : p2pServer -> p2pServer) : M unit := fun s => Ok (tt, f s).
Definition lift {A} (r : res A) : M A := fun s => let* a := r in Ok (a, s).

Declare Scope server_scope.
Delimit Scope server_scope with server.
Notation "'let!' p := m 'in' k" := (bind m (fun p => k))
  (at level 10, p as pattern, m at level 100, k at level 200) : server_scope.
#[global] Open Scope server_scope.

Section server.
Context {host : Host} {lib : TcpLib}.
(** The id of the thread that runs the handler, for [MutexLock::holder_]. *)
Context (tid : Z).

Definition the_conn (conn : connid) : M (TcpConnection ConnInfo) :=
  let! s := get in
  match conns s !! conn with Some c => ret c | None => fail NullDeref end.

Definition update_conn (conn : connid)
    (f : TcpConnection ConnInfo -> TcpConnection ConnInfo) : M unit :=
  modify (fun s => set_conns (alter f conn (conns s)) s).

Definition connected (conn : connid) : M bool :=
  let! c := the_conn conn in ret (Conn.connected c).

Definition emit (e : effect) : M unit := modify (fun s => set_trace (trace s ++ [e]) s).

Definition conn_shutdown (conn : connid) : M unit :=
  let! _ := the_conn conn in
  let! _ := update_conn conn (fun c => Conn.setState c (tcp_shutdown (state_ c))) in
  emit (EShutdown conn).

Definition conn_forceCloseWithDelay (conn : connid) : M unit :=
  let! _ := the_conn conn in
  let! _ := update_conn conn (fun c => Conn.setState c (tcp_forceCloseWithDelay (state_ c))) in
  emit (EForceCloseWithDelay conn).

(** [LengthHeaderCodec::send]. *)
Definition codec_send (conn : connid) (message : StringPiece) : M unit :=
  let! buf := lift (send_buffer message) in
  let! _ := the_conn conn in
  let! _ := update_conn conn (fun c => Conn.setState c (tcp_send (state_ c))) in
  emit (ESend conn (content buf)).

(** The pointer to the [ConnInfo] is the connection; its fields are read here
    and written with [update_info]. *)
Definition getConnInfo (conn : connid) : M ConnInfo :=
  let! c := the_conn conn in
  let! _ := lift (assert_ (bool_decide (is_Some (Conn.getContext c)))) in
  match Conn.getContext c with Some i => ret i | None => fail NullDeref end.

Definition update_info (conn : connid) (f : ConnInfo -> ConnInfo) : M unit :=
  update_conn conn (fun c => Conn.setContext c (f <$> context_ c)).

(** [MutexLockGuard lock(_mutex); body]. *)
Definition MutexLockGuard {A} (body : M A) : M A :=
  let! s := get in
  let! m := lift (Mutex.lock tid (_mutex s)) in
  let! _ := modify (set_mutex m) in
  let! a := body in
  let! s := get in
  let! m := lift (Mutex.unlock (_mutex s)) in
  let! _ := modify (set_mutex m) in
  ret a.

Definition connections_find (d : device) : M (option connid) :=
  let! s := get in ret (_connections s !! d).

Definition registerDeviceFunc (conn : connid) (device_id : device) : M unit :=
  let! _ := getConnInfo conn in
  let! _ := update_info conn (set_deviceId device_id) in
  MutexLockGuard (
    let! it := connections_find device_id in
    match it with
    | Some oldConn =>
        if decide (oldConn = conn) then ret tt
        else
          let! _ := getConnInfo oldConn in
          let! _ := update_info oldConn (set_deviceId deleted) in
          let! _ := conn_shutdown oldConn in
          modify (fun s => set_connections (<[device_id := conn]> (_connections s)) s)
    | None =>
        modify (fun s => set_connections (<[device_id := conn]> (_connections s)) s)
    end).

Definition subscribeDeviceFunc (conn : connid) (device_id : device) : M Z :=
  MutexLockGuard (
    let! it := connections_find device_id in
    match it with
    | None => ret EXEC_FAIL
    | Some subscribeConn =>
        let! info := getConnInfo conn in
        if decide (device_id = deviceId info) then ret EXEC_FAIL
        else
          let! _ := getConnInfo subscribeConn in
          let! _ := update_info conn (subscribeIdListAdd device_id) in
          let! _ := update_info subscribeConn (sendToListAdd conn) in
          ret EXEC_SUCCESS
    end).

Definition unsubscribeDeviceFunc (conn : connid) (device_id : device) : M unit :=
  let! info := getConnInfo conn in
  if decide (device_id ∈ subscribeIdList info) then
    MutexLockGuard (
      let! unsubIt := connections_find device_id in
      let! _ := match unsubIt with
                | Some unsubscribeConn =>
                    let! _ := getConnInfo unsubscribeConn in
                    update_info unsubscribeConn (sendToListRemove conn)
                | None => ret tt
                end in
      update_info conn (fun i => set_subscribeIdList (erase_first device_id (subscribeIdList i)) i))
  else ret tt.

(** [while (!info->subscribeIdList.empty())]: every turn takes the front out. *)
Fixpoint unsubscribe_all (fuel : nat) (conn : connid) : M unit :=
  match fuel with
  | O => fail OutOfFuel
  | S fuel =>
      let! info := getConnInfo conn in
      match subscribeIdList info with
      | [] => ret tt
      | d :: _ =>
          let! _ := unsubscribeDeviceFunc conn d in
          unsubscribe_all fuel conn
      end
  end.

Definition unregisterDeviceFunc (conn : connid) : M unit :=
  let! info := getConnInfo conn in
  let! _ := unsubscribe_all (S (length (subscribeIdList info))) conn in
  let! _ := update_info conn sendToListClear in
  let! info := getConnInfo conn in
  if decide (deviceId info = deleted) then ret tt
  else MutexLockGuard (
    let! _ := modify (fun s => set_connections (delete (deviceId info) (_connections s)) s) in
    update_info conn (set_deviceId deleted)).

Definition checkDeviceAliveFunc (device_id : device) : M Z :=
  MutexLockGuard (
    let! it := connections_find device_id in
    match it with
    | Some c => let! b := connected c in ret (if b then EXEC_SUCCESS else EXEC_FAIL)
    | None => ret EXEC_FAIL
    end).

(** [_connectionList.erase(it)] and [splice(end(), _connectionList, it)]. *)
Definition list_erase (node : nat) : M unit :=
  let! s := get in
  if decide (node ∈ (_connectionList s).*1)
  then modify (fun s => set_connectionList (filter (fun n => n.1 ≠ node) (_connectionList s)) s)
  else fail InvalidIterator.

Definition list_splice_end (node : nat) : M unit :=
  let! s := get in
  if decide (node ∈ (_connectionList s).*1)
  then modify (fun s => set_connectionList
         (filter (fun n => n.1 ≠ node) (_connectionList s) ++
          filter (fun n => n.1 = node) (_connectionList s)) s)
  else fail InvalidIterator.

Definition heartBeatFunc (conn : connid) (time : Timestamp) : M unit :=
  let! info := getConnInfo conn in
  let! _ := update_info conn (set_lastReceiveTime time) in
  let! _ := list_splice_end (position info) in
  let! s := get in
  lift (assert_ (bool_decide (fst <$> last (_connectionList s) = Some (position info)))).

(** The loop over [info->sendToList]: [erase(it)] invalidates [it], which the
    condition of the loop then reads. *)
Fixpoint sendData_loop (targets : list connid) (message : device) : M unit :=
  match targets with
  | [] => ret tt
  | c :: targets =>
      let! b := connected c in
      if b : bool then
        let! _ := codec_send c (SP.of_string message) in
        sendData_loop targets message
      else fail InvalidIterator
  end.

Definition sendDataFunc (conn : connid) (message : list Z) : M unit :=
  let! info := getConnInfo conn in
  sendData_loop (sendToList info) message.

Definition callbackFunc (conn : connid) (command result : Z) : M unit :=
  let callback := [u8 (Z.lor command CALL_BACK_MASK); u8 result] in
  codec_send conn (SP.of_ptr (Some (mkPtr callback 0)) 2).

(** [message[0]], the NUL terminator for an empty message. *)
Definition message_0 (message : list Z) : Z := default 0 (head message).
(** [string(message, 1, message.length() - 1)]. *)
Definition message_tail (message : list Z) : list Z := drop 1 message.

Definition onMessage (conn : connid) (message : list Z) (time : Timestamp) : M unit :=
  let c := message_0 message in
  if c =? REGISTER_DEVICE then
    let! _ := registerDeviceFunc conn (message_tail message) in
    callbackFunc conn REGISTER_DEVICE EXEC_SUCCESS
  else if c =? SUBSCRIBE_DEVICE then
    let! r := subscribeDeviceFunc conn (message_tail message) in
    callbackFunc conn SUBSCRIBE_DEVICE r
  else if c =? SEND_DATA then
    let! _ := sendDataFunc conn message in
    callbackFunc conn SEND_DATA EXEC_SUCCESS
  else if c =? UNREGISTER_DEVICE then
    let! _ := unregisterDeviceFunc conn in
    callbackFunc conn UNREGISTER_DEVICE EXEC_SUCCESS
  else if c =? UNSUBSCRIBE_DEVICE then
    let! _ := unsubscribeDeviceFunc conn (message_tail message) in
    callbackFunc conn UNSUBSCRIBE_DEVICE EXEC_SUCCESS
  else if c =? CHECK_DEVICE_ALIVE then
    let! r := checkDeviceAliveFunc (message_tail message) in
    callbackFunc conn CHECK_DEVICE_ALIVE r
  else if c =? HEART_BEAT then
    let! _ := heartBeatFunc conn time in
    callbackFunc conn HEART_BEAT EXEC_SUCCESS
  else ret tt.

Definition onConnection (conn : connid) (now : Timestamp) : M unit :=
  let! up := connected conn in
  if up : bool then
    let! s := get in
    let node := next_node s in
    let info := mkInfo deleted now node [] [] in
    let! _ := modify (fun s => set_next_node (S node)
                (set_connectionList (_connectionList s ++ [(node, conn)]) s)) in
    update_conn conn (fun c => Conn.setContext c (Some info))
  else
    let! info := getConnInfo conn in
    let! _ := list_erase (position info) in
    unregisterDeviceFunc conn.

(** An iterator of [_connectionList]: a node, or [end()]. *)
Abbreviation iterator := (option nat).

Definition list_begin (l : list (nat * connid)) : iterator := fst <$> head l.

(** The part of the list from a node on; empty when the node is not in it. *)
Fixpoint from (n : nat) (l : list (nat * connid)) : list (nat * connid) :=
  match l with
  | [] => []
  | x :: l' => if decide (x.1 = n) then l else from n l'
  end.

(** [it++] *)
Definition advance_it (n : nat) : M iterator :=
  let! s := get in
  match from n (_connectionList s) with
  | [] => fail InvalidIterator
  | _ :: rest => ret (list_begin rest)
  end.

(** One turn of the loop of [onTimer]: its body and [it++]; [None] when the loop is
    left.  The list is read anew in each turn. *)
Definition timer_turn (now : Timestamp) (n : nat) : M iterator :=
  let! s := get in
  match from n (_connectionList s) with
  | [] => fail InvalidIterator
  | (_, conn) :: rest =>
      match conns s !! conn with
      | Some c =>
          match context_ c with
          | None => fail NullDeref
          | Some info =>
              let age := Time.timeDifference now (lastReceiveTime info) in
              if double_gtb age (double_of_Z (_idleSeconds s)) then
                let! _ := (if Conn.connected c then
                             let! _ := conn_shutdown conn in
                             conn_forceCloseWithDelay conn
                           else ret tt) in
                advance_it n
              else if double_ltb age (double_of_Z 0) then
                let! _ := update_info conn (set_lastReceiveTime now) in
                advance_it n
              else ret None
          end
      | None =>
          (* [it = erase(it)], then [it++] skips the next element *)
          let! _ := list_erase n in
          match list_begin rest with
          | None => fail InvalidIterator
          | Some n' => advance_it n'
          end
      end
  end.

Fixpoint onTimer_loop (fuel : nat) (now : Timestamp) (it : iterator) : M unit :=
  match it with
  | None => ret tt
  | Some n =>
      match fuel with
      | O => fail OutOfFuel
      | S fuel => let! it := timer_turn now n in onTimer_loop fuel now it
      end
  end.

Definition onTimer (now : Timestamp) : M unit :=
  let! s := get in
  onTimer_loop (length (_connectionList s)) now (list_begin (_connectionList s)).

(** [LengthHeaderCodec::onMessage] on the input buffer of a connection, with
    [p2pServer::onMessage] as the message callback (set up by the constructor). *)
Definition onData (conn : connid) (receiveTime : Timestamp) : M unit := fun s =>
  let* (c, s) := the_conn conn s in
  let* (s, buf) := Codec.onMessage
      (fun s m => res_map snd (onMessage conn m receiveTime s))
      (fun s => res_map snd (conn_shutdown conn s))
      s (inputBuffer_ c) in
  update_conn conn (fun c => Conn.setInputBuffer c buf) s.

End server.

#[global] Arguments codec_send : simpl never.
