(* ===== verification/ServerSpec.v ===== *)
(** * What the handlers of the server compute

    Pure functions on the state of the server, one per handler, with the lemmas
    that the handler, run from a state in which the mutex is free, returns
    normally with that state.  The invariants and the properties of the server
    are then proved on the pure functions. *)

From S2P Require Import Prelude Endian StringPiece Buffer Codec Muduo Server.

(** ** Views of the state *)

Definition info (s : p2pServer) (c : connid) : option ConnInfo := conns s !! c ≫= context_.
Definition state_of (s : p2pServer) (c : connid) : option StateE := state_ <$> conns s !! c.
Definition buf_of (s : p2pServer) (c : connid) : option Buffer := inputBuffer_ <$> conns s !! c.
Definition unlocked (s : p2pServer) : Prop := _mutex s = Mutex.new_MutexLock.

(** ** Pure updates *)

Definition upd (c : connid) (f : ConnInfo -> ConnInfo) (s : p2pServer) : p2pServer :=
  set_conns (alter (fun o => Conn.setContext o (f <$> context_ o)) c (conns s)) s.

Definition emitted (e : effect) (s : p2pServer) : p2pServer := set_trace (trace s ++ [e]) s.

Definition upd_state (c : connid) (f : StateE -> StateE) (s : p2pServer) : p2pServer :=
  set_conns (alter (fun o => Conn.setState o (f (state_ o))) c (conns s)) s.

(** A frame sent to [c]. *)
Definition sent (c : connid) (m : list Z) (s : p2pServer) : p2pServer :=
  emitted (ESend c (encode m)) s.

Section pure.
Context {lib : TcpLib}.

Definition shut (c : connid) (s : p2pServer) : p2pServer :=
  emitted (EShutdown c) (upd_state c tcp_shutdown s).

Definition register_post (conn : connid) (d : device) (s : p2pServer) : p2pServer :=
  let s1 := upd conn (set_deviceId d) s in
  match _connections s !! d with
  | Some old =>
      if decide (old = conn) then s1
      else let s2 := shut old (upd old (set_deviceId deleted) s1) in
           set_connections (<[d := conn]> (_connections s2)) s2
  | None => set_connections (<[d := conn]> (_connections s1)) s1
  end.

Definition subscribe_post (conn : connid) (d : device) (s : p2pServer) : Z * p2pServer :=
  match _connections s !! d, info s conn with
  | Some c, Some i =>
      if decide (d = deviceId i) then (EXEC_FAIL, s)
      else (EXEC_SUCCESS, upd c (sendToListAdd conn) (upd conn (subscribeIdListAdd d) s))
  | _, _ => (EXEC_FAIL, s)
  end.

Definition erase_sub (d : device) (i : ConnInfo) : ConnInfo :=
  set_subscribeIdList (erase_first d (subscribeIdList i)) i.

Definition unsub_target (conn : connid) (d : device) (s : p2pServer) : p2pServer :=
  match _connections s !! d with
  | Some u => upd u (sendToListRemove conn) s
  | None => s
  end.

Definition unsubscribe_post (conn : connid) (d : device) (s : p2pServer) : p2pServer :=
  match info s conn with
  | Some i => if decide (d ∈ subscribeIdList i)
              then upd conn (erase_sub d) (unsub_target conn d s) else s
  | None => s
  end.

Definition unsubscribe_all_post (conn : connid) (ds : list device) (s : p2pServer) : p2pServer :=
  foldl (fun s d => upd conn (erase_sub d) (unsub_target conn d s)) s ds.

Definition unregister_post (conn : connid) (s : p2pServer) : p2pServer :=
  match info s conn with
  | None => s
  | Some i =>
      let s1 := upd conn sendToListClear (unsubscribe_all_post conn (subscribeIdList i) s) in
      if decide (deviceId i = deleted) then s1
      else upd conn (set_deviceId deleted)
             (set_connections (delete (deviceId i) (_connections s1)) s1)
  end.

Definition alive (d : device) (s : p2pServer) : Z :=
  match _connections s !! d with
  | Some c => if decide (state_of s c = Some kConnected) then EXEC_SUCCESS else EXEC_FAIL
  | None => EXEC_FAIL
  end.

Definition erased (node : nat) (s : p2pServer) : p2pServer :=
  set_connectionList (filter (fun n => n.1 ≠ node) (_connectionList s)) s.

Definition moved_end (node : nat) (s : p2pServer) : p2pServer :=
  set_connectionList (filter (fun n => n.1 ≠ node) (_connectionList s) ++
                      filter (fun n => n.1 = node) (_connectionList s)) s.

(** The two bytes of a reply. *)
Definition reply (command result : Z) : list Z :=
  [u8 (Z.lor command CALL_BACK_MASK); u8 result].

Definition send_all (targets : list connid) (m : list Z) (s : p2pServer) : p2pServer :=
  foldl (fun s c => sent c m s) s targets.

Definition heartbeat_post (conn : connid) (t : Timestamp) (s : p2pServer) : p2pServer :=
  match info s conn with
  | Some i => moved_end (position i) (upd conn (set_lastReceiveTime t) s)
  | None => s
  end.

Definition targets (s : p2pServer) (conn : connid) : list connid :=
  match info s conn with Some i => sendToList i | None => [] end.

(** The whole effect of one message. *)
Definition message_post (conn : connid) (m : list Z) (t : Timestamp) (s : p2pServer) : p2pServer :=
  let d := message_tail m in
  let answer cmd r s := sent conn (reply cmd r) s in
  let c := message_0 m in
  if c =? REGISTER_DEVICE then answer REGISTER_DEVICE EXEC_SUCCESS (register_post conn d s)
  else if c =? SUBSCRIBE_DEVICE then
    let (r, s) := subscribe_post conn d s in answer SUBSCRIBE_DEVICE r s
  else if c =? SEND_DATA then
    answer SEND_DATA EXEC_SUCCESS (send_all (targets s conn) m s)
  else if c =? UNREGISTER_DEVICE then
    answer UNREGISTER_DEVICE EXEC_SUCCESS (unregister_post conn s)
  else if c =? UNSUBSCRIBE_DEVICE then
    answer UNSUBSCRIBE_DEVICE EXEC_SUCCESS (unsubscribe_post conn d s)
  else if c =? CHECK_DEVICE_ALIVE then answer CHECK_DEVICE_ALIVE (alive d s) s
  else if c =? HEART_BEAT then
    answer HEART_BEAT EXEC_SUCCESS (heartbeat_post conn t s)
  else s.

End pure.

(** ** Lemmas: views of updated states *)

Lemma info_upd c f s c' :
  info (upd c f s) c' = if decide (c' = c) then f <$> info s c else info s c'.
Proof.
  unfold info, upd. simpl. case_decide as E.
  - subst. rewrite lookup_alter_eq. by destruct (conns s !! c).
  - by rewrite lookup_alter_ne.
Qed.

Lemma info_upd_eq c f s : info (upd c f s) c = f <$> info s c.
Proof. rewrite info_upd. by rewrite decide_True. Qed.

Lemma info_upd_ne c f s c' : c' <> c -> info (upd c f s) c' = info s c'.
Proof. intros. rewrite info_upd. by rewrite decide_False. Qed.

Lemma state_of_upd c f s c' : state_of (upd c f s) c' = state_of s c'.
Proof.
  unfold state_of, upd. simpl. destruct (decide (c' = c)) as [->|].
  - rewrite lookup_alter_eq. by destruct (conns s !! c).
  - by rewrite lookup_alter_ne.
Qed.

Lemma buf_of_upd c f s c' : buf_of (upd c f s) c' = buf_of s c'.
Proof.
  unfold buf_of, upd. simpl. destruct (decide (c' = c)) as [->|].
  - rewrite lookup_alter_eq. by destruct (conns s !! c).
  - by rewrite lookup_alter_ne.
Qed.

Lemma info_upd_state c f s c' : info (upd_state c f s) c' = info s c'.
Proof.
  unfold info, upd_state. simpl. destruct (decide (c' = c)) as [->|].
  - rewrite lookup_alter_eq. by destruct (conns s !! c).
  - by rewrite lookup_alter_ne.
Qed.

Lemma buf_of_upd_state c f s c' : buf_of (upd_state c f s) c' = buf_of s c'.
Proof.
  unfold buf_of, upd_state. simpl. destruct (decide (c' = c)) as [->|].
  - rewrite lookup_alter_eq. by destruct (conns s !! c).
  - by rewrite lookup_alter_ne.
Qed.

Lemma state_of_upd_state c f s c' :
  state_of (upd_state c f s) c' = if decide (c' = c) then f <$> state_of s c else state_of s c'.
Proof.
  unfold state_of, upd_state. simpl. case_decide as E.
  - subst. rewrite lookup_alter_eq. by destruct (conns s !! c).
  - by rewrite lookup_alter_ne.
Qed.

Lemma upd_state_id c f s : (forall x, f x = x) -> upd_state c f s = s.
Proof.
  intros Hf. destruct s as [m]. unfold upd_state, set_conns. simpl. f_equal.
  apply map_eq. intros c'. destruct (decide (c = c')) as [<-|Hne].
  - rewrite lookup_alter_eq. destruct (m !! c) as [[]|]; simpl; [|done]. by rewrite Hf.
  - by rewrite lookup_alter_ne.
Qed.

Lemma info_emitted e s c : info (emitted e s) c = info s c.
Proof. done. Qed.
Lemma state_of_emitted e s c : state_of (emitted e s) c = state_of s c.
Proof. done. Qed.
Lemma buf_of_emitted e s c : buf_of (emitted e s) c = buf_of s c.
Proof. done. Qed.
Lemma info_set_connections m s c : info (set_connections m s) c = info s c.
Proof. done. Qed.
Lemma state_of_set_connections m s c : state_of (set_connections m s) c = state_of s c.
Proof. done. Qed.
Lemma buf_of_set_connections m s c : buf_of (set_connections m s) c = buf_of s c.
Proof. done. Qed.
Lemma info_set_connectionList l s c : info (set_connectionList l s) c = info s c.
Proof. done. Qed.
Lemma state_of_set_connectionList l s c : state_of (set_connectionList l s) c = state_of s c.
Proof. done. Qed.

Create Rewrite HintDb server.
#[export] Hint Rewrite state_of_upd buf_of_upd info_upd_state buf_of_upd_state
  info_emitted state_of_emitted buf_of_emitted
  info_set_connections state_of_set_connections buf_of_set_connections
  info_set_connectionList state_of_set_connectionList : server.

(** ** States that differ by removed subscriptions *)

Record sim_info (i i' : ConnInfo) : Prop := {
  sim_device : deviceId i' = deviceId i;
  sim_time : lastReceiveTime i' = lastReceiveTime i;
  sim_position : position i' = position i;
  sim_subscribe : subscribeIdList i' `sublist_of` subscribeIdList i;
  sim_send : sendToList i' `sublist_of` sendToList i
}.

#[global] Instance sim_info_preorder : PreOrder sim_info.
Proof.
  split; [by intros []; split|].
  intros x y z [] []. split; congruence || (etrans; eauto).
Qed.

Record shrunk (s s' : p2pServer) : Prop := {
  shrunk_info c : option_Forall2 sim_info (info s c) (info s' c);
  shrunk_state c : state_of s' c = state_of s c;
  shrunk_buf c : buf_of s' c = buf_of s c;
  shrunk_idle : _idleSeconds s' = _idleSeconds s;
  shrunk_list : _connectionList s' = _connectionList s;
  shrunk_next : next_node s' = next_node s;
  shrunk_mutex : _mutex s' = _mutex s;
  shrunk_connections : _connections s' = _connections s;
  shrunk_trace : trace s' = trace s
}.

#[global] Instance option_Forall2_preorder {A} (R : relation A) :
  PreOrder R -> PreOrder (option_Forall2 R).
Proof.
  intros HR. split; [by intros [x|]; constructor|].
  intros x y z [a b Hab|] H; inversion H; subst; constructor. by etrans.
Qed.

#[global] Instance shrunk_preorder : PreOrder shrunk.
Proof.
  split.
  - intros s. split; done || (intros; reflexivity).
  - intros s1 s2 s3 [] []. split; intros; try congruence. etrans; eauto.
Qed.

Lemma shrunk_upd c f s : (forall i, sim_info i (f i)) -> shrunk s (upd c f s).
Proof.
  intros Hf. split; try done; intros c'.
  - rewrite info_upd. case_decide; [subst|done].
    destruct (info s c); constructor. apply Hf.
  - apply state_of_upd.
  - apply buf_of_upd.
Qed.

Lemma erase_first_sublist d l : erase_first d l `sublist_of` l.
Proof.
  induction l as [|x l IH]; simpl; [done|].
  case_decide; [by apply sublist_cons | by apply sublist_skip].
Qed.

Lemma filter_sublist {A} (P : A -> Prop) `{!forall x, Decision (P x)} (l : list A) :
  filter P l `sublist_of` l.
Proof.
  induction l as [|x l IH]; simpl; [done|]. rewrite filter_cons.
  case_decide; [by apply sublist_skip | by apply sublist_cons].
Qed.

Lemma sim_erase_sub d i : sim_info i (erase_sub d i).
Proof. split; simpl; try done. apply erase_first_sublist. Qed.
Lemma sim_sendToListRemove c i : sim_info i (sendToListRemove c i).
Proof. split; simpl; try done. apply filter_sublist. Qed.
Lemma sim_sendToListClear i : sim_info i (sendToListClear i).
Proof. split; simpl; try done. apply sublist_nil_l. Qed.

Lemma shrunk_unsub_target conn d s : shrunk s (unsub_target conn d s).
Proof.
  unfold unsub_target. case_match; [|done]. apply shrunk_upd, sim_sendToListRemove.
Qed.

Lemma shrunk_unsubscribe_step conn d s :
  shrunk s (upd conn (erase_sub d) (unsub_target conn d s)).
Proof.
  etrans; [apply shrunk_unsub_target|]. apply shrunk_upd, sim_erase_sub.
Qed.

Lemma shrunk_unsubscribe conn d s : shrunk s (unsubscribe_post conn d s).
Proof.
  unfold unsubscribe_post. case_match; [|done]. case_decide; [|done].
  apply shrunk_unsubscribe_step.
Qed.

Lemma shrunk_unsubscribe_all conn ds s : shrunk s (unsubscribe_all_post conn ds s).
Proof.
  revert s. induction ds as [|d ds IH]; intros s; simpl; [done|].
  etrans; [apply shrunk_unsubscribe_step | apply IH].
Qed.

Lemma shrunk_info_Some s s' c i :
  shrunk s s' -> info s c = Some i -> exists i', info s' c = Some i' /\ sim_info i i'.
Proof.
  intros H Hi. pose proof (shrunk_info _ _ H c) as Hc. rewrite Hi in Hc.
  inversion Hc; subst; eauto.
Qed.

Lemma shrunk_info_Some_inv s s' c i' :
  shrunk s s' -> info s' c = Some i' -> exists i, info s c = Some i /\ sim_info i i'.
Proof.
  intros H Hi. pose proof (shrunk_info _ _ H c) as Hc. rewrite Hi in Hc.
  inversion Hc; subst; eauto.
Qed.

Lemma shrunk_is_Some s s' c : shrunk s s' -> is_Some (info s c) -> is_Some (info s' c).
Proof. intros H [i Hi]. destruct (shrunk_info_Some _ _ _ _ H Hi) as (i' & ? & _). eauto. Qed.

(** ** Lemmas: the handlers compute the pure functions *)

Section runs.
Context {host : Host} {lib : TcpLib} {libok : TcpLibOk}.
Context (tid : Z).

Lemma the_conn_run s c o : conns s !! c = Some o -> the_conn c s = Ok (o, s).
Proof. intros H. unfold the_conn, bind, get. simpl. by rewrite H. Qed.

Lemma getConnInfo_run s c i : info s c = Some i -> getConnInfo c s = Ok (i, s).
Proof.
  unfold info. destruct (conns s !! c) as [o|] eqn:E; simpl; [|done]. intros H.
  unfold getConnInfo, bind. rewrite (the_conn_run s c o E). simpl.
  unfold Conn.getContext. by rewrite H.
Qed.

Lemma info_conn s c i : info s c = Some i -> exists o, conns s !! c = Some o /\ context_ o = Some i.
Proof. unfold info. destruct (conns s !! c) as [o|]; simpl; [|done]. by exists o. Qed.

(** A body run under the lock: it sees the locked mutex, which is released. *)
Lemma guard_run {A} (body : M A) s a s' :
  unlocked s ->
  body (set_mutex (mkMutex true tid) s) = Ok (a, set_mutex (mkMutex true tid) s') ->
  MutexLockGuard tid body s = Ok (a, set_mutex Mutex.new_MutexLock s').
Proof.
  intros Hu Hb. unfold MutexLockGuard, bind, get, lift, modify, ret. simpl.
  unfold unlocked in Hu. rewrite Hu. unfold Mutex.lock, Mutex.assignHolder. simpl.
  rewrite Hb. done.
Qed.

Lemma set_mutex_unlocked s : unlocked s -> set_mutex Mutex.new_MutexLock s = s.
Proof. unfold unlocked. destruct s; simpl. by intros ->. Qed.

Lemma info_set_mutex m s c : info (set_mutex m s) c = info s c.
Proof. done. Qed.

Lemma connected_run s c o :
  conns s !! c = Some o -> connected c s = Ok (Conn.connected o, s).
Proof. intros H. unfold connected, bind. by rewrite (the_conn_run s c o H). Qed.

Lemma conn_shutdown_run s c o :
  conns s !! c = Some o -> conn_shutdown c s = Ok (tt, shut c s).
Proof. intros H. unfold conn_shutdown, bind. by rewrite (the_conn_run s c o H). Qed.

Lemma codec_send_run s c o sp m :
  conns s !! c = Some o -> denotes sp m -> codec_send c sp s = Ok (tt, sent c m s).
Proof.
  intros Ho Hm. unfold codec_send, bind, lift.
  destruct (send_buffer_spec sp m Hm) as (b & -> & Hb). simpl.
  rewrite (the_conn_run s c o Ho). unfold update_conn, modify, emit. simpl.
  rewrite (proj2 (rep_wf _ _ Hb)). unfold sent.
  change (set_conns _ s) with (upd_state c tcp_send s).
  by rewrite upd_state_id by apply tcp_send_state.
Qed.

Lemma registerDeviceFunc_run s conn d :
  unlocked s -> is_Some (info s conn) ->
  (forall old, _connections s !! d = Some old -> is_Some (info s old)) ->
  registerDeviceFunc tid conn d s = Ok (tt, register_post conn d s).
Proof.
  intros Hu [i Hi] Hold. unfold registerDeviceFunc, bind at 1 2.
  rewrite (getConnInfo_run s conn i Hi). simpl.
  set (s1 := upd conn (set_deviceId d) s).
  change (update_info conn (set_deviceId d) s) with (Ok (tt, s1)). simpl.
  assert (unlocked s1) as Hu1 by done.
  unfold register_post. fold s1.
  destruct (_connections s !! d) as [old|] eqn:E; [case_decide as Ho|].
  - erewrite guard_run; [by rewrite set_mutex_unlocked | done |].
    unfold bind, connections_find, get. simpl. rewrite E. simpl. by rewrite decide_True.
  - assert (is_Some (info s1 old)) as [iold Hiold].
    { unfold s1. rewrite info_upd_ne by done. by apply Hold. }
    destruct (info_conn s1 old iold Hiold) as (oo & Hoo & _).
    set (s2 := shut old (upd old (set_deviceId deleted) s1)).
    erewrite (guard_run _ _ tt (set_connections (<[d := conn]> (_connections s2)) s2));
      [by rewrite set_mutex_unlocked | done |].
    unfold bind, connections_find, get. simpl. rewrite E. simpl. rewrite decide_False by done.
    rewrite (getConnInfo_run _ old iold) by done. simpl.
    erewrite conn_shutdown_run; [done|].
    simpl in Hoo |- *. by rewrite lookup_alter_eq, Hoo.
  - erewrite (guard_run _ _ tt (set_connections (<[d := conn]> (_connections s1)) s1));
      [by rewrite set_mutex_unlocked | done |].
    unfold bind, connections_find, get. simpl. by rewrite E.
Qed.

Lemma subscribeDeviceFunc_run s conn d :
  unlocked s -> is_Some (info s conn) ->
  (forall c, _connections s !! d = Some c -> is_Some (info s c)) ->
  subscribeDeviceFunc tid conn d s = Ok (subscribe_post conn d s).
Proof.
  intros Hu [i Hi] Hmap. unfold subscribeDeviceFunc, subscribe_post. rewrite Hi.
  destruct (_connections s !! d) as [c|] eqn:E; [case_decide as Hd|].
  - erewrite guard_run; [by rewrite set_mutex_unlocked | done |].
    unfold bind, connections_find, get. simpl. rewrite E. simpl.
    rewrite (getConnInfo_run _ conn i) by done. simpl. by rewrite decide_True.
  - destruct (Hmap c eq_refl) as [ic Hic].
    set (s2 := upd c (sendToListAdd conn) (upd conn (subscribeIdListAdd d) s)).
    erewrite (guard_run _ _ _ s2); [by rewrite set_mutex_unlocked | done |].
    unfold bind, connections_find, get. simpl. rewrite E. simpl.
    rewrite (getConnInfo_run _ conn i) by done. simpl. rewrite decide_False by done.
    rewrite (getConnInfo_run _ c ic) by done. done.
  - erewrite guard_run; [by rewrite set_mutex_unlocked | done |].
    unfold bind, connections_find, get. simpl. by rewrite E.
Qed.

Lemma unsubscribeDeviceFunc_run s conn d :
  unlocked s -> is_Some (info s conn) ->
  (forall c, _connections s !! d = Some c -> is_Some (info s c)) ->
  unsubscribeDeviceFunc tid conn d s = Ok (tt, unsubscribe_post conn d s).
Proof.
  intros Hu [i Hi] Hmap. unfold unsubscribeDeviceFunc, unsubscribe_post, bind at 1.
  rewrite (getConnInfo_run s conn i Hi), Hi. simpl. case_decide as Hd; [|done].
  set (s2 := upd conn (erase_sub d) (unsub_target conn d s)).
  erewrite (guard_run _ _ tt s2);
    [by rewrite set_mutex_unlocked by (unfold s2, unsub_target; by case_match) | done |].
  unfold bind, connections_find, get. simpl.
  unfold s2, unsub_target. destruct (_connections s !! d) as [c|] eqn:E; [|done].
  destruct (Hmap c eq_refl) as [ic Hic]. simpl.
  rewrite (getConnInfo_run _ c ic) by done. done.
Qed.

(** ** The loop of [unregisterDeviceFunc] *)

Lemma erase_first_head d l : erase_first d (d :: l) = l.
Proof. simpl. by rewrite decide_True. Qed.

Lemma subscriptions_unsub_target conn d s c :
  subscribeIdList <$> info (unsub_target conn d s) c = subscribeIdList <$> info s c.
Proof.
  unfold unsub_target. case_match; [|done]. rewrite info_upd.
  case_decide; [subst|done]. by destruct (info s _).
Qed.

Lemma subscriptions_unsubscribe_step conn d ds s i :
  info s conn = Some i -> subscribeIdList i = d :: ds ->
  exists i1, info (upd conn (erase_sub d) (unsub_target conn d s)) conn = Some i1 /\
    subscribeIdList i1 = ds.
Proof.
  intros Hi Eds. pose proof (subscriptions_unsub_target conn d s conn) as H.
  rewrite info_upd_eq. rewrite Hi in H.
  destruct (info (unsub_target conn d s) conn) as [i1|]; simpl in *; [|done].
  injection H as H. eexists. split; [done|]. simpl. rewrite H, Eds. apply erase_first_head.
Qed.

Lemma unsubscribe_all_run fuel s conn i :
  unlocked s -> info s conn = Some i -> (length (subscribeIdList i) < fuel)%nat ->
  (forall d c, _connections s !! d = Some c -> is_Some (info s c)) ->
  unsubscribe_all tid fuel conn s = Ok (tt, unsubscribe_all_post conn (subscribeIdList i) s).
Proof.
  revert s i. induction fuel as [|fuel IH]; intros s i Hu Hi Hf Hmap; [lia|].
  cbn [unsubscribe_all]. unfold bind at 1. rewrite (getConnInfo_run s conn i Hi). simpl.
  destruct (subscribeIdList i) as [|d ds] eqn:Eds; [done|]. unfold bind.
  rewrite unsubscribeDeviceFunc_run by eauto. simpl.
  unfold unsubscribe_post. rewrite Hi, Eds, decide_True by set_solver.
  set (s1 := upd conn (erase_sub d) (unsub_target conn d s)).
  destruct (subscriptions_unsubscribe_step conn d ds s i Hi Eds) as (i1 & Hi1 & Eds1).
  pose proof (shrunk_unsubscribe_step conn d s) as Hs. fold s1 in Hs, Hi1.
  rewrite (IH s1 i1); [by rewrite Eds1 | | done | rewrite Eds1; simpl in Hf; lia |].
  - unfold unlocked. by rewrite (shrunk_mutex _ _ Hs).
  - intros d' c. rewrite (shrunk_connections _ _ Hs). intros Hc.
    eapply shrunk_is_Some; eauto.
Qed.

(** After the loop the connection has no subscription left. *)
Lemma unsubscribe_all_empty s conn i :
  info s conn = Some i ->
  exists i', info (unsubscribe_all_post conn (subscribeIdList i) s) conn = Some i' /\
    sim_info i i' /\ subscribeIdList i' = [].
Proof.
  intros Hi. destruct (shrunk_info_Some _ _ _ _ (shrunk_unsubscribe_all conn (subscribeIdList i) s) Hi)
    as (i' & Hi' & Hsim). exists i'. split_and!; [done..|].
  remember (subscribeIdList i) as ds eqn:Eds. symmetry in Eds. clear Hsim.
  revert s i Hi Eds Hi'. induction ds as [|d ds IH]; intros s i Hi Eds Hi'; simpl in *; [congruence|].
  destruct (subscriptions_unsubscribe_step conn d ds s i Hi Eds) as (i1 & Hi1 & Eds1).
  by eapply IH.
Qed.

Lemma unregisterDeviceFunc_run s conn :
  unlocked s -> is_Some (info s conn) ->
  (forall d c, _connections s !! d = Some c -> is_Some (info s c)) ->
  unregisterDeviceFunc tid conn s = Ok (tt, unregister_post conn s).
Proof.
  intros Hu [i Hi] Hmap. unfold unregisterDeviceFunc, unregister_post, bind at 1.
  rewrite (getConnInfo_run s conn i Hi), Hi. cbn [res_bind]. unfold bind at 1.
  rewrite (unsubscribe_all_run _ s conn i) by (done || lia). cbn [res_bind]. unfold bind at 1.
  destruct (unsubscribe_all_empty s conn i Hi) as (i' & Hi' & Hsim & _).
  pose proof (shrunk_unsubscribe_all conn (subscribeIdList i) s) as Hs.
  set (s1 := unsubscribe_all_post conn (subscribeIdList i) s) in *.
  change (update_info conn sendToListClear s1) with (Ok (tt, upd conn sendToListClear s1)).
  cbn [res_bind]. unfold bind at 1.
  rewrite (getConnInfo_run _ conn (sendToListClear i')) by by rewrite info_upd_eq, Hi'.
  cbn [res_bind].
  assert (deviceId (sendToListClear i') = deviceId i) as -> by apply (sim_device _ _ Hsim).
  case_decide; [done|].
  assert (unlocked s1) as Hu1 by (unfold unlocked; by rewrite (shrunk_mutex _ _ Hs)).
  set (s2 := upd conn sendToListClear s1).
  erewrite (guard_run _ _ tt (upd conn (set_deviceId deleted)
      (set_connections (delete (deviceId i) (_connections s2)) s2)));
    [by rewrite set_mutex_unlocked | done | done].
Qed.

Lemma checkDeviceAliveFunc_run s d :
  unlocked s -> (forall c, _connections s !! d = Some c -> is_Some (info s c)) ->
  checkDeviceAliveFunc tid d s = Ok (alive d s, s).
Proof.
  intros Hu Hmap. unfold checkDeviceAliveFunc, alive.
  destruct (_connections s !! d) as [c|] eqn:E.
  - destruct (Hmap c eq_refl) as [i Hi]. destruct (info_conn s c i Hi) as (o & Ho & _).
    erewrite guard_run; [by rewrite set_mutex_unlocked | done |].
    unfold bind, connections_find, get. simpl. rewrite E. simpl.
    rewrite (connected_run _ c o) by done. simpl. unfold ret, Conn.connected, state_of. rewrite Ho.
    simpl. do 3 f_equal. case_bool_decide; case_decide; congruence.
  - erewrite guard_run; [by rewrite set_mutex_unlocked | done |].
    unfold bind, connections_find, get. simpl. by rewrite E.
Qed.

Lemma last_filter_eq (l : list (nat * connid)) node :
  node ∈ l.*1 ->
  fst <$> last (filter (fun n => n.1 ≠ node) l ++ filter (fun n => n.1 = node) l) = Some node.
Proof.
  intros Hin. rewrite last_app.
  destruct (last (filter (fun n : nat * connid => n.1 = node) l)) as [x|] eqn:E.
  - apply last_Some_elem_of, list_elem_of_filter in E as [E _]. simpl. by rewrite E.
  - apply last_None in E. apply list_elem_of_fmap in Hin as (x & -> & Hx). exfalso.
    assert (x ∈ filter (fun n : nat * connid => n.1 = x.1) l) as H
      by by apply list_elem_of_filter.
    rewrite E in H. set_solver.
Qed.

Lemma heartBeatFunc_run s conn t i :
  info s conn = Some i -> position i ∈ (_connectionList s).*1 ->
  heartBeatFunc conn t s = Ok (tt, heartbeat_post conn t s).
Proof.
  intros Hi Hp. unfold heartBeatFunc, heartbeat_post, bind, get, lift.
  rewrite (getConnInfo_run s conn i Hi), Hi. simpl.
  unfold list_splice_end, bind, get, modify. simpl. rewrite decide_True by done. simpl.
  by rewrite last_filter_eq, bool_decide_true by done.
Qed.

Lemma callbackFunc_run s conn o cmd r :
  conns s !! conn = Some o ->
  callbackFunc conn cmd r s = Ok (tt, sent conn (reply cmd r) s).
Proof.
  intros Ho. unfold callbackFunc. eapply codec_send_run; [done|].
  split_and!; done.
Qed.

Lemma sendData_loop_run s cs m :
  zlen m < 2 ^ 31 ->
  (forall c, c ∈ cs -> state_of s c = Some kConnected) ->
  sendData_loop cs m s = Ok (tt, send_all cs m s).
Proof.
  intros Hm. revert s. induction cs as [|c cs IH]; intros s Hc; simpl; [done|].
  assert (state_of s c = Some kConnected) as Hs by (apply Hc; set_solver).
  unfold state_of in Hs. apply fmap_Some in Hs as (o & Ho & Hst). unfold bind.
  rewrite (connected_run s c o Ho). cbn [res_bind]. unfold Conn.connected.
  rewrite <- Hst, bool_decide_true by done.
  rewrite (codec_send_run s c o _ m Ho) by by apply sp_of_string_denotes. simpl.
  apply IH. intros c' Hc'. rewrite <- (Hc c') by set_solver. done.
Qed.

(** A target that is not connected: [erase] has invalidated the iterator that
    the loop goes on with. *)
Lemma sendData_loop_invalid s cs m :
  zlen m < 2 ^ 31 ->
  (forall c, c ∈ cs -> is_Some (conns s !! c)) ->
  (exists c, c ∈ cs /\ state_of s c <> Some kConnected) ->
  sendData_loop cs m s = Err InvalidIterator.
Proof.
  intros Hm. revert s. induction cs as [|c cs IH]; intros s Hc (c' & Hin & Hst); [set_solver|].
  destruct (Hc c) as [o Ho]; [set_solver|]. simpl. unfold bind.
  rewrite (connected_run s c o Ho). cbn [res_bind]. unfold Conn.connected.
  case_bool_decide as Hk; [|done].
  rewrite (codec_send_run s c o _ m Ho) by by apply sp_of_string_denotes. simpl.
  apply IH.
  - intros c'' Hc''. apply (Hc c''). set_solver.
  - exists c'. split; [|done]. apply elem_of_cons in Hin as [->|]; [|done].
    unfold state_of in Hst. rewrite Ho in Hst. simpl in Hst. congruence.
Qed.

(** ** The dispatcher *)

Lemma dom_upd c f s : dom (conns (upd c f s)) = dom (conns s).
Proof. apply dom_alter_L. Qed.
Lemma dom_upd_state c f s : dom (conns (upd_state c f s)) = dom (conns s).
Proof. apply dom_alter_L. Qed.

Lemma dom_shut c s : dom (conns (shut c s)) = dom (conns s).
Proof. apply dom_upd_state. Qed.

Lemma dom_register conn d s : dom (conns (register_post conn d s)) = dom (conns s).
Proof.
  unfold register_post. case_match; [case_decide|]; cbn [conns set_connections];
    rewrite ?dom_shut, ?dom_upd; done.
Qed.

Lemma dom_subscribe conn d s : dom (conns (subscribe_post conn d s).2) = dom (conns s).
Proof. unfold subscribe_post. repeat case_match; cbn [snd]; rewrite ?dom_upd; done. Qed.

Lemma dom_shrunk s s' : shrunk s s' -> dom (conns s') = dom (conns s).
Proof.
  intros H. apply set_eq. intros c. rewrite !elem_of_dom.
  pose proof (shrunk_state _ _ H c) as Hc. unfold state_of in Hc.
  rewrite <- !(fmap_is_Some state_). by rewrite Hc.
Qed.

Lemma dom_unregister conn s : dom (conns (unregister_post conn s)) = dom (conns s).
Proof.
  unfold unregister_post. case_match; [|done].
  case_decide; rewrite ?dom_upd; cbn [conns set_connections]; rewrite ?dom_upd;
    apply dom_shrunk, shrunk_unsubscribe_all.
Qed.

Lemma dom_send_all cs m s : conns (send_all cs m s) = conns s.
Proof. unfold send_all. revert s. induction cs as [|c cs IH]; intros s; simpl; [done|]. by rewrite IH. Qed.

Lemma dom_heartbeat conn t s : dom (conns (heartbeat_post conn t s)) = dom (conns s).
Proof. unfold heartbeat_post. case_match; [|done]. simpl. apply dom_upd. Qed.

Lemma answer_run s s' conn cmd r :
  dom (conns s') = dom (conns s) -> is_Some (info s conn) ->
  callbackFunc conn cmd r s' = Ok (tt, sent conn (reply cmd r) s').
Proof.
  intros Hd [i Hi]. destruct (info_conn s conn i Hi) as (o & Ho & _).
  assert (conn ∈ dom (conns s')) as Hin by (rewrite Hd; by apply elem_of_dom).
  apply elem_of_dom in Hin as [o' Ho']. by eapply callbackFunc_run.
Qed.

(** What a handler needs to find in the state. *)
Record ready (s : p2pServer) (conn : connid) : Prop := {
  ready_unlocked : unlocked s;
  ready_conn : exists i, info s conn = Some i /\ position i ∈ (_connectionList s).*1;
  ready_map d c : _connections s !! d = Some c -> is_Some (info s c)
}.

(** One message is handled without an error and has exactly the effect
    [message_post], provided the targets of a data message are connected. *)
Lemma onMessage_run s conn m t :
  ready s conn -> zlen m < 2 ^ 31 ->
  (message_0 m = SEND_DATA -> forall c, c ∈ targets s conn -> state_of s c = Some kConnected) ->
  onMessage tid conn m t s = Ok (tt, message_post conn m t s).
Proof.
  intros [Hu (i & Hi & Hp) Hmap] Hm Htargets. unfold onMessage, message_post.
  assert (is_Some (info s conn)) as His by eauto.
  destruct (Z.eqb_spec (message_0 m) REGISTER_DEVICE) as [E|_].
  { unfold bind. rewrite registerDeviceFunc_run by eauto. simpl.
    apply (answer_run s); [apply dom_register | done]. }
  destruct (Z.eqb_spec (message_0 m) SUBSCRIBE_DEVICE) as [E|_].
  { unfold bind. rewrite subscribeDeviceFunc_run by eauto. simpl.
    pose proof (dom_subscribe conn (message_tail m) s) as Hd.
    destruct (subscribe_post _ _ _) as [r s']. by apply (answer_run s). }
  destruct (Z.eqb_spec (message_0 m) SEND_DATA) as [E|_].
  { unfold bind, sendDataFunc, bind. rewrite (getConnInfo_run s conn i Hi). simpl.
    specialize (Htargets E). unfold targets in *. rewrite Hi in *.
    rewrite sendData_loop_run by done. simpl.
    apply (answer_run s); [by rewrite dom_send_all | done]. }
  destruct (Z.eqb_spec (message_0 m) UNREGISTER_DEVICE) as [E|_].
  { unfold bind. rewrite unregisterDeviceFunc_run by eauto. simpl.
    apply (answer_run s); [apply dom_unregister | done]. }
  destruct (Z.eqb_spec (message_0 m) UNSUBSCRIBE_DEVICE) as [E|_].
  { unfold bind. rewrite unsubscribeDeviceFunc_run by eauto. simpl.
    apply (answer_run s); [apply dom_shrunk, shrunk_unsubscribe | done]. }
  destruct (Z.eqb_spec (message_0 m) CHECK_DEVICE_ALIVE) as [E|_].
  { unfold bind. rewrite checkDeviceAliveFunc_run by eauto. simpl. by apply (answer_run s). }
  destruct (Z.eqb_spec (message_0 m) HEART_BEAT) as [E|_]; [|done].
  unfold bind. rewrite (heartBeatFunc_run s conn t i) by done. simpl.
  apply (answer_run s); [apply dom_heartbeat | done].
Qed.

End runs.
