(* ===== verification/ServerInv.v ===== *)
(** * The server as a transition system, and its invariant

    The network library calls the server: a connection comes up, bytes arrive on
    it, it goes down, the timer fires, the last reference to it is dropped.
    [step] is that transition system; [inv] is the invariant of its states: who
    is registered under which id, who sends to whom, and where the entry of a
    connection is in the list of connections. *)

From S2P Require Import Prelude Endian StringPiece Buffer Codec Muduo Server ServerSpec.

(** The object exists and the connection is not closed. *)
Definition up (s : p2pServer) (c : connid) : Prop :=
  exists st, state_of s c = Some st /\ st <> kDisconnected.

Section transitions.
Context {host : Host} {lib : TcpLib} (tid : Z).

(** [TcpServer::newConnection]: a new object, then the connection callback. *)
Definition ev_up (c : connid) (now : Timestamp) : M unit := fun s =>
  let* b := new_Buffer kInitialSize in
  onConnection tid c now (set_conns (<[c := mkConn kConnected true b None]> (conns s)) s).

(** Bytes are read into the input buffer, then the message callback. *)
Definition ev_data (c : connid) (bs : list Z) (t : Timestamp) : M unit := fun s =>
  let* (o, s) := the_conn c s in
  let* b := append (inputBuffer_ o) (Some (mkPtr bs 0)) (zlen bs) in
  let* (_, s) := update_conn c (fun o => Conn.setInputBuffer o b) s in
  onData tid c t s.

(** [TcpConnection::handleClose]: the state, then the connection callback. *)
Definition ev_down (c : connid) (now : Timestamp) : M unit := fun s =>
  onConnection tid c now (upd_state c (fun _ => kDisconnected) s).

(** Nobody holds a shared pointer to the object any more. *)
Definition unreferenced (s : p2pServer) (c : connid) : Prop :=
  state_of s c = Some kDisconnected /\
  (forall d, _connections s !! d <> Some c) /\
  (forall c' i, info s c' = Some i -> c ∉ sendToList i).

Definition ev_destroy (c : connid) (s : p2pServer) : p2pServer :=
  set_conns (delete c (conns s)) s.

Inductive step : p2pServer -> p2pServer -> Prop :=
  | step_up s c now s' :
      conns s !! c = None -> ev_up c now s = Ok (tt, s') -> step s s'
  | step_data s c b bs t s' :
      up s c -> bytes bs -> buf_of s c = Some b -> writerIndex_ b + zlen bs <= max_size ->
      ev_data c bs t s = Ok (tt, s') -> step s s'
  | step_down s c now s' :
      up s c -> ev_down c now s = Ok (tt, s') -> step s s'
  | step_timer s now s' :
      onTimer now s = Ok (tt, s') -> step s s'
  | step_destroy s c :
      unreferenced s c -> step s (ev_destroy c s).

Definition reachable (idle : Z) (s : p2pServer) : Prop := rtc step (new_p2pServer idle) s.

End transitions.

(** ** The invariant *)

Record reg_inv (s : p2pServer) : Prop := {
  i_mutex : unlocked s;
  i_ctx c : is_Some (state_of s c) -> is_Some (info s c);
  i_map d c : _connections s !! d = Some c -> is_Some (info s c);
  i_self c i : info s c = Some i -> deviceId i <> deleted ->
               _connections s !! deviceId i = Some c;
  i_nodup c i : info s c = Some i -> NoDup (subscribeIdList i) /\ NoDup (sendToList i);
  i_send c i t : info s c = Some i -> t ∈ sendToList i -> is_Some (info s t)
}.

Record list_inv (s : p2pServer) : Prop := {
  l_node n c : (n, c) ∈ _connectionList s ->
               (exists i, info s c = Some i /\ position i = n) /\ up s c /\ (n < next_node s)%nat;
  l_up c i : info s c = Some i -> up s c -> (position i, c) ∈ _connectionList s;
  l_nodup : NoDup (_connectionList s).*1
}.

Definition buf_inv (s : p2pServer) : Prop :=
  forall c b, buf_of s c = Some b -> exists k, rep b k /\ bytes k.

Record inv (s : p2pServer) : Prop := {
  inv_reg : reg_inv s;
  inv_list : list_inv s;
  inv_buf : buf_inv s
}.

(** ** States that differ in registrations and subscriptions only *)

Record tame (s s' : p2pServer) : Prop := {
  tame_pos c : position <$> info s' c = position <$> info s c;
  tame_some c : is_Some (state_of s' c) <-> is_Some (state_of s c);
  tame_closed c : state_of s' c = Some kDisconnected <-> state_of s c = Some kDisconnected;
  tame_buf c : buf_of s' c = buf_of s c;
  tame_list : _connectionList s' ≡ₚ _connectionList s;
  tame_next : next_node s' = next_node s;
  tame_idle : _idleSeconds s' = _idleSeconds s;
  tame_mutex : _mutex s' = _mutex s
}.

#[global] Instance tame_preorder : PreOrder tame.
Proof.
  split.
  - intros s. by split.
  - intros s1 s2 s3 H1 H2. split; intros.
    + by rewrite (tame_pos _ _ H2), (tame_pos _ _ H1).
    + by rewrite (tame_some _ _ H2), (tame_some _ _ H1).
    + by rewrite (tame_closed _ _ H2), (tame_closed _ _ H1).
    + by rewrite (tame_buf _ _ H2), (tame_buf _ _ H1).
    + by rewrite (tame_list _ _ H2), (tame_list _ _ H1).
    + by rewrite (tame_next _ _ H2), (tame_next _ _ H1).
    + by rewrite (tame_idle _ _ H2), (tame_idle _ _ H1).
    + by rewrite (tame_mutex _ _ H2), (tame_mutex _ _ H1).
Qed.

Lemma tame_info s s' c : tame s s' -> is_Some (info s c) <-> is_Some (info s' c).
Proof.
  intros H. pose proof (tame_pos _ _ H c) as Hc.
  rewrite <- (fmap_is_Some position (info s c)), <- (fmap_is_Some position (info s' c)).
  by rewrite Hc.
Qed.

Lemma up_alt s c : up s c <-> is_Some (state_of s c) /\ state_of s c <> Some kDisconnected.
Proof.
  unfold up. split.
  - intros (st & -> & Hst). split; [eauto | congruence].
  - intros [[st Hst] Hne]. exists st. split; [done | congruence].
Qed.

Lemma tame_up s s' c : tame s s' -> up s' c <-> up s c.
Proof.
  intros H. rewrite !up_alt, (tame_some _ _ H c), (tame_closed _ _ H c). done.
Qed.

Lemma tame_list_inv s s' : tame s s' -> list_inv s -> list_inv s'.
Proof.
  intros H [Hn Hu Hd]. split.
  - intros n c. rewrite (tame_list _ _ H), (tame_up _ _ _ H), (tame_next _ _ H). intros Hin.
    destruct (Hn n c Hin) as ((i & Hi & Hp) & ? & ?). split_and!; try done.
    pose proof (tame_pos _ _ H c) as Hc. rewrite Hi in Hc. simpl in Hc.
    apply fmap_Some in Hc as (i' & ? & ?). exists i'. split; [done | congruence].
  - intros c i' Hi' Hup. rewrite (tame_list _ _ H).
    pose proof (tame_pos _ _ H c) as Hc. rewrite Hi' in Hc. simpl in Hc. symmetry in Hc.
    apply fmap_Some in Hc as (i & Hi & ->). apply Hu; [done|]. by apply (tame_up _ _ _ H).
  - by rewrite (tame_list _ _ H).
Qed.

Lemma tame_upd c f s : (forall i, position (f i) = position i) -> tame s (upd c f s).
Proof.
  intros Hf. split; try done; intros c'; rewrite ?state_of_upd, ?buf_of_upd; try done.
  rewrite info_upd. case_decide; [subst|done].
  destruct (info s c); simpl; [by rewrite Hf | done].
Qed.

Lemma tame_upd_state c f s :
  (forall st, f st = kDisconnected <-> st = kDisconnected) -> tame s (upd_state c f s).
Proof.
  intros Hf. split; try done; intros c'; autorewrite with server; try done;
    rewrite state_of_upd_state; (case_decide; [subst|done]).
  - by rewrite fmap_is_Some.
  - destruct (state_of s c) as [st|]; simpl; [|done].
    split; intros [= E]; f_equal; by apply Hf.
Qed.

Lemma tame_emitted e s : tame s (emitted e s).
Proof. by split. Qed.
Lemma tame_set_connections m s : tame s (set_connections m s).
Proof. by split. Qed.

Lemma shrunk_tame s s' : shrunk s s' -> tame s s'.
Proof.
  intros H. split; intros; rewrite ?(shrunk_state _ _ H), ?(shrunk_buf _ _ H),
    ?(shrunk_list _ _ H), ?(shrunk_next _ _ H), ?(shrunk_idle _ _ H), ?(shrunk_mutex _ _ H); try done.
  pose proof (shrunk_info _ _ H c) as Hc. inversion Hc as [i i' Hi| ]; simpl; [|done].
  by rewrite (sim_position _ _ Hi).
Qed.

#[export] Hint Resolve tame_emitted tame_set_connections : p2p.

Section invariants.
Context {host : Host} {lib : TcpLib} {libok : TcpLibOk} (tid : Z).

Lemma tame_shut c s : tame s (shut c s).
Proof.
  unfold shut. etrans; [apply tame_upd_state, tcp_shutdown_closed | apply tame_emitted].
Qed.

Lemma tame_register conn d s : tame s (register_post conn d s).
Proof.
  unfold register_post.
  assert (tame s (upd conn (set_deviceId d) s)) as H1 by by apply tame_upd.
  case_match; [case_decide; [done|]|]; (etrans; [apply H1|]).
  - etrans; [|apply tame_set_connections].
    etrans; [by apply (tame_upd n (set_deviceId deleted)) | apply tame_shut].
  - apply tame_set_connections.
Qed.

Lemma position_subscribeIdListAdd d i : position (subscribeIdListAdd d i) = position i.
Proof. unfold subscribeIdListAdd. by case_decide. Qed.
Lemma position_sendToListAdd c i : position (sendToListAdd c i) = position i.
Proof. unfold sendToListAdd. by case_decide. Qed.

Lemma tame_subscribe conn d s : tame s (subscribe_post conn d s).2.
Proof.
  unfold subscribe_post. repeat case_match; try done. cbn [snd].
  etrans; [apply tame_upd, position_subscribeIdListAdd | apply tame_upd, position_sendToListAdd].
Qed.

Lemma tame_unregister conn s : tame s (unregister_post conn s).
Proof.
  unfold unregister_post. case_match; [|done].
  assert (tame s (upd conn sendToListClear (unsubscribe_all_post conn (subscribeIdList c) s))) as H1.
  { etrans; [apply shrunk_tame, shrunk_unsubscribe_all | by apply tame_upd]. }
  case_decide; [done|]. etrans; [apply H1|].
  etrans; [apply tame_set_connections | by apply tame_upd].
Qed.

Lemma tame_send_all cs m s : tame s (send_all cs m s).
Proof.
  revert s. induction cs as [|c cs IH]; intros s; simpl; [done|].
  etrans; [apply tame_emitted | apply IH].
Qed.

Lemma filter_perm {A} (P : A -> Prop) `{!forall x, Decision (P x)} (l : list A) :
  filter (fun x => ~ P x) l ++ filter P l ≡ₚ l.
Proof.
  induction l as [|x l IH]; [done|]. rewrite !filter_cons.
  destruct (decide (P x)) as [Hp|Hp].
  - rewrite decide_False by naive_solver.
    rewrite <- Permutation_middle. by rewrite IH.
  - rewrite decide_True by done. simpl. by rewrite IH.
Qed.

Lemma tame_heartbeat conn t s : tame s (heartbeat_post conn t s).
Proof.
  unfold heartbeat_post. case_match; [|done].
  etrans; [by apply (tame_upd conn (set_lastReceiveTime t))|].
  split; try done. simpl. apply (filter_perm (fun n => n.1 = position c)).
Qed.

(** A property of states holds after a message when it holds after what the
    handlers do and does not depend on what is sent. *)
Lemma message_post_ind (P : p2pServer -> Prop) conn m t s :
  (forall s' c x, P s' -> P (sent c x s')) -> P s ->
  P (register_post conn (message_tail m) s) -> P (subscribe_post conn (message_tail m) s).2 ->
  P (unregister_post conn s) -> P (unsubscribe_post conn (message_tail m) s) ->
  P (heartbeat_post conn t s) -> P (message_post conn m t s).
Proof.
  intros Hsent Hs H1 H2 H3 H4 H5. unfold message_post.
  assert (forall cs s', P s' -> P (send_all cs m s')) as Hall.
  { induction cs as [|c cs IH]; intros s' Hs'; simpl; auto. }
  repeat (case_match; auto).
Qed.

(** No message changes which connections there are, whether they are closed,
    where their entries in the list are, or their input buffers. *)
Lemma tame_message conn m t s : tame s (message_post conn m t s).
Proof.
  apply message_post_ind; auto using tame_register, tame_subscribe, tame_unregister,
    tame_heartbeat, shrunk_tame, shrunk_unsubscribe; [|done].
  intros s' c x Hs'. etrans; [done | apply tame_emitted].
Qed.

(** ** Registrations *)

Lemma reg_inv_shrunk s s' : shrunk s s' -> reg_inv s -> reg_inv s'.
Proof.
  intros H [Hm Hc Hmap Hself Hnd Hsend]. split.
  - unfold unlocked. by rewrite (shrunk_mutex _ _ H).
  - intros c. rewrite (shrunk_state _ _ H). intros Hs. eapply shrunk_is_Some; eauto.
  - intros d c. rewrite (shrunk_connections _ _ H). intros Hd. eapply shrunk_is_Some; eauto.
  - intros c i' Hi' Hd. destruct (shrunk_info_Some_inv _ _ _ _ H Hi') as (i & Hi & Hsim).
    rewrite (shrunk_connections _ _ H), (sim_device _ _ Hsim) in *. by apply Hself.
  - intros c i' Hi'. destruct (shrunk_info_Some_inv _ _ _ _ H Hi') as (i & Hi & Hsim).
    destruct (Hnd c i Hi) as [H1 H2].
    split; eapply sublist_NoDup; eauto using sim_subscribe, sim_send.
  - intros c i' t Hi' Ht. destruct (shrunk_info_Some_inv _ _ _ _ H Hi') as (i & Hi & Hsim).
    eapply shrunk_is_Some; [done|]. eapply Hsend; [done|].
    eapply elem_of_submseteq; [done|]. apply sublist_submseteq, Hsim.
Qed.

Lemma reg_inv_sent c m s : reg_inv s -> reg_inv (sent c m s).
Proof. by intros []. Qed.

Lemma reg_inv_same s s' :
  (forall c, info s' c = info s c) -> (forall c, is_Some (state_of s' c) -> is_Some (state_of s c)) ->
  _mutex s' = _mutex s -> _connections s' = _connections s -> reg_inv s -> reg_inv s'.
Proof.
  intros Hi Hst Hm Hc [H1 H2 H3 H4 H5 H6]. split.
  - unfold unlocked. by rewrite Hm.
  - intros c ?. rewrite Hi. auto.
  - intros d c. rewrite Hc, Hi. apply H3.
  - intros c i. rewrite Hi, Hc. apply H4.
  - intros c i. rewrite Hi. apply H5.
  - intros c i t. rewrite !Hi. apply H6.
Qed.

(** An update that only touches the time. *)
Lemma reg_inv_upd_time conn t s : reg_inv s -> reg_inv (upd conn (set_lastReceiveTime t) s).
Proof.
  intros [H1 H2 H3 H4 H5 H6].
  assert (forall c, is_Some (info s c) -> is_Some (info (upd conn (set_lastReceiveTime t) s) c)) as Hs.
  { intros c. rewrite info_upd. case_decide; [subst|done]. by rewrite fmap_is_Some. }
  assert (forall c i', info (upd conn (set_lastReceiveTime t) s) c = Some i' ->
    exists i, info s c = Some i /\ deviceId i' = deviceId i /\
      subscribeIdList i' = subscribeIdList i /\ sendToList i' = sendToList i) as Hinv.
  { intros c i'. rewrite info_upd. case_decide; [subst|eauto 10].
    intros (i & ? & ->)%fmap_Some. eauto 10. }
  split; try done.
  - intros c. rewrite state_of_upd. auto.
  - intros d c Hd. apply Hs. eauto.
  - intros c i' Hi' Hd. destruct (Hinv c i' Hi') as (i & Hi & E & _). rewrite E in *. simpl. auto.
  - intros c i' Hi'. destruct (Hinv c i' Hi') as (i & Hi & _ & -> & ->). eauto.
  - intros c i' t' Hi'. destruct (Hinv c i' Hi') as (i & Hi & _ & _ & ->). eauto.
Qed.

Lemma reg_inv_heartbeat conn t s : reg_inv s -> reg_inv (heartbeat_post conn t s).
Proof.
  intros H. unfold heartbeat_post. case_match; [|done].
  eapply reg_inv_same; [.. | by apply (reg_inv_upd_time conn t)]; done.
Qed.

Lemma reg_inv_subscribe conn d s : reg_inv s -> reg_inv (subscribe_post conn d s).2.
Proof.
  intros H. unfold subscribe_post.
  destruct (_connections s !! d) as [c|] eqn:Ed; [|done].
  destruct (info s conn) as [i|] eqn:Ei; [|done]. case_decide; [done|]. cbn [snd].
  destruct H as [H1 H2 H3 H4 H5 H6].
  set (s1 := upd conn (subscribeIdListAdd d) s). set (s2 := upd c (sendToListAdd conn) s1).
  assert (forall c', is_Some (info s c') -> is_Some (info s2 c')) as Hs.
  { intros c'. unfold s2, s1. rewrite !info_upd. repeat case_decide; subst; by rewrite ?fmap_is_Some. }
  assert (forall c' i', info s2 c' = Some i' -> exists i, info s c' = Some i /\
    deviceId i' = deviceId i /\
    (subscribeIdList i' = subscribeIdList i \/
      subscribeIdList i' = subscribeIdList i ++ [d] /\ d ∉ subscribeIdList i) /\
    (sendToList i' = sendToList i \/
      sendToList i' = sendToList i ++ [conn] /\ conn ∉ sendToList i)) as Hinv.
  { intros c' i'. unfold s2, s1. rewrite !info_upd. unfold sendToListAdd, subscribeIdListAdd.
    repeat case_decide; subst; intros Hi'; repeat (apply fmap_Some in Hi' as (? & Hi' & ->));
      eexists; (split; [done|]); repeat case_decide; simpl in *; auto. }
  split; try done.
  - intros c'. unfold s2, s1. rewrite !state_of_upd. auto.
  - intros d' c' Hd. apply Hs. eauto.
  - intros c' i' Hi' Hd. destruct (Hinv c' i' Hi') as (j & Hj & E & _). rewrite E in *. simpl. auto.
  - intros c' i' Hi'. destruct (Hinv c' i' Hi') as (j & Hj & _ & Hsub & Hsend).
    destruct (H5 c' j Hj) as [N1 N2].
    split; [destruct Hsub as [->|[-> ?]] | destruct Hsend as [->|[-> ?]]]; try done;
      apply NoDup_app; (split; [done|]); (split; [set_solver | apply NoDup_singleton]).
  - intros c' i' t Hi' Ht. destruct (Hinv c' i' Hi') as (j & Hj & _ & _ & Hsend). apply Hs.
    destruct Hsend as [E|[E _]]; rewrite E in Ht; [eauto|].
    apply elem_of_app in Ht as [Ht| ->%list_elem_of_singleton]; eauto.
Qed.

(** What [register_post] leaves in the contexts. *)
Lemma info_register conn d s c i' :
  info (register_post conn d s) c = Some i' ->
  exists i, info s c = Some i /\ subscribeIdList i' = subscribeIdList i /\
    sendToList i' = sendToList i /\
    ((c = conn /\ deviceId i' = d) \/
     (c <> conn /\ _connections s !! d = Some c /\ deviceId i' = deleted) \/
     (c <> conn /\ _connections s !! d <> Some c /\ deviceId i' = deviceId i)).
Proof.
  unfold register_post. destruct (_connections s !! d) as [old|] eqn:E; [case_decide as Ho|];
    autorewrite with server; unfold shut; autorewrite with server; rewrite !info_upd.
  - subst. case_decide; [subst|intros; eexists; naive_solver].
    intros (i & ? & ->)%fmap_Some. exists i. naive_solver.
  - repeat case_decide; subst; try done;
      try (intros (i & ? & ->)%fmap_Some); eexists; naive_solver.
  - case_decide; [subst|intros; eexists; naive_solver].
    intros (i & ? & ->)%fmap_Some. exists i. naive_solver.
Qed.

Lemma connections_register conn d s :
  _connections (register_post conn d s) = <[d := conn]> (_connections s).
Proof.
  unfold register_post. destruct (_connections s !! d) as [old|] eqn:E; [case_decide as Ho|];
    simpl; try done. subst. by rewrite insert_id.
Qed.

Lemma reg_inv_register conn d s :
  is_Some (info s conn) -> reg_inv s -> reg_inv (register_post conn d s).
Proof.
  intros Hconn [H1 H2 H3 H4 H5 H6]. pose proof (tame_register conn d s) as Ht.
  split.
  - unfold unlocked. by rewrite (tame_mutex _ _ Ht).
  - intros c. rewrite (tame_some _ _ Ht), <- (tame_info _ _ _ Ht). auto.
  - intros d' c. rewrite connections_register, <- (tame_info _ _ _ Ht).
    rewrite lookup_insert_Some. intros [[_ <-]|[_ ?]]; eauto.
  - intros c i' Hi' Hd. destruct (info_register _ _ _ _ _ Hi') as (i & Hi & _ & _ & Hc).
    rewrite connections_register. destruct Hc as [[-> ->]|[(_ & _ & ?)|(Hne & Hmap & Hdev)]]; [|done|].
    + by rewrite lookup_insert_eq.
    + rewrite Hdev in *. specialize (H4 c i Hi Hd).
      rewrite lookup_insert_ne by congruence. done.
  - intros c i' Hi'. destruct (info_register _ _ _ _ _ Hi') as (i & Hi & -> & -> & _). eauto.
  - intros c i' t Hi' Hin. destruct (info_register _ _ _ _ _ Hi') as (i & Hi & _ & E & _).
    rewrite E in Hin. apply (tame_info _ _ _ Ht). eauto.
Qed.

(** What [unregister_post] does, on top of removing subscriptions. *)
Lemma unregister_post_cases conn s i :
  info s conn = Some i ->
  exists s1, shrunk s s1 /\
    (exists i1, info s1 conn = Some i1 /\ sim_info i i1 /\
       subscribeIdList i1 = [] /\ sendToList i1 = []) /\
    unregister_post conn s =
      if decide (deviceId i = deleted) then s1
      else upd conn (set_deviceId deleted)
             (set_connections (delete (deviceId i) (_connections s1)) s1).
Proof.
  intros Hi. unfold unregister_post. rewrite Hi.
  destruct (unsubscribe_all_empty s conn i Hi) as (i' & Hi' & Hsim & Hempty).
  eexists. split; [|split; [|reflexivity]].
  - etrans; [apply shrunk_unsubscribe_all | apply shrunk_upd, sim_sendToListClear].
  - exists (sendToListClear i'). rewrite info_upd_eq, Hi'. split_and!; try done.
    etrans; [done | apply sim_sendToListClear].
Qed.

Lemma reg_inv_unregister conn s :
  is_Some (info s conn) -> reg_inv s -> reg_inv (unregister_post conn s).
Proof.
  intros [i Hi] H. destruct (unregister_post_cases conn s i Hi) as (s1 & Hs & (i1 & Hi1 & Hsim & _) & ->).
  apply (reg_inv_shrunk _ _ Hs) in H. case_decide as Hd; [done|].
  pose proof (sim_device _ _ Hsim) as Hdev. rewrite <- Hdev in *.
  destruct H as [H1 H2 H3 H4 H5 H6]. pose proof (H4 conn i1 Hi1 Hd) as Hmap.
  set (s2 := upd conn _ _).
  assert (forall c, is_Some (info s1 c) -> is_Some (info s2 c)) as Hsome.
  { intros c. unfold s2. rewrite info_upd. autorewrite with server.
    case_decide; [subst|done]. by rewrite fmap_is_Some. }
  assert (forall c i', info s2 c = Some i' -> exists j, info s1 c = Some j /\
    subscribeIdList i' = subscribeIdList j /\ sendToList i' = sendToList j /\
    (deviceId i' = deleted \/ (c <> conn /\ deviceId i' = deviceId j))) as Hinv.
  { intros c i'. unfold s2. rewrite info_upd. autorewrite with server.
    case_decide; [subst|eauto 10]. intros (j & ? & ->)%fmap_Some. eauto 10. }
  split; try done.
  - intros c. unfold s2. rewrite state_of_upd. autorewrite with server. auto.
  - intros d c Hc. apply Hsome. unfold s2 in Hc. simpl in Hc.
    apply lookup_delete_Some in Hc as [_ Hc]. eauto.
  - intros c i' Hi' Hne. destruct (Hinv c i' Hi') as (j & Hj & _ & _ & [?|[Hc E]]); [done|].
    rewrite E in *. simpl. specialize (H4 c j Hj Hne).
    rewrite lookup_delete_ne by congruence. done.
  - intros c i' Hi'. destruct (Hinv c i' Hi') as (j & Hj & -> & -> & _). eauto.
  - intros c i' t Hi' Hin. destruct (Hinv c i' Hi') as (j & Hj & _ & E & _). rewrite E in Hin. eauto.
Qed.

Lemma reg_inv_message conn m t s :
  is_Some (info s conn) -> reg_inv s -> reg_inv (message_post conn m t s).
Proof.
  intros Hc H. apply message_post_ind;
    auto using reg_inv_sent, reg_inv_register, reg_inv_subscribe, reg_inv_unregister,
      reg_inv_heartbeat.
  eapply reg_inv_shrunk; [apply shrunk_unsubscribe | done].
Qed.

(** ** The whole invariant *)

Lemma buf_inv_tame s s' : tame s s' -> buf_inv s -> buf_inv s'.
Proof. intros H Hb c b. rewrite (tame_buf _ _ H). apply Hb. Qed.

Lemma inv_message conn m t s :
  is_Some (info s conn) -> inv s -> inv (message_post conn m t s).
Proof.
  intros Hc [H1 H2 H3]. pose proof (tame_message conn m t s) as Ht. split.
  - by apply reg_inv_message.
  - by eapply tame_list_inv.
  - by eapply buf_inv_tame.
Qed.

Lemma inv_info s c : inv s -> up s c -> exists i, info s c = Some i.
Proof.
  intros H (st & Hst & _). destruct (i_ctx s (inv_reg _ H) c) as [i Hi]; [by rewrite Hst|]. eauto.
Qed.

Lemma inv_ready s c : inv s -> up s c -> ready s c.
Proof.
  intros H Hup. destruct (inv_info s c H Hup) as [i Hi]. split.
  - apply (i_mutex _ (inv_reg _ H)).
  - exists i. split; [done|]. apply list_elem_of_fmap. exists (position i, c). split; [done|].
    by apply (l_up _ (inv_list _ H)).
  - intros d c'. apply (i_map _ (inv_reg _ H)).
Qed.

(** ** Messages and data *)

Lemma targets_exist s conn c : inv s -> c ∈ targets s conn -> is_Some (conns s !! c).
Proof.
  intros H. unfold targets. destruct (info s conn) as [i|] eqn:Hi; [|set_solver]. intros Hc.
  destruct (i_send _ (inv_reg _ H) _ _ _ Hi Hc) as [j Hj].
  destruct (info_conn _ _ _ Hj) as (o & Ho & _). eauto.
Qed.

(** A message is handled completely, unless it is data for a connection that is
    not connected any more. *)
Lemma onMessage_outcome conn m t s :
  inv s -> up s conn -> zlen m < 2 ^ 31 ->
  onMessage tid conn m t s = Ok (tt, message_post conn m t s) \/
  (onMessage tid conn m t s = Err InvalidIterator /\ message_0 m = SEND_DATA /\
   exists c, c ∈ targets s conn /\ state_of s c <> Some kConnected).
Proof.
  intros H Hup Hm. pose proof (inv_ready s conn H Hup) as Hr.
  destruct (decide (Forall (fun c => state_of s c = Some kConnected) (targets s conn))) as [Hall|Hex].
  - left. apply onMessage_run; try done. intros _. by apply Forall_forall.
  - apply not_Forall_Exists in Hex; [|apply _]. apply Exists_exists in Hex.
    destruct (decide (message_0 m = SEND_DATA)) as [E|E]; [|left; by apply onMessage_run].
    right. split_and!; try done. unfold onMessage. rewrite E. simpl.
    destruct (ready_conn _ _ Hr) as (i & Hi & _).
    unfold bind, sendDataFunc, bind. rewrite (getConnInfo_run s conn i Hi). cbn [res_bind].
    assert (targets s conn = sendToList i) as Et by (unfold targets; by rewrite Hi).
    rewrite <- Et, sendData_loop_invalid; try done.
    intros c Hc. by eapply targets_exist.
Qed.

(** The callback the server gives to the codec. *)
Definition server_callback (conn : connid) (t : Timestamp) (s : p2pServer) (m : list Z) : res p2pServer :=
  res_map snd (onMessage tid conn m t s).

Lemma deliver_inv conn t ms s :
  inv s -> up s conn -> Forall (fun m => zlen m <= max_message) ms ->
  match deliver (server_callback conn t) s ms with
  | Ok s' => inv s' /\ tame s s'
  | Err e => e = InvalidIterator
  end.
Proof.
  revert s. induction ms as [|m ms IH]; intros s H Hup Hms; simpl; [done|].
  apply Forall_cons in Hms as [Hm Hms]. unfold server_callback at 1. unfold max_message in *.
  destruct (onMessage_outcome conn m t s H Hup ltac:(lia)) as [->|(-> & _)]; simpl; [|done].
  destruct (inv_info s conn H Hup) as [i Hi].
  pose proof (tame_message conn m t s) as Ht.
  specialize (IH (message_post conn m t s) (inv_message conn m t s ltac:(eauto) H)
    (proj2 (tame_up _ _ _ Ht) Hup) Hms).
  destruct (deliver _ _ ms); [|done]. destruct IH as [? ?]. split; [done | by etrans].
Qed.

Definition set_buf (c : connid) (b : Buffer) (s : p2pServer) : p2pServer :=
  set_conns (alter (fun o => Conn.setInputBuffer o b) c (conns s)) s.

Lemma info_set_buf c b s c' : info (set_buf c b s) c' = info s c'.
Proof.
  unfold info, set_buf. simpl. destruct (decide (c' = c)) as [->|].
  - rewrite lookup_alter_eq. by destruct (conns s !! c).
  - by rewrite lookup_alter_ne.
Qed.

Lemma state_of_set_buf c b s c' : state_of (set_buf c b s) c' = state_of s c'.
Proof.
  unfold state_of, set_buf. simpl. destruct (decide (c' = c)) as [->|].
  - rewrite lookup_alter_eq. by destruct (conns s !! c).
  - by rewrite lookup_alter_ne.
Qed.

Lemma buf_of_set_buf c b s c' b' :
  buf_of (set_buf c b s) c' = Some b' -> (c' = c /\ b' = b) \/ (c' <> c /\ buf_of s c' = Some b').
Proof.
  unfold buf_of, set_buf. simpl. destruct (decide (c' = c)) as [->|].
  - rewrite lookup_alter_eq. destruct (conns s !! c); simpl; naive_solver.
  - rewrite lookup_alter_ne by done. auto.
Qed.

Lemma inv_set_buf c b k s : inv s -> rep b k -> bytes k -> inv (set_buf c b s).
Proof.
  intros [H1 [L1 L2 L3] H3] Hb Hk. split.
  - eapply reg_inv_same; [.. | done]; try done; intros c'; rewrite ?info_set_buf, ?state_of_set_buf; done.
  - assert (forall c', up (set_buf c b s) c' <-> up s c') as Hup.
    { intros c'. unfold up. by rewrite state_of_set_buf. }
    split; try done.
    + intros n c' Hin. rewrite info_set_buf, Hup. by apply L1.
    + intros c' i. rewrite info_set_buf, Hup. by apply L2.
  - intros c' b' [[-> ->]|[_ ?]]%buf_of_set_buf; [eauto | by eapply H3].
Qed.

Lemma decodes_small c ms rest bad :
  decodes c ms rest bad -> Forall (fun m => zlen m <= max_message) ms.
Proof. induction 1; constructor; done. Qed.

Lemma decodes_bytes c ms rest bad : decodes c ms rest bad -> bytes c -> bytes rest.
Proof. intros [k ->]%decodes_suffix [_ ?]%bytes_app. done. Qed.

(** Data that arrives on a connection leaves the invariant, whatever it is. *)
Lemma onData_inv c t s :
  inv s -> up s c ->
  match onData tid c t s with
  | Ok (_, s') => inv s' /\ _connectionList s' ≡ₚ _connectionList s
  | Err e => e = InvalidIterator
  end.
Proof.
  intros H Hup. destruct (inv_info s c H Hup) as [i Hi].
  destruct (info_conn s c i Hi) as (o & Ho & _).
  destruct (inv_buf _ H c (inputBuffer_ o)) as (k & Hk & Hb); [unfold buf_of; by rewrite Ho|].
  destruct (decodes_total k) as (ms & rest & bad & Hd).
  unfold onData. rewrite (the_conn_run s c o Ho). cbn [res_bind].
  change (fun s m => res_map snd (onMessage tid c m t s)) with (server_callback c t).
  pose proof (onMessage_spec (server_callback c t) (fun s => res_map snd (conn_shutdown c s))
    k ms rest bad s (inputBuffer_ o) Hd Hk Hb) as Hs.
  pose proof (deliver_inv c t ms s H Hup (decodes_small _ _ _ _ Hd)) as Hdel.
  unfold run_outcome, outcome in Hs.
  destruct (deliver (server_callback c t) s ms) as [s1|e]; cbn [res_bind] in Hs;
    [|by rewrite Hs; subst]. destruct Hdel as [H1 Ht].
  pose proof (proj2 (tame_up _ _ c Ht) Hup) as Hup1.
  destruct (inv_info s1 c H1 Hup1) as [i1 Hi1]. destruct (info_conn s1 c i1 Hi1) as (o1 & Ho1 & _).
  assert (forall s2 b, inv s2 -> _connectionList s2 ≡ₚ _connectionList s -> rep b rest ->
    match update_conn c (fun o => Conn.setInputBuffer o b) s2 with
    | Ok (_, s') => inv s' /\ _connectionList s' ≡ₚ _connectionList s
    | Err e => e = InvalidIterator end) as Hfin.
  { intros s2 b H2 Hl Hr. split; [|done]. apply (inv_set_buf c b rest s2); [done..|]. by eapply decodes_bytes. }
  destruct bad.
  - rewrite (conn_shutdown_run s1 c o1 Ho1) in Hs. simpl in Hs. destruct Hs as (b & -> & Hr).
    apply Hfin; [|apply (tame_list _ _ Ht)|done]. destruct H1 as [R1 L1 B1]. pose proof (tame_shut c s1) as Ht1. split.
    + eapply reg_inv_same; [.. | done]; try done; intros c'; unfold shut; autorewrite with server; [done|].
      rewrite state_of_upd_state. case_decide; [subst|done]. by rewrite fmap_is_Some.
    + by eapply tame_list_inv.
    + by eapply buf_inv_tame.
  - destruct Hs as (b & -> & Hr). apply Hfin; [done | apply (tame_list _ _ Ht) | done].
Qed.

Lemma deref_whole d : deref (Some (mkPtr d 0)) (zlen d) = Ok d.
Proof.
  unfold deref. destruct (Z.eqb_spec (zlen d) 0) as [E|E]; [by rewrite (zlen_0 _ E)|].
  simpl. rewrite read_at_ok by zlia. by rewrite zdrop_0, ztake_all by lia.
Qed.

Lemma ev_data_inv c b bs t s :
  inv s -> up s c -> bytes bs -> buf_of s c = Some b -> writerIndex_ b + zlen bs <= max_size ->
  match ev_data tid c bs t s with
  | Ok (_, s') => inv s' /\ _connectionList s' ≡ₚ _connectionList s
  | Err e => e = InvalidIterator
  end.
Proof.
  intros H Hup Hbs Hb Hmax. apply fmap_Some in Hb as (o & Ho & ->).
  unfold ev_data. rewrite (the_conn_run s c o Ho). cbn [res_bind].
  destruct (inv_buf _ H c (inputBuffer_ o)) as (k & Hk & Hkb); [unfold buf_of; by rewrite Ho|].
  destruct (append_spec _ k (Some (mkPtr bs 0)) bs Hk (deref_whole bs) Hmax) as (b' & -> & Hb' & _).
  cbn [res_bind].
  change (update_conn c _ s) with (Ok (tt, set_buf c b' s)). cbn [res_bind].
  apply (onData_inv c t (set_buf c b' s)).
  - apply (inv_set_buf c b' (k ++ bs)); [done..|]. by apply bytes_app.
  - unfold up. by rewrite state_of_set_buf.
Qed.

(** What [ev_data] does, when it returns: the bytes are appended, the messages
    they complete are handled, and the rest stays in the buffer. *)
Lemma ev_data_split c b k bs t s ms rest (bad : bool) s' :
  inv s -> up s c -> bytes bs -> buf_of s c = Some b -> rep b k -> writerIndex_ b + zlen bs <= max_size ->
  decodes (k ++ bs) ms rest bad -> ev_data tid c bs t s = Ok (tt, s') ->
  exists b1 s2 b2, rep b1 (k ++ bs) /\ bytes (k ++ bs) /\
    deliver (server_callback c t) (set_buf c b1 s) ms = Ok s2 /\ inv s2 /\ tame (set_buf c b1 s) s2 /\
    rep b2 rest /\ s' = set_buf c b2 (if bad then shut c s2 else s2).
Proof.
  intros H Hup Hbs Hb Hk Hmax Hd Hrun. apply fmap_Some in Hb as (o & Ho & ->).
  unfold ev_data in Hrun. rewrite (the_conn_run s c o Ho) in Hrun. cbn [res_bind] in Hrun.
  destruct (inv_buf _ H c (inputBuffer_ o)) as (k' & Hk' & Hkb); [unfold buf_of; by rewrite Ho|].
  assert (k' = k) as -> by (by rewrite <- (proj2 (rep_wf _ _ Hk')), <- (proj2 (rep_wf _ _ Hk))).
  destruct (append_spec _ k (Some (mkPtr bs 0)) bs Hk (deref_whole bs) Hmax) as (b1 & Eb & Hb1 & _).
  rewrite Eb in Hrun. cbn [res_bind] in Hrun.
  change (update_conn c _ s) with (Ok (tt, set_buf c b1 s)) in Hrun. cbn [res_bind] in Hrun.
  assert (bytes (k ++ bs)) as Hall by by apply bytes_app.
  set (s1 := set_buf c b1 s) in *.
  assert (inv s1) as H1 by by apply (inv_set_buf c b1 (k ++ bs)).
  assert (up s1 c) as Hup1 by (unfold up, s1; by rewrite state_of_set_buf).
  assert (exists o1, conns s1 !! c = Some o1 /\ inputBuffer_ o1 = b1) as (o1 & Ho1 & Eo1).
  { eexists. split; [simpl; by rewrite lookup_alter_eq, Ho | done]. }
  unfold onData in Hrun. rewrite (the_conn_run s1 c o1 Ho1) in Hrun. cbn [res_bind] in Hrun. rewrite Eo1 in Hrun.
  change (fun s m => res_map snd (onMessage tid c m t s)) with (server_callback c t) in Hrun.
  pose proof (onMessage_spec (server_callback c t) (fun s => res_map snd (conn_shutdown c s))
    (k ++ bs) ms rest bad s1 b1 Hd Hb1 Hall) as Hspec.
  pose proof (deliver_inv c t ms s1 H1 Hup1 (decodes_small _ _ _ _ Hd)) as Hdel.
  unfold run_outcome, outcome in Hspec.
  destruct (deliver (server_callback c t) s1 ms) as [s2|e] eqn:Edel; cbn [res_bind] in Hspec;
    [|by rewrite Hspec in Hrun]. destruct Hdel as [H2 Ht].
  destruct (inv_info s2 c H2 (proj2 (tame_up _ _ c Ht) Hup1)) as [i2 Hi2].
  destruct (info_conn s2 c i2 Hi2) as (o2 & Ho2 & _).
  exists b1, s2. destruct bad; [rewrite (conn_shutdown_run s2 c o2 Ho2) in Hspec; cbn [res_map snd] in Hspec|];
    destruct Hspec as (b2 & Ex & Hr); rewrite Ex in Hrun; cbn [res_bind] in Hrun;
    change (update_conn c (fun c => Conn.setInputBuffer c b2) ?x) with (Ok (tt, set_buf c b2 x)) in Hrun;
    injection Hrun as <-; exists b2; done.
Qed.

(** When the messages the bytes complete are handled, [ev_data] returns. *)
Lemma ev_data_run c b k bs t s ms rest :
  inv s -> up s c -> bytes bs -> buf_of s c = Some b -> rep b k -> writerIndex_ b + zlen bs <= max_size ->
  decodes (k ++ bs) ms rest false ->
  exists b1, rep b1 (k ++ bs) /\ bytes (k ++ bs) /\
    forall s0, deliver (server_callback c t) (set_buf c b1 s) ms = Ok s0 ->
      exists b2, rep b2 rest /\ ev_data tid c bs t s = Ok (tt, set_buf c b2 s0).
Proof.
  intros H Hup Hbs Hb Hk Hmax Hd. apply fmap_Some in Hb as (o & Ho & ->).
  destruct (inv_buf _ H c (inputBuffer_ o)) as (k' & Hk' & Hkb); [unfold buf_of; by rewrite Ho|].
  assert (k' = k) as -> by (by rewrite <- (proj2 (rep_wf _ _ Hk')), <- (proj2 (rep_wf _ _ Hk))).
  destruct (append_spec _ k (Some (mkPtr bs 0)) bs Hk (deref_whole bs) Hmax) as (b1 & Eb & Hb1 & _).
  assert (bytes (k ++ bs)) as Hall by by apply bytes_app.
  exists b1. split_and!; [done | done |]. intros s0 E.
  unfold ev_data. rewrite (the_conn_run s c o Ho). cbn [res_bind]. rewrite Eb. cbn [res_bind].
  change (update_conn c _ s) with (Ok (tt, set_buf c b1 s)). cbn [res_bind].
  unfold onData. rewrite (the_conn_run (set_buf c b1 s) c (Conn.setInputBuffer o b1)).
  2: { simpl. by rewrite lookup_alter_eq, Ho. }
  cbn [res_bind]. change (fun s m => res_map snd (onMessage tid c m t s)) with (server_callback c t).
  pose proof (onMessage_spec (server_callback c t) (fun s => res_map snd (conn_shutdown c s))
    (k ++ bs) ms rest false (set_buf c b1 s) b1 Hd Hb1 Hall) as Hs.
  unfold run_outcome, outcome in Hs. rewrite E in Hs. cbn [res_bind] in Hs.
  destruct Hs as (b2 & E2 & Hr). simpl (inputBuffer_ _). rewrite E2. cbn [res_bind]. by exists b2.
Qed.

(** ** Connections come up and go down *)

Definition up_post (c : connid) (b : Buffer) (now : Timestamp) (s : p2pServer) : p2pServer :=
  let i := mkInfo deleted now (next_node s) [] [] in
  mkServer (<[c := mkConn kConnected true b (Some i)]> (conns s)) (_idleSeconds s)
    (_connectionList s ++ [(next_node s, c)]) (S (next_node s)) (_mutex s) (_connections s) (trace s).

Lemma ev_up_run c now s :
  exists b, ev_up tid c now s = Ok (tt, up_post c b now s) /\ rep b [].
Proof.
  destruct (new_Buffer_spec kInitialSize) as (b & Hb & Hr & _);
    [done | unfold kInitialSize, kCheapPrepend, max_size; lia |].
  exists b. split; [|done]. unfold ev_up. rewrite Hb. cbn [res_bind].
  unfold onConnection, bind, connected, bind, the_conn, bind, get, ret. simpl.
  rewrite lookup_insert_eq. simpl. unfold up_post, update_conn, modify, set_next_node, set_conns,
    set_connectionList. simpl. do 3 f_equal. apply map_eq. intros c'.
  destruct (decide (c = c')) as [<-|]; simplify_map_eq; done.
Qed.

Lemma info_up_post c b now s c' :
  info (up_post c b now s) c' =
    if decide (c' = c) then Some (mkInfo deleted now (next_node s) [] []) else info s c'.
Proof. unfold info, up_post. simpl. case_decide; by simplify_map_eq. Qed.

Lemma state_of_up_post c b now s c' :
  state_of (up_post c b now s) c' = if decide (c' = c) then Some kConnected else state_of s c'.
Proof. unfold state_of, up_post. simpl. case_decide; by simplify_map_eq. Qed.

Lemma info_fresh s c : conns s !! c = None -> info s c = None /\ state_of s c = None.
Proof. unfold info, state_of. by intros ->. Qed.

Lemma inv_up c b now s :
  inv s -> conns s !! c = None -> rep b [] -> inv (up_post c b now s).
Proof.
  intros [[H1 H2 H3 H4 H5 H6] [L1 L2 L3] HB] Hc Hb.
  destruct (info_fresh s c Hc) as [Hi Hst].
  assert (forall c', is_Some (info s c') -> c' <> c) as Hne by (intros c' [? ?] ->; congruence).
  assert (forall c', is_Some (info s c') -> is_Some (info (up_post c b now s) c')) as Hsome.
  { intros c' H. rewrite info_up_post. by rewrite decide_False by auto. }
  split; [split|split|].
  - done.
  - intros c'. rewrite state_of_up_post, info_up_post. case_decide; [eauto|apply H2].
  - intros d c' Hd. apply Hsome. eauto.
  - intros c' i. rewrite info_up_post. case_decide; [|apply H4]. by intros [= <-].
  - intros c' i. rewrite info_up_post. case_decide; [|apply H5].
    intros [= <-]. split; constructor.
  - intros c' i t. rewrite info_up_post. case_decide.
    + intros [= <-]. simpl. set_solver.
    + intros. apply Hsome. eauto.
  - intros n c' Hin. simpl in Hin. rewrite info_up_post. unfold up. rewrite state_of_up_post.
    apply elem_of_app in Hin as [Hin|Hin].
    + destruct (L1 n c' Hin) as ((i & Hi' & Hp) & Hup & Hlt).
      rewrite !decide_False by eauto. split_and!; [eauto | done | simpl; lia].
    + apply list_elem_of_singleton in Hin. injection Hin as En Ec. subst n c'.
      rewrite !decide_True by done.
      split_and!; [eauto | by exists kConnected | simpl; lia].
  - intros c' i. unfold up. rewrite info_up_post, state_of_up_post. simpl. case_decide.
    + intros [= <-] _. simpl. subst. set_solver.
    + intros ? ?. apply elem_of_app. left. by apply L2.
  - simpl. rewrite fmap_app. apply NoDup_app. split_and!; [done | | apply NoDup_singleton].
    intros n Hn En%list_elem_of_singleton. simpl in En. subst n.
    apply list_elem_of_fmap in Hn as ([n' c'] & En & Hn). simpl in *.
    destruct (L1 _ _ Hn) as (_ & _ & ?). lia.
  - intros c' b'. unfold buf_of, up_post. simpl.
    destruct (decide (c = c')) as [<-|]; simplify_map_eq; [|apply HB].
    intros [= <-]. exists []. split; [done | constructor].
Qed.

Definition down_post (c : connid) (s : p2pServer) : p2pServer :=
  let s1 := upd_state c (fun _ => kDisconnected) s in
  match info s c with
  | Some i => unregister_post c (erased (position i) s1)
  | None => s1
  end.

Lemma ev_down_run c now s :
  inv s -> up s c -> ev_down tid c now s = Ok (tt, down_post c s).
Proof.
  intros H Hup. destruct (inv_info s c H Hup) as [i Hi].
  destruct (info_conn s c i Hi) as (o & Ho & _). unfold ev_down, down_post. rewrite Hi.
  set (s1 := upd_state c (fun _ => kDisconnected) s).
  assert (info s1 c = Some i) as Hi1 by (unfold s1; by rewrite info_upd_state).
  unfold onConnection, bind at 1.
  rewrite (connected_run s1 c (Conn.setState o kDisconnected))
    by (unfold s1; simpl; by rewrite lookup_alter_eq, Ho).
  cbn [res_bind]. unfold Conn.connected. simpl (bool_decide _).
  unfold bind. rewrite (getConnInfo_run s1 c i Hi1). cbn [res_bind].
  unfold list_erase, bind, get. cbn [res_bind].
  rewrite decide_True.
  - unfold modify. cbn [res_bind]. apply unregisterDeviceFunc_run.
    + apply (i_mutex _ (inv_reg _ H)).
    + eauto.
    + intros d c' Hd. change (is_Some (info s1 c')). unfold s1. rewrite info_upd_state.
      by eapply (i_map _ (inv_reg _ H)).
  - apply list_elem_of_fmap. exists (position i, c). split; [done|].
    by apply (l_up _ (inv_list _ H)).
Qed.

Lemma inv_down c s : inv s -> up s c -> inv (down_post c s).
Proof.
  intros H Hup. destruct (inv_info s c H Hup) as [i Hi]. unfold down_post. rewrite Hi.
  set (s1 := upd_state c (fun _ => kDisconnected) s). set (s2 := erased (position i) s1).
  assert (forall c', info s2 c' = info s c') as Hinfo by (intros; apply info_upd_state).
  assert (forall c', up s2 c' <-> c' <> c /\ up s c') as Hup2.
  { intros c'. unfold up. change (state_of s2 c') with (state_of s1 c').
    unfold s1. rewrite state_of_upd_state. case_decide; [subst|naive_solver].
    split; [|naive_solver]. intros (st & Hst & Hne). apply fmap_Some in Hst as (? & _ & ->). done. }
  destruct H as [H1 [L1 L2 L3] HB].
  assert (reg_inv s2) as R2.
  { eapply reg_inv_same; [done | | done.. | apply H1]. intros c'.
    change (state_of s2 c') with (state_of s1 c'). unfold s1. rewrite state_of_upd_state.
    case_decide; [subst|done]. by rewrite fmap_is_Some. }
  pose proof (tame_unregister c s2) as Ht. split.
  - apply reg_inv_unregister; [|done]. rewrite Hinfo. eauto.
  - eapply tame_list_inv; [done|]. split.
    + intros n c' [Hn Hin]%list_elem_of_filter. simpl in Hn.
      destruct (L1 n c' Hin) as ((j & Hj & Hp) & ? & ?). rewrite Hinfo, Hup2. split_and!; eauto.
      intros ->. congruence.
    + intros c' j. rewrite Hinfo, Hup2. intros Hj [Hne Hu]. apply list_elem_of_filter.
      split; [|by apply L2]. simpl. intros E. apply Hne.
      pose proof (L2 c' j Hj Hu) as P1. pose proof (L2 c i Hi Hup) as P2. rewrite E in P1.
      apply list_elem_of_lookup in P1 as [k1 P1], P2 as [k2 P2].
      assert (k1 = k2) as ->.
      { eapply NoDup_lookup; [apply L3 | |]; rewrite list_lookup_fmap, ?P1, ?P2; done. }
      congruence.
    + eapply sublist_NoDup; [apply L3|]. apply fmap_sublist, filter_sublist.
  - eapply buf_inv_tame; [done|]. intros c' b Hb. apply (HB c').
    change (buf_of s2 c') with (buf_of s1 c') in Hb. unfold s1 in Hb.
    by rewrite buf_of_upd_state in Hb.
Qed.

(** ** The timer *)

Definition age (now : Timestamp) (i : ConnInfo) : double :=
  Time.timeDifference now (lastReceiveTime i).
Definition expired (now : Timestamp) (s : p2pServer) (i : ConnInfo) : bool :=
  double_gtb (age now i) (double_of_Z (_idleSeconds s)).
Definition jumped (now : Timestamp) (i : ConnInfo) : bool :=
  double_ltb (age now i) (double_of_Z 0).

Definition forced (c : connid) (s : p2pServer) : p2pServer :=
  emitted (EForceCloseWithDelay c) (upd_state c tcp_forceCloseWithDelay s).

Definition expire (c : connid) (s : p2pServer) : p2pServer :=
  if decide (state_of s c = Some kConnected) then forced c (shut c s) else s.

(** What the loop does to the entries [todo]. *)
Fixpoint timer_post (now : Timestamp) (todo : list connid) (s : p2pServer) : p2pServer :=
  match todo with
  | [] => s
  | c :: todo =>
      match info s c with
      | Some i =>
          if expired now s i then timer_post now todo (expire c s)
          else if jumped now i then timer_post now todo (upd c (set_lastReceiveTime now) s)
          else s
      | None => s
      end
  end.

Lemma forced_run s c o :
  conns s !! c = Some o -> conn_forceCloseWithDelay c s = Ok (tt, forced c s).
Proof. intros H. unfold conn_forceCloseWithDelay, bind. by rewrite (the_conn_run s c o H). Qed.

Lemma info_expire c s c' : info (expire c s) c' = info s c'.
Proof.
  unfold expire. case_decide; [|done]. unfold forced, shut.
  by rewrite info_emitted, info_upd_state, info_emitted, info_upd_state.
Qed.

Lemma tame_expire c s : tame s (expire c s).
Proof.
  unfold expire. case_decide; [|done]. etrans; [apply tame_shut|].
  etrans; [|apply tame_emitted]. apply tame_upd_state. apply tcp_forceClose_closed.
Qed.

Lemma dom_expire c s : dom (conns (expire c s)) = dom (conns s).
Proof.
  unfold expire. case_decide; [|done]. unfold forced, shut.
  change (dom (conns (upd_state c tcp_forceCloseWithDelay (emitted (EShutdown c)
    (upd_state c tcp_shutdown s)))) = dom (conns s)).
  by rewrite !dom_upd_state, <- (dom_upd_state c tcp_shutdown s).
Qed.

Lemma reg_inv_expire c s : reg_inv s -> reg_inv (expire c s).
Proof.
  intros H. eapply reg_inv_same; [| | | |apply H].
  - intros. apply info_expire.
  - intros c'. apply (tame_some _ _ (tame_expire c s)).
  - apply (tame_mutex _ _ (tame_expire c s)).
  - unfold expire. by case_decide.
Qed.

Lemma from_middle (d t : list (nat * connid)) n c :
  NoDup (d ++ (n, c) :: t).*1 -> from n (d ++ (n, c) :: t) = (n, c) :: t.
Proof.
  induction d as [|[m x] d IH]; simpl; intros H; [by rewrite decide_True|].
  apply NoDup_cons in H as [Hm H]. rewrite decide_False; [by apply IH|]. simpl. intros ->.
  apply Hm. rewrite fmap_app. apply elem_of_app. right. left.
Qed.

Lemma advance_middle (d t : list (nat * connid)) n c s :
  NoDup (d ++ (n, c) :: t).*1 -> _connectionList s = d ++ (n, c) :: t ->
  advance_it n s = Ok (list_begin t, s).
Proof.
  intros Hnd Hl. unfold advance_it, bind, get. cbn [res_bind]. by rewrite Hl, from_middle.
Qed.

(** A turn at the entry of a connection that exists. *)
Definition turn_post (now : Timestamp) (c : connid) (i : ConnInfo) (s : p2pServer) : p2pServer :=
  if expired now s i then expire c s
  else if jumped now i then upd c (set_lastReceiveTime now) s else s.

Lemma tame_turn now c i s : tame s (turn_post now c i s).
Proof. unfold turn_post. repeat case_match; [apply tame_expire | by apply tame_upd | done]. Qed.

Lemma list_expire c s : _connectionList (expire c s) = _connectionList s.
Proof. unfold expire. by case_match. Qed.
Lemma list_turn now c i s : _connectionList (turn_post now c i s) = _connectionList s.
Proof. unfold turn_post. repeat case_match; [apply list_expire | done..]. Qed.

Lemma timer_turn_at now n c i d t s :
  _connectionList s = d ++ (n, c) :: t -> NoDup (d ++ (n, c) :: t).*1 -> info s c = Some i ->
  timer_turn now n s = Ok (if expired now s i || jumped now i then list_begin t else None, turn_post now c i s).
Proof.
  intros Hl Hnd Hi. destruct (info_conn s c i Hi) as (o & Ho & Hctx).
  assert (forall s', _connectionList s' = _connectionList s -> advance_it n s' = Ok (list_begin t, s')) as Hgo.
  { intros s' H. apply (advance_middle d t n c); congruence. }
  unfold timer_turn. unfold bind at 1, get. cbn [res_bind]. rewrite Hl, from_middle, Ho, Hctx by done.
  unfold turn_post, expired, jumped. fold (age now i).
  pose proof (list_expire c s) as Hex. case_match; simpl; [|case_match; [|done]].
  - assert (Conn.connected o = bool_decide (state_of s c = Some kConnected)) as ->.
    { unfold Conn.connected, state_of. rewrite Ho. apply bool_decide_ext. simpl. split; congruence. }
    unfold expire in *. case_decide as Hd;
      [rewrite bool_decide_eq_true_2 by done | rewrite bool_decide_eq_false_2 by done];
      unfold bind; [|unfold ret; cbn [res_bind]; by apply Hgo].
    rewrite (conn_shutdown_run s c o Ho). cbn [res_bind].
    erewrite forced_run; [cbn [res_bind]; by apply Hgo|]. simpl. rewrite lookup_alter_eq, Ho. done.
  - unfold bind. cbn [update_info update_conn modify res_bind]. by apply Hgo.
Qed.

(** As many turns as the list has entries are enough. *)
Lemma onTimer_loop_run now todo : forall d s,
  _connectionList s = d ++ todo -> NoDup (d ++ todo).*1 ->
  (forall n c, (n, c) ∈ todo -> is_Some (info s c)) ->
  onTimer_loop (length todo) now (list_begin todo) s = Ok (tt, timer_post now todo.*2 s).
Proof.
  induction todo as [|[n c] todo IH]; intros d s Hl Hnd Hs; [done|].
  destruct (Hs n c) as [i Hi]; [left|].
  cbn [onTimer_loop length list_begin head fmap option_fmap option_map list_fmap fst snd timer_post].
  unfold bind. rewrite (timer_turn_at now n c i d todo s), Hi by done. cbn [res_bind].
  pose proof (tame_turn now c i s) as Ht.
  assert (forall n' c', (n', c') ∈ todo -> is_Some (info (turn_post now c i s) c')) as Hs'.
  { intros n' c' Hin. apply (tame_info _ _ _ Ht), (Hs n'). by right. }
  assert (onTimer_loop (length todo) now (list_begin todo) (turn_post now c i s) =
    Ok (tt, timer_post now todo.*2 (turn_post now c i s))) as E.
  { apply (IH (d ++ [(n, c)])); [rewrite list_turn | |done]; by rewrite <- app_assoc. }
  revert E. unfold turn_post. destruct (expired now s i), (jumped now i); simpl; try done. by destruct todo.
Qed.

(** The entries the loop looks at are the longest prefix of stale ones. *)
Definition expired_at now (s : p2pServer) (c : connid) : bool :=
  from_option (expired now s) false (info s c).
Definition stale_at now (s : p2pServer) (c : connid) : bool :=
  from_option (fun i => expired now s i || jumped now i) false (info s c).
Fixpoint prefix (f : connid -> bool) (l : list connid) : list connid :=
  match l with [] => [] | c :: l => if f c then c :: prefix f l else [] end.
Definition is_victim now (s : p2pServer) (c : connid) : bool :=
  expired_at now s c && bool_decide (state_of s c = Some kConnected).
Definition victims now (s : p2pServer) (l : list connid) : list connid :=
  List.filter (is_victim now s) (prefix (stale_at now s) l).

Lemma filter_ext_elem {A} (f g : A -> bool) (l : list A) :
  (forall x, x ∈ l -> f x = g x) -> List.filter f l = List.filter g l.
Proof. intros H. apply List.filter_ext_in. intros x Hx. by apply H, list_elem_of_In. Qed.

Lemma expire_spec c s :
  trace (expire c s) = trace s ++
    (if decide (state_of s c = Some kConnected) then [EShutdown c; EForceCloseWithDelay c] else []) /\
  (forall c', c' <> c -> state_of (expire c s) c' = state_of s c') /\
  (state_of (expire c s) c <> Some kConnected).
Proof.
  unfold expire. case_decide as H; [|by rewrite app_nil_r].
  unfold forced, shut. split_and!.
  - simpl. by rewrite <- app_assoc.
  - intros c' Hne. rewrite !state_of_emitted, state_of_upd_state, decide_False by done.
    by rewrite state_of_emitted, state_of_upd_state, decide_False by done.
  - rewrite !state_of_emitted, state_of_upd_state, decide_True by done.
    rewrite state_of_emitted, state_of_upd_state, decide_True, H by done. simpl. intros [= E].
    by eapply tcp_forceClose_not_connected.
Qed.

(** One entry of the loop, and the loop as a fold over the stale prefix. *)
Definition visit (now : Timestamp) (s : p2pServer) (c : connid) : p2pServer :=
  if expired_at now s c then expire c s else upd c (set_lastReceiveTime now) s.

Lemma tame_visit now s c : tame s (visit now s c).
Proof. unfold visit. case_match; [apply tame_expire | by apply tame_upd]. Qed.

Lemma reg_inv_visit now s c : reg_inv s -> reg_inv (visit now s c).
Proof. unfold visit. case_match; [apply reg_inv_expire | apply reg_inv_upd_time]. Qed.

Lemma visit_other now s c c' :
  c' <> c -> info (visit now s c) c' = info s c' /\ state_of (visit now s c) c' = state_of s c'.
Proof.
  intros Hne. unfold visit. case_match.
  - split; [apply info_expire | by apply expire_spec].
  - by rewrite info_upd_ne, state_of_upd.
Qed.

Lemma visit_same now s c :
  trace (visit now s c) = trace s ++
    (if is_victim now s c then [EShutdown c; EForceCloseWithDelay c] else []) /\
  (is_victim now s c = true -> state_of (visit now s c) c <> Some kConnected) /\
  (is_victim now s c = false -> state_of (visit now s c) c = state_of s c) /\
  (info (visit now s c) c =
    if expired_at now s c then info s c else set_lastReceiveTime now <$> info s c).
Proof.
  unfold visit, is_victim. case_match; simpl.
  - destruct (expire_spec c s) as (-> & _ & Hs). rewrite info_expire. split_and!; try done.
    + case_decide; [by rewrite bool_decide_eq_true_2 | by rewrite bool_decide_eq_false_2].
    + intros H0%bool_decide_eq_false_1. unfold expire. by rewrite decide_False.
  - rewrite app_nil_r, info_upd_eq, state_of_upd. done.
Qed.

Lemma stale_visit now s c c' :
  c' <> c -> stale_at now (visit now s c) c' = stale_at now s c'.
Proof.
  intros Hne. unfold stale_at, expired. destruct (visit_other now s c c' Hne) as [-> _].
  by rewrite (tame_idle _ _ (tame_visit now s c)).
Qed.

Lemma prefix_ext f g l : (forall c, c ∈ l -> f c = g c) -> prefix f l = prefix g l.
Proof.
  induction l as [|c l IH]; intros H; [done|]. simpl. rewrite H by left.
  rewrite IH; [done|]. intros. apply H. by right.
Qed.

Lemma timer_post_fold now l s :
  NoDup l -> timer_post now l s = foldl (visit now) s (prefix (stale_at now s) l).
Proof.
  revert s. induction l as [|c l IH]; intros s Hnd; [done|].
  inversion Hnd as [|? ? Hc Hnd']; subst.
  assert (prefix (stale_at now (visit now s c)) l = prefix (stale_at now s) l) as E.
  { apply prefix_ext. intros c' ?. apply stale_visit. by intros ->. }
  simpl. unfold stale_at at 1. destruct (info s c) as [i|] eqn:Hi; [|done]. simpl.
  assert (visit now s c = if expired now s i then expire c s
                          else upd c (set_lastReceiveTime now) s) as Ev.
  { unfold visit, expired_at. by rewrite Hi. }
  destruct (expired now s i); simpl; [|destruct (jumped now i); [|done]];
    simpl; by rewrite Ev, <- E, Ev, IH.
Qed.

Lemma visits_frame now l s :
  let s' := foldl (visit now) s l in
  tame s s' /\ (reg_inv s -> reg_inv s') /\
  (forall c, c ∉ l -> info s' c = info s c /\ state_of s' c = state_of s c).
Proof.
  revert s. induction l as [|c l IH]; intros s; simpl; [done|].
  destruct (IH (visit now s c)) as (H1 & H2 & H3). split_and!.
  - etrans; [apply tame_visit | done].
  - eauto using reg_inv_visit.
  - intros c' [Hne Hin]%not_elem_of_cons. destruct (H3 c' Hin) as [-> ->]. by apply visit_other.
Qed.

Lemma visits_victims now l s :
  NoDup l ->
  let s' := foldl (visit now) s l in
  trace s' = trace s ++
    concat ((fun c => [EShutdown c; EForceCloseWithDelay c]) <$>
            List.filter (is_victim now s) l) /\
  (forall c, c ∈ l -> is_victim now s c = true -> state_of s' c <> Some kConnected) /\
  (forall c, is_victim now s c = false -> state_of s' c = state_of s c) /\
  (forall c, c ∈ l -> info s' c =
     if expired_at now s c then info s c else set_lastReceiveTime now <$> info s c).
Proof.
  revert s. induction l as [|c l IH]; intros s Hnd; simpl.
  { rewrite app_nil_r. split_and!; try done; intros ? []%elem_of_nil. }
  inversion Hnd as [|? ? Hc Hnd']; subst.
  destruct (IH (visit now s c) Hnd') as (H1 & H2 & H3 & H4).
  destruct (visit_same now s c) as (V1 & V2 & V3 & V4).
  destruct (visits_frame now l (visit now s c)) as (_ & _ & F).
  pose proof (tame_idle _ _ (tame_visit now s c)) as Hidle.
  assert (forall c', c' <> c -> is_victim now (visit now s c) c' = is_victim now s c' /\
    expired_at now (visit now s c) c' = expired_at now s c') as Hsame.
  { intros c' Hne. unfold is_victim, expired_at, expired.
    destruct (visit_other now s c c' Hne) as [-> ->]. by rewrite Hidle. }
  assert (forall c', c' ∈ l -> c' <> c) as Hne by (intros c' ? ->; done).
  split_and!.
  - rewrite H1, V1, <- app_assoc. f_equal.
    rewrite (filter_ext_elem _ (is_victim now s) l) by (intros; apply Hsame; auto).
    by destruct (is_victim now s c).
  - intros c' [->|Hin]%elem_of_cons Hv.
    + destruct (F c Hc) as [_ ->]. auto.
    + apply H2; [done|]. by rewrite (proj1 (Hsame c' (Hne c' Hin))).
  - intros c' Hv. destruct (decide (c' = c)) as [->|Hn].
    + destruct (F c Hc) as [_ ->]. auto.
    + rewrite H3 by (by rewrite (proj1 (Hsame c' Hn))). by apply visit_other.
  - intros c' [->|Hin]%elem_of_cons.
    + destruct (F c Hc) as [-> _]. done.
    + rewrite H4, (proj2 (Hsame c' (Hne c' Hin))) by done.
      by rewrite (proj1 (visit_other now s c c' (Hne c' Hin))).
Qed.

Lemma prefix_sublist f l : prefix f l `sublist_of` l.
Proof.
  induction l as [|c l IH]; simpl; [done|]. destruct (f c); [by apply sublist_skip|].
  apply sublist_nil_l.
Qed.

Lemma elem_of_filter_bool {A} (f : A -> bool) (l : list A) x :
  x ∈ List.filter f l <-> f x = true /\ x ∈ l.
Proof. rewrite !list_elem_of_In, List.filter_In. naive_solver. Qed.

Lemma list_conns_NoDup s : list_inv s -> NoDup (_connectionList s).*2.
Proof.
  intros [L1 _ L3]. revert L1 L3. generalize (_connectionList s). intros l L1 Hnd.
  induction l as [|[n c] l IH]; simpl in *; [constructor|].
  inversion Hnd as [|? ? Hn Hnd']; subst. constructor.
  - intros ([n' c'] & E & Hin)%list_elem_of_fmap. simpl in E. subst c'.
    destruct (L1 n c) as ((i & Hi & Hp) & _); [left|].
    destruct (L1 n' c) as ((i' & Hi' & Hp') & _); [by right|].
    apply Hn. apply list_elem_of_fmap. exists (n', c). split; [simpl; congruence | done].
  - apply IH; [|done]. intros. apply L1. by right.
Qed.

Definition timed (now : Timestamp) (s : p2pServer) : p2pServer :=
  foldl (visit now) s (prefix (stale_at now s) (_connectionList s).*2).

Lemma onTimer_run now s : inv s -> onTimer now s = Ok (tt, timed now s).
Proof.
  intros H. unfold onTimer, bind, get. cbn [res_bind]. rewrite (onTimer_loop_run now _ [] s); [|done|apply (l_nodup _ (inv_list _ H))|].
  - by rewrite timer_post_fold by apply list_conns_NoDup, H.
  - intros n c Hin. destruct (l_node _ (inv_list _ H) n c Hin) as ((i & Hi & _) & _). eauto.
Qed.

Lemma inv_timed now s : inv s -> inv (timed now s).
Proof.
  intros [H1 H2 H3]. unfold timed.
  destruct (visits_frame now (prefix (stale_at now s) (_connectionList s).*2) s) as (Ht & Hr & _).
  split; [auto | by eapply tame_list_inv | by eapply buf_inv_tame].
Qed.

(** ** Destruction of a connection object *)

Lemma info_destroy c s c' : info (ev_destroy c s) c' = if decide (c' = c) then None else info s c'.
Proof. unfold info, ev_destroy. simpl. case_decide; by simplify_map_eq. Qed.
Lemma state_of_destroy c s c' :
  state_of (ev_destroy c s) c' = if decide (c' = c) then None else state_of s c'.
Proof. unfold state_of, ev_destroy. simpl. case_decide; by simplify_map_eq. Qed.

Lemma inv_destroy c s : inv s -> unreferenced s c -> inv (ev_destroy c s).
Proof.
  intros [[H1 H2 H3 H4 H5 H6] [L1 L2 L3] HB] (U1 & U2 & U3).
  assert (forall c' i, info (ev_destroy c s) c' = Some i -> c' <> c /\ info s c' = Some i) as Hinv.
  { intros c' i. rewrite info_destroy. by case_decide. }
  assert (forall c', c' <> c -> is_Some (info s c') -> is_Some (info (ev_destroy c s) c')) as Hsome.
  { intros c' ? ?. by rewrite info_destroy, decide_False. }
  assert (forall c', up (ev_destroy c s) c' <-> up s c') as Hup.
  { intros c'. unfold up. rewrite state_of_destroy. case_decide; [subst|done]. naive_solver. }
  split; [split|split|].
  - done.
  - intros c'. rewrite state_of_destroy, info_destroy. case_decide; [by intros []|apply H2].
  - intros d c' Hd. apply Hsome; [|by eapply H3]. intros ->. by eapply U2.
  - intros c' i [Hne Hi]%Hinv. by apply H4.
  - intros c' i [Hne Hi]%Hinv. by eapply H5.
  - intros c' i t [Hne Hi]%Hinv Ht. apply Hsome; [|by eapply H6]. intros ->. by eapply U3.
  - intros n c' Hin. destruct (L1 n c' Hin) as ((i & Hi & Hp) & Hu & Hn).
    rewrite Hup. split_and!; [|done..]. exists i. split; [|done]. rewrite info_destroy, decide_False; [done|].
    intros ->. destruct Hu as (st & ? & ?). naive_solver.
  - intros c' i [Hne Hi]%Hinv. rewrite Hup. by apply L2.
  - done.
  - intros c' b. unfold buf_of, ev_destroy. simpl.
    destruct (decide (c' = c)) as [->|]; simplify_map_eq; [done | apply HB].
Qed.

Lemma inv_new idle : inv (new_p2pServer idle).
Proof.
  assert (forall c, info (new_p2pServer idle) c = None) as Hi by (intros; done).
  assert (forall c, state_of (new_p2pServer idle) c = None) as Hs by (intros; done).
  split; [split|split|]; simpl.
  - done.
  - intros c. rewrite Hs. by intros [].
  - intros d c Hd. exfalso. clear -Hd. by rewrite lookup_empty in Hd.
  - intros c i. by rewrite Hi.
  - intros c i. by rewrite Hi.
  - intros c i t. by rewrite Hi.
  - by intros n c ?%elem_of_nil.
  - intros c i. by rewrite Hi.
  - constructor.
  - intros c b Hb. done.
Qed.

Lemma inv_step s s' : step tid s s' -> inv s -> inv s'.
Proof.
  intros Hstep H. destruct Hstep as [s c now s' Hc E | s c b bs t s' Hup Hbs Hb Hsz E
    | s c now s' Hup E | s now s' E | s c Hu].
  - destruct (ev_up_run c now s) as (b & Hrun & Hrep). rewrite Hrun in E. res_inv. subst.
    by apply inv_up.
  - pose proof (ev_data_inv c b bs t s H Hup Hbs Hb Hsz) as Hd. rewrite E in Hd. apply Hd.
  - rewrite ev_down_run in E by done. res_inv. subst. by apply inv_down.
  - rewrite onTimer_run in E by done. res_inv. subst. by apply inv_timed.
  - by apply inv_destroy.
Qed.

Lemma inv_steps s s' : rtc (step tid) s s' -> inv s -> inv s'.
Proof. induction 1; eauto using inv_step. Qed.

Lemma inv_reachable idle s : reachable tid idle s -> inv s.
Proof. intros H. eapply inv_steps; [done | apply inv_new]. Qed.

End invariants.
