(* ===== verification/ServerProps.v ===== *)
(** * Correctness of the relay server

    The properties of the handlers, stated on the states the server can reach:
    safety of every callback, what each command does to the registrations, the
    subscriptions and the traffic, what the timer closes, and two runs in which
    the code does not do what it means to. *)

From S2P Require Import Prelude Endian StringPiece Buffer Codec Muduo Server ServerSpec ServerInv.

(** ** Executable runs *)

Inductive event :=
  | EvUp (c : connid) (now : Timestamp)
  | EvData (c : connid) (bs : list Z) (t : Timestamp)
  | EvDown (c : connid) (now : Timestamp)
  | EvTimer (now : Timestamp).

Definition up_b (s : p2pServer) (c : connid) : bool :=
  match state_of s c with None | Some kDisconnected => false | _ => true end.

Lemma up_b_spec s c : up_b s c = true -> up s c.
Proof. unfold up_b, up. destruct (state_of s c) as [[]|] eqn:E; intros; naive_solver. Qed.

Section exec.
Context {host : Host} {lib : TcpLib} (tid : Z).

(** One event, with the conditions under which the library causes it. *)
Definition exec (e : event) : M unit := fun s =>
  match e with
  | EvUp c now =>
      let* _ := assert_ (bool_decide (conns s !! c = None)) in ev_up tid c now s
  | EvData c bs t =>
      let* _ := assert_ (up_b s c && bool_decide (bytes bs)) in
      let* _ := assert_ (match buf_of s c with
                         | Some b => writerIndex_ b + zlen bs <=? max_size
                         | None => false end) in
      ev_data tid c bs t s
  | EvDown c now => let* _ := assert_ (up_b s c) in ev_down tid c now s
  | EvTimer now => onTimer now s
  end.

Fixpoint exec_all (es : list event) (s : p2pServer) : res p2pServer :=
  match es with
  | [] => Ok s
  | e :: es => let* (_, s) := exec e s in exec_all es s
  end.

Lemma exec_step e s s' : exec e s = Ok (tt, s') -> step tid s s'.
Proof.
  destruct e as [c now|c bs t|c now|now]; cbn [exec]; unfold assert_; intros H.
  - case_bool_decide as E; [|done]. by eapply step_up.
  - destruct (up_b s c && _) eqn:E; [|done]. apply andb_true_iff in E as [E1%up_b_spec E2%bool_decide_eq_true].
    cbn [res_bind] in H. destruct (buf_of s c) as [b|] eqn:Eb; [|done].
    destruct (Z.leb_spec (writerIndex_ b + zlen bs) max_size) as [Hsz|]; [|done].
    exact (step_data tid s c b bs t s' E1 E2 Eb Hsz H).
  - destruct (up_b s c) eqn:E; [|done]. apply up_b_spec in E. by eapply step_down.
  - by eapply step_timer.
Qed.

Lemma exec_reachable idle es s : exec_all es (new_p2pServer idle) = Ok s -> reachable tid idle s.
Proof.
  unfold reachable. generalize (new_p2pServer idle). induction es as [|e es IH]; simpl; intros s0 H.
  - injection H as ->. done.
  - destruct (exec e s0) as [[[] s1]|] eqn:E; [|done]. eapply rtc_l; [by eapply exec_step | auto].
Qed.

End exec.

(** An implementation of the library's functions and a host, for examples. *)
Definition demo_lib : TcpLib := {|
  tcp_send st := st;
  tcp_shutdown st := match st with kConnected => kDisconnecting | _ => st end;
  tcp_forceCloseWithDelay st := match st with kConnected => kDisconnecting | _ => st end
|}.

Lemma demo_lib_ok : @TcpLibOk demo_lib.
Proof. split; by intros []. Qed.

Definition demo_host : Host := LittleEndian.

(** A client's frame, and times in seconds. *)
Definition frame (cmd : Z) (arg : string) : list Z := encode (cmd :: chars arg).
Definition sec (n : Z) : Timestamp := mkTimestamp (n * 1000000).

(** Two devices; the second one subscribes to the first. *)
Definition demo_events : list event :=
  [EvUp 1 (sec 1); EvUp 2 (sec 1);
   EvData 1 (frame REGISTER_DEVICE "a") (sec 1); EvData 2 (frame REGISTER_DEVICE "b") (sec 2);
   EvData 2 (frame SUBSCRIBE_DEVICE "a") (sec 3)].

Definition demo_run (es : list event) : p2pServer :=
  match @exec_all demo_host demo_lib 1 es (new_p2pServer 10) with
  | Ok s => s
  | Err _ => new_p2pServer 10
  end.

Definition demo : p2pServer := demo_run demo_events.

Lemma demo_run_reachable es :
  is_ok (@exec_all demo_host demo_lib 1 es (new_p2pServer 10)) = true ->
  @reachable demo_host demo_lib 1 10 (demo_run es).
Proof.
  unfold demo_run. intros H. apply (exec_reachable 1 10 es).
  by destruct (exec_all 1 es (new_p2pServer 10)).
Qed.

Lemma demo_reachable : @reachable demo_host demo_lib 1 10 demo.
Proof. apply demo_run_reachable. vm_compute. reflexivity. Qed.

(** ** Lemmas *)

Lemma send_all_trace cs m s :
  send_all cs m s = set_trace (trace s ++ ((fun c => ESend c (encode m)) <$> cs)) s.
Proof.
  unfold send_all. revert s. induction cs as [|c cs IH]; intros s; simpl.
  - rewrite app_nil_r. by destruct s.
  - rewrite IH. unfold sent, emitted, set_trace. simpl. by rewrite <- app_assoc.
Qed.

Lemma targets_NoDup s c : inv s -> NoDup (targets s c).
Proof.
  intros H. unfold targets. destruct (info s c) as [i|] eqn:Hi; [|constructor].
  by apply (i_nodup _ (inv_reg _ H) c i).
Qed.

Lemma state_of_shut `{lib : TcpLib} c s c' :
  state_of (shut c s) c' = if decide (c' = c) then tcp_shutdown <$> state_of s c else state_of s c'.
Proof. unfold shut. by rewrite state_of_emitted, state_of_upd_state. Qed.

Lemma targets_shrunk s s' c x : shrunk s s' -> x ∈ targets s' c -> x ∈ targets s c.
Proof.
  intros H. unfold targets. destruct (info s' c) as [i'|] eqn:Hi'; [|set_solver].
  destruct (shrunk_info_Some_inv _ _ _ _ H Hi') as (i & -> & Hsim). intros Hx.
  eapply elem_of_sublist; [done | apply (sim_send _ _ Hsim)].
Qed.

Lemma targets_unsub conn d t s :
  _connections s !! d = Some t -> conn ∉ targets (unsub_target conn d s) t.
Proof.
  intros Hd. unfold unsub_target, targets. rewrite Hd, info_upd_eq.
  destruct (info s t) as [i|]; simpl; [|set_solver]. rewrite list_elem_of_filter. naive_solver.
Qed.

(** After the loop of [unregisterDeviceFunc] nobody registered under an id the
    connection was subscribed to sends to it any more. *)
Lemma targets_unsubscribe_all conn ds s d t :
  d ∈ ds -> _connections s !! d = Some t ->
  conn ∉ targets (unsubscribe_all_post conn ds s) t.
Proof.
  revert s. induction ds as [|d' ds IH]; intros s Hin Hd; [set_solver|]. simpl.
  pose proof (shrunk_unsubscribe_step conn d' s) as Hs.
  apply elem_of_cons in Hin as [<-|Hin].
  - intros Hx. eapply (targets_unsub conn d t s Hd).
    eapply targets_shrunk; [|exact Hx]. etrans; [|apply shrunk_unsubscribe_all].
    apply shrunk_upd, sim_erase_sub.
  - apply IH; [done|]. by rewrite (shrunk_connections _ _ Hs).
Qed.

Lemma trace_unregister conn s : trace (unregister_post conn s) = trace s.
Proof.
  unfold unregister_post. case_match; [|done].
  pose proof (shrunk_trace _ _ (shrunk_unsubscribe_all conn (subscribeIdList c) s)).
  case_decide; done.
Qed.

Lemma trace_register `{lib : TcpLib} conn d s :
  trace (register_post conn d s) = trace s ++
    match _connections s !! d with
    | Some old => if decide (old = conn) then [] else [EShutdown old]
    | None => []
    end.
Proof.
  unfold register_post. destruct (_connections s !! d) as [old|]; [case_decide|]; simpl;
    rewrite ?app_nil_r; done.
Qed.

Lemma trace_subscribe conn d s : trace (subscribe_post conn d s).2 = trace s.
Proof. unfold subscribe_post. repeat case_match; done. Qed.

Lemma trace_heartbeat conn t s : trace (heartbeat_post conn t s) = trace s.
Proof. unfold heartbeat_post. by case_match. Qed.

(** What unregistering leaves behind. *)
Lemma unregister_effect conn s i :
  info s conn = Some i ->
  let s' := unregister_post conn s in
  (exists i', info s' conn = Some i' /\ deviceId i' = deleted /\ subscribeIdList i' = [] /\
     sendToList i' = []) /\
  _connections s' =
    (if decide (deviceId i = deleted) then _connections s
     else delete (deviceId i) (_connections s)) /\
  (forall d t, d ∈ subscribeIdList i -> _connections s !! d = Some t -> conn ∉ targets s' t) /\
  (forall x y, x ∈ targets s' y -> x ∈ targets s y).
Proof.
  intros Hi s'. unfold s', unregister_post. rewrite Hi.
  set (s1 := unsubscribe_all_post conn (subscribeIdList i) s).
  set (s2 := upd conn sendToListClear s1).
  pose proof (shrunk_unsubscribe_all conn (subscribeIdList i) s) as Hs. fold s1 in Hs.
  assert (shrunk s1 s2) as Hs2 by apply shrunk_upd, sim_sendToListClear.
  destruct (unsubscribe_all_empty s conn i Hi) as (i1 & Hi1 & Hsim & Hempty). fold s1 in Hi1.
  assert (info s2 conn = Some (sendToListClear i1)) as Hi2 by (unfold s2; by rewrite info_upd_eq, Hi1).
  assert (forall y, targets (if decide (deviceId i = deleted) then s2 else upd conn (set_deviceId deleted)
    (set_connections (delete (deviceId i) (_connections s2)) s2)) y = targets s2 y) as Ht.
  { intros y. case_decide; [done|]. unfold targets. rewrite info_upd, info_set_connections.
    case_decide; [subst|done]. by rewrite Hi2. }
  split_and!.
  - case_decide as Hd; [exists (sendToListClear i1)|exists (set_deviceId deleted (sendToListClear i1))].
    + split_and!; [done | | done..]. simpl. by rewrite (sim_device _ _ Hsim).
    + by rewrite info_upd_eq, info_set_connections, Hi2.
  - case_decide; simpl; by rewrite (shrunk_connections _ _ Hs).
  - intros d t Hd Ht'. rewrite Ht. intros Hx. eapply targets_unsubscribe_all; [done..|].
    by eapply targets_shrunk.
  - intros x y. rewrite Ht. intros Hx. eapply targets_shrunk; [exact Hs|]. by eapply targets_shrunk.
Qed.

(** ** The registry without stale entries *)

(** Every id in the map leads to a connection that is not closed and that is
    registered under this id. *)
Definition exact (s : p2pServer) : Prop :=
  forall d c, _connections s !! d = Some c ->
    up s c /\ d <> deleted /\ deviceId <$> info s c = Some d.

(** A client registers once, and not under the reserved id. *)
Definition disciplined (s : p2pServer) (conn : connid) (m : list Z) : Prop :=
  message_0 m = REGISTER_DEVICE ->
  message_tail m <> deleted /\
  (deviceId <$> info s conn = Some deleted \/ deviceId <$> info s conn = Some (message_tail m)).

Lemma exact_keep s s' :
  _connections s' = _connections s -> (forall c, deviceId <$> info s' c = deviceId <$> info s c) ->
  (forall c, up s c -> up s' c) -> exact s -> exact s'.
Proof. intros Hc Hi Hu H d c. rewrite Hc, Hi. intros Hd. destruct (H d c Hd) as (? & ? & ?). auto. Qed.

Lemma device_upd c f s c' :
  (forall i, deviceId (f i) = deviceId i) ->
  deviceId <$> info (upd c f s) c' = deviceId <$> info s c'.
Proof.
  intros Hf. rewrite info_upd. case_decide; [subst|done]. destruct (info s c); simpl; by rewrite ?Hf.
Qed.

Lemma exact_shrunk s s' : shrunk s s' -> exact s -> exact s'.
Proof.
  intros H. apply exact_keep; [apply (shrunk_connections _ _ H) | |].
  - intros c. destruct (shrunk_info _ _ H c) as [i i' Hi|]; simpl; [|done]. by rewrite (sim_device _ _ Hi).
  - intros c. by apply (tame_up _ _ _ (shrunk_tame _ _ H)).
Qed.

Lemma device_subscribeIdListAdd d i : deviceId (subscribeIdListAdd d i) = deviceId i.
Proof. unfold subscribeIdListAdd. by case_decide. Qed.
Lemma device_sendToListAdd c i : deviceId (sendToListAdd c i) = deviceId i.
Proof. unfold sendToListAdd. by case_decide. Qed.

Lemma exact_subscribe `{TcpLib} conn d s : exact s -> exact (subscribe_post conn d s).2.
Proof.
  apply exact_keep; [by unfold subscribe_post; repeat case_match | |].
  - intros c. unfold subscribe_post. repeat case_match; try done. simpl.
    rewrite !device_upd; auto using device_subscribeIdListAdd, device_sendToListAdd.
  - intros c. by apply (tame_up _ _ _ (tame_subscribe conn d s)).
Qed.

Lemma exact_heartbeat `{TcpLib} conn t s : exact s -> exact (heartbeat_post conn t s).
Proof.
  apply exact_keep; [by unfold heartbeat_post; case_match | |].
  - intros c. unfold heartbeat_post. case_match; [|done]. unfold moved_end.
    rewrite info_set_connectionList. by apply device_upd.
  - intros c. by apply (tame_up _ _ _ (tame_heartbeat conn t s)).
Qed.

(** After unregistering, no id leads to the connection. *)
Lemma connections_unregister conn s i (U : connid -> Prop) :
  info s conn = Some i ->
  (forall d c, _connections s !! d = Some c -> U c /\ d <> deleted /\ deviceId <$> info s c = Some d) ->
  forall d c, _connections (unregister_post conn s) !! d = Some c ->
    U c /\ c <> conn /\ d <> deleted /\ deviceId <$> info (unregister_post conn s) c = Some d.
Proof.
  intros Hi H d c. destruct (unregister_effect conn s i Hi) as (_ & -> & _).
  intros Hmap. assert (_connections s !! d = Some c /\ (deviceId i <> deleted -> d <> deviceId i)) as [Hm Hne].
  { case_decide; [done|]. apply lookup_delete_Some in Hmap as [? ?]. naive_solver. }
  destruct (H d c Hm) as (HU & Hdel & Hdev).
  assert (c <> conn) as Hc.
  { intros ->. rewrite Hi in Hdev. simpl in Hdev. injection Hdev as Hdev.
    destruct (decide (deviceId i = deleted)); naive_solver. }
  split_and!; [done..|].
  destruct (unregister_post_cases conn s i Hi) as (s1 & Hs & _ & ->).
  assert (deviceId <$> info s1 c = Some d) as E1.
  { destruct (shrunk_info _ _ Hs c) as [x y Hxy|]; simpl in *; [|done]. by rewrite (sim_device _ _ Hxy). }
  case_decide; [done|]. by rewrite info_upd_ne, info_set_connections.
Qed.

Lemma exact_unregister conn s : is_Some (info s conn) -> exact s -> exact (unregister_post conn s).
Proof.
  intros [i Hi] H d c Hmap.
  destruct (connections_unregister conn s i (up s) Hi H d c Hmap) as (? & _ & ? & ?).
  split_and!; [|done..]. by apply (tame_up _ _ _ (tame_unregister conn s)).
Qed.

Lemma exact_register `{TcpLibOk} conn d s :
  up s conn -> is_Some (info s conn) -> d <> deleted ->
  deviceId <$> info s conn = Some deleted \/ deviceId <$> info s conn = Some d ->
  exact s -> exact (register_post conn d s).
Proof.
  intros Hup [i Hi] Hd Hdev Hex d' c. rewrite connections_register, lookup_insert_Some.
  pose proof (tame_register conn d s) as Ht. rewrite (tame_up _ _ _ Ht).
  assert (is_Some (info (register_post conn d s) conn)) as [j Hj] by (apply (tame_info _ _ _ Ht); eauto).
  intros [[<- <-]|[Hne Hmap]].
  - split_and!; [done..|]. rewrite Hj. simpl.
    destruct (info_register conn d s conn j Hj) as (? & _ & _ & _ & [[_ ->]|[[? _]|[? _]]]); done.
  - destruct (Hex d' c Hmap) as (Hc & Hdel & Hdv). split_and!; [done..|].
    destruct (info s c) as [k|] eqn:Hk; [|done]. simpl in Hdv. injection Hdv as Hdv.
    assert (is_Some (info (register_post conn d s) c)) as [k' Hk'] by (apply (tame_info _ _ _ Ht); eauto).
    rewrite Hk'. simpl.
    destruct (info_register conn d s c k' Hk') as (k0 & Hk0 & _ & _ & [[-> _]|[(_ & E & _)|(_ & _ & ->)]]).
    + rewrite Hk in Hdev. simpl in Hdev. naive_solver.
    + destruct (Hex d c E) as (_ & _ & E'). rewrite Hk in E'. simpl in E'. congruence.
    + congruence.
Qed.

Lemma exact_message `{TcpLibOk} conn m t s :
  up s conn -> is_Some (info s conn) -> disciplined s conn m -> exact s -> exact (message_post conn m t s).
Proof.
  intros Hup Hi Hd Hex. unfold message_post.
  pose proof (exact_subscribe conn (message_tail m) s Hex) as Hsub.
  destruct (Z.eqb_spec (message_0 m) REGISTER_DEVICE) as [E|_].
  { destruct (Hd E). by apply (exact_register conn (message_tail m) s). }
  destruct (_ =? SUBSCRIBE_DEVICE); [by destruct (subscribe_post conn (message_tail m) s)|].
  destruct (_ =? SEND_DATA); [by rewrite send_all_trace|].
  destruct (_ =? UNREGISTER_DEVICE); [by apply (exact_unregister conn s)|].
  destruct (_ =? UNSUBSCRIBE_DEVICE); [by apply (exact_shrunk _ _ (shrunk_unsubscribe conn (message_tail m) s))|].
  destruct (_ =? CHECK_DEVICE_ALIVE); [done|].
  destruct (_ =? HEART_BEAT); [by apply (exact_heartbeat conn t s) | done].
Qed.

Lemma exact_down c s : inv s -> up s c -> exact s -> exact (down_post c s).
Proof.
  intros H Hup Hex. destruct (inv_info s c H Hup) as [i Hi]. unfold down_post. rewrite Hi.
  set (s1 := erased (position i) (upd_state c (fun _ => kDisconnected) s)).
  assert (forall c', info s1 c' = info s c') as Hinfo by (intros; apply info_upd_state).
  rewrite <- Hinfo in Hi. intros d c' Hmap.
  destruct (connections_unregister c s1 i (up s) Hi) with (d := d) (c := c') as (Hu & Hne & ? & ?);
    [intros d' c''; rewrite Hinfo; apply Hex | done |].
  split_and!; [|done..]. apply (tame_up _ _ _ (tame_unregister c s1)). revert Hu. unfold up.
  change (state_of s1 c') with (state_of (upd_state c (fun _ => kDisconnected) s) c').
  by rewrite state_of_upd_state, decide_False.
Qed.

Lemma exact_visit `{TcpLibOk} now s c : exact s -> exact (visit now s c).
Proof.
  apply exact_keep.
  - unfold visit, expire. case_match; [case_decide|]; done.
  - intros c'. unfold visit. case_match; [by rewrite info_expire | by apply device_upd].
  - intros c'. by apply (tame_up _ _ _ (tame_visit now s c)).
Qed.

Lemma exact_timed `{TcpLibOk} now s : exact s -> exact (timed now s).
Proof.
  unfold timed. generalize (prefix (stale_at now s) (_connectionList s).*2) as l. intros l.
  revert s. induction l as [|c l IH]; intros s Hs; simpl; auto using exact_visit.
Qed.

Section properties.
Context {host : Host} {lib : TcpLib} {libok : TcpLibOk} (tid idle : Z).

(** C9: every state the server reaches satisfies the invariant: the mutex is
    free between callbacks; every connection object has a context; a registered
    connection is the one its id is mapped to; no subscription or recipient is
    listed twice; every recipient exists; [_connectionList] holds exactly one
    node for every connection that is not closed, the one the connection's
    [position] designates; and every input buffer is well formed. *)
Theorem server_invariant (s : p2pServer) : reachable tid idle s -> inv s.
Proof. apply inv_reachable. Qed.

(** C10: in a reachable state no callback fails on an assertion, a null or
    dangling pointer, a deadlock or a loop that does not end: connections come
    up, go down and time out without an error, and for every chunk of bytes the
    message callback returns, unless it leaves a [std::list] loop through an
    erased iterator ([InvalidIterator], the only fault left). *)
Theorem server_safe (s : p2pServer) :
  reachable tid idle s ->
  (forall c now, conns s !! c = None -> exists s', ev_up tid c now s = Ok (tt, s')) /\
  (forall c now, up s c -> exists s', ev_down tid c now s = Ok (tt, s')) /\
  (forall now, exists s', onTimer now s = Ok (tt, s')) /\
  (forall c b bs t, up s c -> bytes bs -> buf_of s c = Some b ->
     writerIndex_ b + zlen bs <= max_size ->
     (exists s', ev_data tid c bs t s = Ok (tt, s')) \/ ev_data tid c bs t s = Err InvalidIterator).
Proof.
  intros H%inv_reachable. split_and!.
  - intros c now _. destruct (ev_up_run tid c now s) as (b & ? & _). eauto.
  - intros c now Hup. eauto using ev_down_run.
  - intros now. eauto using onTimer_run.
  - intros c b bs t Hup Hbs Hb Hsz. pose proof (ev_data_inv tid c b bs t s H Hup Hbs Hb Hsz) as Hd.
    destruct (ev_data tid c bs t s) as [[[] s']|e]; [eauto | right; congruence].
Qed.

(** C11: the handlers implement the abstract effect of a message: in a reachable
    state [onMessage] returns the state [message_post] describes; the exception
    is a data message with a recipient that is no longer connected. *)
Theorem message_refines (s : p2pServer) (conn : connid) (m : list Z) (t : Timestamp) :
  reachable tid idle s -> up s conn -> zlen m < 2 ^ 31 ->
  onMessage tid conn m t s = Ok (tt, message_post conn m t s) \/
  (onMessage tid conn m t s = Err InvalidIterator /\ message_0 m = SEND_DATA /\
   exists c, c ∈ targets s conn /\ state_of s c <> Some kConnected).
Proof. intros H%inv_reachable. by apply onMessage_outcome. Qed.

(** C26: in every state the server reaches, a data message from an open connection
    whose recipients are all still connected (else [send_data_invalid_iterator] may
    happen) is relayed unchanged, exactly once and in the order of the list, to every
    recipient of the sender; then the sender gets the reply; nothing else changes. *)
Theorem send_data_delivers (s : p2pServer) (conn : connid) (m : list Z) (t : Timestamp) :
  reachable tid idle s -> up s conn -> zlen m < 2 ^ 31 -> message_0 m = SEND_DATA ->
  (forall c, c ∈ targets s conn -> state_of s c = Some kConnected) ->
  NoDup (targets s conn) /\
  onMessage tid conn m t s =
    Ok (tt, set_trace (trace s ++ ((fun c => ESend c (encode m)) <$> targets s conn) ++
                       [ESend conn (encode (reply SEND_DATA EXEC_SUCCESS))]) s).
Proof.
  intros H%inv_reachable Hup Hm Hc Ht. split; [by apply targets_NoDup|].
  rewrite onMessage_run; [|by apply inv_ready|done|done]. do 2 f_equal.
  unfold message_post. rewrite Hc. simpl. rewrite send_all_trace.
  unfold sent, emitted, set_trace. simpl. by rewrite <- app_assoc.
Qed.

(** Registering an id makes the connection the only one under the id: the
    map is updated there and nowhere else; a connection that held the id is
    marked unregistered and shut down, and no other connection is touched. *)
Lemma register_takes_over (s : p2pServer) (conn : connid) (m : list Z) (t : Timestamp) :
  reachable tid idle s -> up s conn -> zlen m < 2 ^ 31 -> message_0 m = REGISTER_DEVICE ->
  let d := message_tail m in
  exists s', onMessage tid conn m t s = Ok (tt, s') /\
    _connections s' = <[d := conn]> (_connections s) /\
    deviceId <$> info s' conn = Some d /\
    (forall old, _connections s !! d = Some old -> old <> conn ->
       deviceId <$> info s' old = Some deleted /\ state_of s' old <> Some kConnected /\
       trace s' = trace s ++ [EShutdown old; ESend conn (encode (reply REGISTER_DEVICE EXEC_SUCCESS))]) /\
    (forall c, c <> conn -> _connections s !! d <> Some c ->
       info s' c = info s c /\ state_of s' c = state_of s c).
Proof.
  intros H%inv_reachable Hup Hm Hc d. destruct (inv_info s conn H Hup) as [i Hi].
  exists (message_post conn m t s). split; [apply onMessage_run; [by apply inv_ready|done|by rewrite Hc]|].
  unfold message_post. rewrite Hc. simpl. fold d.
  change (_connections (sent ?c ?x ?s')) with (_connections s').
  change (trace (sent ?c ?x ?s')) with (trace s' ++ [ESend c (encode x)]).
  rewrite connections_register, trace_register.
  unfold sent. rewrite !info_emitted. split_and!; [done| | |].
  - unfold register_post. destruct (_connections s !! d) as [old|] eqn:E; [case_decide|];
      autorewrite with server; unfold shut; autorewrite with server;
      rewrite ?(info_upd_ne old) by done; by rewrite info_upd_eq, Hi.
  - intros old Hold Hne. destruct (i_map _ (inv_reg _ H) d old Hold) as [j Hj].
    rewrite info_emitted, state_of_emitted. rewrite Hold, decide_False by done.
    unfold register_post. rewrite Hold, decide_False by done.
    rewrite info_set_connections, state_of_set_connections, state_of_shut, decide_True by done.
    unfold shut. rewrite info_emitted, info_upd_state, info_upd_eq, info_upd_ne, Hj by done.
    split_and!; [done | | by rewrite <- app_assoc].
    rewrite !state_of_upd. destruct (state_of s old); simpl; [|done].
    intros [= E]. by eapply tcp_shutdown_not_connected.
  - intros c Hne Hmap. rewrite info_emitted, state_of_emitted. unfold register_post.
    destruct (_connections s !! d) as [old|]; [case_decide|];
      rewrite ?info_set_connections, ?state_of_set_connections, ?state_of_shut;
      unfold shut; autorewrite with server; rewrite ?decide_False by congruence;
      by rewrite !info_upd_ne, ?state_of_upd by congruence.
Qed.

(** A subscription succeeds exactly when the id is registered and is not
    the subscriber's own; then the subscriber is a recipient of the connection
    registered under the id, and no other recipient is added or removed; a
    refused subscription changes nothing but the trace. *)
Lemma subscribe_effect (s : p2pServer) (conn : connid) (m : list Z) (t : Timestamp) i :
  reachable tid idle s -> up s conn -> zlen m < 2 ^ 31 -> message_0 m = SUBSCRIBE_DEVICE ->
  info s conn = Some i ->
  let d := message_tail m in
  exists s' r, onMessage tid conn m t s = Ok (tt, s') /\
    trace s' = trace s ++ [ESend conn (encode (reply SUBSCRIBE_DEVICE r))] /\
    _connections s' = _connections s /\
    match _connections s !! d with
    | Some c =>
        if decide (d = deviceId i) then r = EXEC_FAIL /\ conns s' = conns s
        else r = EXEC_SUCCESS /\
          (exists i', info s' conn = Some i' /\ d ∈ subscribeIdList i') /\
          (forall x y, x ∈ targets s' y <-> x ∈ targets s y \/ (x = conn /\ y = c))
    | None => r = EXEC_FAIL /\ conns s' = conns s
    end.
Proof.
  intros H%inv_reachable Hup Hm Hc Hi d.
  exists (message_post conn m t s), (subscribe_post conn d s).1.
  split; [apply onMessage_run; [by apply inv_ready|done|by rewrite Hc]|].
  unfold message_post. rewrite Hc. simpl. fold d.
  pose proof (trace_subscribe conn d s) as Htr. revert Htr. unfold subscribe_post. rewrite Hi.
  destruct (_connections s !! d) as [c|] eqn:E; [case_decide as Hd|]; simpl; intros Htr;
    try done. split_and!; [done..| |].
  - destruct (i_map _ (inv_reg _ H) d c E) as [j Hj]. unfold sent. rewrite info_emitted, info_upd.
    rewrite info_upd_eq, Hi. case_decide; [subst; rewrite info_upd_eq, Hi|]; simpl; eexists; (split; [done|]).
    + unfold sendToListAdd. case_decide; simpl; unfold subscribeIdListAdd; case_decide; set_solver.
    + unfold subscribeIdListAdd. case_decide; set_solver.
  - intros x y. destruct (i_map _ (inv_reg _ H) d c E) as [j Hj].
    assert (forall z, sendToList <$> info (upd conn (subscribeIdListAdd d) s) z = sendToList <$> info s z) as Hz.
    { intros z. rewrite info_upd. case_decide; [subst|done]. rewrite Hi. simpl.
      unfold subscribeIdListAdd. by case_decide. }
    unfold sent, targets. rewrite info_emitted, info_upd. specialize (Hz y).
    destruct (decide (y = c)) as [->|Hne].
    + rewrite Hj in *. destruct (info (upd conn _ s) c) as [j'|]; simpl in *; [|done].
      injection Hz as Hz. unfold sendToListAdd. case_decide; simpl; rewrite Hz in *; set_solver.
    + destruct (info (upd conn _ s) y), (info s y); simpl in *; try done;
        [injection Hz as ->|]; naive_solver.
Qed.

(** C28: when a connection goes down its entry leaves [_connectionList], its id
    becomes free, and every connection registered under an id it was subscribed
    to stops sending to it; the handler sends nothing. *)
Theorem disconnect_cleans_up (s : p2pServer) (c : connid) (now : Timestamp) i :
  reachable tid idle s -> up s c -> info s c = Some i ->
  exists s', ev_down tid c now s = Ok (tt, s') /\
    trace s' = trace s /\ state_of s' c = Some kDisconnected /\
    (c ∉ (_connectionList s').*2) /\ targets s' c = [] /\
    (deviceId i <> deleted -> _connections s' = delete (deviceId i) (_connections s)) /\
    (forall d t, d ∈ subscribeIdList i -> _connections s !! d = Some t -> c ∉ targets s' t).
Proof.
  intros H%inv_reachable Hup Hi. exists (down_post c s). split; [by apply ev_down_run|].
  pose proof (inv_down c s H Hup) as Hinv. revert Hinv. unfold down_post. rewrite Hi.
  set (s1 := erased (position i) (upd_state c (fun _ => kDisconnected) s)). intros Hinv.
  assert (forall c', info s1 c' = info s c') as Hinfo by (intros; apply info_upd_state).
  assert (state_of s1 c = Some kDisconnected) as Hst.
  { change (state_of (upd_state c (fun _ => kDisconnected) s) c = Some kDisconnected).
    rewrite state_of_upd_state, decide_True by done. by destruct Hup as (st & -> & _). }
  rewrite <- Hinfo in Hi.
  destruct (unregister_effect c s1 i Hi) as ((i' & Hi' & _ & _ & Hsend) & Hmap & Hsub & _).
  pose proof (tame_unregister c s1) as Ht.
  assert (state_of (unregister_post c s1) c = Some kDisconnected) as Hst'
    by by apply (tame_closed _ _ Ht).
  split_and!.
  - by rewrite trace_unregister.
  - done.
  - intros ([n c'] & E & Hin)%list_elem_of_fmap. simpl in E. subst c'.
    destruct (l_node _ (inv_list _ Hinv) n c Hin) as (_ & (st & ? & ?) & _). congruence.
  - unfold targets. by rewrite Hi'.
  - intros Hd. by rewrite Hmap, decide_False.
  - intros d t Hd Ht'. by eapply Hsub.
Qed.

(** A heart beat records the time it was received, and moves the entry of
    the connection to the end of [_connectionList] without changing the order
    of the others. *)
Lemma heart_beat_refreshes (s : p2pServer) (conn : connid) (m : list Z) (t : Timestamp) i :
  reachable tid idle s -> up s conn -> zlen m < 2 ^ 31 -> message_0 m = HEART_BEAT ->
  info s conn = Some i ->
  exists s' l1 l2, onMessage tid conn m t s = Ok (tt, s') /\
    info s' conn = Some (set_lastReceiveTime t i) /\
    _connectionList s = l1 ++ (position i, conn) :: l2 /\
    _connectionList s' = l1 ++ l2 ++ [(position i, conn)] /\
    (forall c, c <> conn -> info s' c = info s c) /\
    trace s' = trace s ++ [ESend conn (encode (reply HEART_BEAT EXEC_SUCCESS))].
Proof.
  intros H%inv_reachable Hup Hm Hc Hi.
  pose proof (l_up _ (inv_list _ H) conn i Hi Hup) as Hin.
  apply list_elem_of_split in Hin as (l1 & l2 & El).
  exists (message_post conn m t s), l1, l2.
  split; [apply onMessage_run; [by apply inv_ready|done|by rewrite Hc]|].
  unfold message_post. rewrite Hc. simpl. unfold heartbeat_post. rewrite Hi.
  unfold sent. split_and!; [| done | | | done].
  - rewrite info_emitted. unfold moved_end. by rewrite info_set_connectionList, info_upd_eq, Hi.
  - pose proof (l_nodup _ (inv_list _ H)) as Hnd. rewrite El in Hnd. simpl. rewrite El.
    rewrite fmap_app, fmap_cons in Hnd. apply NoDup_app in Hnd as (_ & N1 & N2).
    apply NoDup_cons in N2 as [N2 _].
    assert (forall l : list (nat * connid), position i ∉ l.*1 ->
      filter (fun n => n.1 ≠ position i) l = l /\ filter (fun n => n.1 = position i) l = []) as Hf.
    { induction l as [|[n c] l IH]; intros Hl; [done|]. rewrite fmap_cons, not_elem_of_cons in Hl.
      destruct Hl as [Hn Hl]. destruct (IH Hl) as [E1 E2]. rewrite !filter_cons, E1, E2. simpl in Hn |- *.
      rewrite decide_True, decide_False by done. done. }
    destruct (Hf l1) as [E1 E2]; [intros ?; eapply N1; [done | left]|].
    destruct (Hf l2 N2) as [E3 E4].
    rewrite !filter_app, !filter_cons, E1, E2, E3, E4. simpl.
    rewrite decide_False, decide_True by (simpl; congruence). simpl. by rewrite <- app_assoc.
  - intros c Hne. rewrite info_emitted. unfold moved_end.
    by rewrite info_set_connectionList, info_upd_ne.
Qed.

(** C30: the timer visits the longest prefix of [_connectionList] whose entries
    are over the idle limit or ahead of the clock.  It shuts down, in order and
    once, exactly the connected ones that are over the limit, and moves the
    others to the current time; it stops at the first fresh entry and leaves
    everything behind it alone. *)
Theorem timer_effect (s : p2pServer) (now : Timestamp) :
  reachable tid idle s ->
  let seen := prefix (stale_at now s) (_connectionList s).*2 in
  let closed := List.filter (is_victim now s) seen in
  exists s', onTimer now s = Ok (tt, s') /\
    trace s' = trace s ++ concat ((fun c => [EShutdown c; EForceCloseWithDelay c]) <$> closed) /\
    (forall c, c ∈ closed -> state_of s' c <> Some kConnected) /\
    (forall c, c ∉ closed -> state_of s' c = state_of s c) /\
    (forall c, info s' c = if decide (c ∈ seen /\ expired_at now s c = false)
                           then set_lastReceiveTime now <$> info s c else info s c).
Proof.
  intros H%inv_reachable seen closed. exists (timed now s). split; [by apply onTimer_run|].
  assert (NoDup seen) as Hnd.
  { eapply sublist_NoDup; [apply list_conns_NoDup, H|]. apply prefix_sublist. }
  destruct (visits_victims now seen s Hnd) as (V1 & V2 & V3 & V4).
  destruct (visits_frame now seen s) as (_ & _ & F). unfold timed. fold seen.
  split_and!; [done | | |].
  - intros c [Hv Hc]%elem_of_filter_bool. by apply V2.
  - intros c Hc. destruct (is_victim now s c) eqn:E; [|by apply V3].
    apply F. intros Hin. apply Hc. by apply elem_of_filter_bool.
  - intros c. destruct (decide (c ∈ seen)) as [Hin|Hin].
    + rewrite (V4 c Hin). destruct (expired_at now s c).
      * rewrite decide_False; naive_solver.
      * by rewrite decide_True.
    + rewrite decide_False by naive_solver. by apply F.
Qed.

(** Every known command is answered once, after everything else it causes,
    with the command's code under the reply bit and a result of 0 or 1; before the
    reply only [REGISTER_DEVICE] (a shutdown) and [SEND_DATA] (the data) cause
    traffic; an unknown command, and the empty message, change nothing at all. *)
Lemma one_reply (s : p2pServer) (conn : connid) (m : list Z) (t : Timestamp) s' :
  reachable tid idle s -> up s conn -> zlen m < 2 ^ 31 ->
  onMessage tid conn m t s = Ok (tt, s') ->
  let cmd := message_0 m in
  if (1 <=? cmd) && (cmd <=? 7) then
    exists before r, trace s' = trace s ++ before ++ [ESend conn (encode [128 + cmd; r])] /\
      (r = EXEC_SUCCESS \/ r = EXEC_FAIL) /\
      (before = [] \/ cmd = SEND_DATA \/ (cmd = REGISTER_DEVICE /\ exists old, before = [EShutdown old]))
  else s' = s.
Proof.
  intros H%inv_reachable Hup Hm Hrun cmd.
  destruct (onMessage_outcome tid conn m t s H Hup Hm) as [E|[E _]]; [|congruence].
  rewrite E in Hrun. injection Hrun as <-. unfold message_post. fold cmd.
  destruct (Z.eqb_spec cmd REGISTER_DEVICE) as [->|].
  { simpl. rewrite trace_register, <- app_assoc. eexists _, EXEC_SUCCESS. split_and!; [done | by left |].
    repeat case_match; eauto 10. }
  destruct (Z.eqb_spec cmd SUBSCRIBE_DEVICE) as [->|].
  { pose proof (trace_subscribe conn (message_tail m) s) as Htr.
    destruct (subscribe_post conn (message_tail m) s) as [r s1] eqn:Es.
    assert (r = EXEC_SUCCESS \/ r = EXEC_FAIL) as Hr.
    { revert Es. unfold subscribe_post. repeat case_match; intros [= <- <-]; eauto. }
    simpl in *. rewrite Htr. exists [], r. split_and!; [|done|by left]. by destruct Hr as [-> | ->]. }
  destruct (Z.eqb_spec cmd SEND_DATA) as [->|].
  { simpl. rewrite send_all_trace. simpl. rewrite <- app_assoc.
    eexists _, EXEC_SUCCESS. split_and!; [done | by left | eauto]. }
  destruct (Z.eqb_spec cmd UNREGISTER_DEVICE) as [->|].
  { simpl. rewrite trace_unregister. exists [], EXEC_SUCCESS. split_and!; eauto. }
  destruct (Z.eqb_spec cmd UNSUBSCRIBE_DEVICE) as [->|].
  { simpl. rewrite (shrunk_trace _ _ (shrunk_unsubscribe conn (message_tail m) s)).
    exists [], EXEC_SUCCESS. split_and!; eauto. }
  destruct (Z.eqb_spec cmd CHECK_DEVICE_ALIVE) as [->|].
  { simpl. exists [], (alive (message_tail m) s). unfold alive.
    repeat case_match; split_and!; eauto. }
  destruct (Z.eqb_spec cmd HEART_BEAT) as [->|].
  { simpl. rewrite trace_heartbeat. exists [], EXEC_SUCCESS. split_and!; eauto. }
  unfold REGISTER_DEVICE, SUBSCRIBE_DEVICE, SEND_DATA, UNREGISTER_DEVICE, UNSUBSCRIBE_DEVICE,
    CHECK_DEVICE_ALIVE, HEART_BEAT in *.
  assert ((1 <=? cmd) && (cmd <=? 7) = false) as -> by lia. done.
Qed.

End properties.

(** ** Where the code does not do what it means to *)

#[local] Existing Instance demo_host.
#[local] Existing Instance demo_lib.
#[local] Existing Instance demo_lib_ok.

(** The first device beats, the second one times out and is shut down. *)
Definition half_closed : p2pServer :=
  demo_run (demo_events ++ [EvData 1 (frame HEART_BEAT "") (sec 15); EvTimer (sec 15)]).

(** A recipient that is shut down but whose connection is not yet closed
    makes the next data message of the sender advance an erased iterator. *)
Lemma send_data_invalid_iterator :
  reachable 1 10 half_closed /\ up half_closed 1 /\
  targets half_closed 1 = [2%nat] /\ state_of half_closed 2 = Some kDisconnecting /\
  ev_data 1 1 (frame SEND_DATA "hi") (sec 16) half_closed = Err InvalidIterator.
Proof.
  split_and!; [|apply up_b_spec|..]; [|vm_compute; reflexivity..].
  apply demo_run_reachable. vm_compute. reflexivity.
Qed.

(** The first device registers under a second id and disconnects. *)
Definition renamed : p2pServer :=
  demo_run (demo_events ++ [EvData 1 (frame REGISTER_DEVICE "z") (sec 4); EvDown 1 (sec 5)]).

(** A connection that registers a second id keeps the first one in the map
    after it is closed: a subscription to that id is accepted although the check
    for the device answers that it is not alive. *)
Lemma stale_registration :
  reachable 1 10 renamed /\
  state_of renamed 1 = Some kDisconnected /\ _connections renamed !! chars "a" = Some 1%nat /\
  alive (chars "a") renamed = EXEC_FAIL /\ (subscribe_post 2 (chars "a") renamed).1 = EXEC_SUCCESS.
Proof.
  split_and!; [|vm_compute; reflexivity..].
  apply demo_run_reachable. vm_compute. reflexivity.
Qed.

(** A third connection takes over the id of the first one. *)
Definition displaced : p2pServer :=
  demo_run (demo_events ++ [EvUp 3 (sec 4); EvData 3 (frame REGISTER_DEVICE "a") (sec 4)]).

(** The subscribers of an id are not carried over to the connection that
    takes the id over: the second device still counts as subscribed to the id,
    but the connection that holds it now sends to nobody. *)
Lemma takeover_drops_subscribers :
  reachable 1 10 displaced /\
  (exists i, info displaced 2 = Some i /\ subscribeIdList i = [chars "a"]) /\
  _connections displaced !! chars "a" = Some 3%nat /\
  targets displaced 3 = [] /\ targets displaced 1 = [2%nat].
Proof.
  split_and!; [|eexists; split|..]; [|vm_compute; reflexivity..].
  apply demo_run_reachable. vm_compute. reflexivity.
Qed.

(** ** The theorems at a concrete state *)

Definition msg (cmd : Z) (arg : string) : list Z := cmd :: chars arg.

Lemma demo_up c : up_b demo c = true -> up demo c.
Proof. apply up_b_spec. Qed.

Lemma server_invariant_witness : inv demo.
Proof. exact (server_invariant 1 10 demo demo_reachable). Defined.

Lemma server_safe_witness : exists s', ev_down 1 1 (sec 4) demo = Ok (tt, s').
Proof.
  destruct (server_safe 1 10 demo demo_reachable) as (_ & H & _).
  apply (H 1%nat (sec 4)). apply demo_up. vm_compute. reflexivity.
Defined.

Lemma message_refines_witness :
  onMessage 1 1 (msg UNREGISTER_DEVICE "") (sec 4) demo =
    Ok (tt, message_post 1 (msg UNREGISTER_DEVICE "") (sec 4) demo).
Proof.
  destruct (message_refines 1 10 demo 1
    (msg UNREGISTER_DEVICE "") (sec 4) demo_reachable) as [E|(_ & E & _)].
  - apply demo_up. vm_compute. reflexivity.
  - vm_compute. reflexivity.
  - exact E.
  - discriminate E.
Defined.

Lemma demo_targets c : c ∈ targets demo 1 -> state_of demo c = Some kConnected.
Proof.
  assert (targets demo 1 = [2%nat]) as -> by (vm_compute; reflexivity).
  intros ->%list_elem_of_singleton. vm_compute. reflexivity.
Qed.

Lemma send_data_delivers_witness :
  NoDup (targets demo 1) /\
  onMessage 1 1 (msg SEND_DATA "hi") (sec 4) demo =
    Ok (tt, set_trace (trace demo ++ [ESend 2 (encode (msg SEND_DATA "hi"))] ++
                       [ESend 1 (encode (reply SEND_DATA EXEC_SUCCESS))]) demo).
Proof.
  apply (send_data_delivers 1 10 demo 1
    (msg SEND_DATA "hi") (sec 4) demo_reachable).
  - apply demo_up. vm_compute. reflexivity.
  - vm_compute. reflexivity.
  - reflexivity.
  - exact demo_targets.
Defined.

Lemma register_takes_over_witness :
  exists s', onMessage 1 2 (msg REGISTER_DEVICE "a") (sec 4) demo = Ok (tt, s') /\
    _connections s' !! chars "a" = Some 2%nat /\ state_of s' 1 <> Some kConnected.
Proof.
  destruct (register_takes_over 1 10 demo 2
    (msg REGISTER_DEVICE "a") (sec 4) demo_reachable) as (s' & E1 & E2 & _ & E3 & _).
  - apply demo_up. vm_compute. reflexivity.
  - vm_compute. reflexivity.
  - reflexivity.
  - exists s'. split; [exact E1|]. split; [by rewrite E2|].
    refine (proj1 (proj2 (E3 1%nat _ _))); [vm_compute; reflexivity | discriminate].
Defined.

Lemma subscribe_effect_witness :
  exists s', onMessage 1 1 (msg SUBSCRIBE_DEVICE "b") (sec 4) demo = Ok (tt, s') /\
    1%nat ∈ targets s' 2.
Proof.
  destruct (info demo 1) as [i|] eqn:Hi; [|discriminate (eq_trans (eq_sym Hi) ltac:(vm_compute; reflexivity))].
  destruct (subscribe_effect 1 10 demo 1
    (msg SUBSCRIBE_DEVICE "b") (sec 4) i demo_reachable) as (s' & r & E1 & _ & _ & E2).
  - apply demo_up. vm_compute. reflexivity.
  - vm_compute. reflexivity.
  - reflexivity.
  - exact Hi.
  - exists s'. split; [exact E1|]. revert E2.
    assert (_connections demo !! message_tail (msg SUBSCRIBE_DEVICE "b") = Some 2%nat) as ->
      by (vm_compute; reflexivity).
    assert (deviceId <$> info demo 1 = Some (chars "a")) as Ha by (vm_compute; reflexivity).
    rewrite Hi in Ha. injection Ha as ->. rewrite decide_False by (vm_compute; discriminate).
    intros (_ & _ & E). apply E. right. split; reflexivity.
Defined.

Lemma demo_info c d : deviceId <$> info demo c = Some d -> exists i, info demo c = Some i /\ deviceId i = d.
Proof. intros (i & ? & ->)%fmap_Some. eauto. Qed.

Lemma disconnect_cleans_up_witness :
  exists s', ev_down 1 2 (sec 4) demo = Ok (tt, s') /\
    _connections s' !! chars "b" = None /\ (2%nat ∉ targets s' 1).
Proof.
  assert (subscribeIdList <$> info demo 2 = Some [chars "a"]) as Hs by (vm_compute; reflexivity).
  destruct (demo_info 2 (chars "b")) as (i & Hi & Hd); [vm_compute; reflexivity|].
  destruct (disconnect_cleans_up 1 10 demo 2 (sec 4) i demo_reachable)
    as (s' & E & _ & _ & _ & _ & Hmap & Hsub).
  - apply demo_up. vm_compute. reflexivity.
  - exact Hi.
  - exists s'. split; [exact E|]. split.
    + rewrite Hmap, Hd; [apply lookup_delete_eq | rewrite Hd; vm_compute; discriminate].
    + apply (Hsub (chars "a")); [|vm_compute; reflexivity].
      rewrite Hi in Hs. injection Hs as ->. left.
Defined.

Lemma heart_beat_refreshes_witness :
  exists s', onMessage 1 1 (msg HEART_BEAT "") (sec 9) demo = Ok (tt, s') /\
    lastReceiveTime <$> info s' 1 = Some (sec 9).
Proof.
  destruct (demo_info 1 (chars "a")) as (i & Hi & Hd); [vm_compute; reflexivity|].
  destruct (heart_beat_refreshes 1 10 demo 1 (msg HEART_BEAT "") (sec 9) i demo_reachable)
    as (s' & l1 & l2 & E & Hi' & _).
  - apply demo_up. vm_compute. reflexivity.
  - vm_compute. reflexivity.
  - reflexivity.
  - exact Hi.
  - exists s'. split; [exact E|]. by rewrite Hi'.
Defined.

Lemma timer_effect_witness :
  exists s', onTimer (sec 20) demo = Ok (tt, s') /\
    trace s' = trace demo ++ [EShutdown 1; EForceCloseWithDelay 1; EShutdown 2; EForceCloseWithDelay 2].
Proof.
  destruct (timer_effect 1 10 demo (sec 20) demo_reachable) as (s' & E & Htr & _).
  exists s'. split; [exact E|]. rewrite Htr.
  assert (List.filter (is_victim (sec 20) demo)
    (prefix (stale_at (sec 20) demo) (_connectionList demo).*2) = [1%nat; 2%nat]) as ->
    by (vm_compute; reflexivity).
  reflexivity.
Defined.

Lemma one_reply_witness :
  exists s' before r, onMessage 1 2 (msg CHECK_DEVICE_ALIVE "a") (sec 4) demo = Ok (tt, s') /\
    trace s' = trace demo ++ before ++ [ESend 2 (encode [134; r])].
Proof.
  assert (up demo 2) as Hup by (apply demo_up; vm_compute; reflexivity).
  destruct (onMessage 1 2 (msg CHECK_DEVICE_ALIVE "a") (sec 4) demo) as [[[] s']|e] eqn:E.
  - destruct (one_reply 1 10 demo 2 (msg CHECK_DEVICE_ALIVE "a") (sec 4) s' demo_reachable
      Hup eq_refl E) as (before & r & Htr & _). exists s', before, r. split; [reflexivity | exact Htr].
  - exfalso. apply (f_equal is_ok) in E. vm_compute in E. discriminate E.
Defined.
