(* ===== verification/Wiring.v ===== *)
(** * How the server is put together

    The classes of muduo keep the functions they call back: [TcpServer]
    (muduo/net/TcpServer.h), [TcpConnection] (TcpConnection.h), [TcpClient]
    (TcpClient.h) and [Channel] (Channel.h) store what their setters are given.
    The constructor of [p2pServer] uses this to put its handlers, and the codec in
    front of them, behind a [TcpServer]; [start] gives it one thread.  What is in
    the .cc files of muduo (when the functions are called) is not among the
    sources; [dispatch] says it for the events of ServerInv.v, the way the comments
    of the headers do.  [wired_server] shows that the object the constructor builds
    is the server the other files are about.

    Further small classes: [AsyncLogging] (muduo/base/AsyncLogging.h), [TimerId],
    [InetAddress], [EventLoopThreadPool], [Thread] and [ThreadPool] as far as their
    headers define them. *)

From S2P Require Import Prelude Endian StringPiece Buffer Codec Muduo Server ServerSpec ServerInv ServerProps.
From Stdlib Require Import SpecFloat.

(** ** Objects that hold callbacks *)

Section callbacks.
(** [C] is a function of a connection, [D] one that also gets data and its time,
    [H] one with a size, [T] one of an event loop: [std::function]s. *)
Context {C D H T : Type}.

Inductive Option := kNoReusePort | kReusePort.

Record TcpServer := mkTcpServer {
  loop_ : nat;
  ipPort_ : list Z;
  name_ : list Z;
  reusePort : Option;
  numThreads_ : Z;
  connectionCallback_ : C;
  messageCallback_ : D;
  writeCompleteCallback_ : option C;
  threadInitCallback_ : option T;
  started_ : bool
}.

Definition ipPort (s : TcpServer) : list Z := ipPort_ s.
Definition name (s : TcpServer) : list Z := name_ s.
Definition getLoop (s : TcpServer) : nat := loop_ s.
Definition setConnectionCallback (cb : C) (s : TcpServer) : TcpServer :=
  mkTcpServer (loop_ s) (ipPort_ s) (name_ s) (reusePort s) (numThreads_ s) cb (messageCallback_ s)
    (writeCompleteCallback_ s) (threadInitCallback_ s) (started_ s).
Definition setMessageCallback (cb : D) (s : TcpServer) : TcpServer :=
  mkTcpServer (loop_ s) (ipPort_ s) (name_ s) (reusePort s) (numThreads_ s) (connectionCallback_ s) cb
    (writeCompleteCallback_ s) (threadInitCallback_ s) (started_ s).
Definition setWriteCompleteCallback (cb : C) (s : TcpServer) : TcpServer :=
  mkTcpServer (loop_ s) (ipPort_ s) (name_ s) (reusePort s) (numThreads_ s) (connectionCallback_ s) (messageCallback_ s)
    (Some cb) (threadInitCallback_ s) (started_ s).
Definition setThreadInitCallback (cb : T) (s : TcpServer) : TcpServer :=
  mkTcpServer (loop_ s) (ipPort_ s) (name_ s) (reusePort s) (numThreads_ s) (connectionCallback_ s) (messageCallback_ s)
    (writeCompleteCallback_ s) (Some cb) (started_ s).

(** The callbacks of a connection. *)
Record ConnCallbacks := mkConnCallbacks {
  cn_connection : option C;
  cn_message : option D;
  cn_writeComplete : option C;
  cn_highWaterMark : option H;
  cn_close : option C;
  highWaterMark_ : Z
}.

Definition conn_setConnectionCallback (cb : C) (s : ConnCallbacks) : ConnCallbacks :=
  mkConnCallbacks (Some cb) (cn_message s) (cn_writeComplete s) (cn_highWaterMark s) (cn_close s) (highWaterMark_ s).
Definition conn_setMessageCallback (cb : D) (s : ConnCallbacks) : ConnCallbacks :=
  mkConnCallbacks (cn_connection s) (Some cb) (cn_writeComplete s) (cn_highWaterMark s) (cn_close s) (highWaterMark_ s).
Definition conn_setWriteCompleteCallback (cb : C) (s : ConnCallbacks) : ConnCallbacks :=
  mkConnCallbacks (cn_connection s) (cn_message s) (Some cb) (cn_highWaterMark s) (cn_close s) (highWaterMark_ s).
Definition conn_setHighWaterMarkCallback (cb : H) (highWaterMark : Z) (s : ConnCallbacks) : ConnCallbacks :=
  mkConnCallbacks (cn_connection s) (cn_message s) (cn_writeComplete s) (Some cb) (cn_close s) highWaterMark.
Definition conn_setCloseCallback (cb : C) (s : ConnCallbacks) : ConnCallbacks :=
  mkConnCallbacks (cn_connection s) (cn_message s) (cn_writeComplete s) (cn_highWaterMark s) (Some cb) (highWaterMark_ s).

(** A client of the library, with its connection behind a mutex. *)
Record TcpClient := mkTcpClient {
  cl_loop : nat;
  cl_name : list Z;
  cl_connectionCallback : option C;
  cl_messageCallback : option D;
  cl_writeCompleteCallback : option C;
  retry_ : bool;
  cl_mutex : MutexLock;
  connection_ : option nat
}.

Definition client_set_mutex (m : MutexLock) (c : TcpClient) : TcpClient :=
  mkTcpClient (cl_loop c) (cl_name c) (cl_connectionCallback c) (cl_messageCallback c) (cl_writeCompleteCallback c)
    (retry_ c) m (connection_ c).
(** [MutexLockGuard lock(mutex_); return connection_;] *)
Definition client_connection (tid : Z) (c : TcpClient) : res (option nat * TcpClient) :=
  let* m := Mutex.lock tid (cl_mutex c) in
  let c := client_set_mutex m c in
  let conn := connection_ c in
  let* m := Mutex.unlock (cl_mutex c) in
  Ok (conn, client_set_mutex m c).
Definition client_getLoop (c : TcpClient) : nat := cl_loop c.
Definition retry (c : TcpClient) : bool := retry_ c.
Definition enableRetry (c : TcpClient) : TcpClient :=
  mkTcpClient (cl_loop c) (cl_name c) (cl_connectionCallback c) (cl_messageCallback c) (cl_writeCompleteCallback c)
    true (cl_mutex c) (connection_ c).
Definition client_name (c : TcpClient) : list Z := cl_name c.
Definition client_setConnectionCallback (cb : C) (c : TcpClient) : TcpClient :=
  mkTcpClient (cl_loop c) (cl_name c) (Some cb) (cl_messageCallback c) (cl_writeCompleteCallback c)
    (retry_ c) (cl_mutex c) (connection_ c).
Definition client_setMessageCallback (cb : D) (c : TcpClient) : TcpClient :=
  mkTcpClient (cl_loop c) (cl_name c) (cl_connectionCallback c) (Some cb) (cl_writeCompleteCallback c)
    (retry_ c) (cl_mutex c) (connection_ c).
Definition client_setWriteCompleteCallback (cb : C) (c : TcpClient) : TcpClient :=
  mkTcpClient (cl_loop c) (cl_name c) (cl_connectionCallback c) (cl_messageCallback c) (Some cb)
    (retry_ c) (cl_mutex c) (connection_ c).

(** What a channel calls when its file descriptor is ready; [D] also gets the time. *)
Record ChannelCallbacks := mkChannelCallbacks {
  readCallback_ : option D;
  writeCallback_ : option C;
  closeCallback_ : option C;
  errorCallback_ : option C
}.

Definition setReadCallback (cb : D) (c : ChannelCallbacks) : ChannelCallbacks :=
  mkChannelCallbacks (Some cb) (writeCallback_ c) (closeCallback_ c) (errorCallback_ c).
Definition setWriteCallback (cb : C) (c : ChannelCallbacks) : ChannelCallbacks :=
  mkChannelCallbacks (readCallback_ c) (Some cb) (closeCallback_ c) (errorCallback_ c).
Definition setCloseCallback (cb : C) (c : ChannelCallbacks) : ChannelCallbacks :=
  mkChannelCallbacks (readCallback_ c) (writeCallback_ c) (Some cb) (errorCallback_ c).
Definition setErrorCallback (cb : C) (c : ChannelCallbacks) : ChannelCallbacks :=
  mkChannelCallbacks (readCallback_ c) (writeCallback_ c) (closeCallback_ c) (Some cb).

(** Asking for the connection leaves the mutex free, as it was. *)
Lemma client_connection_run tid c :
  cl_mutex c = Mutex.new_MutexLock -> client_connection tid c = Ok (connection_ c, c).
Proof. intros E. unfold client_connection. rewrite E. simpl. destruct c. simpl in *. by subst. Qed.

End callbacks.

Arguments TcpServer C D T : clear implicits.
Arguments ConnCallbacks C D H : clear implicits.

(** ** The constructor of p2pServer *)

Section wiring.
Context {host : Host} {lib : TcpLib} (tid : Z).

(** [Timestamp::now()] is an argument of the callbacks that read the clock; a
    message callback gets the input buffer of its connection. *)
Definition ConnectionCallback : Type := connid -> Timestamp -> M unit.
Definition MessageCallback : Type := connid -> Timestamp -> M unit.

Abbreviation Server_ := (TcpServer ConnectionCallback MessageCallback (nat -> M unit)).

(** The functions of TcpServer.cc. *)
Class TcpServerLib := {
  new_TcpServer : nat -> list Z -> list Z -> Option -> Server_;
  setThreadNum : Z -> Server_ -> Server_;
  TcpServer_start : Server_ -> Server_
}.

(** What the comments of the header say of them: [setThreadNum] and [start] do not
    touch the callbacks, and [start] starts the server. *)
Class TcpServerLibOk (tl : TcpServerLib) : Prop := {
  threads_connection n s : connectionCallback_ (setThreadNum n s) = connectionCallback_ s;
  threads_message n s : messageCallback_ (setThreadNum n s) = messageCallback_ s;
  start_connection s : connectionCallback_ (TcpServer_start s) = connectionCallback_ s;
  start_message s : messageCallback_ (TcpServer_start s) = messageCallback_ s;
  start_started s : started_ (TcpServer_start s) = true
}.

Context {tl : TcpServerLib} {tlok : TcpServerLibOk tl}.

(** [EventLoop::runEvery]: the seconds between two calls, and what is called. *)
Record timer := mkTimer { interval : Z; callback : Timestamp -> M unit }.

(** The object: its parts, and the timers its constructor has put into the loop. *)
Record wired := mkWired {
  _server : Server_;
  fields : p2pServer;
  timers : list timer
}.

Definition construct_p2pServer (loop : nat) (listenAddr : list Z) (idleSeconds : Z) : wired :=
  let server := new_TcpServer loop listenAddr (chars "p2pServer") kNoReusePort in
  (* [_codec] has [p2pServer::onMessage] as its callback: [onData] is its [onMessage] *)
  let server := setConnectionCallback (fun conn now => onConnection tid conn now) server in
  let server := setMessageCallback (fun conn receiveTime => onData tid conn receiveTime) server in
  mkWired server (new_p2pServer idleSeconds) [mkTimer 1 onTimer].

Definition start (w : wired) : wired :=
  mkWired (TcpServer_start (setThreadNum 1 (_server w))) (fields w) (timers w).

(** What a started server calls when something happens on a connection. *)
Definition dispatch (w : wired) (e : event) (s : p2pServer) : res (unit * p2pServer) :=
  if started_ (_server w) then
    match e with
    | EvUp c now =>
        let* b := new_Buffer kInitialSize in
        connectionCallback_ (_server w) c now (set_conns (<[c := mkConn kConnected true b None]> (conns s)) s)
    | EvData c bs t =>
        let* (o, s) := the_conn c s in
        let* b := append (inputBuffer_ o) (Some (mkPtr bs 0)) (zlen bs) in
        let* (_, s) := update_conn c (fun o => Conn.setInputBuffer o b) s in
        messageCallback_ (_server w) c t s
    | EvDown c now => connectionCallback_ (_server w) c now (upd_state c (fun _ => kDisconnected) s)
    | EvTimer now =>
        match timers w with t :: _ => callback t now s | [] => Ok (tt, s) end
    end
  else Ok (tt, s).

(** One event after the other, on the fields of the object. *)
Fixpoint dispatch_all (w : wired) (es : list event) (s : p2pServer) : res p2pServer :=
  match es with
  | [] => Ok s
  | e :: es => let* (_, s) := dispatch w e s in dispatch_all w es s
  end.

(** The object that [main] builds and starts runs the handlers of the model: the
    constructor has put [p2pServer::onConnection] and the codec in front of
    [p2pServer::onMessage] behind the connections, and [onTimer] behind the timer. *)
Lemma wired_event loop addr idle e s s' :
  exec tid e s = Ok (tt, s') -> dispatch (start (construct_p2pServer loop addr idle)) e s = Ok (tt, s').
Proof.
  set (w := start _).
  assert (started_ (_server w) = true) as E1 by apply start_started.
  assert (connectionCallback_ (_server w) = fun conn now => onConnection tid conn now) as E2.
  { unfold w, start. cbn [_server]. by rewrite start_connection, threads_connection. }
  assert (messageCallback_ (_server w) = fun conn t => onData tid conn t) as E3.
  { unfold w, start. cbn [_server]. by rewrite start_message, threads_message. }
  unfold dispatch. rewrite E1, E2, E3. destruct e as [c now|c bs t|c now|now]; cbn [exec]; unfold assert_.
  - by case_bool_decide.
  - destruct (up_b s c && _); [|done]. cbn [res_bind]. destruct (buf_of s c) as [b|]; [|done].
    by destruct (writerIndex_ b + zlen bs <=? max_size).
  - by destruct (up_b s c).
  - done.
Qed.

Lemma wired_server loop addr idle es s :
  let w := start (construct_p2pServer loop addr idle) in
  exec_all tid es (fields w) = Ok s -> dispatch_all w es (fields w) = Ok s /\ reachable tid idle s.
Proof.
  intros w H. split; [|by apply (exec_reachable tid idle es)]. revert H. generalize (fields w) as s0.
  induction es as [|e es IH]; intros s0 H; cbn [exec_all dispatch_all] in *; [done|].
  destruct (exec tid e s0) as [[[] s1]|] eqn:E; [|done]. cbn [res_bind] in H.
  unfold w at 1. rewrite (wired_event loop addr idle e s0 s1 E). cbn [res_bind]. by apply IH.
Qed.

End wiring.

(** ** AsyncLogging.h *)

(** [thread_], [latch_] and [cond_] are objects of classes whose bodies are not
    among the sources: the calls of them are recorded. *)
Module Async.

Inductive call := CThreadStart | CLatchWait | CNotify | CThreadJoin.

Record AsyncLogging := mkAsync { running_ : bool; acalls : list call }.

Definition acall (c : call) (a : AsyncLogging) : AsyncLogging := mkAsync (running_ a) (acalls a ++ [c]).

Definition async_start (a : AsyncLogging) : AsyncLogging :=
  acall CLatchWait (acall CThreadStart (mkAsync true (acalls a))).
Definition async_stop (a : AsyncLogging) : AsyncLogging :=
  acall CThreadJoin (acall CNotify (mkAsync false (acalls a))).
Definition delete_AsyncLogging (a : AsyncLogging) : AsyncLogging :=
  if running_ a then async_stop a else a.

(** The thread is joined once, whether the user stops the log or leaves it to the
    destructor; a log that was never started is not joined at all. *)
Lemma async_joined_once a :
  running_ a = false ->
  delete_AsyncLogging (async_start a) = async_stop (async_start a) /\
  delete_AsyncLogging (async_stop (async_start a)) = async_stop (async_start a) /\
  delete_AsyncLogging a = a.
Proof. intros H. unfold delete_AsyncLogging at 3. by rewrite H. Qed.

End Async.

(** ** Small classes *)

Module Small.

(** TimerId.h *)
Record TimerId := mkTimerId { timer_ : option nat; sequence_ : Z }.
Definition new_TimerId : TimerId := mkTimerId None 0.
Definition of_timer (t : nat) (seq : Z) : TimerId := mkTimerId (Some t) seq.

(** InetAddress.h: [addr_] and [addr6_] are a union; the family and the port are at
    the same place in both. *)
Record InetAddress := mkInet { sin_family : Z; sin_port : Z; addr_rest : list Z }.
Definition family (a : InetAddress) : Z := sin_family a.
Definition portNetEndian (a : InetAddress) : Z := sin_port a.
Definition setSockAddrInet6 (addr6 : InetAddress) (a : InetAddress) : InetAddress := addr6.

(** EventLoopThreadPool.h *)
Record EventLoopThreadPool := mkPool { pool_name : list Z; pool_started : bool; numThreads : Z }.
Definition pool_setThreadNum (n : Z) (p : EventLoopThreadPool) : EventLoopThreadPool :=
  mkPool (pool_name p) (pool_started p) n.
Definition pool_is_started (p : EventLoopThreadPool) : bool := pool_started p.

(** EventLoop.h: the accessors, and the context of the loop. *)
Record LoopState := mkLoop { pollReturnTime_ : Timestamp; iteration_ : Z; eventHandling_ : bool; loop_context : option Z }.
Definition pollReturnTime (l : LoopState) : Timestamp := pollReturnTime_ l.
Definition iteration (l : LoopState) : Z := iteration_ l.
Definition eventHandling (l : LoopState) : bool := eventHandling_ l.
Definition loop_setContext (context : option Z) (l : LoopState) : LoopState :=
  mkLoop (pollReturnTime_ l) (iteration_ l) (eventHandling_ l) context.
Definition loop_getContext (l : LoopState) : option Z := loop_context l.

(** ProcessInfo.h *)
Record CpuTime := mkCpu { userSeconds : double; systemSeconds : double }.
Definition new_CpuTime : CpuTime := mkCpu (double_of_Z 0) (double_of_Z 0).
Definition total (c : CpuTime) : double := SFadd 53 1024 (userSeconds c) (systemSeconds c).

End Small.
