(* ===== verification/Hub.v ===== *)
(** * The server as a hub

    What the server promises to its clients, without its data structures: a hub
    knows its members, each with the list of members its data goes to, and which
    member an id stands for.  The tables of subscriptions, the list of
    connections, the times, the buffers and the frames are gone.

    [server_implements_hub] (in this file) relates the two: as long as the clients
    are polite, every run of the server is a run of the hub with the same
    messages, in the same order, to the same members. *)

From S2P Require Import Prelude Endian StringPiece Buffer Codec Muduo Server ServerSpec ServerInv ServerProps.

(** ** The specification *)

Record member := mkMember {
  m_open : bool;               (* not yet being closed *)
  m_recipients : list connid   (* who gets its data, in this order *)
}.

Record hub := mkHub {
  members : gmap connid member;
  registry : gmap device connid
}.

Definition hub0 : hub := mkHub ∅ ∅.

Definition on_member (c : connid) (f : member -> member) (h : hub) : hub :=
  mkHub (alter f c (members h)) (registry h).

Definition closing (m : member) : member := mkMember false (m_recipients m).
Definition add_recipient (c : connid) (m : member) : member :=
  if decide (c ∈ m_recipients m) then m else mkMember (m_open m) (m_recipients m ++ [c]).
Definition drop_recipient (c : connid) (m : member) : member :=
  mkMember (m_open m) (filter (.≠ c) (m_recipients m)).
Definition no_recipients (m : member) : member := mkMember (m_open m) [].

(** The id now stands for [c]; whoever it stood for is closed. *)
Definition hub_register (c : connid) (d : device) (h : hub) : hub :=
  let h1 := match registry h !! d with
            | Some old => if decide (old = c) then h else on_member old closing h
            | None => h
            end in
  mkHub (members h1) (<[d := c]> (registry h1)).

Definition hub_subscribe (c : connid) (d : device) (h : hub) : Z * hub :=
  match registry h !! d with
  | Some a => if decide (a = c) then (EXEC_FAIL, h)
              else (EXEC_SUCCESS, on_member a (add_recipient c) h)
  | None => (EXEC_FAIL, h)
  end.

Definition hub_unsubscribe (c : connid) (d : device) (h : hub) : hub :=
  match registry h !! d with
  | Some a => on_member a (drop_recipient c) h
  | None => h
  end.

Definition named (h : hub) (a : connid) : Prop := a ∈ (map_img (registry h) : gset connid).
#[global] Instance named_dec h a : Decision (named h a).
Proof. unfold named. apply _. Defined.

(** [c] gives up its ids, its recipients, and gets data from nobody. *)
Definition hub_unregister (c : connid) (h : hub) : hub :=
  mkHub (map_imap (fun a m => Some (if decide (a = c) then no_recipients m
                                    else if decide (named h a) then drop_recipient c m else m))
           (members h))
        (filter (fun p => p.2 ≠ c) (registry h)).

Definition hub_alive (d : device) (h : hub) : Z :=
  match registry h !! d ≫= fun c => members h !! c with
  | Some m => if m_open m then EXEC_SUCCESS else EXEC_FAIL
  | None => EXEC_FAIL
  end.

Abbreviation output := (connid * list Z)%type.

(** One message of a member: the hub afterwards, and what is sent to whom. *)
Definition hub_message (c : connid) (m : list Z) (h : hub) : hub * list output :=
  let d := message_tail m in
  let answer cmd r : list output := [(c, reply cmd r)] in
  let x := message_0 m in
  if x =? REGISTER_DEVICE then (hub_register c d h, answer REGISTER_DEVICE EXEC_SUCCESS)
  else if x =? SUBSCRIBE_DEVICE then
    let (r, h) := hub_subscribe c d h in (h, answer SUBSCRIBE_DEVICE r)
  else if x =? SEND_DATA then
    (h, ((., m) <$> from_option m_recipients [] (members h !! c)) ++ answer SEND_DATA EXEC_SUCCESS)
  else if x =? UNREGISTER_DEVICE then (hub_unregister c h, answer UNREGISTER_DEVICE EXEC_SUCCESS)
  else if x =? UNSUBSCRIBE_DEVICE then (hub_unsubscribe c d h, answer UNSUBSCRIBE_DEVICE EXEC_SUCCESS)
  else if x =? CHECK_DEVICE_ALIVE then (h, answer CHECK_DEVICE_ALIVE (hub_alive d h))
  else if x =? HEART_BEAT then (h, answer HEART_BEAT EXEC_SUCCESS)
  else (h, []).

(** What happens to a hub. *)
Inductive label :=
  | LUp (c : connid)
  | LMsg (c : connid) (m : list Z)
  | LClose (c : connid)
  | LDown (c : connid).

Definition hub_do (st : hub * list output) (l : label) : hub * list output :=
  let (h, out) := st in
  match l with
  | LUp c => (mkHub (<[c := mkMember true []]> (members h)) (registry h), out)
  | LMsg c m => let (h, o) := hub_message c m h in (h, out ++ o)
  | LClose c => (on_member c closing h, out)
  | LDown c => let h := hub_unregister c h in (mkHub (delete c (members h)) (registry h), out)
  end.

Definition hub_run (ls : list label) : hub * list output := foldl hub_do (hub0, []) ls.

Lemma hub_run_snoc ls l : hub_run (ls ++ [l]) = hub_do (hub_run ls) l.
Proof. unfold hub_run. by rewrite foldl_app. Qed.

(** A polite client registers while it is open, under one id at a time, and not
    under the reserved one. *)
Definition polite (h : hub) (c : connid) (m : list Z) : Prop :=
  message_0 m = REGISTER_DEVICE ->
  message_tail m <> deleted /\ m_open <$> members h !! c = Some true /\
  (forall d, registry h !! d = Some c -> d = message_tail m).

Fixpoint politely (h : hub) (c : connid) (ms : list (list Z)) : Prop :=
  match ms with
  | [] => True
  | m :: ms => polite h c m /\ politely (hub_message c m h).1 c ms
  end.

(** ** The server seen as a hub *)

Definition member_of (o : TcpConnection ConnInfo) : option member :=
  if decide (state_ o = kDisconnected) then None
  else Some (mkMember (Conn.connected o) (from_option sendToList [] (context_ o))).

Definition abs (s : p2pServer) : hub := mkHub (omap member_of (conns s)) (_connections s).

#[global] Arguments abs : simpl never.

(** What the server has sent, in order. *)
Definition wire (es : list effect) : list output :=
  omap (fun e => match e with ESend c bs => Some (c, bs) | _ => None end) es.

Definition framed (o : output) : output := (o.1, encode o.2).

Definition sim (s : p2pServer) (st : hub * list output) : Prop :=
  abs s = st.1 /\ wire (trace s) = framed <$> st.2.

(** ** Lemmas: the view of one member *)

Definition view (s : p2pServer) (c : connid) : option member :=
  st ← state_of s c;
  if decide (st = kDisconnected) then None
  else Some (mkMember (bool_decide (st = kConnected)) (targets s c)).

Lemma lookup_abs s c : members (abs s) !! c = view s c.
Proof.
  unfold abs, view, state_of, targets, info, member_of, Conn.connected. simpl. rewrite lookup_omap.
  destruct (conns s !! c) as [o|]; simpl; [|done]. case_decide; [done|]. by destruct (context_ o).
Qed.

Lemma registry_abs s : registry (abs s) = _connections s.
Proof. done. Qed.

Lemma abs_eq s h : (forall c, view s c = members h !! c) -> _connections s = registry h -> abs s = h.
Proof.
  destruct h as [mem reg]. simpl. intros Hv <-. unfold abs. f_equal. apply map_eq. intros c.
  rewrite <- Hv. apply (lookup_abs s).
Qed.

Lemma view_ext s s' c :
  state_of s' c = state_of s c -> targets s' c = targets s c -> view s' c = view s c.
Proof. unfold view. by intros -> ->. Qed.

(** Changes of a [ConnInfo] show in the recipients only. *)
Lemma targets_upd a f s c :
  targets (upd a f s) c = if decide (c = a) then from_option (fun i => sendToList (f i)) [] (info s a)
                          else targets s c.
Proof.
  unfold targets. rewrite info_upd. case_decide; [subst|done]. by destruct (info s a).
Qed.

Lemma targets_upd_keep a f s c :
  (forall i, sendToList (f i) = sendToList i) -> targets (upd a f s) c = targets s c.
Proof.
  intros Hf. rewrite targets_upd. case_decide; [subst|done]. unfold targets.
  destruct (info s a); simpl; by rewrite ?Hf.
Qed.

Lemma view_upd_keep a f s c :
  (forall i, sendToList (f i) = sendToList i) -> view (upd a f s) c = view s c.
Proof. intros Hf. apply view_ext; [apply state_of_upd | by apply targets_upd_keep]. Qed.

(** A change [f] of a [ConnInfo] and the change [g] of the member it stands for. *)
Lemma view_upd a f (g : member -> member) s c :
  (forall o i, g (mkMember o (sendToList i)) = mkMember o (sendToList (f i))) ->
  is_Some (info s a) ->
  view (upd a f s) c = if decide (c = a) then g <$> view s a else view s c.
Proof.
  intros Hg [i Hi]. unfold view. rewrite state_of_upd, targets_upd. case_decide; [subst c|done].
  unfold targets. rewrite Hi. destruct (state_of s a) as [st|]; simpl; [|done].
  case_decide; simpl; [done|]. by rewrite Hg.
Qed.

Lemma targets_eq s s' c : info s' c = info s c -> targets s' c = targets s c.
Proof. unfold targets. by intros ->. Qed.

Lemma wire_app es es' : wire (es ++ es') = wire es ++ wire es'.
Proof. apply omap_app. Qed.

Lemma add_member c o i :
  add_recipient c (mkMember o (sendToList i)) = mkMember o (sendToList (sendToListAdd c i)).
Proof. unfold add_recipient, sendToListAdd. simpl. by case_decide. Qed.

Lemma sendTo_subscribeIdListAdd d i : sendToList (subscribeIdListAdd d i) = sendToList i.
Proof. unfold subscribeIdListAdd. by case_decide. Qed.

(** ** Lemmas: what links subscriptions and recipients *)

(** A recipient of a registered connection has subscribed to its id; only a
    registered connection, or one that is being closed, has recipients. *)
Record linked (s : p2pServer) : Prop := {
  k_sub a ia b ib : info s a = Some ia -> b ∈ sendToList ia -> deviceId ia <> deleted ->
                    info s b = Some ib -> deviceId ia ∈ subscribeIdList ib;
  k_open a ia : info s a = Some ia -> sendToList ia <> [] -> deviceId ia = deleted ->
                state_of s a <> Some kConnected
}.

Record good (s : p2pServer) : Prop := {
  g_inv : inv s;
  g_exact : exact s;
  g_linked : linked s
}.

(** An id stands for a connection exactly when the connection has the id. *)
Lemma good_owner s a ia d :
  good s -> info s a = Some ia -> _connections s !! d = Some a <-> (deviceId ia = d /\ d <> deleted).
Proof.
  intros [H Hex _] Ha. split.
  - intros Hd. destruct (Hex d a Hd) as (_ & Hne & Hdev). rewrite Ha in Hdev. simpl in Hdev. naive_solver.
  - intros [<- Hne]. by apply (i_self _ (inv_reg _ H)).
Qed.

(** Nothing but times, positions and buffers, and states of connections that do
    not become connected, is different. *)
Lemma linked_keep s s' :
  (forall c i', info s' c = Some i' -> exists i, info s c = Some i /\ deviceId i' = deviceId i /\
     sendToList i' = sendToList i /\ subscribeIdList i' = subscribeIdList i) ->
  (forall c, state_of s' c = Some kConnected -> state_of s c = Some kConnected) ->
  linked s -> linked s'.
Proof.
  intros Hi Hs [K1 K2]. split.
  - intros a ia b ib Ha Hb Hd Hib. destruct (Hi a ia Ha) as (ja & Hja & E1 & E2 & _).
    destruct (Hi b ib Hib) as (jb & Hjb & _ & _ & ->). rewrite E1 in *. rewrite E2 in *. by eapply K1.
  - intros a ia Ha Hne Hd Hk. destruct (Hi a ia Ha) as (ja & Hja & E1 & E2 & _).
    rewrite E1, E2 in *. eapply K2; eauto.
Qed.

Section simulation.
Context {host : Host} {lib : TcpLib} {libok : TcpLibOk}.

Lemma view_shut a s c :
  view (shut a s) c = if decide (c = a) then closing <$> view s a else view s c.
Proof.
  unfold view. rewrite state_of_shut. assert (targets (shut a s) c = targets s c) as ->.
  { apply targets_eq. unfold shut. by autorewrite with server. }
  case_decide; [subst|done]. destruct (state_of s a) as [st|]; simpl; [|done].
  pose proof (tcp_shutdown_closed st). pose proof (tcp_shutdown_not_connected st).
  repeat case_decide; tauto || (simpl; by rewrite bool_decide_eq_false_2).
Qed.

(** ** Lemmas: registration *)

Lemma abs_register c d s : abs (register_post c d s) = hub_register c d (abs s).
Proof.
  apply abs_eq.
  - intros x. unfold register_post, hub_register. rewrite registry_abs.
    destruct (_connections s !! d) as [old|]; [case_decide as Ho|]; cbn [members registry on_member].
    + rewrite view_upd_keep by done. by rewrite lookup_abs.
    + rewrite lookup_alter, !lookup_abs.
      change (view (set_connections ?m ?s)) with (view s). rewrite view_shut, !view_upd_keep by done.
      case_decide; case_decide; congruence.
    + change (view (set_connections ?m ?s)) with (view s). rewrite view_upd_keep by done. by rewrite lookup_abs.
  - rewrite connections_register. unfold hub_register. rewrite registry_abs. repeat case_match; done.
Qed.

Lemma state_register c d s x :
  state_of (register_post c d s) x = Some kConnected ->
  state_of s x = Some kConnected /\ (_connections s !! d = Some x -> x = c).
Proof.
  unfold register_post. destruct (_connections s !! d) as [old|]; [case_decide as Ho|].
  - rewrite state_of_upd. naive_solver.
  - change (state_of (set_connections ?m ?s)) with (state_of s). rewrite state_of_shut, !state_of_upd.
    case_decide as Hx; [|naive_solver]. intros (st & _ & E)%fmap_Some.
    by destruct (tcp_shutdown_not_connected st).
  - change (state_of (set_connections ?m ?s)) with (state_of s). rewrite state_of_upd. naive_solver.
Qed.

(** What politeness means for the connection that registers. *)
Lemma polite_disciplined s c m i :
  good s -> info s c = Some i -> polite (abs s) c m -> message_0 m = REGISTER_DEVICE ->
  message_tail m <> deleted /\ state_of s c = Some kConnected /\
  (deviceId i = deleted \/ deviceId i = message_tail m).
Proof.
  intros [H _ _] Hi Hp E. destruct (Hp E) as (Hd & Ho & Hone). split_and!; [done| |].
  - rewrite lookup_abs in Ho. unfold view in Ho. destruct (state_of s c) as [st|]; simpl in Ho; [|done].
    case_decide; simpl in Ho; [done|]. injection Ho as Ho%bool_decide_eq_true. by subst.
  - destruct (decide (deviceId i = deleted)) as [|Hne]; [by left|right].
    apply Hone. by apply (i_self _ (inv_reg _ H)).
Qed.

Lemma linked_register s c d i :
  good s -> info s c = Some i -> d <> deleted -> state_of s c = Some kConnected ->
  (deviceId i = deleted \/ deviceId i = d) -> linked (register_post c d s).
Proof.
  intros G Hi Hd Hst Hdev. pose proof (g_linked _ G) as [K1 K2].
  assert (deviceId i = deleted -> sendToList i = []) as Hnone.
  { intros E. destruct (sendToList i) as [|x l] eqn:Es; [done|]. exfalso.
    apply (K2 c i Hi); [by rewrite Es | done | done]. }
  split.
  - intros a ja b jb Ha Hb Hne Hjb.
    destruct (info_register c d s a ja Ha) as (ia & Hia & _ & E2 & Ea).
    destruct (info_register c d s b jb Hjb) as (ib & Hib & -> & _ & _). rewrite E2 in Hb.
    destruct Ea as [[-> Ea]|[(_ & _ & Ea)|(_ & _ & Ea)]]; rewrite Ea in *; [|done|by eapply K1].
    rewrite Hi in Hia. injection Hia as <-. destruct Hdev as [E|<-]; [|by eapply K1].
    rewrite (Hnone E) in Hb. set_solver.
  - intros a ja Ha Hb E Hk. destruct (info_register c d s a ja Ha) as (ia & Hia & _ & E2 & Ea).
    destruct (state_register c d s a Hk) as [Hk1 Hk2]. rewrite E2 in Hb.
    destruct Ea as [[-> Ea]|[(? & ? & _)|(_ & _ & Ea)]]; [congruence | naive_solver |].
    eapply K2; [exact Hia | done | congruence | done].
Qed.

(** ** Lemmas: subscriptions *)

Lemma abs_subscribe s c d i :
  good s -> info s c = Some i ->
  (subscribe_post c d s).1 = (hub_subscribe c d (abs s)).1 /\
  abs (subscribe_post c d s).2 = (hub_subscribe c d (abs s)).2.
Proof.
  intros G Hi. unfold subscribe_post, hub_subscribe. rewrite registry_abs, Hi.
  destruct (_connections s !! d) as [a|] eqn:E; [|done].
  destruct (i_map _ (inv_reg _ (g_inv _ G)) d a E) as [ia Ha].
  pose proof (proj1 (good_owner s a ia d G Ha) E) as [Hdev Hne].
  destruct (decide (a = c)) as [->|Hac].
  - rewrite Hi in Ha. injection Ha as <-. by rewrite decide_True.
  - rewrite decide_False.
    2: { intros ->. apply Hac. destruct (good_owner s c i (deviceId i) G Hi) as [_ H].
         specialize (H (conj eq_refl Hne)). congruence. }
    split; [done|]. apply abs_eq; [|done]. intros x. cbn [fst snd members on_member]. rewrite lookup_alter, !lookup_abs.
    rewrite (view_upd a _ (add_recipient c)).
    + rewrite !view_upd_keep by apply sendTo_subscribeIdListAdd. repeat case_decide; congruence.
    + intros. apply add_member.
    + rewrite info_upd_ne by done. eauto.
Qed.

Lemma elem_of_sendToListAdd c i x : x ∈ sendToList (sendToListAdd c i) <-> x ∈ sendToList i \/ x = c.
Proof. unfold sendToListAdd. case_decide; simpl; [naive_solver|]. rewrite elem_of_app. set_solver. Qed.
Lemma elem_of_subscribeIdListAdd d i e :
  e ∈ subscribeIdList (subscribeIdListAdd d i) <-> e ∈ subscribeIdList i \/ e = d.
Proof. unfold subscribeIdListAdd. case_decide; simpl; [naive_solver|]. rewrite elem_of_app. set_solver. Qed.

Lemma info_subscribed s a c d x j :
  info (upd a (sendToListAdd c) (upd c (subscribeIdListAdd d) s)) x = Some j ->
  exists i, info s x = Some i /\ deviceId j = deviceId i /\
    (forall e, e ∈ subscribeIdList j <-> e ∈ subscribeIdList i \/ (x = c /\ e = d)) /\
    (forall y, y ∈ sendToList j <-> y ∈ sendToList i \/ (x = a /\ y = c)).
Proof.
  assert (forall i, subscribeIdList (sendToListAdd c i) = subscribeIdList i) as Hs
    by (intros; unfold sendToListAdd; by case_decide).
  rewrite !info_upd. destruct (decide (x = a)) as [->|]; destruct (decide (_ = c)) as [->|]; simpl.
  - intros (? & (i & Hi & ->)%fmap_Some & ->)%fmap_Some. exists i.
    rewrite device_sendToListAdd, device_subscribeIdListAdd, Hs. split_and!; try done.
    + intros e. rewrite elem_of_subscribeIdListAdd. naive_solver.
    + intros y. rewrite elem_of_sendToListAdd, sendTo_subscribeIdListAdd. naive_solver.
  - intros (i & Hi & ->)%fmap_Some. exists i. rewrite device_sendToListAdd, Hs. split_and!; try done.
    + naive_solver.
    + intros y. rewrite elem_of_sendToListAdd. naive_solver.
  - intros (i & Hi & ->)%fmap_Some. exists i. rewrite device_subscribeIdListAdd, sendTo_subscribeIdListAdd.
    split_and!; try done.
    + intros e. rewrite elem_of_subscribeIdListAdd. naive_solver.
    + naive_solver.
  - intros Hi. exists j. naive_solver.
Qed.

Lemma linked_subscribe s c d : good s -> linked (subscribe_post c d s).2.
Proof.
  intros G. pose proof (g_linked _ G) as [K1 K2]. unfold subscribe_post.
  destruct (_connections s !! d) as [a|] eqn:E; [|done].
  destruct (info s c) as [ic|] eqn:Hc; [|done]. case_decide; [done|]. simpl. split.
  - intros x jx y jy Hx Hy Hd Hjy.
    destruct (info_subscribed s a c d x jx Hx) as (ix & Hix & E1 & _ & S1).
    destruct (info_subscribed s a c d y jy Hjy) as (iy & Hiy & _ & S2 & _).
    rewrite E1 in *. apply S2. destruct (proj1 (S1 y) Hy) as [Hy1|[Ex Ey]]; [left; by eapply K1|right].
    subst x y. split; [done|]. by apply (good_owner s a ix d G Hix).
  - intros x jx Hx Hy Hd. destruct (info_subscribed s a c d x jx Hx) as (ix & Hix & E1 & _ & S1).
    rewrite !state_of_upd. rewrite E1 in Hd. eapply K2; [done | | done]. intros En.
    destruct (sendToList jx) as [|y l] eqn:Ej; [done|].
    destruct (proj1 (S1 y)) as [Hin|[Ex _]]; [left | by rewrite En in Hin; apply elem_of_nil in Hin |].
    subst x. destruct (proj1 (good_owner s a ix d G Hix) E). congruence.
Qed.

(** ** Lemmas: the end of subscriptions *)

Lemma targets_unsub_target c d s a :
  targets (unsub_target c d s) a =
  if decide (_connections s !! d = Some a) then filter (.≠ c) (targets s a) else targets s a.
Proof.
  unfold unsub_target. destruct (_connections s !! d) as [u|]; [|by rewrite decide_False].
  rewrite targets_upd. destruct (decide (a = u)) as [->|].
  - rewrite decide_True by done. unfold targets. by destruct (info s u).
  - by rewrite decide_False by congruence.
Qed.

Lemma targets_step c d s a :
  targets (upd c (erase_sub d) (unsub_target c d s)) a =
  if decide (_connections s !! d = Some a) then filter (.≠ c) (targets s a) else targets s a.
Proof. rewrite targets_upd_keep by done. apply targets_unsub_target. Qed.

Definition leads (s : p2pServer) (ds : list device) (a : connid) : Prop :=
  Exists (fun d => _connections s !! d = Some a) ds.
#[local] Instance leads_dec s ds a : Decision (leads s ds a).
Proof. unfold leads. apply _. Defined.

Lemma targets_unsub_all c ds s a :
  targets (unsubscribe_all_post c ds s) a =
  if decide (leads s ds a) then filter (.≠ c) (targets s a) else targets s a.
Proof.
  revert s. induction ds as [|d ds IH]; intros s; simpl; [done|].
  rewrite IH, targets_step. set (s1 := upd c (erase_sub d) (unsub_target c d s)).
  assert (leads s1 ds a <-> leads s ds a) as H1.
  { unfold leads, s1. by rewrite (shrunk_connections _ _ (shrunk_unsubscribe_step c d s)). }
  assert (leads s (d :: ds) a <-> _connections s !! d = Some a \/ leads s ds a) as H2 by apply Exists_cons.
  repeat case_decide; try tauto. apply list_filter_filter_l. naive_solver.
Qed.

Lemma view_map s s' a (f : list connid -> list connid) (g : member -> member) :
  (forall m, g m = mkMember (m_open m) (f (m_recipients m))) ->
  state_of s' a = state_of s a -> targets s' a = f (targets s a) -> view s' a = g <$> view s a.
Proof.
  intros Hg Hs Ht. unfold view. rewrite Hs, Ht. destruct (state_of s a) as [st|]; simpl; [|done].
  case_decide; simpl; [done|]. by rewrite Hg.
Qed.

Lemma filter_absent (c : connid) (l : list connid) : c ∉ l -> filter (.≠ c) l = l.
Proof.
  induction l as [|x l IH]; intros Hc; [done|]. apply not_elem_of_cons in Hc as [? ?].
  rewrite filter_cons_True by done. by rewrite IH.
Qed.

(** Who has not subscribed to an id does not get the data of its owner. *)
Lemma not_subscribed s c i d a :
  good s -> info s c = Some i -> d ∉ subscribeIdList i -> _connections s !! d = Some a ->
  c ∉ targets s a.
Proof.
  intros G Hi Hd Ha Hin. destruct (i_map _ (inv_reg _ (g_inv _ G)) d a Ha) as [ia Hia].
  destruct (proj1 (good_owner s a ia d G Hia) Ha) as [E Hne]. unfold targets in Hin. rewrite Hia in Hin.
  apply Hd. rewrite <- E. eapply (k_sub _ (g_linked _ G)); eauto. by rewrite E.
Qed.

Lemma abs_unsubscribe s c d i :
  good s -> info s c = Some i -> abs (unsubscribe_post c d s) = hub_unsubscribe c d (abs s).
Proof.
  intros G Hi. pose proof (shrunk_unsubscribe c d s) as Hs. apply abs_eq.
  2: { rewrite (shrunk_connections _ _ Hs). unfold hub_unsubscribe. by case_match. }
  intros x. unfold hub_unsubscribe. rewrite registry_abs.
  assert (targets (unsubscribe_post c d s) x =
    if decide (_connections s !! d = Some x) then filter (.≠ c) (targets s x) else targets s x) as Ht.
  { unfold unsubscribe_post. rewrite Hi. case_decide; [apply targets_step|].
    case_decide; [|done]. symmetry. by eapply filter_absent, not_subscribed. }
  destruct (_connections s !! d) as [a|]; cbn [members on_member].
  - rewrite lookup_alter, !lookup_abs. destruct (decide (a = x)) as [<-|E].
    + rewrite decide_True in Ht by done.
      by apply (view_map s _ a (filter (.≠ c))); [|apply (shrunk_state _ _ Hs)|].
    + rewrite decide_False in Ht by congruence. apply view_ext; [apply (shrunk_state _ _ Hs) | done].
  - rewrite decide_False in Ht by done. rewrite lookup_abs.
    apply view_ext; [apply (shrunk_state _ _ Hs) | done].
Qed.

Lemma state_unregister c s x : state_of (unregister_post c s) x = state_of s x.
Proof.
  destruct (info s c) as [i|] eqn:Hi; [|unfold unregister_post; by rewrite Hi].
  destruct (unregister_post_cases c s i Hi) as (s1 & Hs & _ & ->).
  case_decide; rewrite ?state_of_upd; autorewrite with server; apply (shrunk_state _ _ Hs).
Qed.

Lemma targets_unregister c s i a :
  info s c = Some i ->
  targets (unregister_post c s) a =
  if decide (a = c) then []
  else if decide (leads s (subscribeIdList i) a) then filter (.≠ c) (targets s a) else targets s a.
Proof.
  intros Hi. unfold unregister_post. rewrite Hi.
  assert (targets (upd c sendToListClear (unsubscribe_all_post c (subscribeIdList i) s)) a =
    if decide (a = c) then []
    else if decide (leads s (subscribeIdList i) a) then filter (.≠ c) (targets s a) else targets s a) as E.
  { rewrite targets_upd, <- targets_unsub_all. case_decide; [|done]. unfold from_option. by case_match. }
  rewrite <- E. destruct (decide (deviceId i = deleted)); [done|].
  rewrite targets_upd_keep by done. by apply targets_eq.
Qed.

Lemma abs_unregister s c i :
  good s -> info s c = Some i -> abs (unregister_post c s) = hub_unregister c (abs s).
Proof.
  intros G Hi. apply abs_eq.
  - intros x. unfold hub_unregister. cbn [members]. rewrite map_lookup_imap, lookup_abs.
    pose proof (targets_unregister c s i x Hi) as Ht. pose proof (state_unregister c s x) as Hst.
    transitivity ((fun m => if decide (x = c) then no_recipients m
      else if decide (named (abs s) x) then drop_recipient c m else m) <$> view s x).
    2: { by destruct (view s x). }
    destruct (decide (x = c)) as [->|Hx].
    + by apply (view_map s _ c (fun _ => [])).
    + destruct (decide (named (abs s) x)) as [Hn|Hn].
      * apply (view_map s _ x (filter (.≠ c))); [done..|]. rewrite Ht. case_decide as Hl; [done|].
        symmetry. apply filter_absent. apply elem_of_map_img in Hn as [d Hd].
        eapply not_subscribed; [done | done | | exact Hd]. intros Hin. apply Hl.
        apply Exists_exists. eauto.
      * rewrite option_fmap_id. apply view_ext; [done|]. rewrite Ht. rewrite decide_False; [done|].
        intros (d & _ & Hd)%Exists_exists. apply Hn. apply elem_of_map_img. eauto.
  - destruct (unregister_effect c s i Hi) as (_ & -> & _). unfold hub_unregister. cbn [registry].
    rewrite registry_abs. apply map_eq. intros d. symmetry.
    pose proof (good_owner s c i d G Hi) as Ho.
    destruct (_connections s !! d) as [a|] eqn:E.
    + destruct (decide (a = c)) as [->|Ha].
      * destruct (proj1 Ho) as [<- Hne]; [done|]. rewrite decide_False by done.
        rewrite lookup_delete_eq. apply map_lookup_filter_None. right. intros x Hx. simpl.
        rewrite E in Hx. naive_solver.
      * transitivity (Some a).
        { apply map_lookup_filter_Some. naive_solver. }
        symmetry. case_decide; [done|]. rewrite lookup_delete_ne; [done|]. intros <-. naive_solver.
    + transitivity (None : option connid); [apply map_lookup_filter_None; by left|].
      symmetry. case_decide; [done|]. apply lookup_delete_None. by right.
Qed.

(** Removing subscriptions and recipients keeps the link, provided no recipient
    loses the subscription it is there for. *)
Lemma linked_shrunk s s' :
  good s -> shrunk s s' ->
  (forall d a b ib jb, _connections s !! d = Some a -> b ∈ targets s' a -> info s b = Some ib ->
     info s' b = Some jb -> d ∈ subscribeIdList ib -> d ∈ subscribeIdList jb) ->
  linked s'.
Proof.
  intros G Hs H. pose proof (g_linked _ G) as [K1 K2]. split.
  - intros a ja b jb Ha Hb Hd Hjb.
    destruct (shrunk_info_Some_inv _ _ _ _ Hs Ha) as (ia & Hia & Sa).
    destruct (shrunk_info_Some_inv _ _ _ _ Hs Hjb) as (ib & Hib & _).
    pose proof (sim_device _ _ Sa) as E. rewrite E in *.
    eapply (H (deviceId ia) a b ib jb); [| |done|done|].
    + by apply (i_self _ (inv_reg _ (g_inv _ G))).
    + unfold targets. by rewrite Ha.
    + eapply K1; [done | | done | done]. by eapply elem_of_sublist; [|apply (sim_send _ _ Sa)].
  - intros a ja Ha Hne Hd. destruct (shrunk_info_Some_inv _ _ _ _ Hs Ha) as (ia & Hia & Sa).
    rewrite (shrunk_state _ _ Hs). rewrite (sim_device _ _ Sa) in Hd. eapply K2; [done | | done].
    intros E. pose proof (sim_send _ _ Sa) as Hsub. rewrite E in Hsub. by apply sublist_nil_r in Hsub.
Qed.

Lemma elem_of_erase_first d e l : e <> d -> e ∈ l -> e ∈ erase_first d l.
Proof.
  intros Hne. induction l as [|x l IH]; simpl; [done|]. intros [->|?]%elem_of_cons.
  - rewrite decide_False by done. left.
  - case_decide; [done|]. right. auto.
Qed.

Lemma subscriptions_step c d s x :
  subscribeIdList <$> info (upd c (erase_sub d) (unsub_target c d s)) x =
  if decide (x = c) then erase_first d ∘ subscribeIdList <$> info s c else subscribeIdList <$> info s x.
Proof.
  rewrite info_upd. pose proof (subscriptions_unsub_target c d s) as H. case_decide as E; [subst x|apply H].
  specialize (H c). destruct (info (unsub_target c d s) c), (info s c); simpl in *; try done.
  injection H as H. by rewrite H.
Qed.

Lemma linked_unsubscribe s c d : good s -> linked (unsubscribe_post c d s).
Proof.
  intros G. apply (linked_shrunk s); [done | apply shrunk_unsubscribe |].
  intros e a b ib jb He Hb Hib Hjb Hin. unfold unsubscribe_post in *.
  destruct (info s c) as [i|] eqn:Hi; [|congruence]. case_decide; [|congruence].
  pose proof (subscriptions_step c d s b) as Hs. rewrite Hib, Hjb in Hs. simpl in Hs.
  destruct (decide (b = c)) as [->|]; [|by injection Hs as ->].
  rewrite Hib in Hi. injection Hi as ->. rewrite Hib in Hs. simpl in Hs. injection Hs as ->.
  apply elem_of_erase_first; [|done]. intros ->. rewrite targets_step, decide_True in Hb by done.
  apply list_elem_of_filter in Hb. naive_solver.
Qed.

Lemma subscriptions_all c ds s x :
  x <> c -> subscribeIdList <$> info (unsubscribe_all_post c ds s) x = subscribeIdList <$> info s x.
Proof.
  intros Hx. revert s. induction ds as [|d ds IH]; intros s; simpl; [done|].
  by rewrite IH, subscriptions_step, decide_False.
Qed.

Lemma linked_unregister s c i : good s -> info s c = Some i -> linked (unregister_post c s).
Proof.
  intros G Hi. set (s1 := unsubscribe_all_post c (subscribeIdList i) s).
  pose proof (shrunk_unsubscribe_all c (subscribeIdList i) s : shrunk s s1) as Hs1.
  assert (shrunk s (upd c sendToListClear s1)) as Hs2.
  { etrans; [exact Hs1|]. apply shrunk_upd, sim_sendToListClear. }
  assert (linked (upd c sendToListClear s1)) as K.
  { apply (linked_shrunk s); [done..|]. intros d a b ib jb Ha Hb Hib Hjb Hin.
    rewrite targets_upd in Hb. rewrite info_upd in Hjb.
    assert (b ∈ targets s1 a) as Hb1.
    { destruct (decide (a = c)); [|done]. destruct (info s1 c); by apply elem_of_nil in Hb. }
    unfold s1 in Hb1. rewrite targets_unsub_all in Hb1. destruct (decide (b = c)) as [->|Hbc].
    - rewrite Hi in Hib. injection Hib as <-. exfalso.
      rewrite decide_True in Hb1 by (apply Exists_exists; eauto).
      apply list_elem_of_filter in Hb1. naive_solver.
    - pose proof (subscriptions_all c (subscribeIdList i) s b Hbc) as E. fold s1 in E.
      rewrite Hib, Hjb in E. simpl in E. injection E as ->. done. }
  unfold unregister_post. rewrite Hi. fold s1. cbv zeta.
  destruct (decide (deviceId i = deleted)); [done|].
  destruct (unsubscribe_all_empty s c i Hi) as (i1 & Hi1 & _ & _). fold s1 in Hi1.
  set (s2 := upd c sendToListClear s1) in *.
  assert (info s2 c = Some (sendToListClear i1)) as Hc2 by (unfold s2; by rewrite info_upd_eq, Hi1).
  destruct K as [K1 K2]. split.
  - intros a ja b jb. rewrite !info_upd, !info_set_connections. case_decide; subst.
    + rewrite Hc2. intros [= <-]. by intros ?%elem_of_nil.
    + intros Ha Hb Hd. destruct (decide (b = c)) as [->|].
      * intros (ib & Hib & ->)%fmap_Some. by eapply (K1 a ja c ib).
      * by eapply K1.
  - intros a ja. rewrite info_upd, info_set_connections, state_of_upd, state_of_set_connections.
    case_decide; subst; [rewrite Hc2; by intros [= <-]|]. apply K2.
Qed.

(** ** Lemmas: one message *)

Lemma linked_heartbeat s c t : linked s -> linked (heartbeat_post c t s).
Proof.
  apply linked_keep.
  - intros x i'. unfold heartbeat_post. destruct (info s c); [|eauto 10]. unfold moved_end.
    rewrite info_set_connectionList, info_upd. case_decide; [subst|eauto 10].
    intros (i & ? & ->)%fmap_Some. eauto 10.
  - intros x. unfold heartbeat_post. case_match; [|done]. unfold moved_end.
    by rewrite state_of_set_connectionList, state_of_upd.
Qed.

Lemma linked_sent s c m : linked s -> linked (sent c m s).
Proof. intros [K1 K2]. by split. Qed.

Lemma good_message s c m t i :
  good s -> up s c -> info s c = Some i -> polite (abs s) c m -> good (message_post c m t s).
Proof.
  intros G Hup Hi Hp. pose proof (polite_disciplined s c m i G Hi Hp) as Hd. destruct G as [H Hex K].
  split.
  - by apply inv_message.
  - apply exact_message; [done | by eauto | | done]. intros E. rewrite Hi. simpl. destruct (Hd E) as (? & _ & [-> | ->]); auto.
  - assert (good s) as G by done. unfold message_post.
    destruct (Z.eqb_spec (message_0 m) REGISTER_DEVICE) as [E|_].
    { destruct (Hd E) as (? & ? & ?). apply linked_sent. by apply (linked_register s c _ i). }
    destruct (_ =? SUBSCRIBE_DEVICE).
    { pose proof (linked_subscribe s c (message_tail m) G). destruct (subscribe_post c _ s). by apply linked_sent. }
    destruct (_ =? SEND_DATA); [apply linked_sent; rewrite send_all_trace; by destruct K|].
    destruct (_ =? UNREGISTER_DEVICE); [by apply linked_sent, (linked_unregister s c i)|].
    destruct (_ =? UNSUBSCRIBE_DEVICE); [by apply linked_sent, linked_unsubscribe|].
    destruct (_ =? CHECK_DEVICE_ALIVE); [by apply linked_sent|].
    destruct (_ =? HEART_BEAT); [by apply linked_sent, linked_heartbeat | done].
Qed.

Lemma abs_heartbeat s c t : abs (heartbeat_post c t s) = abs s.
Proof.
  unfold heartbeat_post. case_match; [|done]. apply abs_eq; [|done]. intros x. rewrite lookup_abs.
  change (view (moved_end ?n ?s)) with (view s). by apply view_upd_keep.
Qed.

Lemma alive_abs s d :
  exact s -> alive d s = hub_alive d (abs s).
Proof.
  intros Hex. unfold alive, hub_alive. rewrite registry_abs.
  destruct (_connections s !! d) as [a|] eqn:E; cbn [mbind option_bind]; [|done].
  destruct (Hex d a E) as ((st & Hst & Hne) & _). rewrite lookup_abs. unfold view.
  rewrite Hst. simpl. rewrite (decide_False (P := st = kDisconnected)) by done. simpl.
  case_decide; case_bool_decide; congruence.
Qed.

Lemma sim_sent s c m h out :
  sim s (h, out) -> sim (sent c m s) (h, out ++ [(c, m)]).
Proof. intros [Ha Hw]. split; [done|]. simpl in *. by rewrite wire_app, Hw, fmap_app. Qed.

Lemma wire_all cs m :
  wire ((fun c => ESend c (encode m)) <$> cs) = framed <$> ((., m) <$> cs : list output).
Proof. induction cs as [|c cs IH]; simpl; [done|]. unfold wire in IH |- *. cbn. f_equal. exact IH. Qed.

Lemma wire_register s c d : wire (trace (register_post c d s)) = wire (trace s).
Proof.
  rewrite trace_register, wire_app. repeat case_match; simpl; by rewrite ?app_nil_r.
Qed.

Lemma sim_message s c m t i st :
  good s -> info s c = Some i -> up s c -> sim s st ->
  sim (message_post c m t s) (hub_do st (LMsg c m)).
Proof.
  destruct st as [h out]. intros G Hi Hup [Ha Hw]. cbn [fst snd] in Ha, Hw. subst h. cbn [hub_do].
  unfold message_post, hub_message.
  destruct (_ =? REGISTER_DEVICE).
  { apply sim_sent. split; [apply abs_register|]. by rewrite wire_register. }
  destruct (_ =? SUBSCRIBE_DEVICE).
  { destruct (abs_subscribe s c (message_tail m) i G Hi) as [E1 E2].
    pose proof (trace_subscribe c (message_tail m) s) as Htr.
    destruct (subscribe_post c _ s) as [r s'], (hub_subscribe c _ (abs s)) as [r' h']. simpl in *. subst.
    apply sim_sent. split; [done|]. simpl. by rewrite Htr. }
  destruct (_ =? SEND_DATA).
  { rewrite app_assoc. apply sim_sent. rewrite send_all_trace. split; [done|]. cbn [trace set_trace snd].
    rewrite wire_app, Hw, fmap_app. f_equal. rewrite wire_all. f_equal. f_equal.
    rewrite lookup_abs. unfold view. destruct Hup as (k & -> & Hk). simpl. by rewrite decide_False. }
  destruct (_ =? UNREGISTER_DEVICE).
  { apply sim_sent. split; [by apply (abs_unregister s c i)|]. simpl. by rewrite trace_unregister. }
  destruct (_ =? UNSUBSCRIBE_DEVICE).
  { apply sim_sent. split; [by apply (abs_unsubscribe s c _ i)|]. simpl.
    by rewrite (shrunk_trace _ _ (shrunk_unsubscribe c (message_tail m) s)). }
  destruct (_ =? CHECK_DEVICE_ALIVE).
  { rewrite <- alive_abs by apply G. by apply sim_sent. }
  destruct (_ =? HEART_BEAT).
  { apply sim_sent. split; [apply abs_heartbeat|]. simpl. by rewrite trace_heartbeat. }
  split; [done|]. simpl. by rewrite app_nil_r.
Qed.

(** ** Lemmas: the other events *)

Lemma sim_view s s' st :
  (forall c, view s' c = view s c) -> _connections s' = _connections s ->
  wire (trace s') = wire (trace s) -> sim s st -> sim s' st.
Proof.
  intros Hv Hc Hw [Ha Ht]. split; [|by rewrite Hw]. rewrite <- Ha. apply abs_eq; [|done].
  intros c. by rewrite lookup_abs.
Qed.

Lemma sim_shut s c st : sim s st -> sim (shut c s) (hub_do st (LClose c)).
Proof.
  destruct st as [h out]. intros [Ha Hw]. cbn [fst snd] in Ha, Hw. subst h. split.
  - apply abs_eq; [|done]. intros x. cbn [hub_do fst on_member members].
    rewrite lookup_alter, !lookup_abs, view_shut. repeat case_decide; congruence.
  - cbn [hub_do snd]. simpl in *. by rewrite wire_app, app_nil_r.
Qed.

(** Closing connections, any number of them. *)
Lemma hub_closes cs h out :
  exists mem, foldl hub_do (h, out) (LClose <$> cs) = (mkHub mem (registry h), out) /\
    forall c, mem !! c = if decide (c ∈ cs) then closing <$> members h !! c else members h !! c.
Proof.
  revert h. induction cs as [|a cs IH]; intros h; simpl.
  - exists (members h). by destruct h.
  - destruct (IH (on_member a closing h)) as (mem & E & Hm). exists mem. split; [done|].
    intros c. rewrite Hm. cbn [members on_member]. rewrite lookup_alter.
    destruct (decide (a = c)) as [<-|Hne].
    + rewrite (decide_True (P := a ∈ a :: cs)) by left. case_decide; [|done]. by destruct (members h !! a).
    + assert (c ∈ a :: cs <-> c ∈ cs) by set_solver. repeat case_decide; naive_solver.
Qed.

Lemma wire_closes cs : wire (concat ((fun c => [EShutdown c; EForceCloseWithDelay c]) <$> cs)) = [].
Proof. induction cs as [|c cs IH]; [done|]. exact IH. Qed.

Lemma connections_visits now l s : _connections (foldl (visit now) s l) = _connections s.
Proof.
  revert s. induction l as [|c l IH]; intros s; simpl; [done|].
  rewrite IH. unfold visit, expire. repeat case_match; done.
Qed.

Lemma sim_timed s now st :
  inv s -> sim s st ->
  sim (timed now s) (foldl hub_do st (LClose <$> victims now s (_connectionList s).*2)).
Proof.
  destruct st as [h out]. intros H [Ha Hw]. cbn [fst snd] in Ha, Hw. subst h. unfold timed, victims.
  set (l := prefix _ _). assert (NoDup l) as Hnd.
  { eapply sublist_NoDup; [apply list_conns_NoDup, H | apply prefix_sublist]. }
  destruct (visits_victims now l s Hnd) as (V1 & V2 & V3 & V4).
  destruct (visits_frame now l s) as (Ht & _ & F).
  destruct (hub_closes (List.filter (is_victim now s) l) (abs s) out) as (mem & -> & Hm). split.
  - apply abs_eq; cbn [fst members registry].
    2: { by rewrite connections_visits. }
    intros c. rewrite Hm, lookup_abs.
    assert (targets (foldl (visit now) s l) c = targets s c) as Htg.
    { unfold targets. destruct (decide (c ∈ l)) as [Hc|Hc]; [|by rewrite (proj1 (F c Hc))].
      rewrite (V4 c Hc). destruct (expired_at now s c); [done|]. by destruct (info s c). }
    case_decide as Hv.
    + apply elem_of_filter_bool in Hv as [Hv Hc]. specialize (V2 c Hc Hv). unfold view. rewrite Htg.
      apply andb_prop in Hv as [_ Hk%bool_decide_eq_true]. rewrite Hk. simpl.
      pose proof (tame_closed _ _ Ht c) as Hcl. rewrite Hk in Hcl.
      destruct (proj2 (tame_some _ _ Ht c)) as [k Hk']; [by rewrite Hk|]. rewrite Hk' in *. simpl.
      rewrite decide_False by naive_solver. by rewrite bool_decide_eq_false_2 by congruence.
    + apply view_ext; [|done]. destruct (is_victim now s c) eqn:Ev; [|by apply V3].
      apply F. intros Hc. apply Hv. by apply elem_of_filter_bool.
  - cbn [snd]. by rewrite V1, wire_app, wire_closes, app_nil_r.
Qed.

Lemma linked_timed s now : inv s -> linked s -> linked (timed now s).
Proof.
  intros H. unfold timed. set (l := prefix _ _). assert (NoDup l) as Hnd.
  { eapply sublist_NoDup; [apply list_conns_NoDup, H | apply prefix_sublist]. }
  destruct (visits_victims now l s Hnd) as (_ & V2 & V3 & V4).
  destruct (visits_frame now l s) as (_ & _ & F). apply linked_keep.
  - intros c i'. destruct (decide (c ∈ l)) as [Hc|Hc]; [|rewrite (proj1 (F c Hc)); eauto 10].
    rewrite (V4 c Hc). destruct (expired_at now s c); [eauto 10|]. intros (i & ? & ->)%fmap_Some. eauto 10.
  - intros c. destruct (is_victim now s c) eqn:Ev; [|by rewrite V3].
    destruct (decide (c ∈ l)) as [Hc|Hc]; [|by rewrite (proj2 (F c Hc))]. intros E. by destruct (V2 c Hc Ev).
Qed.

(** The state of the connection and its registrations do not interfere. *)
Lemma upd_upd_state a f b g s : upd a f (upd_state b g s) = upd_state b g (upd a f s).
Proof.
  unfold upd, upd_state, set_conns. simpl. f_equal. apply map_eq. intros c.
  rewrite !lookup_alter. repeat case_decide; subst; try done. by destruct (conns s !! _).
Qed.

Lemma unsubscribe_all_upd_state c ds b g s :
  unsubscribe_all_post c ds (upd_state b g s) = upd_state b g (unsubscribe_all_post c ds s).
Proof.
  revert s. induction ds as [|d ds IH]; intros s; simpl; [done|]. rewrite <- IH. f_equal.
  unfold unsub_target. simpl. case_match; by rewrite ?upd_upd_state.
Qed.

Lemma unregister_upd_state c b g s :
  unregister_post c (upd_state b g s) = upd_state b g (unregister_post c s).
Proof.
  unfold unregister_post. rewrite info_upd_state. destruct (info s c) as [i|]; [|done]. cbv zeta.
  rewrite unsubscribe_all_upd_state, upd_upd_state. case_decide; [done|].
  by rewrite <- (upd_upd_state c (set_deviceId deleted)).
Qed.

Lemma unregister_erased c n s : unregister_post c (erased n s) = erased n (unregister_post c s).
Proof.
  unfold unregister_post. change (info (erased n s) c) with (info s c). destruct (info s c) as [i|]; [|done].
  assert (forall ds s, unsubscribe_all_post c ds (erased n s) = erased n (unsubscribe_all_post c ds s)) as E.
  { induction ds as [|d ds IH]; intros s'; simpl; [done|]. rewrite <- IH. f_equal.
    unfold unsub_target. simpl. by case_match. }
  rewrite E. by case_decide.
Qed.

Lemma down_post_alt c s i :
  info s c = Some i ->
  down_post c s = erased (position i) (upd_state c (fun _ => kDisconnected) (unregister_post c s)).
Proof. intros Hi. unfold down_post. by rewrite Hi, unregister_erased, unregister_upd_state. Qed.

Lemma sim_down s c i st : good s -> info s c = Some i -> sim s st -> sim (down_post c s) (hub_do st (LDown c)).
Proof.
  destruct st as [h out]. intros G Hi [Ha Hw]. cbn [fst snd] in Ha, Hw. subst h.
  rewrite (down_post_alt c s i Hi). set (s1 := unregister_post c s).
  assert (abs s1 = hub_unregister c (abs s)) as E by by apply (abs_unregister s c i).
  cbn [hub_do]. rewrite <- E. split.
  - apply abs_eq; [|done]. intros x. cbn [fst members]. rewrite lookup_delete, lookup_abs.
    unfold view at 1. change (state_of (erased ?n ?s)) with (state_of s).
    rewrite state_of_upd_state. destruct (decide (c = x)) as [<-|Hne].
    + rewrite decide_True by done. by destruct (state_of s1 c).
    + rewrite decide_False by done. unfold view. apply option_bind_ext_fun. intros st. case_decide; [done|].
      do 2 f_equal. apply targets_eq. apply info_upd_state.
  - cbn [snd]. change (trace (erased _ _)) with (trace s1). unfold s1. by rewrite trace_unregister.
Qed.

Lemma linked_down s c i : good s -> info s c = Some i -> linked (down_post c s).
Proof.
  intros G Hi. rewrite (down_post_alt c s i Hi). eapply linked_keep; [| |by apply (linked_unregister s c i)].
  - intros x j. change (info (erased ?n ?s)) with (info s). rewrite info_upd_state. eauto 10.
  - intros x. change (state_of (erased ?n ?s)) with (state_of s). rewrite state_of_upd_state.
    case_decide; [|done]. by destruct (state_of _ c).
Qed.

Lemma sim_up s c b now st :
  sim s st -> conns s !! c = None -> sim (up_post c b now s) (hub_do st (LUp c)).
Proof.
  destruct st as [h out]. intros [Ha Hw] Hc. cbn [fst snd] in Ha, Hw. subst h. split; [|done].
  apply abs_eq; [|done]. intros x. cbn [hub_do fst members]. rewrite lookup_insert, lookup_abs.
  unfold view. rewrite state_of_up_post. unfold targets. rewrite info_up_post.
  destruct (decide (c = x)) as [<-|Hne]; [by rewrite !decide_True|]. by rewrite !decide_False.
Qed.

Lemma linked_up s c b now : inv s -> conns s !! c = None -> linked s -> linked (up_post c b now s).
Proof.
  intros H Hc [K1 K2]. destruct (info_fresh s c Hc) as [Hno _]. split.
  - intros x ix y iy. rewrite !info_up_post. destruct (decide (x = c)) as [->|].
    { intros [= <-]. by intros ?%elem_of_nil. }
    intros Hx Hy Hd. destruct (decide (y = c)) as [->|]; [|by eapply K1].
    destruct (i_send _ (inv_reg _ H) x ix c Hx Hy). congruence.
  - intros x ix. rewrite info_up_post, state_of_up_post. case_decide; [by intros [= <-]|]. apply K2.
Qed.

Lemma good_destroy s c : good s -> unreferenced s c -> good (ev_destroy c s).
Proof.
  intros [H Hex K] Hu. destruct Hu as (Hst & Hd & Hs) eqn:E. clear E. split.
  - by apply inv_destroy.
  - intros d x Hx. simpl in Hx. destruct (Hex d x Hx) as (U & Hne & Hdev).
    assert (x <> c) as Hxc by (intros ->; by apply (Hd d)).
    unfold up. rewrite state_of_destroy, info_destroy, !decide_False by done. done.
  - revert K. apply linked_keep.
    + intros x i'. rewrite info_destroy. case_decide; [done|]. eauto 10.
    + intros x. rewrite state_of_destroy. by case_decide.
Qed.

Lemma sim_destroy s c st : unreferenced s c -> sim s st -> sim (ev_destroy c s) st.
Proof.
  intros (Hst & _ & _). apply sim_view; [|done..]. intros x. unfold view, targets.
  rewrite state_of_destroy, info_destroy. case_decide; [subst x|done]. by rewrite Hst.
Qed.

Lemma sim_set_buf s c b st : sim s st -> sim (set_buf c b s) st.
Proof.
  apply sim_view; [|done..]. intros x. apply view_ext; [apply state_of_set_buf|].
  apply targets_eq, info_set_buf.
Qed.

Lemma good_set_buf s c b k : good s -> rep b k -> bytes k -> good (set_buf c b s).
Proof.
  intros [H Hex K] Hr Hb. split.
  - by apply (inv_set_buf c b k).
  - revert Hex. apply exact_keep; [done| |].
    + intros x. by rewrite info_set_buf.
    + intros x. unfold up. by rewrite state_of_set_buf.
  - revert K. apply linked_keep.
    + intros x i. rewrite info_set_buf. eauto 10.
    + intros x. by rewrite state_of_set_buf.
Qed.

Lemma good_shut s c : good s -> good (shut c s).
Proof.
  intros [H Hex K]. pose proof (tame_shut c s) as Ht.
  assert (forall x, info (shut c s) x = info s x) as Hi by (intros; unfold shut; by autorewrite with server).
  split.
  - destruct H as [R L B]. split; [|by eapply tame_list_inv|by eapply buf_inv_tame].
    eapply reg_inv_same; [.. | exact R]; try done. intros x. rewrite state_of_shut.
    case_decide; [subst|done]. by rewrite fmap_is_Some.
  - revert Hex. apply exact_keep; [done | intros x; by rewrite Hi |].
    intros x. by apply (tame_up _ _ _ Ht).
  - revert K. apply linked_keep; [intros x i; rewrite Hi; eauto 10|].
    intros x. rewrite state_of_shut. case_decide; [subst|done].
    intros (k & _ & E)%fmap_Some. by destruct (tcp_shutdown_not_connected k).
Qed.

(** The messages of a chunk, one after the other. *)
Lemma sim_deliver tid c t ms : forall s s' st,
  good s -> up s c -> Forall (fun m => zlen m <= max_message) ms ->
  politely st.1 c ms -> sim s st -> deliver (server_callback tid c t) s ms = Ok s' ->
  good s' /\ up s' c /\ sim s' (foldl hub_do st (LMsg c <$> ms)).
Proof.
  induction ms as [|m ms IH]; intros s s' st G Hup Hms Hp Hs Hrun; cbn [deliver] in Hrun.
  { by injection Hrun as <-. }
  apply Forall_cons in Hms as [Hm Hms]. unfold server_callback at 1 in Hrun. unfold max_message in *.
  destruct (onMessage_outcome tid c m t s (g_inv _ G) Hup ltac:(lia)) as [E|(E & _)];
    rewrite E in Hrun; cbn [res_bind res_map snd] in Hrun; [|done].
  destruct (inv_info s c (g_inv _ G) Hup) as [i Hi]. destruct Hp as [Hp1 Hp2].
  rewrite <- (proj1 Hs) in Hp1.
  eapply (IH (message_post c m t s)); [ | | done | | by eapply sim_message | exact Hrun].
  - by eapply good_message.
  - by apply (tame_up _ _ _ (tame_message c m t s)).
  - destruct st as [h out]. simpl in *. by destruct (hub_message c m h).
Qed.

Lemma sim_data tid s c t b k bs ms rest (bad : bool) s' st :
  good s -> up s c -> bytes bs -> buf_of s c = Some b -> rep b k -> writerIndex_ b + zlen bs <= max_size ->
  decodes (k ++ bs) ms rest bad -> politely st.1 c ms -> sim s st ->
  ev_data tid c bs t s = Ok (tt, s') ->
  good s' /\ sim s' (foldl hub_do st ((LMsg c <$> ms) ++ (if bad then [LClose c] else []))).
Proof.
  intros G Hup Hbs Hb Hk Hmax Hd Hp Hs Hrun.
  destruct (ev_data_split tid c b k bs t s ms rest bad s' (g_inv _ G) Hup Hbs Hb Hk Hmax Hd Hrun)
    as (b1 & s2 & b2 & Hb1 & Hall & Edel & _ & _ & Hr & ->).
  pose proof (decodes_bytes _ _ _ _ Hd Hall) as Hrest. rewrite foldl_app.
  destruct (sim_deliver tid c t ms (set_buf c b1 s) s2 st) as (G2 & _ & Hs2); try done.
  - by apply (good_set_buf s c b1 (k ++ bs)).
  - unfold up. by rewrite state_of_set_buf.
  - by eapply decodes_small.
  - by apply sim_set_buf.
  - destruct bad.
    + split; [apply (good_set_buf _ c b2 rest); auto using good_shut | by apply sim_set_buf, sim_shut].
    + split; [by apply (good_set_buf _ c b2 rest) | by apply sim_set_buf].
Qed.

Lemma good_new idle : good (new_p2pServer idle).
Proof.
  split; [apply inv_new | intros d c Hd; simpl in Hd; by rewrite lookup_empty in Hd |].
  split; intros a ia; unfold info; simpl; by rewrite lookup_empty.
Qed.

(** ** Runs of the server with polite clients *)

Context (tid idle : Z).

(** [served ls s]: the server reaches [s]; [ls] is what happened to the hub.  A
    chunk of bytes counts as the messages that are complete with it. *)
Inductive served : list label -> p2pServer -> Prop :=
  | served_new : served [] (new_p2pServer idle)
  | served_up ls s c now s' :
      served ls s -> conns s !! c = None -> ev_up tid c now s = Ok (tt, s') ->
      served (ls ++ [LUp c]) s'
  | served_data ls s c b k bs t ms rest (bad : bool) s' :
      served ls s -> up s c -> bytes bs -> buf_of s c = Some b -> rep b k ->
      writerIndex_ b + zlen bs <= max_size ->
      decodes (k ++ bs) ms rest bad -> politely (hub_run ls).1 c ms ->
      ev_data tid c bs t s = Ok (tt, s') ->
      served (ls ++ (LMsg c <$> ms) ++ (if bad then [LClose c] else [])) s'
  | served_down ls s c now s' :
      served ls s -> up s c -> ev_down tid c now s = Ok (tt, s') -> served (ls ++ [LDown c]) s'
  | served_timer ls s now s' :
      served ls s -> onTimer now s = Ok (tt, s') ->
      served (ls ++ (LClose <$> victims now s (_connectionList s).*2)) s'
  | served_destroy ls s c :
      served ls s -> unreferenced s c -> served ls (ev_destroy c s).

Lemma served_good ls s : served ls s -> good s /\ sim s (hub_run ls).
Proof.
  unfold hub_run. induction 1 as [|ls s c now s' _ [G S] Hc E|ls s c b k bs t ms rest bad s' _ [G S] Hup Hbs Hb Hk Hmax Hd Hp E
    |ls s c now s' _ [G S] Hup E|ls s now s' _ [G S] E|ls s c _ [G S] Hu]; rewrite ?foldl_app.
  - split; [apply good_new | done].
  - destruct (ev_up_run tid c now s) as (b & Eb & Hb). rewrite Eb in E. injection E as <-.
    split; [|by apply sim_up]. destruct G as [H Hex K]. split.
    + eapply inv_step; [by eapply step_up | done].
    + intros d x Hx. destruct (Hex d x Hx) as (U & ? & ?).
      assert (x <> c) by (intros ->; destruct U as (? & E' & _); unfold state_of in E'; by rewrite Hc in E').
      unfold up. rewrite state_of_up_post, info_up_post, !decide_False by done. done.
    + by apply linked_up.
  - rewrite <- foldl_app. by apply (sim_data tid s c t b k bs ms rest bad).
  - destruct (inv_info s c (g_inv _ G) Hup) as [i Hi]. rewrite ev_down_run in E by (done || apply G).
    injection E as <-. split; [|by apply (sim_down s c i)]. destruct G as [H Hex K].
    split; [by apply inv_down | by apply exact_down | by apply (linked_down s c i)].
  - rewrite onTimer_run in E by apply G. injection E as <-. destruct G as [H Hex K].
    split; [split; [by apply inv_timed | by apply exact_timed | by apply linked_timed] | by apply sim_timed].
  - split; [by apply good_destroy | by apply sim_destroy].
Qed.

(** C8: with polite clients the server implements the hub: after every run the
    members, their recipients and the ids are those of the hub, and what the server
    has put on the connections is, message by message, what the hub sends. *)
Theorem server_implements_hub (ls : list label) (s : p2pServer) :
  served ls s -> abs s = (hub_run ls).1 /\ wire (trace s) = framed <$> (hub_run ls).2.
Proof. intros H. apply (served_good ls s H). Qed.

(** C29: with polite clients, which register under one id at a time and not under
    the reserved one, the registry is exact in every state the server reaches, from
    its start on, whatever connections come and go, data arrives in any pieces and
    with any headers, and the timer closes: an id is in the map exactly when a
    connection holds it, it leads to this connection, the only one that holds it,
    and the connection is not closed. *)
Theorem registry_exact (ls : list label) (s : p2pServer) :
  served ls s ->
  (forall d c, _connections s !! d = Some c <->
     d <> deleted /\ exists i, info s c = Some i /\ deviceId i = d) /\
  (forall c c' i i', info s c = Some i -> info s c' = Some i' -> deviceId i = deviceId i' ->
     deviceId i <> deleted -> c = c') /\
  (forall d c, _connections s !! d = Some c -> up s c).
Proof.
  intros [[H Hex _] _]%served_good. pose proof (i_self _ (inv_reg _ H)) as Hself. split_and!.
  - intros d c. split; [|intros (Hd & i & Hi & <-); by apply Hself].
    intros Hd. destruct (Hex d c Hd) as (_ & ? & Hi). apply fmap_Some in Hi as (i & ? & ->). eauto.
  - intros c c' i i' Hi Hi' E Hd. pose proof (Hself c i Hi Hd) as E1. rewrite E in E1, Hd.
    pose proof (Hself c' i' Hi' Hd). congruence.
  - intros d c Hd. by apply (Hex d c).
Qed.

End simulation.

(** ** The theorem at a concrete run *)

Section frames.
Context {host : Host} {lib : TcpLib} {libok : TcpLibOk} (tid idle : Z).

(** A whole frame arrives at an empty buffer. *)
Lemma served_frame ls s c m t s' :
  served tid idle ls s ->
  up_b s c && bool_decide (bytes (encode m)) && (zlen m <=? max_message) &&
    from_option (fun b => bool_decide (content b = []) && (writerIndex_ b + zlen (encode m) <=? max_size))
      false (buf_of s c) = true ->
  polite (hub_run ls).1 c m -> ev_data tid c (encode m) t s = Ok (tt, s') ->
  served tid idle (ls ++ [LMsg c m]) s'.
Proof.
  intros H [[[Hup%up_b_spec Hm%bool_decide_eq_true]%andb_prop Hlen%Z.leb_le]%andb_prop Hb]%andb_prop Hp Hrun.
  destruct (buf_of s c) as [b|] eqn:Eb; simpl in Hb; [|done].
  apply andb_prop in Hb as [Hc%bool_decide_eq_true Hmax%Z.leb_le].
  destruct (inv_buf _ (g_inv _ (proj1 (served_good tid idle ls s H))) c b Eb) as (k & Hk & _).
  rewrite (proj2 (rep_wf _ _ Hk)) in Hc. subst k.
  apply (served_data tid idle ls s c b [] (encode m) t [m] [] false s'); try done.
  pose proof (decodes_encode m [] [] [] false Hlen) as Hd. rewrite app_nil_r in Hd.
  apply Hd. by apply decodes_short.
Qed.

End frames.

#[local] Existing Instance demo_host.
#[local] Existing Instance demo_lib.
#[local] Existing Instance demo_lib_ok.

(** Two devices, a subscription, and data. *)
Definition hub_demo (n : nat) : p2pServer :=
  demo_run (take n [EvUp 1 (sec 1); EvUp 2 (sec 1); EvData 1 (frame REGISTER_DEVICE "a") (sec 1);
                    EvData 2 (frame SUBSCRIBE_DEVICE "a") (sec 2); EvData 1 (frame SEND_DATA "hi") (sec 3)]).

Lemma polite_b h c m : (message_0 m =? REGISTER_DEVICE) = false -> polite h c m.
Proof. intros H E. apply Z.eqb_neq in H. congruence. Qed.

Lemma hub_demo_served :
  served 1 10 [LUp 1; LUp 2; LMsg 1 (msg REGISTER_DEVICE "a"); LMsg 2 (msg SUBSCRIBE_DEVICE "a");
               LMsg 1 (msg SEND_DATA "hi")] (hub_demo 5).
Proof.
  apply (served_frame 1 10 [LUp 1; LUp 2; LMsg 1 (msg REGISTER_DEVICE "a"); LMsg 2 (msg SUBSCRIBE_DEVICE "a")]
    (hub_demo 4) 1 (msg SEND_DATA "hi") (sec 3)); [|vm_compute; reflexivity|by apply polite_b|vm_compute; reflexivity].
  apply (served_frame 1 10 [LUp 1; LUp 2; LMsg 1 (msg REGISTER_DEVICE "a")]
    (hub_demo 3) 2 (msg SUBSCRIBE_DEVICE "a") (sec 2)); [|vm_compute; reflexivity|by apply polite_b|vm_compute; reflexivity].
  apply (served_frame 1 10 [LUp 1; LUp 2] (hub_demo 2) 1 (msg REGISTER_DEVICE "a") (sec 1));
    [|vm_compute; reflexivity| |vm_compute; reflexivity].
  2: { intros _. split_and!; [vm_compute; discriminate | vm_compute; reflexivity |].
       intros d Hd. assert (registry (hub_run [LUp 1; LUp 2]).1 = ∅) as E by (vm_compute; reflexivity).
       by rewrite E, lookup_empty in Hd. }
  apply (served_up 1 10 [LUp 1] (hub_demo 1) 2 (sec 1)); [|vm_compute; reflexivity..].
  apply (served_up 1 10 [] (hub_demo 0) 1 (sec 1)); [apply served_new | vm_compute; reflexivity..].
Qed.

Lemma server_implements_hub_witness :
  registry (abs (hub_demo 5)) !! chars "a" = Some 1%nat /\
  wire (trace (hub_demo 5)) = framed <$> [(1%nat, [129; 1]); (2%nat, [130; 1]); (2%nat, msg SEND_DATA "hi"); (1%nat, [131; 1])].
Proof.
  destruct (server_implements_hub 1 10 _ _ hub_demo_served) as [-> ->]. split; vm_compute; reflexivity.
Defined.

Lemma registry_exact_witness :
  _connections (hub_demo 5) !! chars "a" = Some 1%nat /\ up (hub_demo 5) 1 /\
  exists i, info (hub_demo 5) 1 = Some i /\ deviceId i = chars "a".
Proof.
  destruct (registry_exact 1 10 _ _ hub_demo_served) as (H1 & _ & H3).
  assert (_connections (hub_demo 5) !! chars "a" = Some 1%nat) as E by (vm_compute; reflexivity).
  split_and!; [exact E | apply (H3 _ _ E) | apply (H1 _ _), E].
Defined.
