(* ===== verification/TimerRace.v ===== *)
(** * The timer beside the connections (p2pServer/p2pServer.cc)

    [start] calls [setThreadNum(1)]: the callbacks of the connections run in one
    thread, [onTimer] in another, and [onTimer] walks over [_connectionList]
    without the mutex.  Here one turn of its loop ([timer_turn] of Server.v) is one
    step, between two of which any callbacks of the connections happen.

    The walk stays sound as long as the connection it has arrived at does not go
    down ([timer_walk_safe]); if it does, the next turn uses an erased iterator
    ([timer_race]). *)

From S2P Require Import Prelude Endian StringPiece Buffer Codec Muduo Server ServerSpec ServerInv ServerProps.

(** ** Callbacks between the turns *)

Section interleaving.
Context {host : Host} {lib : TcpLib} {libok : TcpLibOk} (tid : Z).

(** The server, and the iterator of [onTimer] while it runs, with the time it
    was started with. *)
Record walking := mkWalking { w_server : p2pServer; w_it : option (Timestamp * nat) }.

(** The iterator is at the node of the connection. *)
Definition at_conn (w : walking) (c : connid) : Prop :=
  exists now n, w_it w = Some (now, n) /\ (n, c) ∈ _connectionList (w_server w).

(** A turn of the timer, or a callback of a connection. *)
Inductive wstep : walking -> walking -> Prop :=
  | w_start s now :
      wstep (mkWalking s None) (mkWalking s ((now,.) <$> list_begin (_connectionList s)))
  | w_turn s now n it s' :
      timer_turn now n s = Ok (it, s') ->
      wstep (mkWalking s (Some (now, n))) (mkWalking s' ((now,.) <$> it))
  | w_up s it c now s' :
      conns s !! c = None -> ev_up tid c now s = Ok (tt, s') -> wstep (mkWalking s it) (mkWalking s' it)
  | w_data s it c b bs t s' :
      up s c -> bytes bs -> buf_of s c = Some b -> writerIndex_ b + zlen bs <= max_size ->
      ev_data tid c bs t s = Ok (tt, s') -> wstep (mkWalking s it) (mkWalking s' it)
  | w_down s it c now s' :
      up s c -> ~ at_conn (mkWalking s it) c -> ev_down tid c now s = Ok (tt, s') ->
      wstep (mkWalking s it) (mkWalking s' it)
  | w_destroy s it c :
      unreferenced s c -> wstep (mkWalking s it) (mkWalking (ev_destroy c s) it).

Definition walk_inv (w : walking) : Prop :=
  inv (w_server w) /\
  forall now n, w_it w = Some (now, n) -> n ∈ (_connectionList (w_server w)).*1.

Lemma from_head n (l : list (nat * connid)) :
  n ∈ l.*1 -> exists c d t, l = d ++ (n, c) :: t /\ from n l = (n, c) :: t.
Proof.
  induction l as [|[m c] l IH]; simpl; [by intros ?%elem_of_nil|]. intros Hn.
  destruct (decide (m = n)) as [->|Hne].
  - by exists c, [], l.
  - apply elem_of_cons in Hn as [?|Hn]; [done|]. destruct (IH Hn) as (c' & d & t & -> & E).
    by exists c', ((m, c) :: d), t.
Qed.

(** A turn at a node of the list succeeds; afterwards the iterator is at the next
    node, or the loop has been left. *)
Lemma timer_turn_run now n s :
  inv s -> n ∈ (_connectionList s).*1 ->
  exists it s', timer_turn now n s = Ok (it, s') /\ inv s' /\ _connectionList s' = _connectionList s /\
    (it = None \/ it = list_begin (tail (from n (_connectionList s)))).
Proof.
  intros H Hn. destruct (from_head n _ Hn) as (c & d & t & El & Ef).
  assert (NoDup (d ++ (n, c) :: t).*1) as Hnd by (rewrite <- El; apply (l_nodup _ (inv_list _ H))).
  destruct (l_node _ (inv_list _ H) n c) as ((i & Hi & _) & _).
  { rewrite El. apply elem_of_app. right. left. }
  eexists _, _. split; [by apply (timer_turn_at now n c i d t s)|]. rewrite Ef. simpl.
  pose proof (tame_turn now c i s) as Ht. split_and!; [|apply list_turn | case_match; auto].
  destruct H as [R L B]. split; [|by eapply tame_list_inv | by eapply buf_inv_tame].
  assert (turn_post now c i s = visit now s c \/ turn_post now c i s = s) as [-> | ->]; [|by apply reg_inv_visit | done].
  unfold turn_post, visit, expired_at. rewrite Hi. simpl. repeat case_match; auto.
Qed.

Lemma list_begin_in (d t : list (nat * connid)) x n : list_begin t = Some n -> n ∈ (d ++ x :: t).*1.
Proof.
  intros E. destruct t as [|y t]; simpl in E; [done|]. injection E as <-.
  rewrite fmap_app. apply elem_of_app. right. right. left.
Qed.

Lemma walk_inv_step w w' : wstep w w' -> walk_inv w -> walk_inv w'.
Proof.
  intros Hst [H Hit]. destruct Hst as [s now|s now n it s' E|s it c now s' Hc E
    |s it c b bs t s' Hup Hbs Hb Hsz E|s it c now s' Hup Hnot E|s it c Hu]; simpl in *.
  - split; [done|]. intros now' n E. apply fmap_Some in E as (m & E & [= -> ->]). simpl.
    destruct (_connectionList s) as [|x l]; simpl in *; [done|]. injection E as <-. left.
  - destruct (timer_turn_run now n s H (Hit now n eq_refl)) as (it' & s1 & E1 & H1 & Hl & Hor).
    rewrite E1 in E. injection E as <- <-. split; [done|]. simpl. rewrite Hl. intros now' m Em.
    apply fmap_Some in Em as (m' & Em & [= -> ->]). destruct Hor as [-> | ->]; [done|].
    destruct (from_head n _ (Hit now n eq_refl)) as (c & d & t & El & Ef). rewrite Ef in Em. simpl in Em.
    rewrite El. by apply list_begin_in.
  - split; [eapply (inv_step tid); [by eapply step_up | done]|]. simpl. intros now' n En.
    destruct (ev_up_run tid c now s) as (b & Eb & _). rewrite Eb in E. injection E as <-. simpl.
    rewrite fmap_app. apply elem_of_app. left. eauto.
  - pose proof (ev_data_inv tid c b bs t s H Hup Hbs Hb Hsz) as Hd. rewrite E in Hd.
    destruct Hd as [Hi Hp]. split; [done|]. simpl. intros now' n En. rewrite Hp. eauto.
  - split; [eapply (inv_step tid); [by eapply step_down | done]|]. simpl. intros now' n En.
    rewrite ev_down_run in E by done. injection E as <-. destruct (inv_info s c H Hup) as [i Hi].
    unfold down_post. rewrite Hi. set (s1 := erased _ _).
    rewrite (tame_list _ _ (tame_unregister c s1)). unfold s1. simpl.
    specialize (Hit now' n En). apply list_elem_of_fmap in Hit as ([m x] & Em & Hm). simpl in Em. subst m.
    apply list_elem_of_fmap. exists (n, x). split; [done|]. apply list_elem_of_filter. split; [|done]. simpl.
    intros ->. apply Hnot. exists now', (position i). split; [done|]. by apply (l_up _ (inv_list _ H)).
  - split; [by apply inv_destroy | done].
Qed.

End interleaving.

(** ** Properties *)

Section properties.
Context {host : Host} {lib : TcpLib} {libok : TcpLibOk} (tid idle : Z).

(** C27: in every interleaving of the turns of the timer with callbacks of the
    connections, in which the connection the timer has arrived at does not go
    down, the invariant of the server holds after every step, the next turn of the
    timer succeeds, and so does the closing of any connection. *)
Theorem timer_walk_safe (s : p2pServer) (w : walking) :
  reachable tid idle s -> rtc (wstep tid) (mkWalking s None) w ->
  inv (w_server w) /\
  (forall now n, w_it w = Some (now, n) -> exists it s', timer_turn now n (w_server w) = Ok (it, s')) /\
  (forall c now, up (w_server w) c -> exists s', ev_down tid c now (w_server w) = Ok (tt, s')).
Proof.
  intros H%inv_reachable Hw.
  assert (walk_inv w) as [Hi Hit].
  { assert (walk_inv (mkWalking s None)) as H0 by done. revert H0. clear H.
    induction Hw; eauto using walk_inv_step. }
  split_and!; [done | | eauto using ev_down_run].
  intros now n En. destruct (timer_turn_run now n _ Hi (Hit now n En)) as (it & s' & E & _). eauto.
Qed.

End properties.

#[local] Existing Instance demo_host.
#[local] Existing Instance demo_lib.
#[local] Existing Instance demo_lib_ok.

(** Two idle connections; the timer has closed the first one and has arrived at
    the second one, which then goes down. *)
Definition race_turned : p2pServer :=
  match timer_turn (sec 20) 0 demo with Ok (_, s) => s | Err _ => demo end.
Definition race_down : p2pServer :=
  match ev_down 1 2 (sec 20) race_turned with Ok (_, s) => s | Err _ => demo end.

(** When the connection the timer has arrived at goes down between two turns,
    the next turn uses the iterator of an erased node. *)
Lemma timer_race :
  reachable 1 10 demo /\
  timer_turn (sec 20) 0 demo = Ok (Some 1%nat, race_turned) /\
  (1%nat, 2%nat) ∈ _connectionList race_turned /\
  ev_down 1 2 (sec 20) race_turned = Ok (tt, race_down) /\
  timer_turn (sec 20) 1 race_down = Err InvalidIterator.
Proof.
  split; [exact demo_reachable|]. split; [vm_compute; reflexivity|].
  split; [|split; vm_compute; reflexivity].
  assert (_connectionList race_turned = [(0%nat, 1%nat); (1%nat, 2%nat)]) as -> by (vm_compute; reflexivity).
  right. left.
Qed.

(** The timer starts, the first device beats, the timer goes on. *)
Lemma timer_walk_safe_witness :
  exists s1 n, ev_data 1 1 (frame HEART_BEAT "") (sec 20) demo = Ok (tt, s1) /\
    exists it s2, timer_turn (sec 20) n s1 = Ok (it, s2).
Proof.
  destruct (ev_data 1 1 (frame HEART_BEAT "") (sec 20) demo) as [[[] s1]|e] eqn:E;
    [|exfalso; apply (f_equal is_ok) in E; vm_compute in E; discriminate E].
  destruct (buf_of demo 1) as [b|] eqn:Eb; [|exfalso; vm_compute in Eb; discriminate Eb].
  destruct (timer_walk_safe 1 10 demo (mkWalking s1 (Some (sec 20, 0%nat))) demo_reachable) as (_ & H & _).
  - eapply rtc_l; [exact (w_start 1 demo (sec 20))|].
    eapply rtc_l; [|apply rtc_refl]. apply (w_data 1 demo _ 1 b (frame HEART_BEAT "") (sec 20) s1).
    + apply up_b_spec. vm_compute. reflexivity.
    + apply (bool_decide_eq_true_1 (bytes (frame HEART_BEAT ""))). vm_compute. reflexivity.
    + exact Eb.
    + assert (from_option (fun b => writerIndex_ b + zlen (frame HEART_BEAT "") <=? max_size) false
        (buf_of demo 1) = true) as Ew by (vm_compute; reflexivity). rewrite Eb in Ew. by apply Z.leb_le.
    + exact E.
  - exists s1, 0%nat. split; [reflexivity|]. exact (H (sec 20) 0%nat eq_refl).
Defined.
