(* ===== verification/RecvFifo.v ===== *)
(** * The receive buffer of the client (API/C/netWork.h)

    [net_work_recv_data_fifo_t] is a circular array of 8192 bytes.  Its functions
    do not check that there is room or that there is data: the counter [length]
    is what the callers look at.  [fifo_rep] relates it to the bytes it holds. *)

From S2P Require Import Prelude Ring.

Definition NET_READ_DATA_LENGTH : Z := 8192.

Record net_work_recv_data_fifo_t := mkRecvFifo {
  rf_data : list Z;
  rf_r_ptr : Z;
  rf_w_ptr : Z;
  rf_length : Z
}.

(** The memory of the structure, before [recv_data_fifo_init]: [calloc]. *)
Definition recv_fifo_zero : net_work_recv_data_fifo_t :=
  mkRecvFifo (replicate (Z.to_nat NET_READ_DATA_LENGTH) 0) 0 0 0.

Definition recv_data_fifo_init (fifo : net_work_recv_data_fifo_t) : net_work_recv_data_fifo_t :=
  mkRecvFifo (rf_data fifo) 0 0 0.

Fixpoint recv_data_fifo_push_loop (n : nat) (i : Z) (src : list Z)
    (fifo : net_work_recv_data_fifo_t) : res net_work_recv_data_fifo_t :=
  match n with
  | O => Ok fifo
  | S n =>
      let* b := get_at src i in
      let* d := set_at (rf_data fifo) (rf_w_ptr fifo) b in
      let w := advance NET_READ_DATA_LENGTH (rf_w_ptr fifo) in
      recv_data_fifo_push_loop n (i + 1) src (mkRecvFifo d (rf_r_ptr fifo) w (rf_length fifo))
  end.

Definition recv_data_fifo_push (fifo : net_work_recv_data_fifo_t) (src : list Z) (len : Z) :
    res net_work_recv_data_fifo_t :=
  let* fifo := recv_data_fifo_push_loop (Z.to_nat len) 0 src fifo in
  let* l := add32 (rf_length fifo) len in
  Ok (mkRecvFifo (rf_data fifo) (rf_r_ptr fifo) (rf_w_ptr fifo) l).

Definition recv_data_fifo_empty (fifo : net_work_recv_data_fifo_t) : bool := rf_length fifo =? 0.
Definition recv_data_fifo_length (fifo : net_work_recv_data_fifo_t) : Z := rf_length fifo.
Definition recv_data_fifo_full (fifo : net_work_recv_data_fifo_t) : bool :=
  rf_length fifo =? NET_READ_DATA_LENGTH.

Fixpoint pop_loop (n : nat) (r : Z) : Z :=
  match n with O => r | S n => pop_loop n (advance NET_READ_DATA_LENGTH r) end.

Definition recv_data_fifo_pop (fifo : net_work_recv_data_fifo_t) (len : Z) :
    res net_work_recv_data_fifo_t :=
  let r := pop_loop (Z.to_nat len) (rf_r_ptr fifo) in
  let* l := add32 (rf_length fifo) (- len) in
  Ok (mkRecvFifo (rf_data fifo) r (rf_w_ptr fifo) l).

(** The pointer, and the byte the callers read through it. *)
Definition recv_data_fifo_top (fifo : net_work_recv_data_fifo_t) : Z := rf_r_ptr fifo.
Definition top_byte (fifo : net_work_recv_data_fifo_t) : res Z :=
  get_at (rf_data fifo) (recv_data_fifo_top fifo).

(** The loop [for (i = 3; i >= 0; i--)]; the shift is done in [int]. *)
Fixpoint top_int_loop (n : nat) (d : list Z) (ptr ret : Z) : res Z :=
  match n with
  | O => Ok ret
  | S i =>
      let* b := get_at d ptr in
      let* ret := add32 ret (i32 (Z.shiftl b (Z.of_nat i * 8))) in
      top_int_loop i d (advance NET_READ_DATA_LENGTH ptr) ret
  end.

Definition recv_data_fifo_top_int (fifo : net_work_recv_data_fifo_t) : res Z :=
  top_int_loop 4 (rf_data fifo) (rf_r_ptr fifo) 0.

(** ** Specification *)

Record fifo_rep (fifo : net_work_recv_data_fifo_t) (q : list Z) : Prop := {
  fifo_ring : ring NET_READ_DATA_LENGTH (rf_data fifo) (rf_r_ptr fifo) (rf_w_ptr fifo) q;
  fifo_length : rf_length fifo = zlen q
}.

Lemma fifo_rep_init : fifo_rep (recv_data_fifo_init recv_fifo_zero) [].
Proof. split; [|done]. apply ring_empty; [done | unfold NET_READ_DATA_LENGTH; simpl; lia]. Qed.

Lemma fifo_fits fifo q : fifo_rep fifo q -> zlen q <= NET_READ_DATA_LENGTH.
Proof. intros [H _]. apply (ring_fits _ _ _ _ _ H). Qed.

(** ** Lemmas *)

Lemma push_loop_spec n src i d fifo q :
  ring NET_READ_DATA_LENGTH (rf_data fifo) (rf_r_ptr fifo) (rf_w_ptr fifo) q ->
  0 <= i -> take n (zdrop i src) = d -> length d = n -> zlen q + zlen d <= NET_READ_DATA_LENGTH ->
  exists fifo', recv_data_fifo_push_loop n i src fifo = Ok fifo' /\
    ring NET_READ_DATA_LENGTH (rf_data fifo') (rf_r_ptr fifo') (rf_w_ptr fifo') (q ++ d) /\
    rf_length fifo' = rf_length fifo.
Proof.
  revert i d fifo q. induction n as [|n IH]; intros i d fifo q H Hi Hd Hn Hq.
  { destruct d; [|done]. rewrite app_nil_r. by exists fifo. }
  destruct d as [|b d]; [done|]. simpl in Hn.
  destruct (zdrop i src) as [|b' src'] eqn:E; [done|]. simpl in Hd. injection Hd as -> Hd.
  assert (src !! Z.to_nat i = Some b) as Hb.
  { unfold zdrop in E. apply (f_equal (lookup 0%nat)) in E.
    by rewrite lookup_drop, Nat.add_0_r in E. }
  assert (zdrop (i + 1) src = src') as E'.
  { rewrite <- zdrop_zdrop, E by lia. done. }
  cbn [recv_data_fifo_push_loop]. rewrite (get_at_ok _ _ _ Hi Hb). cbn [res_bind].
  destruct (ring_push _ _ _ _ _ b H) as (dt & -> & H'); [zlia|]. cbn [res_bind].
  destruct (IH (i + 1) d (mkRecvFifo dt (rf_r_ptr fifo) (advance NET_READ_DATA_LENGTH (rf_w_ptr fifo)) (rf_length fifo))
    (q ++ [b])) as (fifo' & -> & Hr & Hl); [done | lia | by rewrite E' | lia | zlia |].
  exists fifo'. split; [done|]. by rewrite <- app_assoc in Hr.
Qed.

(** Pushing the first [len] bytes of a buffer appends them. *)
Lemma recv_push_spec fifo q src len :
  fifo_rep fifo q -> 0 <= len <= zlen src -> zlen q + len <= NET_READ_DATA_LENGTH ->
  exists fifo', recv_data_fifo_push fifo src len = Ok fifo' /\ fifo_rep fifo' (q ++ ztake len src).
Proof.
  intros [H Hl] Hlen Hq. unfold recv_data_fifo_push.
  destruct (push_loop_spec (Z.to_nat len) src 0 (ztake len src) fifo q) as (f & -> & Hr & Hlf).
  - done.
  - lia.
  - by rewrite zdrop_0.
  - unfold ztake. rewrite length_take. unfold zlen in Hlen. lia.
  - by rewrite zlen_ztake.
  - cbn [res_bind]. unfold NET_READ_DATA_LENGTH in *.
    rewrite add32_ok by (rewrite Hlf, Hl; zlia). cbn [res_bind]. eexists. split; [done|].
    split; [done|]. simpl. rewrite zlen_app, zlen_ztake by lia. lia.
Qed.

Lemma pop_loop_spec (d q1 q2 : list Z) r w :
  ring NET_READ_DATA_LENGTH d r w (q1 ++ q2) ->
  ring NET_READ_DATA_LENGTH d (pop_loop (length q1) r) w q2.
Proof. revert r. induction q1 as [|x q1 IH]; intros r H; simpl; [done|]. eapply IH, ring_pop, H. Qed.

Lemma recv_pop_spec fifo q1 q2 :
  fifo_rep fifo (q1 ++ q2) ->
  exists fifo', recv_data_fifo_pop fifo (zlen q1) = Ok fifo' /\ fifo_rep fifo' q2.
Proof.
  intros H. pose proof (fifo_fits _ _ H) as Hf. destruct H as [H Hl].
  unfold recv_data_fifo_pop, NET_READ_DATA_LENGTH in *.
  rewrite add32_ok by (rewrite Hl; zlia). cbn [res_bind]. eexists. split; [done|]. split; simpl.
  - unfold zlen. rewrite Nat2Z.id. by apply pop_loop_spec.
  - rewrite Hl. zlia.
Qed.

Lemma top_byte_spec fifo b q : fifo_rep fifo (b :: q) -> top_byte fifo = Ok b.
Proof. intros [H _]. eapply ring_top, H. Qed.

Lemma i32_top_byte b : is_byte b -> i32 (Z.shiftl b 24) = if b <? 128 then b * 2 ^ 24 else b * 2 ^ 24 - 2 ^ 32.
Proof.
  intros Hb. unfold is_byte in Hb. rewrite Z.shiftl_mul_pow2 by lia. unfold wraps.
  destruct (Z.ltb_spec b 128).
  - rewrite Z.mod_small; lia.
  - replace (b * 2 ^ 24 + 2 ^ (32 - 1)) with (b * 2 ^ 24 - 2 ^ 31 + 1 * 2 ^ 32) by lia.
    rewrite Z.mod_add, Z.mod_small; lia.
Qed.

Lemma be_val_4 b0 b1 b2 b3 :
  be_val [b0; b1; b2; b3] = b0 * 2 ^ 24 + b1 * 2 ^ 16 + b2 * 2 ^ 8 + b3.
Proof. unfold be_val. simpl. lia. Qed.

(** The length in front of a frame, wherever it lies in the array. *)
Lemma recv_top_int_spec fifo hdr q :
  fifo_rep fifo (hdr ++ q) -> zlen hdr = 4 -> bytes hdr ->
  recv_data_fifo_top_int fifo = Ok (i32 (be_val hdr)).
Proof.
  intros [H _] Hl Hb. destruct hdr as [|b0 [|b1 [|b2 [|b3 [|]]]]]; try (exfalso; zlia).
  unfold bytes in Hb. rewrite !Forall_cons in Hb. destruct Hb as (H0 & H1 & H2 & H3 & _).
  unfold is_byte in *. simpl in H.
  pose proof (ring_pop _ _ _ _ _ _ H) as P1. pose proof (ring_pop _ _ _ _ _ _ P1) as P2.
  pose proof (ring_pop _ _ _ _ _ _ P2) as P3.
  unfold recv_data_fifo_top_int. cbn [top_int_loop].
  rewrite (ring_top _ _ _ _ _ _ H), (ring_top _ _ _ _ _ _ P1), (ring_top _ _ _ _ _ _ P2),
    (ring_top _ _ _ _ _ _ P3). cbn [res_bind]. simpl (Z.of_nat _ * 8).
  rewrite i32_top_byte by done. rewrite !Z.shiftl_mul_pow2 by lia.
  rewrite !(wraps_id 32 (_ * 2 ^ _)) by lia.
  assert (forall x y, - 2 ^ 31 <= x + y < 2 ^ 31 -> add32 x y = Ok (x + y)) as Ha by apply add32_ok.
  rewrite be_val_4. destruct (Z.ltb_spec b0 128).
  - do 4 (rewrite Ha by lia; cbn [res_bind]). f_equal. rewrite wraps_id; lia.
  - do 4 (rewrite Ha by lia; cbn [res_bind]). f_equal.
    rewrite <- wraps_wrapu by lia. unfold wrapu, wraps.
    rewrite (Z.mod_small (b0 * 2 ^ 24 + b1 * 2 ^ 16 + b2 * 2 ^ 8 + b3)) by lia.
    replace (b0 * 2 ^ 24 + b1 * 2 ^ 16 + b2 * 2 ^ 8 + b3 + 2 ^ (32 - 1))
      with (b0 * 2 ^ 24 + b1 * 2 ^ 16 + b2 * 2 ^ 8 + b3 - 2 ^ 31 + 1 * 2 ^ 32) by lia.
    rewrite Z.mod_add, Z.mod_small; lia.
Qed.

(** ** The buffer as a queue *)

Inductive fifo_op :=
  | FPush (src : list Z) (len : Z)
  | FPop (len : Z).

Definition fifo_step (o : fifo_op) (fifo : net_work_recv_data_fifo_t) : res net_work_recv_data_fifo_t :=
  match o with
  | FPush src len => recv_data_fifo_push fifo src len
  | FPop len => recv_data_fifo_pop fifo len
  end.

(** The queue, where the operation is within the bounds its callers check. *)
Definition queue_step (o : fifo_op) (q : list Z) : option (list Z) :=
  match o with
  | FPush src len =>
      if (0 <=? len) && (len <=? zlen src) && (zlen q + len <=? NET_READ_DATA_LENGTH)
      then Some (q ++ ztake len src) else None
  | FPop len => if (0 <=? len) && (len <=? zlen q) then Some (zdrop len q) else None
  end.

Fixpoint fifo_run (os : list fifo_op) (fifo : net_work_recv_data_fifo_t) : res net_work_recv_data_fifo_t :=
  match os with [] => Ok fifo | o :: os => let* fifo := fifo_step o fifo in fifo_run os fifo end.
Fixpoint queue_run (os : list fifo_op) (q : list Z) : option (list Z) :=
  match os with [] => Some q | o :: os => queue_step o q ≫= queue_run os end.

Lemma fifo_step_refines o fifo q q' :
  fifo_rep fifo q -> queue_step o q = Some q' ->
  exists fifo', fifo_step o fifo = Ok fifo' /\ fifo_rep fifo' q'.
Proof.
  intros H. destruct o as [src len|len]; simpl; (case_match eqn:E; [|done]); intros [= <-].
  - apply recv_push_spec; [done | lia..].
  - rewrite <- (ztake_zdrop len q) in H. apply recv_pop_spec in H as (f & Hf & Hr).
    rewrite zlen_ztake in Hf by lia. eauto.
Qed.

Lemma fifo_run_refines os fifo q q' :
  fifo_rep fifo q -> queue_run os q = Some q' ->
  exists fifo', fifo_run os fifo = Ok fifo' /\ fifo_rep fifo' q'.
Proof.
  revert fifo q. induction os as [|o os IH]; intros fifo q H; simpl.
  - intros [= <-]. eauto.
  - destruct (queue_step o q) as [q1|] eqn:E; [|done]. simpl.
    destruct (fifo_step_refines o fifo q q1 H E) as (f1 & -> & H1). simpl. by apply IH.
Qed.

(** C34: within its capacity the receive buffer is a queue of bytes, wherever its
    pointers are: after any sequence of pushes and pops that a queue of at most
    8192 bytes can perform it holds what the queue holds, it is empty or full when
    the queue is, and the length it reads off its front is the big endian value
    of the first four bytes as a signed 32 bit integer. *)
Theorem recv_fifo_is_queue (os : list fifo_op) (q : list Z) :
  queue_run os [] = Some q -> bytes q ->
  exists fifo, fifo_run os (recv_data_fifo_init recv_fifo_zero) = Ok fifo /\
    recv_data_fifo_length fifo = zlen q /\
    recv_data_fifo_empty fifo = bool_decide (q = []) /\
    recv_data_fifo_full fifo = (zlen q =? 8192) /\
    (forall b q', q = b :: q' -> top_byte fifo = Ok b) /\
    (4 <= zlen q -> recv_data_fifo_top_int fifo = Ok (i32 (be_val (ztake 4 q)))).
Proof.
  intros Hq Hb. destruct (fifo_run_refines os _ [] q fifo_rep_init Hq) as (fifo & Hf & H).
  exists fifo. split_and!; [done | apply H | | | |].
  - unfold recv_data_fifo_empty. rewrite (fifo_length _ _ H). destruct q; [done|].
    rewrite bool_decide_eq_false_2 by done. bool_lia. done.
  - unfold recv_data_fifo_full. by rewrite (fifo_length _ _ H).
  - intros b q' ->. by eapply top_byte_spec.
  - intros H4. rewrite <- (ztake_zdrop 4 q) in H.
    eapply recv_top_int_spec; [exact H | by apply zlen_ztake | auto with p2p].
Qed.

(** A run that goes around the array. *)
Lemma recv_fifo_is_queue_witness :
  exists fifo, fifo_run [FPush (replicate 8190 7) 8190; FPop 8190; FPush [0; 0; 1; 2; 9] 5]
    (recv_data_fifo_init recv_fifo_zero) = Ok fifo /\ recv_data_fifo_top_int fifo = Ok 258.
Proof.
  destruct (recv_fifo_is_queue [FPush (replicate 8190 7) 8190; FPop 8190; FPush [0; 0; 1; 2; 9] 5]
    [0; 0; 1; 2; 9]) as (fifo & Hf & _ & _ & _ & _ & Ht).
  - vm_compute. reflexivity.
  - apply (bool_decide_unpack _). vm_compute. exact I.
  - exists fifo. split; [exact Hf|]. apply Ht. vm_compute. discriminate.
Defined.
