(* ===== verification/Heap.v ===== *)
(** * The heap of the C client

    Blocks of [malloc] and [calloc], by what the code stores in them.  Addresses
    are not used twice, so that a second [free] of a block, or a use of a block
    after its [free], is an error and not an access to another block.  Whether
    the allocation number [k] of [n] bytes succeeds is up to the allocator. *)

From S2P Require Import Prelude.

Abbreviation loc := nat.
(** A pointer: [None] is [NULL]. *)
Abbreviation ptr := (option loc).

(** A pointer to a node of the list of received data: to the head, which is part
    of the list structure, or to a node on the heap. *)
Inductive link := LNull | LHead | LNode (l : loc).

#[global] Instance link_eq_dec : EqDecision link.
Proof. solve_decision. Defined.

(** [recv_data_list_node_t], [recv_data_t] and [recv_data_buf_t]. *)
Record recv_data_list_node_t := mkNode { recv_data : ptr; next : link; prev : link }.
Record recv_data_t := mkRecvData { rd_length : Z; rd_data : ptr }.
Record recv_data_buf_t := mkRecvBuf { num : Z; rb_recv_data : ptr }.

Inductive block :=
  | BBytes (d : list Z)
  | BRecvData (d : recv_data_t)
  | BNode (n : recv_data_list_node_t)
  | BPtrs (l : list ptr)
  | BRecvBuf (b : recv_data_buf_t).

Record heap := mkHeap { mem : gmap loc block; allocs : nat }.

Definition heap0 : heap := mkHeap ∅ 0.

(** The allocator: it cannot provide more than an object can hold. *)
Class Alloc := alloc_ok : nat -> Z -> bool.
Class AllocOk `{Alloc} := alloc_huge k n : 2 ^ 63 <= n -> alloc_ok k n = false.

Section heap.
Context {al : Alloc}.

(** [malloc] and [calloc] of [size] bytes, which the caller uses as [b]. *)
Definition alloc (size : Z) (b : block) (h : heap) : ptr * heap :=
  let l := allocs h in
  if alloc_ok l size then (Some l, mkHeap (<[l := b]> (mem h)) (S l))
  else (None, mkHeap (mem h) (S l)).

End heap.

(** [free(NULL)] does nothing. *)
Definition free (p : ptr) (h : heap) : res heap :=
  match p with
  | None => Ok h
  | Some l => match mem h !! l with
              | Some _ => Ok (mkHeap (delete l (mem h)) (allocs h))
              | None => Err BadFree
              end
  end.

Definition load_block (l : loc) (h : heap) : res block :=
  match mem h !! l with Some b => Ok b | None => Err OutOfBounds end.

Definition the_bytes (p : ptr) (h : heap) : res (list Z) :=
  match p with
  | None => Err NullDeref
  | Some l => let* b := load_block l h in
              match b with BBytes d => Ok d | _ => Err OutOfBounds end
  end.
Definition the_recv_data (p : ptr) (h : heap) : res recv_data_t :=
  match p with
  | None => Err NullDeref
  | Some l => let* b := load_block l h in
              match b with BRecvData d => Ok d | _ => Err OutOfBounds end
  end.
Definition the_node (l : loc) (h : heap) : res recv_data_list_node_t :=
  let* b := load_block l h in match b with BNode n => Ok n | _ => Err OutOfBounds end.
Definition the_ptrs (p : ptr) (h : heap) : res (list ptr) :=
  match p with
  | None => Err NullDeref
  | Some l => let* b := load_block l h in match b with BPtrs d => Ok d | _ => Err OutOfBounds end
  end.

Definition set_block (l : loc) (b : block) (h : heap) : heap :=
  mkHeap (<[l := b]> (mem h)) (allocs h).

(** Addresses at and above the counter were never handed out. *)
Definition heap_wf (h : heap) : Prop := forall l, (allocs h <= l)%nat -> mem h !! l = None.

Lemma heap0_wf : heap_wf heap0.
Proof. intros l _. apply lookup_empty. Qed.

Section lemmas.
Context {al : Alloc}.

Lemma alloc_spec size b h p h' :
  heap_wf h -> alloc size b h = (p, h') ->
  heap_wf h' /\ (forall l, (l < allocs h)%nat -> mem h' !! l = mem h !! l) /\
  match p with
  | None => mem h' = mem h
  | Some l => l = allocs h /\ mem h' = <[l := b]> (mem h) /\ mem h !! l = None /\ alloc_ok l size = true
  end.
Proof.
  intros Hwf. unfold alloc. destruct (alloc_ok (allocs h) size) eqn:E; intros [= <- <-]; simpl.
  - split_and!; try done; [| |by apply Hwf].
    + intros l Hl. simpl in *. rewrite lookup_insert_ne by lia. apply Hwf. lia.
    + intros l Hl. rewrite lookup_insert_ne by lia. done.
  - split_and!; try done. intros l Hl. simpl in *. apply Hwf. lia.
Qed.

Lemma free_spec l h b :
  heap_wf h -> mem h !! l = Some b ->
  exists h', free (Some l) h = Ok h' /\ heap_wf h' /\ mem h' = delete l (mem h) /\ allocs h' = allocs h.
Proof.
  intros Hwf Hl. unfold free. rewrite Hl. eexists. split_and!; [done | | done..].
  intros k Hk. simpl in *. rewrite lookup_delete_None. right. by apply Hwf.
Qed.

Lemma heap_wf_lt h l b : heap_wf h -> mem h !! l = Some b -> (l < allocs h)%nat.
Proof. intros Hwf Hl. destruct (decide (l < allocs h)%nat); [done|]. rewrite Hwf in Hl by lia. done. Qed.

Lemma set_block_wf h l b b' : heap_wf h -> mem h !! l = Some b -> heap_wf (set_block l b' h).
Proof.
  intros Hwf Hl k Hk. simpl in *. pose proof (heap_wf_lt _ _ _ Hwf Hl).
  rewrite lookup_insert_ne by lia. by apply Hwf.
Qed.

End lemmas.
