(* ===== verification/RecvList.v ===== *)
(** * The list of received data (API/C/netWork.h)

    A circular doubly linked list whose head is a member of the list structure
    and whose nodes are on the heap.  The thread that receives adds at the end,
    the user's thread takes from the front.  The functions are the pointer
    assignments of the source; [list_rep] relates head and heap to the sequence
    of payloads, and every pointer assignment is shown to keep it. *)

From S2P Require Import Prelude Heap.

(** A default pthread mutex.  Unlocking a mutex that is not locked leaves it
    unlocked, as the implementation of glibc does. *)
Abbreviation pthread_mutex_t := bool.
Definition pthread_mutex_lock (m : pthread_mutex_t) : res pthread_mutex_t :=
  if m then Err Deadlock else Ok true.
Definition pthread_mutex_unlock (m : pthread_mutex_t) : pthread_mutex_t := false.

Record recv_data_list_t := mkList {
  recv_data_head : recv_data_list_node_t;
  recv_data_list_mutex : pthread_mutex_t
}.

(** The memory of the structure after [calloc]. *)
Definition recv_list_zero : recv_data_list_t := mkList (mkNode None LNull LNull) false.

(** What a function works on: the structure and the heap. *)
Abbreviation lstate := (recv_data_list_t * heap)%type.

Definition node_at (p : link) (s : lstate) : res recv_data_list_node_t :=
  match p with
  | LNull => Err NullDeref
  | LHead => Ok (recv_data_head s.1)
  | LNode l => the_node l s.2
  end.
Definition put_node (p : link) (n : recv_data_list_node_t) (s : lstate) : lstate :=
  match p with
  | LNull => s
  | LHead => (mkList n (recv_data_list_mutex s.1), s.2)
  | LNode l => (s.1, set_block l (BNode n) s.2)
  end.

(** [p->next = v] and [p->prev = v]. *)
Definition set_next (p v : link) (s : lstate) : res lstate :=
  let* n := node_at p s in Ok (put_node p (mkNode (recv_data n) v (prev n)) s).
Definition set_prev (p v : link) (s : lstate) : res lstate :=
  let* n := node_at p s in Ok (put_node p (mkNode (recv_data n) (next n) v) s).
Definition free_node (p : link) (s : lstate) : res lstate :=
  match p with
  | LNull => Ok s
  | LHead => Err BadFree
  | LNode l => let* h := free (Some l) s.2 in Ok (s.1, h)
  end.

Definition lock_list (s : lstate) : res lstate :=
  let* m := pthread_mutex_lock (recv_data_list_mutex s.1) in
  Ok (mkList (recv_data_head s.1) m, s.2).
Definition unlock_list (s : lstate) : lstate :=
  (mkList (recv_data_head s.1) (pthread_mutex_unlock (recv_data_list_mutex s.1)), s.2).

Definition recv_data_list_init (list : recv_data_list_t) : recv_data_list_t :=
  mkList (mkNode (recv_data (recv_data_head list)) LHead LHead) false.

Definition free_recv_data_t (p : ptr) (h : heap) : res heap :=
  let* d := the_recv_data p h in
  let* h := (match rd_data d with Some _ => free (rd_data d) h | None => Ok h end) in
  free p h.

Definition recv_data_list_add (node : link) (s : lstate) : res lstate :=
  let* s := lock_list s in
  let prv := prev (recv_data_head s.1) in
  let nxt := LHead in
  let* s := set_prev nxt node s in
  let* s := set_next node nxt s in
  let* s := set_prev node prv s in
  let* s := set_next prv node s in
  Ok (unlock_list s).

(** [node->prev->next = node->next; node->next->prev = node->prev;] *)
Definition unlink_node (node : link) (s : lstate) : res lstate :=
  let* n := node_at node s in
  let* s := set_next (prev n) (next n) s in
  let* n := node_at node s in
  set_prev (next n) (prev n) s.

Definition recv_data_list_return_data (s : lstate) : res (ptr * lstate) :=
  let* s := lock_list s in
  let node := next (recv_data_head s.1) in
  if decide (node = LHead) then Ok (None, unlock_list s)
  else
    let* n := node_at node s in
    let d := recv_data n in
    let* s := unlink_node node s in
    let* s := free_node node s in
    Ok (d, unlock_list s).

(** The [while] loop of [recv_data_list_deinit]; the number of blocks on the heap
    bounds the number of nodes. *)
Fixpoint deinit_loop (fuel : nat) (s : lstate) : res lstate :=
  let node := next (recv_data_head s.1) in
  if decide (node = LHead) then Ok s
  else match fuel with
       | O => Err OutOfFuel
       | S fuel =>
           let* n := node_at node s in
           let* h := free_recv_data_t (recv_data n) s.2 in
           let* s := unlink_node node (s.1, h) in
           let* s := free_node node s in
           deinit_loop fuel s
       end.

Definition recv_data_list_deinit (s : lstate) : res lstate :=
  let* s := lock_list s in
  let* s := deinit_loop (S (size (mem s.2))) s in
  Ok (unlock_list s).

(** ** Linked segments, on the two pointers of every node *)

Section linked.
Implicit Types nx pv : link -> option link.

(** From [a] one gets over the nodes [ls] to [b], and back. *)
Fixpoint linked nx pv (a : link) (ls : list loc) (b : link) : Prop :=
  match ls with
  | [] => nx a = Some b /\ pv b = Some a
  | x :: ls => nx a = Some (LNode x) /\ pv (LNode x) = Some a /\ linked nx pv (LNode x) ls b
  end.

Definition last_link (a : link) (ls : list loc) : link := default a (LNode <$> last ls).

Lemma last_link_cons a x ls : last_link a (x :: ls) = last_link (LNode x) ls.
Proof. unfold last_link. rewrite last_cons. by destruct (last ls). Qed.

Lemma last_link_elem a ls : last_link a ls = a \/ exists x, last_link a ls = LNode x /\ x ∈ ls.
Proof.
  unfold last_link. destruct (last ls) as [x|] eqn:E; simpl; [|by left].
  right. exists x. split; [done|]. by apply last_Some_elem_of.
Qed.

Lemma linked_last nx pv a ls b : linked nx pv a ls b -> pv b = Some (last_link a ls).
Proof.
  revert a. induction ls as [|x ls IH]; intros a; simpl; [by intros [_ ?]|].
  intros (_ & _ & H). rewrite last_link_cons. by apply IH.
Qed.

Lemma linked_last_next nx pv a ls b : linked nx pv a ls b -> nx (last_link a ls) = Some b.
Proof.
  revert a. induction ls as [|x ls IH]; intros a; simpl; [by intros [? _]|].
  intros (_ & _ & H). rewrite last_link_cons. by apply IH.
Qed.

Lemma linked_first nx pv a x ls b : linked nx pv a (x :: ls) b -> nx a = Some (LNode x).
Proof. by intros [? _]. Qed.

Lemma linked_ext nx pv nx' pv' a ls b :
  (forall p, p = a \/ (exists x, p = LNode x /\ x ∈ ls) -> nx' p = nx p) ->
  (forall p, p = b \/ (exists x, p = LNode x /\ x ∈ ls) -> pv' p = pv p) ->
  linked nx pv a ls b -> linked nx' pv' a ls b.
Proof.
  revert a. induction ls as [|x ls IH]; intros a Hn Hp; simpl.
  - intros [? ?]. rewrite Hn, Hp by auto. done.
  - intros (? & ? & ?). rewrite Hn by auto. rewrite Hp by (right; exists x; split; [done|left]).
    split_and!; [done..|]. apply IH; [| |done].
    + intros p [->|(y & -> & ?)]; apply Hn; right; eexists; (split; [done|]); [left | by right].
    + intros p [->|(y & -> & ?)]; apply Hp; [by left|]. right. exists y. split; [done | by right].
Qed.

(** Appending a node [x]: the four assignments of [recv_data_list_add]. *)
Lemma linked_snoc nx pv nx' pv' a ls b x :
  linked nx pv a ls b -> NoDup ls -> (forall y, a = LNode y -> y ∉ ls) ->
  (forall y, b <> LNode y) ->
  let e := last_link a ls in
  (forall p, p <> e -> p <> LNode x -> nx' p = nx p) -> nx' e = Some (LNode x) ->
  nx' (LNode x) = Some b ->
  (forall p, p <> b -> p <> LNode x -> pv' p = pv p) -> pv' (LNode x) = Some e ->
  pv' b = Some (LNode x) -> x ∉ ls -> a <> LNode x ->
  linked nx' pv' a (ls ++ [x]) b.
Proof.
  revert a. induction ls as [|z ls IH]; intros a H Hnd Ha Hb e N1 N2 N3 P1 P2 P3 Hx Hax.
  - done.
  - destruct H as (H1 & H2 & H3). apply NoDup_cons in Hnd as [Hz Hnd].
    apply not_elem_of_cons in Hx as [Hxz Hx]. unfold e in *. rewrite last_link_cons in *.
    simpl. split_and!.
    + rewrite N1; [done | | done].
      destruct (last_link_elem (LNode z) ls) as [-> | (y & -> & Hy)]; intros ->.
      * by apply (Ha z eq_refl); left.
      * by apply (Ha y eq_refl); right.
    + rewrite P1; [done | intros E; by apply (Hb z) | by intros [= ->]].
    + apply IH; try done; [by intros y [= <-] | by intros [= ->]].
Qed.

(** Taking out the first node [x]: the two assignments of [unlink_node]. *)
Lemma linked_tail nx pv nx' pv' x ls y :
  linked nx pv LHead (x :: ls) LHead -> NoDup (x :: ls) -> nx (LNode x) = Some y ->
  nx' LHead = Some y -> pv' y = Some LHead ->
  (forall p, p <> LHead -> p <> LNode x -> nx' p = nx p) ->
  (forall p, p <> y -> p <> LNode x -> pv' p = pv p) ->
  linked nx' pv' LHead ls LHead.
Proof.
  intros (_ & _ & H) Hnd Hy N1 P1 N2 P2. apply NoDup_cons in Hnd as [Hx Hnd].
  destruct ls as [|z ls]; simpl in *.
  - destruct H as [E _]. simplify_eq. done.
  - destruct H as (E & _ & H). simplify_eq. split_and!; [done..|].
    apply not_elem_of_cons in Hx as [Hxz Hx]. apply NoDup_cons in Hnd as [Hz Hnd].
    eapply linked_ext; [| |done].
    + intros p [->|(w & -> & Hw)]; (rewrite N2; [done | done |]); intros [= ->]; done.
    + intros p [->|(w & -> & Hw)]; (rewrite P2; [done | |]); try done; intros [= ->]; done.
Qed.

End linked.

(** ** What the list stands for *)

Definition node_of (s : lstate) (p : link) : option recv_data_list_node_t :=
  match p with
  | LNull => None
  | LHead => Some (recv_data_head s.1)
  | LNode l => match mem s.2 !! l with Some (BNode n) => Some n | _ => None end
  end.
Definition nx_of (s : lstate) (p : link) : option link := next <$> node_of s p.
Definition pv_of (s : lstate) (p : link) : option link := prev <$> node_of s p.

(** One element: the addresses of its three blocks and the payload. *)
Record item := mkItem { it_node : loc; it_data : loc; it_bytes : loc; it_payload : list Z }.
Definition item_locs (it : item) : list loc := [it_node it; it_data it; it_bytes it].

(** The payload of an element is on the heap. *)
Definition payload_ok (h : heap) (it : item) : Prop :=
  mem h !! it_data it = Some (BRecvData (mkRecvData (zlen (it_payload it)) (Some (it_bytes it)))) /\
  mem h !! it_bytes it = Some (BBytes (it_payload it)).
Definition item_ok (s : lstate) (it : item) : Prop :=
  recv_data <$> node_of s (LNode (it_node it)) = Some (Some (it_data it)) /\ payload_ok s.2 it.

Record list_rep (s : lstate) (its : list item) : Prop := {
  lr_wf : heap_wf s.2;
  lr_mutex : recv_data_list_mutex s.1 = false;
  lr_linked : linked (nx_of s) (pv_of s) LHead (it_node <$> its) LHead;
  lr_nodup : NoDup (concat (item_locs <$> its));
  lr_items it : it ∈ its -> item_ok s it
}.

(** ** Lemmas: one assignment *)

Record updated (p : link) (n : recv_data_list_node_t) (s s' : lstate) : Prop := {
  up_node q : node_of s' q = if decide (q = p) then Some n else node_of s q;
  up_mem l : LNode l <> p -> mem s'.2 !! l = mem s.2 !! l;
  up_wf : heap_wf s.2 -> heap_wf s'.2;
  up_mutex : recv_data_list_mutex s'.1 = recv_data_list_mutex s.1;
  up_allocs : allocs s'.2 = allocs s.2
}.

Lemma node_at_of s p n : node_of s p = Some n -> node_at p s = Ok n.
Proof.
  destruct p; simpl; [done | congruence |]. unfold the_node, load_block.
  destruct (mem s.2 !! l) as [[]|]; simpl; congruence.
Qed.

Lemma put_node_updated s p n n' : node_of s p = Some n -> updated p n' s (put_node p n' s).
Proof.
  destruct p as [| |l]; [done| |]; intros Hn.
  - split; try done. intros [| |q]; by case_decide.
  - assert (exists b, mem s.2 !! l = Some b) as [b Hb].
    { simpl in Hn. destruct (mem s.2 !! l); [eauto | done]. }
    split; try done; simpl.
    + intros q. destruct (decide (q = LNode l)) as [->|Hne]; [simpl; by rewrite lookup_insert_eq|].
      destruct q as [| |q]; [done..|]. simpl. rewrite lookup_insert_ne; [done | congruence].
    + intros k Hk. rewrite lookup_insert_ne; congruence.
    + intros Hwf. by eapply set_block_wf.
Qed.

Lemma set_next_spec s p v n :
  node_of s p = Some n ->
  exists s', set_next p v s = Ok s' /\ updated p (mkNode (recv_data n) v (prev n)) s s'.
Proof.
  intros H. unfold set_next. rewrite (node_at_of _ _ _ H). simpl. eexists. split; [done|].
  by eapply put_node_updated.
Qed.

Lemma set_prev_spec s p v n :
  node_of s p = Some n ->
  exists s', set_prev p v s = Ok s' /\ updated p (mkNode (recv_data n) (next n) v) s s'.
Proof.
  intros H. unfold set_prev. rewrite (node_at_of _ _ _ H). simpl. eexists. split; [done|].
  by eapply put_node_updated.
Qed.

(** The heap outside of the nodes [ls], and the mutex, are as before. *)
Record framed (ls : list loc) (s s' : lstate) : Prop := {
  fr_mem l : l ∉ ls -> mem s'.2 !! l = mem s.2 !! l;
  fr_data p : recv_data <$> node_of s' p = recv_data <$> node_of s p;
  fr_wf : heap_wf s.2 -> heap_wf s'.2;
  fr_mutex : recv_data_list_mutex s'.1 = recv_data_list_mutex s.1;
  fr_allocs : allocs s'.2 = allocs s.2
}.

Lemma framed_refl ls s : framed ls s s.
Proof. by split. Qed.

Lemma framed_updated ls p n n0 s s' s'' :
  framed ls s s' -> updated p n s' s'' -> node_of s' p = Some n0 -> recv_data n = recv_data n0 ->
  (forall l, p = LNode l -> l ∈ ls) -> framed ls s s''.
Proof.
  intros [F1 F2 F3 F4 F5] [U1 U2 U3 U4 U5] Hp Hd Hl. split.
  - intros l Hin. rewrite U2; [by apply F1|]. intros E. by apply Hin, Hl.
  - intros q. rewrite U1. case_decide; [subst|done]. rewrite <- F2, Hp. simpl. by rewrite Hd.
  - auto.
  - congruence.
  - congruence.
Qed.

Lemma node_of_some s p v : nx_of s p = Some v -> exists n, node_of s p = Some n /\ next n = v.
Proof. intros (n & ? & ->)%fmap_Some. eauto. Qed.

Lemma framed_trans ls s s' s'' : framed ls s s' -> framed ls s' s'' -> framed ls s s''.
Proof.
  intros [F1 F2 F3 F4 F5] [G1 G2 G3 G4 G5]. split.
  - intros l Hl. by rewrite G1, F1.
  - intros q. by rewrite G2, F2.
  - auto.
  - congruence.
  - congruence.
Qed.

Lemma framed_is_some ls s s' q : framed ls s s' -> is_Some (node_of s q) -> is_Some (node_of s' q).
Proof. intros F [n Hn]. pose proof (fr_data _ _ _ F q) as E. rewrite Hn in E. by apply fmap_Some in E as (m & -> & _). Qed.

(** One assignment to a pointer, on the pointers of all nodes. *)
Lemma set_next_links ls s p v :
  is_Some (node_of s p) -> (forall l, p = LNode l -> l ∈ ls) ->
  exists s', set_next p v s = Ok s' /\ framed ls s s' /\
    (forall q, nx_of s' q = if decide (q = p) then Some v else nx_of s q) /\
    (forall q, pv_of s' q = pv_of s q).
Proof.
  intros [n Hn] Hl. destruct (set_next_spec s p v n Hn) as (s' & E & U). exists s'. split_and!; [done | | |].
  - by eapply framed_updated; [apply framed_refl | exact U | exact Hn | ..].
  - intros q. unfold nx_of. rewrite (up_node _ _ _ _ U). by case_decide.
  - intros q. unfold pv_of. rewrite (up_node _ _ _ _ U). case_decide; [subst; by rewrite Hn | done].
Qed.

Lemma set_prev_links ls s p v :
  is_Some (node_of s p) -> (forall l, p = LNode l -> l ∈ ls) ->
  exists s', set_prev p v s = Ok s' /\ framed ls s s' /\
    (forall q, pv_of s' q = if decide (q = p) then Some v else pv_of s q) /\
    (forall q, nx_of s' q = nx_of s q).
Proof.
  intros [n Hn] Hl. destruct (set_prev_spec s p v n Hn) as (s' & E & U). exists s'. split_and!; [done | | |].
  - by eapply framed_updated; [apply framed_refl | exact U | exact Hn | ..].
  - intros q. unfold pv_of. rewrite (up_node _ _ _ _ U). by case_decide.
  - intros q. unfold nx_of. rewrite (up_node _ _ _ _ U). case_decide; [subst; by rewrite Hn | done].
Qed.

(** The four assignments of [recv_data_list_add], on any node. *)
Lemma add_links s ls x :
  linked (nx_of s) (pv_of s) LHead ls LHead -> NoDup ls -> x ∉ ls ->
  is_Some (node_of s (LNode x)) ->
  exists s1 s2 s3 s4,
    set_prev LHead (LNode x) s = Ok s1 /\ set_next (LNode x) LHead s1 = Ok s2 /\
    set_prev (LNode x) (prev (recv_data_head s.1)) s2 = Ok s3 /\
    set_next (prev (recv_data_head s.1)) (LNode x) s3 = Ok s4 /\
    linked (nx_of s4) (pv_of s4) LHead (ls ++ [x]) LHead /\ framed (x :: ls) s s4.
Proof.
  intros H Hnd Hx Hn. pose proof (linked_last _ _ _ _ _ H) as He.
  assert (prev (recv_data_head s.1) = last_link LHead ls) as E by (unfold pv_of in He; simpl in He; congruence).
  rewrite E. pose proof (linked_last_next _ _ _ _ _ H) as Hm. pose proof (last_link_elem LHead ls) as Hel.
  set (e := last_link LHead ls) in *.
  assert (e <> LNode x) as Hex by (destruct Hel as [-> |(y & -> & Hy)]; [done | by intros [= ->]]).
  assert (forall l, e = LNode l -> l ∈ x :: ls) as Hin
    by (intros l El; right; destruct Hel as [E'|(y & E' & Hy)]; rewrite E' in El; [done | by injection El as <-]).
  assert (is_Some (node_of s e)) as Hse by (apply node_of_some in Hm as (m & -> & _); eauto).
  destruct (set_prev_links (x :: ls) s LHead (LNode x)) as (s1 & E1 & F1 & P1 & N1); [by eexists | done |].
  destruct (set_next_links (x :: ls) s1 (LNode x) LHead) as (s2 & E2 & F2 & N2 & P2);
    [by eapply framed_is_some | intros l [= <-]; left |].
  pose proof (framed_trans _ _ _ _ F1 F2) as F12.
  destruct (set_prev_links (x :: ls) s2 (LNode x) e) as (s3 & E3 & F3 & P3 & N3);
    [by eapply framed_is_some | intros l [= <-]; left |].
  pose proof (framed_trans _ _ _ _ F12 F3) as F13.
  destruct (set_next_links (x :: ls) s3 e (LNode x)) as (s4 & E4 & F4 & N4 & P4); [by eapply framed_is_some | done |].
  exists s1, s2, s3, s4. split_and!; [done..| |by eapply framed_trans].
  apply (linked_snoc (nx_of s) (pv_of s)); try done; fold e.
  - intros p Hpe Hpx. by rewrite N4, decide_False, N3, N2, decide_False, N1.
  - by rewrite N4, decide_True.
  - by rewrite N4, decide_False, N3, N2, decide_True.
  - intros p Hph Hpx. by rewrite P4, P3, decide_False, P2, P1, decide_False.
  - by rewrite P4, P3, decide_True.
  - by rewrite P4, P3, decide_False, P2, P1, decide_True.
Qed.

(** The first node has a neighbour, which is not itself. *)
Lemma linked_neighbour s x ls :
  linked (nx_of s) (pv_of s) LHead (x :: ls) LHead -> NoDup (x :: ls) ->
  exists n y, node_of s (LNode x) = Some n /\ next n = y /\ prev n = LHead /\ y <> LNode x /\
    is_Some (node_of s y) /\ (forall l, y = LNode l -> l ∈ x :: ls).
Proof.
  intros (_ & Hp & Ht) Hnd. apply NoDup_cons in Hnd as [Hx _].
  apply fmap_Some in Hp as (n & Hn & Ep). exists n, (next n).
  assert (nx_of s (LNode x) = Some (next n)) as Hy by (unfold nx_of; by rewrite Hn).
  destruct ls as [|z ls]; simpl in Ht.
  - destruct Ht as [E _]. rewrite Hy in E. injection E as E. rewrite E. by split_and!.
  - destruct Ht as (E & E' & _). rewrite Hy in E. injection E as E. rewrite E. split_and!; try done.
    + intros [= ->]. apply Hx. left.
    + apply fmap_Some in E' as (m & -> & _). eauto.
    + intros l [= <-]. right. left.
Qed.

(** The two assignments of [unlink_node] on the first node. *)
Lemma unlink_links s x ls :
  linked (nx_of s) (pv_of s) LHead (x :: ls) LHead -> NoDup (x :: ls) ->
  exists s2 y, unlink_node (LNode x) s = Ok s2 /\ framed (x :: ls) s s2 /\
    nx_of s (LNode x) = Some y /\ y <> LNode x /\
    (forall q, nx_of s2 q = if decide (q = LHead) then Some y else nx_of s q) /\
    (forall q, pv_of s2 q = if decide (q = y) then Some LHead else pv_of s q).
Proof.
  intros H Hnd. destruct (linked_neighbour s x ls H Hnd) as (n & y & Hn & En & Ep & Hyx & Hy & Hin).
  destruct (set_next_links (x :: ls) s LHead y) as (s1 & E1 & F1 & N1 & P1); [by eexists | done |].
  destruct (framed_is_some _ _ _ (LNode x) F1) as [n1 Hn1]; [eauto|].
  assert (next n1 = y /\ prev n1 = LHead) as [En1 Ep1].
  { specialize (N1 (LNode x)). specialize (P1 (LNode x)). rewrite decide_False in N1 by done.
    unfold nx_of, pv_of in *. rewrite Hn, Hn1 in *. simpl in *. split; congruence. }
  destruct (set_prev_links (x :: ls) s1 y LHead) as (s2 & E2 & F2 & P2 & N2);
    [by eapply framed_is_some | done |].
  exists s2, y. split_and!; [| by eapply framed_trans | unfold nx_of; rewrite Hn; simpl; congruence | done | |].
  - unfold unlink_node. rewrite (node_at_of _ _ _ Hn). cbn [res_bind]. rewrite Ep, En, E1. cbn [res_bind].
    rewrite (node_at_of _ _ _ Hn1). cbn [res_bind]. by rewrite En1, Ep1.
  - intros q. by rewrite N2, N1.
  - intros q. by rewrite P2, P1.
Qed.

(** Unlinking and freeing the first node. *)
Lemma unlink_free s x ls n :
  linked (nx_of s) (pv_of s) LHead (x :: ls) LHead -> NoDup (x :: ls) ->
  node_of s (LNode x) = Some n -> heap_wf s.2 ->
  exists s1 s2, unlink_node (LNode x) s = Ok s1 /\ free_node (LNode x) s1 = Ok s2 /\
    linked (nx_of s2) (pv_of s2) LHead ls LHead /\ mem s2.2 !! x = None /\ heap_wf s2.2 /\
    (forall l, l ∉ x :: ls -> mem s2.2 !! l = mem s.2 !! l) /\
    (forall l, l <> x -> recv_data <$> node_of s2 (LNode l) = recv_data <$> node_of s (LNode l)) /\
    recv_data_list_mutex s2.1 = recv_data_list_mutex s.1 /\ allocs s2.2 = allocs s.2.
Proof.
  intros H Hnd Hn Hwf. destruct (unlink_links s x ls H Hnd) as (s2 & y & E & F & Hy & Hyx & N2 & P2).
  destruct (framed_is_some _ _ _ (LNode x) F) as [n2 Hn2]; [eauto|].
  assert (exists b, mem s2.2 !! x = Some b) as [b Hb]
    by (simpl in Hn2; destruct (mem s2.2 !! x); [eauto | done]).
  destruct (free_spec x s2.2 b (fr_wf _ _ _ F Hwf) Hb) as (h & Ef & Hwf' & Hmem & Hal).
  assert (forall p, p <> LNode x -> node_of (s2.1, h) p = node_of s2 p) as Hs3.
  { intros [| |l] Hl; simpl; [done..|]. rewrite Hmem, lookup_delete_ne by congruence. done. }
  exists s2, (s2.1, h). split_and!; [done | cbn [free_node]; by rewrite Ef | | | done | | | | ].
  - apply (linked_tail (nx_of s) (pv_of s) _ _ x ls y); try done.
    + unfold nx_of. rewrite Hs3 by done. fold (nx_of s2 LHead). by rewrite N2, decide_True.
    + unfold pv_of. rewrite Hs3 by done. fold (pv_of s2 y). by rewrite P2, decide_True.
    + intros p Hp1 Hp2. unfold nx_of at 1. rewrite Hs3 by done. fold (nx_of s2 p). by rewrite N2, decide_False.
    + intros p Hp1 Hp2. unfold pv_of at 1. rewrite Hs3 by done. fold (pv_of s2 p). by rewrite P2, decide_False.
  - simpl. by rewrite Hmem, lookup_delete_eq.
  - intros l Hl. simpl. pose proof Hl as [Hlx _]%not_elem_of_cons.
    rewrite Hmem, lookup_delete_ne by done. by apply (fr_mem _ _ _ F).
  - intros l Hl. rewrite Hs3 by congruence. apply (fr_data _ _ _ F).
  - apply (fr_mutex _ _ _ F).
  - simpl. rewrite Hal. apply (fr_allocs _ _ _ F).
Qed.

(** ** Lemmas: the operations *)

Lemma nodes_sublist its : (it_node <$> its) `sublist_of` concat (item_locs <$> its).
Proof.
  induction its as [|it its IH]; simpl; [done|]. apply sublist_skip. by do 2 apply sublist_cons.
Qed.

Lemma list_rep_nodes s its : list_rep s its -> NoDup (it_node <$> its).
Proof. intros H. eapply sublist_NoDup; [apply (lr_nodup _ _ H) | apply nodes_sublist]. Qed.

Lemma list_rep_head s its : list_rep s its -> (next (recv_data_head s.1) = LHead <-> its = []).
Proof.
  intros H. pose proof (lr_linked _ _ H) as Hl. unfold nx_of in Hl.
  destruct its as [|it its]; simpl in Hl; destruct Hl as [E _]; split; try done; congruence.
Qed.

Lemma elem_item_locs it (its : list item) l :
  it ∈ its -> l ∈ item_locs it -> l ∈ concat (item_locs <$> its).
Proof.
  intros Hit Hl. rewrite list_elem_of_In. apply in_concat. exists (item_locs it).
  split; apply list_elem_of_In; [|done]. apply list_elem_of_fmap. eauto.
Qed.

(** The address of data is not the address of a node. *)
Lemma not_node_loc its it l :
  NoDup (concat (item_locs <$> its)) -> it ∈ its -> l ∈ [it_data it; it_bytes it] ->
  l ∈ it_node <$> its -> False.
Proof.
  induction its as [|x its IH]; simpl; intros Hnd Hit Hl Hn; [set_solver|].
  apply NoDup_cons in Hnd as [N1 Hnd]. apply NoDup_cons in Hnd as [N2 Hnd].
  apply NoDup_cons in Hnd as [N3 Hnd].
  assert (forall y, y ∈ it_node <$> its -> y ∈ concat (item_locs <$> its)) as Hsub.
  { intros y Hy. by eapply elem_of_sublist; [|apply nodes_sublist]. }
  assert (it ∈ its -> l ∈ concat (item_locs <$> its)) as Hloc.
  { intros Hi. eapply elem_item_locs; [done|]. by right. }
  apply elem_of_cons in Hit as [->|Hit], Hn as [->|Hn].
  - set_solver.
  - apply Hsub in Hn. set_solver.
  - specialize (Hloc Hit). set_solver.
  - eauto.
Qed.

Lemma lock_list_eta (s : lstate) : mkList (recv_data_head s.1) (recv_data_list_mutex s.1) = s.1.
Proof. by destruct s as [[]]. Qed.

Lemma list_rep_init h : heap_wf h -> list_rep (recv_data_list_init recv_list_zero, h) [].
Proof. intros Hwf. split; try done; simpl; [constructor | intros ? []%elem_of_nil]. Qed.

Lemma lock_run s its :
  list_rep s its -> lock_list s = Ok (mkList (recv_data_head s.1) true, s.2).
Proof. intros H. unfold lock_list, pthread_mutex_lock. by rewrite (lr_mutex _ _ H). Qed.

Lemma unlock_locked s its :
  list_rep s its -> unlock_list (mkList (recv_data_head s.1) true, s.2) = s.
Proof.
  intros H. unfold unlock_list, pthread_mutex_unlock. simpl. rewrite <- (lr_mutex _ _ H).
  by destruct s as [[] ?].
Qed.

(** Adding a node whose data is on the heap appends the element. *)
Lemma recv_add_spec s its it :
  list_rep s its -> item_ok s it -> NoDup (concat (item_locs <$> its) ++ item_locs it) ->
  exists s', recv_data_list_add (LNode (it_node it)) s = Ok s' /\ list_rep s' (its ++ [it]) /\
    allocs s'.2 = allocs s.2 /\
    (forall l, l ∉ concat (item_locs <$> (its ++ [it])) -> mem s'.2 !! l = mem s.2 !! l).
Proof.
  intros H Hit Hnd. unfold recv_data_list_add. rewrite (lock_run s its H). cbn [res_bind].
  set (s0 := (mkList (recv_data_head s.1) true, s.2)).
  assert (it_node it ∉ it_node <$> its) as Hx.
  { apply NoDup_app in Hnd as (_ & Hd & _). intros Hin.
    apply (Hd (it_node it)); [|left]. by eapply elem_of_sublist; [|apply nodes_sublist]. }
  destruct (add_links s0 (it_node <$> its) (it_node it)) as (s1 & s2 & s3 & s4 & E1 & E2 & E3 & E4 & Hl & F).
  { apply (lr_linked _ _ H). }
  { eapply list_rep_nodes, H. }
  { done. }
  { destruct Hit as [(n & Hn & _)%fmap_Some _]. exists n. exact Hn. }
  rewrite E1. cbn [res_bind]. rewrite E2. cbn [res_bind]. rewrite E3. cbn [res_bind].
  rewrite E4. cbn [res_bind]. exists (unlock_list s4). split; [done|].
  assert (forall l, l ∉ it_node <$> (its ++ [it]) -> mem s4.2 !! l = mem s.2 !! l) as Hm.
  { intros l Hl'. apply (fr_mem _ _ _ F). rewrite fmap_app in Hl'. set_solver. }
  assert (NoDup (concat (item_locs <$> (its ++ [it])))) as Hnd'.
  { rewrite fmap_app, concat_app. simpl. exact Hnd. }
  split_and!; [split | apply (fr_allocs _ _ _ F) |].
  - apply (fr_wf _ _ _ F), (lr_wf _ _ H).
  - done.
  - rewrite fmap_app. exact Hl.
  - done.
  - intros it' Hin. assert (item_ok s it') as [O1 [O2 O3]].
    { apply elem_of_app in Hin as [?|?%list_elem_of_singleton]; [by apply (lr_items _ _ H) | by subst]. }
    split; [exact (eq_trans (fr_data _ _ _ F (LNode (it_node it'))) O1)|].
    split; [refine (eq_trans (Hm _ _) O2) | refine (eq_trans (Hm _ _) O3)];
      intros Hn; (eapply not_node_loc; [exact Hnd' | exact Hin | | exact Hn]); set_solver.
  - intros l Hl'. apply Hm. intros Hn. apply Hl'. by eapply elem_of_sublist; [|apply nodes_sublist].
Qed.

(** Nothing is taken from an empty list. *)
Lemma recv_return_empty s :
  list_rep s [] -> recv_data_list_return_data s = Ok (None, s).
Proof.
  intros H. unfold recv_data_list_return_data. rewrite (lock_run s [] H). cbn [res_bind].
  rewrite decide_True by by apply (list_rep_head _ _ H). by rewrite (unlock_locked s []).
Qed.

(** The first element is taken out: its node is freed, its data stays. *)
Lemma recv_return_spec s it its :
  list_rep s (it :: its) ->
  exists s', recv_data_list_return_data s = Ok (Some (it_data it), s') /\ list_rep s' its /\
    payload_ok s'.2 it /\ mem s'.2 !! it_node it = None /\ allocs s'.2 = allocs s.2 /\
    (forall l, l ∉ concat (item_locs <$> (it :: its)) -> mem s'.2 !! l = mem s.2 !! l).
Proof.
  intros H. unfold recv_data_list_return_data. rewrite (lock_run s _ H). cbn [res_bind].
  set (s0 := (mkList (recv_data_head s.1) true, s.2)).
  assert (next (recv_data_head s0.1) = LNode (it_node it)) as En.
  { pose proof (lr_linked _ _ H) as [E _]. unfold nx_of in E. simpl in E. by injection E. }
  rewrite En, decide_False by done.
  destruct (lr_items _ _ H it) as [(n & Hn & Hd)%fmap_Some Hpay]; [left|].
  rewrite (node_at_of s0 _ n) by exact Hn. cbn [res_bind].
  destruct (unlink_free s0 (it_node it) (it_node <$> its) n) as
    (s1 & s2 & E1 & E2 & Hl & Hfree & Hwf & Hm & Hdata & _ & Hal).
  { apply (lr_linked _ _ H). }
  { apply (list_rep_nodes _ _ H). }
  { exact Hn. }
  { apply (lr_wf _ _ H). }
  rewrite E1. cbn [res_bind]. rewrite E2. cbn [res_bind]. rewrite <- Hd.
  exists (unlock_list s2). split; [done|].
  assert (forall it', it' ∈ it :: its -> forall l, l ∈ [it_data it'; it_bytes it'] ->
    mem s2.2 !! l = mem s.2 !! l) as Hkeep.
  { intros it' Hin l Hl'. apply Hm. intros Hn'. eapply (not_node_loc (it :: its)); eauto using lr_nodup. }
  pose proof (lr_nodup _ _ H) as Hnd. simpl in Hnd.
  split_and!; [split|..].
  - done.
  - done.
  - exact Hl.
  - eapply sublist_NoDup; [exact Hnd|]. by do 3 apply sublist_cons.
  - intros it' Hin. destruct (lr_items _ _ H it') as [O1 [O2 O3]]; [by right|].
    split; [|split].
    + refine (eq_trans (Hdata _ _) O1). intros E. pose proof (list_rep_nodes _ _ H) as N.
      apply NoDup_cons in N as [N _]. apply N. rewrite <- E. apply list_elem_of_fmap. eauto.
    + refine (eq_trans (Hkeep it' _ _ _) O2); [by right | left].
    + refine (eq_trans (Hkeep it' _ _ _) O3); [by right | right; left].
  - destruct Hpay as [O2 O3]. split.
    + refine (eq_trans (Hkeep it _ _ _) O2); left.
    + refine (eq_trans (Hkeep it _ _ _) O3); [left | right; left].
  - done.
  - done.
  - intros l Hl'. apply Hm. intros Hn'. apply Hl'.
    by eapply (elem_of_sublist _ _ _ Hn'), (nodes_sublist (it :: its)).
Qed.

(** Freeing the data of an element. *)
Lemma free_recv_data_spec h it :
  heap_wf h -> payload_ok h it -> it_data it <> it_bytes it ->
  exists h', free_recv_data_t (Some (it_data it)) h = Ok h' /\ heap_wf h' /\ allocs h' = allocs h /\
    mem h' = delete (it_data it) (delete (it_bytes it) (mem h)).
Proof.
  intros Hwf [Hd Hb] Hne. unfold free_recv_data_t.
  cbn [the_recv_data]. unfold load_block. rewrite Hd. cbn [res_bind rd_data].
  destruct (free_spec _ _ _ Hwf Hb) as (h1 & -> & Hwf1 & Hm1 & Ha1). cbn [res_bind].
  destruct (free_spec (it_data it) h1 (BRecvData (mkRecvData (zlen (it_payload it)) (Some (it_bytes it))))) as
    (h2 & -> & Hwf2 & Hm2 & Ha2); [done | by rewrite Hm1, lookup_delete_ne |].
  exists h2. split_and!; [done..| congruence | congruence].
Qed.

Lemma deinit_loop_nil fuel s :
  linked (nx_of s) (pv_of s) LHead [] LHead -> deinit_loop fuel s = Ok s.
Proof.
  intros [E _]. unfold nx_of in E. simpl in E. injection E as E.
  destruct fuel; cbn [deinit_loop]; by rewrite decide_True.
Qed.

(** What an element leaves behind when its three blocks are gone. *)
Lemma freed_locs it its l (m0 m1 m2 : gmap loc block) :
  m1 = delete (it_data it) (delete (it_bytes it) m0) -> m2 !! it_node it = None ->
  (forall x, x ∉ it_node it :: (it_node <$> its) -> m2 !! x = m1 !! x) ->
  l ∉ concat (item_locs <$> its) -> m2 !! l = if decide (l ∈ item_locs it) then None else m0 !! l.
Proof.
  intros -> Hx Hm Hl.
  assert (l ∉ it_node <$> its) as Hn by (intros Hn; apply Hl; by eapply elem_of_sublist; [|apply nodes_sublist]).
  destruct (decide (l = it_node it)) as [->|Hne]; [by rewrite decide_True by (left)|].
  rewrite Hm by (by apply not_elem_of_cons). unfold item_locs.
  destruct (decide _) as [Hi|Hi]; rewrite ?elem_of_cons, ?elem_of_nil in Hi.
  - rewrite lookup_delete_None, lookup_delete_None. naive_solver.
  - rewrite !lookup_delete_ne by naive_solver. done.
Qed.

(** One turn of the loop takes the first element out and frees its blocks. *)
Lemma deinit_turn fuel s it its :
  linked (nx_of s) (pv_of s) LHead (it_node <$> it :: its) LHead -> heap_wf s.2 ->
  NoDup (concat (item_locs <$> it :: its)) -> (forall it', it' ∈ it :: its -> item_ok s it') ->
  exists s', deinit_loop (S fuel) s = deinit_loop fuel s' /\
    linked (nx_of s') (pv_of s') LHead (it_node <$> its) LHead /\ heap_wf s'.2 /\
    (forall it', it' ∈ its -> item_ok s' it') /\
    recv_data_list_mutex s'.1 = recv_data_list_mutex s.1 /\ allocs s'.2 = allocs s.2 /\
    (forall l, l ∉ concat (item_locs <$> its) ->
       mem s'.2 !! l = if decide (l ∈ item_locs it) then None else mem s.2 !! l).
Proof.
  intros Hl Hwf Hnd Hit. pose proof Hl as [E _]. unfold nx_of in E. simpl in E. injection E as En.
  cbn [deinit_loop]. rewrite En, decide_False by done.
  destruct (Hit it) as [(n & Hn & Hd)%fmap_Some Hpay]; [left|].
  rewrite (node_at_of s _ n) by exact Hn. cbn [res_bind]. rewrite <- Hd.
  pose proof Hnd as Hnd0. simpl in Hnd0. apply NoDup_cons in Hnd0 as [N1 Hnd0].
  apply NoDup_cons in Hnd0 as [N2 Hnd0]. apply NoDup_cons in Hnd0 as [N3 _].
  destruct (free_recv_data_spec s.2 it Hwf Hpay) as (h & -> & Hwf1 & Ha1 & Hm1); [set_solver|]. cbn [res_bind].
  assert (forall l, l <> it_data it -> l <> it_bytes it -> mem h !! l = mem s.2 !! l) as Hh.
  { intros l ? ?. by rewrite Hm1, !lookup_delete_ne. }
  assert (forall p, p = LHead \/ (exists l, p = LNode l /\ l ∈ it_node <$> (it :: its)) ->
    node_of (s.1, h) p = node_of s p) as Hnode.
  { intros p [->|(l & -> & Hin)]; simpl; [done|]. rewrite Hh; [done | |]; intros ->;
      (eapply (not_node_loc (it :: its) it); [exact Hnd | left | | exact Hin]); set_solver. }
  destruct (unlink_free (s.1, h) (it_node it) (it_node <$> its) n) as
    (s1 & s2 & E1 & E2 & Hl2 & Hfree & Hwf2 & Hm2 & Hdata & Hmu & Hal).
  { eapply linked_ext; [| |exact Hl]; intros p Hp; unfold nx_of, pv_of; by rewrite Hnode. }
  { eapply sublist_NoDup; [exact Hnd|]. apply (nodes_sublist (it :: its)). }
  { rewrite Hnode; [exact Hn|]. right. eexists. split; [done | left]. }
  { done. }
  rewrite E1. cbn [res_bind]. rewrite E2. cbn [res_bind]. exists s2. simpl in Hmu, Hal, Hm2.
  split_and!; [done | done | done | | done | congruence | intros l; by apply (freed_locs it its l _ (mem h))].
  intros it' Hin. destruct (Hit it') as [O1 [O2 O3]]; [by right|].
  assert (forall l, l ∈ [it_data it'; it_bytes it'] -> mem s2.2 !! l = mem s.2 !! l) as Hk.
  { intros l Hl'. assert (l ∈ concat (item_locs <$> its)) as Hc by (eapply elem_item_locs; [done | by right]).
    rewrite Hm2; [apply Hh; set_solver|]. intros Hn'. eapply (not_node_loc (it :: its) it'); [exact Hnd | by right | done | done]. }
  split; [|split; (rewrite Hk; [done | set_solver])].
  rewrite Hdata.
  - rewrite Hnode; [exact O1|]. right. eexists. split; [done|]. right. apply list_elem_of_fmap. eauto.
  - intros Eq. apply N1. do 2 right. eapply elem_item_locs; [exact Hin|]. rewrite <- Eq. left.
Qed.

Lemma deinit_loop_spec fuel s its :
  linked (nx_of s) (pv_of s) LHead (it_node <$> its) LHead -> heap_wf s.2 ->
  NoDup (concat (item_locs <$> its)) -> (forall it, it ∈ its -> item_ok s it) ->
  (length its <= fuel)%nat ->
  exists s', deinit_loop fuel s = Ok s' /\
    linked (nx_of s') (pv_of s') LHead [] LHead /\ heap_wf s'.2 /\
    recv_data_list_mutex s'.1 = recv_data_list_mutex s.1 /\ allocs s'.2 = allocs s.2 /\
    (forall l, mem s'.2 !! l = if decide (l ∈ concat (item_locs <$> its)) then None else mem s.2 !! l).
Proof.
  revert s its. induction fuel as [|fuel IH]; intros s its Hl Hwf Hnd Hit Hf;
    (destruct its as [|it its]; [exists s; split; [by apply deinit_loop_nil|]; by split_and!|]);
    [simpl in Hf; lia|].
  destruct (deinit_turn fuel s it its Hl Hwf Hnd Hit) as (s1 & -> & Hl1 & Hwf1 & Hit1 & Hmu & Hal & Hm1).
  destruct (IH s1 its) as (s' & E' & L' & W' & M' & A' & Hm'); try done.
  { cbn [fmap list_fmap concat] in Hnd. by apply NoDup_app in Hnd as (_ & _ & ?). }
  { simpl in Hf. lia. }
  exists s'. split_and!; [done..| congruence | congruence |]. intros l. rewrite Hm'.
  change (concat (item_locs <$> it :: its)) with (item_locs it ++ concat (item_locs <$> its)).
  destruct (decide (l ∈ concat (item_locs <$> its))) as [Hin|Hin].
  - by rewrite decide_True by (apply elem_of_app; by right).
  - rewrite Hm1 by done. destruct (decide (l ∈ item_locs it)) as [Hi|Hi].
    + by rewrite decide_True by (apply elem_of_app; by left).
    + rewrite decide_False; [done|]. intros [?|?]%elem_of_app; done.
Qed.

Lemma nodes_bound s its : list_rep s its -> (length its <= size (mem s.2))%nat.
Proof.
  intros H. rewrite <- (length_fmap it_node), <- size_dom.
  rewrite <- (size_list_to_set (C := gset loc)) by apply (list_rep_nodes _ _ H).
  apply subseteq_size. intros x. rewrite elem_of_list_to_set, list_elem_of_fmap.
  intros (it & -> & Hin). destruct (lr_items _ _ H it Hin) as [(n & Hn & _)%fmap_Some _].
  apply elem_of_dom. simpl in Hn. destruct (mem s.2 !! it_node it); [eauto | done].
Qed.

(** Emptying the list frees the three blocks of every element and nothing else. *)
Lemma recv_deinit_spec s its :
  list_rep s its ->
  exists s', recv_data_list_deinit s = Ok s' /\ list_rep s' [] /\ allocs s'.2 = allocs s.2 /\
    (forall l, mem s'.2 !! l = if decide (l ∈ concat (item_locs <$> its)) then None else mem s.2 !! l).
Proof.
  intros H. unfold recv_data_list_deinit. rewrite (lock_run s its H). cbn [res_bind snd].
  destruct (deinit_loop_spec (S (size (mem s.2))) (mkList (recv_data_head s.1) true, s.2) its) as
    (s' & -> & L & W & _ & A & Hm).
  { apply (lr_linked _ _ H). }
  { apply (lr_wf _ _ H). }
  { apply (lr_nodup _ _ H). }
  { apply (lr_items _ _ H). }
  { pose proof (nodes_bound s its H). lia. }
  cbn [res_bind]. exists (unlock_list s'). split_and!; [done | split | done | done].
  - done.
  - done.
  - done.
  - constructor.
  - intros ? []%elem_of_nil.
Qed.

(** ** Properties *)

(** C36: the list is a queue of payloads.  Adding a node puts its payload at the
    end; taking returns the oldest payload, frees exactly the node that carried
    it and leaves the rest in order, or returns a null pointer and changes nothing
    when the list is empty; emptying it ends, and frees the three blocks of every
    element and no other block. *)
Theorem recv_list_is_queue (s : lstate) (its : list item) :
  list_rep s its ->
  (forall it, item_ok s it -> NoDup (concat (item_locs <$> its) ++ item_locs it) ->
     exists s', recv_data_list_add (LNode (it_node it)) s = Ok s' /\ list_rep s' (its ++ [it])) /\
  match its with
  | [] => recv_data_list_return_data s = Ok (None, s)
  | it :: its' =>
      exists s', recv_data_list_return_data s = Ok (Some (it_data it), s') /\ list_rep s' its' /\
        payload_ok s'.2 it /\ mem s'.2 !! it_node it = None /\
        (forall l, l ∉ concat (item_locs <$> its) -> mem s'.2 !! l = mem s.2 !! l)
  end /\
  (exists s', recv_data_list_deinit s = Ok s' /\ list_rep s' [] /\
     forall l, mem s'.2 !! l = if decide (l ∈ concat (item_locs <$> its)) then None else mem s.2 !! l).
Proof.
  intros H. split_and!.
  - intros it Hit Hnd. destruct (recv_add_spec s its it H Hit Hnd) as (s' & ? & ? & _). eauto.
  - destruct its as [|it its']; [by apply recv_return_empty|].
    destruct (recv_return_spec s it its' H) as (s' & ? & ? & ? & ? & _ & ?). eauto 10.
  - destruct (recv_deinit_spec s its H) as (s' & ? & ? & _ & ?). eauto.
Qed.

(** A list of one element, as the thread that receives builds it. *)
Definition demo_item : item := mkItem 2 1 0 [104; 105].
Definition demo_heap : heap := mkHeap
  {[ 0%nat := BBytes [104; 105]; 1%nat := BRecvData (mkRecvData 2 (Some 0%nat));
     2%nat := BNode (mkNode (Some 1%nat) LNull LNull) ]} 3.

Lemma demo_heap_wf : heap_wf demo_heap.
Proof.
  intros l Hl. simpl in *. rewrite !lookup_insert_ne by lia. apply lookup_singleton_ne. lia.
Qed.

Lemma recv_list_is_queue_witness :
  exists s s', recv_data_list_add (LNode 2) (recv_data_list_init recv_list_zero, demo_heap) = Ok s /\
    recv_data_list_return_data s = Ok (Some 1%nat, s') /\ mem s'.2 !! 2%nat = None.
Proof.
  destruct (recv_list_is_queue _ [] (list_rep_init demo_heap demo_heap_wf)) as (Hadd & _).
  destruct (Hadd demo_item) as (s & E & Hs).
  - split; [reflexivity | split; reflexivity].
  - apply (bool_decide_unpack _). vm_compute. exact I.
  - destruct (recv_list_is_queue s [demo_item] Hs) as (_ & (s' & E' & _ & _ & Hm & _) & _).
    exists s, s'. split; [exact E|]. split; [exact E' | exact Hm].
Defined.
