(* ===== verification/SendFifo.v ===== *)
(** * The queue of commands to send (API/C/netWork.h)

    [net_work_send_command_fifo_t] is a circular array of 8192 commands, each a
    block on the heap and its size.  [push] frees what the slot pointed to before,
    [pop] frees the block of the command but leaves the pointer in its slot.
    [send_rep] says what the array stands for while no slot was used twice. *)

From S2P Require Import Prelude Ring Heap RecvList.

Definition NET_SEND_COMMAND_NUM : Z := 8192.

Record net_work_command_t := mkCommand { cmd_data : ptr; cmd_size : Z }.

Record net_work_send_command_fifo_t := mkSendFifo {
  sf_command : list net_work_command_t;
  sf_r_ptr : Z;
  sf_w_ptr : Z;
  sf_num : Z;
  send_data_fifo_mutex : pthread_mutex_t
}.

(** The memory of the structure after [calloc]. *)
Definition send_fifo_zero : net_work_send_command_fifo_t :=
  mkSendFifo (replicate (Z.to_nat NET_SEND_COMMAND_NUM) (mkCommand None 0)) 0 0 0 false.

Definition send_command_fifo_init (fifo : net_work_send_command_fifo_t) : net_work_send_command_fifo_t :=
  mkSendFifo (sf_command fifo) 0 0 0 false.

Definition send_command_fifo_push (fifo : net_work_send_command_fifo_t) (d : ptr) (size : Z) (h : heap) :
    res (net_work_send_command_fifo_t * heap) :=
  let* m := pthread_mutex_lock (send_data_fifo_mutex fifo) in
  let* old := get_at (sf_command fifo) (sf_w_ptr fifo) in
  let* h := (match cmd_data old with Some _ => free (cmd_data old) h | None => Ok h end) in
  let* c := set_at (sf_command fifo) (sf_w_ptr fifo) (mkCommand d size) in
  let w := advance NET_SEND_COMMAND_NUM (sf_w_ptr fifo) in
  let* n := add32 (sf_num fifo) 1 in
  Ok (mkSendFifo c (sf_r_ptr fifo) w n (pthread_mutex_unlock m), h).

Definition send_command_fifo_empty (fifo : net_work_send_command_fifo_t) : bool := sf_num fifo =? 0.
Definition send_command_fifo_length (fifo : net_work_send_command_fifo_t) : Z := sf_num fifo.
Definition send_command_fifo_full (fifo : net_work_send_command_fifo_t) : bool :=
  sf_num fifo =? NET_SEND_COMMAND_NUM.

(** The source unlocks the mutex twice and does not lock it. *)
Definition send_command_fifo_pop (fifo : net_work_send_command_fifo_t) (h : heap) :
    res (net_work_send_command_fifo_t * heap) :=
  let m := pthread_mutex_unlock (send_data_fifo_mutex fifo) in
  let* c := get_at (sf_command fifo) (sf_r_ptr fifo) in
  let* h := free (cmd_data c) h in
  let r := advance NET_SEND_COMMAND_NUM (sf_r_ptr fifo) in
  let* n := add32 (sf_num fifo) (-1) in
  Ok (mkSendFifo (sf_command fifo) r (sf_w_ptr fifo) n (pthread_mutex_unlock m), h).

(** The command the returned pointer designates. *)
Definition send_command_fifo_top (fifo : net_work_send_command_fifo_t) : res net_work_command_t :=
  get_at (sf_command fifo) (sf_r_ptr fifo).

(** The loop of [send_command_fifo_deinit]; every turn pops one command. *)
Fixpoint send_deinit_loop (fuel : nat) (fifo : net_work_send_command_fifo_t) (h : heap) :
    res (net_work_send_command_fifo_t * heap) :=
  if send_command_fifo_empty fifo then Ok (fifo, h)
  else match fuel with
       | O => Err OutOfFuel
       | S fuel =>
           let* _ := send_command_fifo_top fifo in
           let* (fifo, h) := send_command_fifo_pop fifo h in
           send_deinit_loop fuel fifo h
       end.

Definition send_command_fifo_deinit (fifo : net_work_send_command_fifo_t) (h : heap) :
    res (net_work_send_command_fifo_t * heap) :=
  send_deinit_loop (Z.to_nat (sf_num fifo)) fifo h.

(** ** Specification *)

(** A queued command: the address of its block and the bytes in it. *)
Abbreviation command := (loc * list Z)%type.
Definition slot_of (c : command) : net_work_command_t := mkCommand (Some c.1) (zlen c.2).

(** [k] commands were pushed since the array was initialised, [q] are queued. *)
Record send_rep (fifo : net_work_send_command_fifo_t) (h : heap) (k : Z) (q : list command) : Prop := {
  sr_ring : ring NET_SEND_COMMAND_NUM (sf_command fifo) (sf_r_ptr fifo) (sf_w_ptr fifo) (slot_of <$> q);
  sr_num : sf_num fifo = zlen q;
  sr_mutex : send_data_fifo_mutex fifo = false;
  sr_count : zlen q <= k <= NET_SEND_COMMAND_NUM;
  sr_w : sf_w_ptr fifo = k mod NET_SEND_COMMAND_NUM;
  sr_fresh i : k <= i < NET_SEND_COMMAND_NUM -> sf_command fifo !! Z.to_nat i = Some (mkCommand None 0);
  sr_stale i : 0 <= i < k - zlen q -> exists l n, sf_command fifo !! Z.to_nat i = Some (mkCommand (Some l) n) /\
                 mem h !! l = None /\ (l < allocs h)%nat;
  sr_live c : c ∈ q -> mem h !! c.1 = Some (BBytes c.2);
  sr_nodup : NoDup q.*1;
  sr_wf : heap_wf h
}.

(** ** Lemmas *)

Lemma send_rep_init h : heap_wf h -> send_rep (send_command_fifo_init send_fifo_zero) h 0 [].
Proof.
  intros Hwf. unfold send_fifo_zero, send_command_fifo_init. cbn [sf_command].
  assert (zlen (replicate (Z.to_nat NET_SEND_COMMAND_NUM) (mkCommand None 0)) = NET_SEND_COMMAND_NUM) as Hz.
  { unfold zlen. rewrite length_replicate. done. }
  split.
  - apply (ring_empty NET_SEND_COMMAND_NUM _ 0); done.
  - done.
  - done.
  - done.
  - done.
  - intros i Hi. cbn [sf_command]. apply lookup_replicate_2. unfold NET_SEND_COMMAND_NUM in *. lia.
  - intros i [Hi1 Hi2]. exfalso. zlia.
  - by intros c ?%elem_of_nil.
  - constructor.
  - done.
Qed.

(** The queue does not depend on the rest of the heap. *)
Lemma send_rep_frame fifo h h' k q :
  send_rep fifo h k q -> heap_wf h' -> (allocs h <= allocs h')%nat ->
  (forall c, c ∈ q -> mem h' !! c.1 = mem h !! c.1) ->
  (forall l, (l < allocs h)%nat -> mem h !! l = None -> mem h' !! l = None) ->
  send_rep fifo h' k q.
Proof.
  intros [H1 H2 H3 H4 H5 H6 H7 H8 H9 H10] Hwf Hal Hq Hdead. split; try done.
  - intros i Hi. destruct (H7 i Hi) as (l & n & ? & ? & ?). exists l, n. split_and!; auto. lia.
  - intros c Hc. rewrite Hq by done. auto.
Qed.

Lemma send_push_spec fifo h k q l d :
  send_rep fifo h k q -> k < NET_SEND_COMMAND_NUM -> mem h !! l = Some (BBytes d) -> l ∉ q.*1 ->
  exists fifo', send_command_fifo_push fifo (Some l) (zlen d) h = Ok (fifo', h) /\
    send_rep fifo' h (k + 1) (q ++ [(l, d)]).
Proof.
  intros [H1 H2 H3 H4 H5 H6 H7 H8 H9 H10] Hk Hl Hn. unfold send_command_fifo_push.
  pose proof (ring_w_range _ _ _ _ _ H1) as Hw.
  assert (0 <= k) as Hk0 by zlia. rewrite Z.mod_small in H5 by lia.
  rewrite H3. cbn [pthread_mutex_lock res_bind].
  rewrite (get_at_ok _ _ (mkCommand None 0)); [|lia | rewrite H5; apply H6; lia].
  cbn [res_bind cmd_data].
  destruct (ring_push _ _ _ _ _ (mkCommand (Some l) (zlen d)) H1) as (c & Ec & Hr).
  { unfold zlen in *. rewrite length_fmap. lia. }
  rewrite Ec. cbn [res_bind]. unfold NET_SEND_COMMAND_NUM in *.
  rewrite add32_ok by (rewrite H2; zlia). cbn [res_bind]. eexists. split; [done|].
  assert (c = <[Z.to_nat (sf_w_ptr fifo) := mkCommand (Some l) (zlen d)]> (sf_command fifo)) as ->.
  { unfold set_at in Ec. case_match; [by injection Ec as <- | done]. }
  split; simpl; unfold NET_SEND_COMMAND_NUM in *.
  - by rewrite fmap_app.
  - rewrite H2. zlia.
  - done.
  - zlia.
  - rewrite H5, advance_mod by lia. done.
  - intros i Hi. rewrite list_lookup_insert_ne by lia. apply H6. lia.
  - intros i Hi. rewrite list_lookup_insert_ne by zlia. apply H7. zlia.
  - intros x [Hx|Hx%list_elem_of_singleton]%elem_of_app; [by apply H8 | by subst].
  - rewrite fmap_app. apply NoDup_app. split_and!; [done | | apply NoDup_singleton].
    intros x Hx Hx'%list_elem_of_singleton. simpl in Hx'. congruence.
  - done.
Qed.

Lemma send_pop_spec fifo h k c q :
  send_rep fifo h k (c :: q) ->
  exists fifo' h', send_command_fifo_pop fifo h = Ok (fifo', h') /\ send_rep fifo' h' k q /\
    mem h' = delete c.1 (mem h) /\ allocs h' = allocs h.
Proof.
  intros [H1 H2 H3 H4 H5 H6 H7 H8 H9 H10]. unfold send_command_fifo_pop.
  pose proof (ring_top _ _ _ _ _ _ H1) as Ht. rewrite Ht. cbn [res_bind slot_of cmd_data].
  assert (mem h !! c.1 = Some (BBytes c.2)) as Hc by (apply H8; left).
  destruct (free_spec _ _ _ H10 Hc) as (h' & -> & Hwf & Hm & Ha). cbn [res_bind].
  unfold NET_SEND_COMMAND_NUM in *. rewrite zlen_cons in H2, H4.
  rewrite add32_ok by (rewrite H2; zlia). cbn [res_bind]. eexists _, h'. split; [done|].
  simpl in H9. apply NoDup_cons in H9 as [N1 N2].
  pose proof (ring_r _ _ _ _ _ H1) as Hr.
  assert (sf_r_ptr fifo = k - (1 + zlen q)) as Er.
  { pose proof (ring_w _ _ _ _ _ H1) as Ew. 
    assert (zlen (slot_of <$> c :: q) = 1 + zlen q) as El by (unfold zlen; rewrite length_fmap; simpl; lia).
    rewrite H5, El in Ew. pose proof (zlen_nonneg q).
    assert ((k - (sf_r_ptr fifo + (1 + zlen q))) mod 8192 = 0) as Hz.
    { rewrite Zminus_mod, Ew, Z.sub_diag. done. }
    apply Z.mod_divide in Hz as [j Hj]; [|lia].
    assert (-8192 < k - (1 + zlen q) - sf_r_ptr fifo < 8192) as Hb by lia. lia. }
  split_and!; [split; simpl; unfold NET_SEND_COMMAND_NUM in * | done | done].
  - eapply ring_pop. exact H1.
  - lia.
  - done.
  - zlia.
  - done.
  - done.
  - intros i Hi. destruct (decide (i = k - (1 + zlen q))) as [->|Hne].
    + exists c.1, (zlen c.2). split_and!.
      * rewrite <- Er. unfold get_at in Ht. case_match; [|done].
        destruct (sf_command fifo !! Z.to_nat (sf_r_ptr fifo)); [|done]. by injection Ht as ->.
      * rewrite Hm. apply lookup_delete_eq.
      * rewrite Ha. by eapply heap_wf_lt.
    + destruct (H7 i) as (l & n & ? & ? & ?); [rewrite zlen_cons; lia|].
      exists l, n. split_and!; [done | | by rewrite Ha].
      rewrite Hm. apply lookup_delete_None. by right.
  - intros x Hx. rewrite Hm, lookup_delete_ne.
    + apply H8. by right.
    + intros E. apply N1. rewrite E. apply list_elem_of_fmap. eauto.
  - done.
  - done.
Qed.

Lemma send_top_spec fifo h k c q :
  send_rep fifo h k (c :: q) -> send_command_fifo_top fifo = Ok (slot_of c).
Proof. intros H. eapply ring_top, (sr_ring _ _ _ _ H). Qed.

Lemma send_deinit_spec fifo h k q :
  send_rep fifo h k q ->
  exists fifo' h', send_command_fifo_deinit fifo h = Ok (fifo', h') /\ send_rep fifo' h' k [] /\
    (forall l, mem h' !! l = if decide (l ∈ q.*1) then None else mem h !! l) /\ allocs h' = allocs h.
Proof.
  intros H. unfold send_command_fifo_deinit. rewrite (sr_num _ _ _ _ H). unfold zlen.
  rewrite Nat2Z.id. revert fifo h H. induction q as [|c q IH]; intros fifo h H.
  - exists fifo, h. cbn [length send_deinit_loop]. unfold send_command_fifo_empty.
    rewrite (sr_num _ _ _ _ H). done.
  - cbn [length send_deinit_loop]. unfold send_command_fifo_empty.
    rewrite (sr_num _ _ _ _ H), zlen_cons. bool_lia.
    rewrite (send_top_spec _ _ _ _ _ H). cbn [res_bind].
    destruct (send_pop_spec _ _ _ _ _ H) as (f1 & h1 & -> & H1 & Hm1 & Ha1). cbn [res_bind].
    destruct (IH f1 h1 H1) as (f2 & h2 & -> & H2 & Hm2 & Ha2). exists f2, h2.
    split_and!; [done..| | congruence].
    intros l. rewrite Hm2, Hm1. destruct (decide (l ∈ q.*1)).
    + rewrite decide_True; [done|]. by right.
    + destruct (decide (l = c.1)) as [->|].
      * rewrite lookup_delete_eq, decide_True; [done | left].
      * rewrite lookup_delete_ne, decide_False; [done | | done]. simpl. rewrite elem_of_cons. naive_solver.
Qed.

(** ** Properties *)

(** C35: while at most 8192 commands were pushed in the life of the array, it is a
    queue: a push appends, the top is the oldest command with its bytes intact, a
    pop removes it and frees its block once, and the final cleanup frees exactly
    the blocks that are still queued. *)
Theorem send_fifo_is_queue (fifo : net_work_send_command_fifo_t) (h : heap) (k : Z) (q : list command) :
  send_rep fifo h k q ->
  (forall l d, k < 8192 -> mem h !! l = Some (BBytes d) -> l ∉ q.*1 ->
     exists fifo', send_command_fifo_push fifo (Some l) (zlen d) h = Ok (fifo', h) /\
       send_rep fifo' h (k + 1) (q ++ [(l, d)])) /\
  (forall l d q', q = (l, d) :: q' ->
     send_command_fifo_top fifo = Ok (mkCommand (Some l) (zlen d)) /\ the_bytes (Some l) h = Ok d /\
     exists fifo' h', send_command_fifo_pop fifo h = Ok (fifo', h') /\ send_rep fifo' h' k q' /\
       mem h' = delete l (mem h)) /\
  (exists fifo' h', send_command_fifo_deinit fifo h = Ok (fifo', h') /\ sf_num fifo' = 0 /\
     forall l, mem h' !! l = if decide (l ∈ q.*1) then None else mem h !! l).
Proof.
  intros H. split_and!.
  - intros l d Hk Hl Hn. by apply send_push_spec.
  - intros l d q' ->. split_and!; [by eapply (send_top_spec _ _ _ (l, d)) | |].
    + cbn [the_bytes]. unfold load_block.
      assert (mem h !! l = Some (BBytes d)) as -> by (apply (sr_live _ _ _ _ H (l, d)); left). done.
    + destruct (send_pop_spec _ _ _ _ _ H) as (f & h' & ? & ? & ? & _). eauto 10.
  - destruct (send_deinit_spec _ _ _ _ H) as (f & h' & E & Hr & Hm & _). exists f, h'.
    split_and!; [done | apply (sr_num _ _ _ _ Hr) | done].
Qed.

(** The command after the 8192nd frees a block a second time, as soon as one
    command was taken out: [pop] frees the block of a command but leaves its
    address in the slot, and the next push to the slot frees it again. *)
Lemma send_fifo_double_free (fifo : net_work_send_command_fifo_t) (h : heap) (q : list command)
    (p : ptr) (size : Z) :
  send_rep fifo h 8192 q -> zlen q < 8192 ->
  send_command_fifo_push fifo p size h = Err BadFree.
Proof.
  intros [H1 H2 H3 H4 H5 H6 H7 H8 H9 H10] Hq. unfold send_command_fifo_push.
  destruct (H7 0) as (l & n & Hs & Hd & _); [lia|].
  change (8192 mod NET_SEND_COMMAND_NUM) with 0 in H5.
  rewrite H3. cbn [pthread_mutex_lock res_bind]. rewrite H5, (get_at_ok _ _ _ (Z.le_refl 0) Hs).
  cbn [res_bind cmd_data free]. by rewrite Hd.
Qed.

(** [pop] does not take the mutex: while another thread is inside [push] and
    holds it, [pop] goes on, and it releases the mutex the other thread holds. *)
Lemma pop_ignores_mutex (fifo : net_work_send_command_fifo_t) (h : heap) (k : Z) c q :
  send_rep fifo h k (c :: q) ->
  let held := mkSendFifo (sf_command fifo) (sf_r_ptr fifo) (sf_w_ptr fifo) (sf_num fifo) true in
  exists fifo' h', send_command_fifo_pop held h = Ok (fifo', h') /\ send_data_fifo_mutex fifo' = false.
Proof.
  intros H held. destruct (send_pop_spec _ _ _ _ _ H) as (f & h' & E & Hr & _).
  exists f, h'. split; [exact E | apply (sr_mutex _ _ _ _ Hr)].
Qed.

(** Runs of pushes and pops, for the examples. *)
Definition push_bytes (d : list Z) (s : net_work_send_command_fifo_t * heap) :
    res (net_work_send_command_fifo_t * heap) :=
  let l := allocs s.2 in
  send_command_fifo_push s.1 (Some l) (zlen d) (mkHeap (<[l := BBytes d]> (mem s.2)) (S l)).

Lemma push_bytes_spec fifo h k q d :
  send_rep fifo h k q -> k < 8192 ->
  exists fifo' h', push_bytes d (fifo, h) = Ok (fifo', h') /\ send_rep fifo' h' (k + 1) (q ++ [(allocs h, d)]).
Proof.
  intros H Hk. unfold push_bytes. simpl. set (h' := mkHeap _ _).
  assert (mem h !! allocs h = None) as Hf by (apply (sr_wf _ _ _ _ H); lia).
  assert (allocs h ∉ q.*1) as Hn.
  { intros ([l d'] & E & Hin)%list_elem_of_fmap. simpl in E. subst l.
    pose proof (sr_live _ _ _ _ H _ Hin) as E. simpl in E. congruence. }
  assert (send_rep fifo h' k q) as H'.
  { eapply send_rep_frame; [exact H | | simpl; lia | |].
    - intros l Hl. simpl in *. rewrite lookup_insert_ne by lia. apply (sr_wf _ _ _ _ H). lia.
    - intros c Hc. simpl. rewrite lookup_insert_ne; [done|]. intros E. apply Hn. rewrite E.
      apply list_elem_of_fmap. eauto.
    - intros l Hl Hd. simpl. rewrite lookup_insert_ne by lia. done. }
  destruct (send_push_spec fifo h' k q (allocs h) d H' Hk) as (f & E & Hr); [|done|eauto].
  simpl. apply lookup_insert_eq.
Qed.

(** [n] times: push a command and pop it. *)
Lemma push_pop_many n fifo h k :
  send_rep fifo h k [] -> k + Z.of_nat n <= 8192 ->
  exists fifo' h', send_rep fifo' h' (k + Z.of_nat n) [].
Proof.
  revert fifo h k. induction n as [|n IH]; intros fifo h k H Hk.
  - exists fifo, h. by rewrite Z.add_0_r.
  - destruct (push_bytes_spec fifo h k [] [7] H) as (f1 & h1 & _ & H1); [lia|].
    destruct (send_pop_spec _ _ _ _ _ H1) as (f2 & h2 & _ & H2 & _).
    destruct (IH f2 h2 (k + 1) H2) as (f & h' & H'); [lia|].
    exists f, h'. by replace (k + Z.of_nat (S n)) with (k + 1 + Z.of_nat n) by lia.
Qed.

Lemma send_fifo_is_queue_witness :
  exists fifo h fifo' h',
    push_bytes [7] (send_command_fifo_init send_fifo_zero, heap0) = Ok (fifo, h) /\
    send_command_fifo_pop fifo h = Ok (fifo', h') /\ mem h' = delete 0%nat (mem h).
Proof.
  destruct (push_bytes_spec _ _ _ _ [7] (send_rep_init heap0 heap0_wf)) as (f & h & E & Hr); [lia|].
  destruct (send_fifo_is_queue f h 1 [(0%nat, [7])] Hr) as (_ & Hp & _).
  destruct (Hp 0%nat [7] [] eq_refl) as (_ & _ & f' & h' & E' & _ & Hm).
  exists f, h, f', h'. split; [exact E|]. split; [exact E' | exact Hm].
Defined.

Lemma send_fifo_double_free_witness :
  exists fifo h, send_rep fifo h 8192 [] /\ send_command_fifo_push fifo None 0 h = Err BadFree.
Proof.
  destruct (push_pop_many (Z.to_nat 8192) _ _ _ (send_rep_init heap0 heap0_wf)) as (f & h & H); [lia|].
  exists f, h. split; [exact H|]. apply (send_fifo_double_free f h [] None 0); [exact H | reflexivity].
Defined.

Lemma pop_ignores_mutex_witness :
  exists fifo h fifo' h', send_data_fifo_mutex fifo = true /\
    send_command_fifo_pop fifo h = Ok (fifo', h') /\ send_data_fifo_mutex fifo' = false.
Proof.
  destruct (push_bytes_spec _ _ _ _ [7] (send_rep_init heap0 heap0_wf)) as (f & h & E & Hr); [lia|].
  destruct (pop_ignores_mutex f h 1 (0%nat, [7]) [] Hr) as (f' & h' & E' & Hm).
  eexists _, h, f', h'. split; [|split; [exact E' | exact Hm]]. reflexivity.
Defined.

