(* ===== verification/SendRace.v ===== *)
(** * The queue of commands under concurrent threads (API/C/netWork.h)

    Any number of threads of the program push commands while the sending thread
    pops them.  Here [send_command_fifo_push] and [send_command_fifo_pop] are cut
    into their accesses to memory, which the threads interleave; SendFifo.v has
    them as one step each.  [num++] and [num--] are a load and a store.

    Pushes take the mutex: in every interleaving of pushes they take effect one
    after the other ([pushes_linearize]).  A pop only releases it: between a push
    and a pop an update of [num] is lost ([pop_race_strands_command]). *)

From S2P Require Import Prelude Ring Heap RecvList SendFifo.

Abbreviation fifo_t := net_work_send_command_fifo_t.

Definition set_command c (f : fifo_t) : fifo_t :=
  mkSendFifo c (sf_r_ptr f) (sf_w_ptr f) (sf_num f) (send_data_fifo_mutex f).
Definition set_r_ptr r (f : fifo_t) : fifo_t :=
  mkSendFifo (sf_command f) r (sf_w_ptr f) (sf_num f) (send_data_fifo_mutex f).
Definition set_w_ptr w (f : fifo_t) : fifo_t :=
  mkSendFifo (sf_command f) (sf_r_ptr f) w (sf_num f) (send_data_fifo_mutex f).
Definition set_num n (f : fifo_t) : fifo_t :=
  mkSendFifo (sf_command f) (sf_r_ptr f) (sf_w_ptr f) n (send_data_fifo_mutex f).
Definition set_fifo_mutex m (f : fifo_t) : fifo_t :=
  mkSendFifo (sf_command f) (sf_r_ptr f) (sf_w_ptr f) (sf_num f) m.

(** ** The threads *)

(** The next access of a thread inside [send_command_fifo_push]; [PStore n] has
    the value [n] of [num] in a register. *)
Inductive push_pc :=
  | PLock | PFree | PData | PSize | PAdvance | PLoad | PStore (n : Z) | PUnlock | PDone.

#[global] Instance push_pc_eq_dec : EqDecision push_pc.
Proof. solve_decision. Defined.

(** One access; [None] while the mutex is taken by another thread. *)
Definition push_access (x : command) (pc : push_pc) (f : fifo_t) (h : heap) :
    option (res (push_pc * fifo_t * heap)) :=
  match pc with
  | PLock => if send_data_fifo_mutex f then None else Some (Ok (PFree, set_fifo_mutex true f, h))
  | PFree => Some (
      let* old := get_at (sf_command f) (sf_w_ptr f) in
      let* h := (match cmd_data old with Some _ => free (cmd_data old) h | None => Ok h end) in
      Ok (PData, f, h))
  | PData => Some (
      let* old := get_at (sf_command f) (sf_w_ptr f) in
      let* c := set_at (sf_command f) (sf_w_ptr f) (mkCommand (Some x.1) (cmd_size old)) in
      Ok (PSize, set_command c f, h))
  | PSize => Some (
      let* old := get_at (sf_command f) (sf_w_ptr f) in
      let* c := set_at (sf_command f) (sf_w_ptr f) (mkCommand (cmd_data old) (zlen x.2)) in
      Ok (PAdvance, set_command c f, h))
  | PAdvance => Some (Ok (PLoad, set_w_ptr (advance NET_SEND_COMMAND_NUM (sf_w_ptr f)) f, h))
  | PLoad => Some (Ok (PStore (sf_num f), f, h))
  | PStore n => Some (let* n := add32 n 1 in Ok (PUnlock, set_num n f, h))
  | PUnlock => Some (Ok (PDone, set_fifo_mutex (pthread_mutex_unlock (send_data_fifo_mutex f)) f, h))
  | PDone => None
  end.

(** The same for the sending thread inside [send_command_fifo_pop]. *)
Inductive pop_pc :=
  | SUnlock | SFree | SAdvance | SLoad | SStore (n : Z) | SUnlock2 | SDone.

Definition pop_access (pc : pop_pc) (f : fifo_t) (h : heap) : option (res (pop_pc * fifo_t * heap)) :=
  match pc with
  | SUnlock => Some (Ok (SFree, set_fifo_mutex (pthread_mutex_unlock (send_data_fifo_mutex f)) f, h))
  | SFree => Some (
      let* c := get_at (sf_command f) (sf_r_ptr f) in
      let* h := free (cmd_data c) h in Ok (SAdvance, f, h))
  | SAdvance => Some (Ok (SLoad, set_r_ptr (advance NET_SEND_COMMAND_NUM (sf_r_ptr f)) f, h))
  | SLoad => Some (Ok (SStore (sf_num f), f, h))
  | SStore n => Some (let* n := add32 n (-1) in Ok (SUnlock2, set_num n f, h))
  | SUnlock2 => Some (Ok (SDone, set_fifo_mutex (pthread_mutex_unlock (send_data_fifo_mutex f)) f, h))
  | SDone => None
  end.

(** A thread and the command it pushes. *)
Record pusher := mkPusher { p_cmd : command; p_pc : push_pc }.

Record shared := mkShared {
  pushers : list pusher;
  popper : pop_pc;
  sh_fifo : fifo_t;
  sh_heap : heap
}.

(** The thread [i] makes its next access; the sending thread has no number. *)
Definition access (i : option nat) (s : shared) : option (res shared) :=
  match i with
  | Some i =>
      t ← pushers s !! i;
      r ← push_access (p_cmd t) (p_pc t) (sh_fifo s) (sh_heap s);
      Some (let* (pc, f, h) := r in
            Ok (mkShared (<[i := mkPusher (p_cmd t) pc]> (pushers s)) (popper s) f h))
  | None =>
      r ← pop_access (popper s) (sh_fifo s) (sh_heap s);
      Some (let* (pc, f, h) := r in Ok (mkShared (pushers s) pc f h))
  end.

Inductive sstep : shared -> shared -> Prop :=
  | sstep_intro i s s' : access i s = Some (Ok s') -> sstep s s'.

(** A given interleaving. *)
Fixpoint interleave (sched : list (option nat)) (s : shared) : res shared :=
  match sched with
  | [] => Ok s
  | i :: sched => match access i s with
               | Some r => let* s := r in interleave sched s
               | None => Err Deadlock
               end
  end.

(** Only pushes: the sending thread is not inside [send_command_fifo_pop]. *)
Definition pushing (cmds : list command) (f : fifo_t) (h : heap) : shared :=
  mkShared ((fun x => mkPusher x PLock) <$> cmds) SDone f h.

Definition all_pushed (s : shared) : Prop := Forall (fun t => p_pc t = PDone) (pushers s).

(** ** Lemmas: one push, access by access *)

Definition filled (x : command) (f : fifo_t) : fifo_t :=
  set_command (<[Z.to_nat (sf_w_ptr f) := slot_of x]> (sf_command f)) f.
Definition half_filled (x : command) (f : fifo_t) : fifo_t :=
  set_command (<[Z.to_nat (sf_w_ptr f) := mkCommand (Some x.1) 0]> (sf_command f)) f.
Definition pushed (x : command) (f : fifo_t) : fifo_t :=
  set_num (sf_num f + 1) (set_w_ptr (advance NET_SEND_COMMAND_NUM (sf_w_ptr f)) (filled x f)).

(** What the queue [f] looks like while a push of [x] is under way. *)
Definition partial (pc : push_pc) (x : command) (f : fifo_t) : fifo_t :=
  set_fifo_mutex true
    match pc with
    | PSize => half_filled x f
    | PAdvance => filled x f
    | PLoad | PStore _ => set_w_ptr (advance NET_SEND_COMMAND_NUM (sf_w_ptr f)) (filled x f)
    | PUnlock => pushed x f
    | _ => f
    end.

Definition inside (f : fifo_t) (pc : push_pc) : Prop :=
  match pc with PLock | PDone => False | PStore n => n = sf_num f | _ => True end.

(** The slot a push writes has not been used before. *)
Lemma free_slot f h k q :
  send_rep f h k q -> k < NET_SEND_COMMAND_NUM ->
  0 <= sf_w_ptr f < zlen (sf_command f) /\
  sf_command f !! Z.to_nat (sf_w_ptr f) = Some (mkCommand None 0).
Proof.
  intros [H1 H2 H3 H4 H5 H6 _ _ _ _] Hk. pose proof (ring_w_range _ _ _ _ _ H1) as Hw.
  rewrite (ring_size _ _ _ _ _ H1). split; [done|].
  rewrite H5, Z.mod_small by zlia. apply H6. zlia.
Qed.

Lemma pushed_rep f h k q x :
  send_rep f h k q -> k < NET_SEND_COMMAND_NUM -> mem h !! x.1 = Some (BBytes x.2) -> x.1 ∉ q.*1 ->
  send_rep (pushed x f) h (k + 1) (q ++ [x]).
Proof.
  intros H Hk Hx Hn. destruct x as [l d]. simpl in *.
  destruct (send_push_spec f h k q l d H Hk Hx Hn) as (f' & E & Hr).
  destruct (free_slot f h k q H Hk) as [Hw Hs].
  assert (f' = pushed (l, d) f) as <-; [|done].
  unfold send_command_fifo_push in E. rewrite (sr_mutex _ _ _ _ H) in E.
  cbn [pthread_mutex_lock res_bind] in E. rewrite (get_at_ok _ _ _ (proj1 Hw) Hs) in E.
  cbn [res_bind cmd_data] in E. rewrite set_at_ok in E by done. cbn [res_bind] in E.
  rewrite add32_ok in E.
  - injection E as <-. unfold pushed, filled, set_num, set_w_ptr, set_command. simpl.
    by rewrite (sr_mutex _ _ _ _ H).
  - rewrite (sr_num _ _ _ _ H). pose proof (sr_count _ _ _ _ H). unfold NET_SEND_COMMAND_NUM in *. zlia.
Qed.

(** A push that is under way goes on without an error, and ends with the queue
    [pushed x f] and the mutex free. *)
Lemma push_goes_on f h k q x pc :
  send_rep f h k q -> k < NET_SEND_COMMAND_NUM -> inside f pc ->
  exists pc' f', push_access x pc (partial pc x f) h = Some (Ok (pc', f', h)) /\
    ((inside f pc' /\ f' = partial pc' x f) \/ (pc' = PDone /\ f' = pushed x f)).
Proof.
  intros H Hk Hin. destruct (free_slot f h k q H Hk) as [Hw Hs]. unfold partial.
  assert (forall y, <[Z.to_nat (sf_w_ptr f) := y]> (sf_command f) !! Z.to_nat (sf_w_ptr f) = Some y) as Hy.
  { intros y. apply list_lookup_insert_eq. unfold zlen in Hw. lia. }
  destruct pc; try done; cbn [push_access]; eexists _, _.
  - cbn [sf_command sf_w_ptr set_fifo_mutex]. rewrite (get_at_ok _ _ _ (proj1 Hw) Hs).
    cbn [res_bind cmd_data]. split; [done|]. by left.
  - cbn [sf_command sf_w_ptr set_fifo_mutex]. rewrite (get_at_ok _ _ _ (proj1 Hw) Hs).
    cbn [res_bind]. rewrite set_at_ok by done. cbn [res_bind cmd_size]. split; [done|]. by left.
  - cbn [sf_command sf_w_ptr set_fifo_mutex half_filled set_command].
    rewrite (get_at_ok _ _ _ (proj1 Hw) (Hy _)). cbn [res_bind].
    rewrite set_at_ok by (unfold zlen; rewrite length_insert; exact Hw). cbn [res_bind cmd_data].
    rewrite list_insert_insert_eq. split; [done|]. by left.
  - split; [done|]. by left.
  - split; [done|]. by left.
  - simpl in Hin. subst n. rewrite add32_ok; [split; [done | by left]|].
    rewrite (sr_num _ _ _ _ H). pose proof (sr_count _ _ _ _ H). unfold NET_SEND_COMMAND_NUM in *. zlia.
  - split; [done|]. right. split; [done|]. unfold pushed, filled, set_num, set_w_ptr, set_command, set_fifo_mutex.
    simpl. by rewrite (sr_mutex _ _ _ _ H).
Qed.

Lemma push_starts f h k q x :
  send_rep f h k q -> push_access x PLock f h = Some (Ok (PFree, partial PFree x f, h)).
Proof. intros H. cbn [push_access]. by rewrite (sr_mutex _ _ _ _ H). Qed.

(** While one push is under way no other one starts. *)
Lemma push_waits x pc y f h : push_access x PLock (partial pc y f) h = None.
Proof. done. Qed.

(** ** Lemmas: the threads *)

Abbreviation is_done := (fun t => p_pc t = PDone).
Definition waiting (t : pusher) : Prop := p_pc t = PLock \/ p_pc t = PDone.
Definition finished (ts : list pusher) : list command := p_cmd <$> filter is_done ts.

Lemma finished_other ts i t pc :
  ts !! i = Some t -> p_pc t <> PDone -> pc <> PDone ->
  finished (<[i := mkPusher (p_cmd t) pc]> ts) = finished ts.
Proof.
  unfold finished. revert i. induction ts as [|u ts IH]; intros [|i] Hi Ht Hp; [done..| |].
  - injection Hi as ->. change (<[0%nat := ?x]> (t :: ts)) with (x :: ts). by rewrite !filter_cons_False.
  - change (<[S i := ?x]> (u :: ts)) with (u :: <[i := x]> ts). rewrite !filter_cons.
    case_decide; simpl; [f_equal|]; by apply IH.
Qed.

Lemma finished_done ts i t :
  ts !! i = Some t -> p_pc t <> PDone ->
  finished (<[i := mkPusher (p_cmd t) PDone]> ts) ≡ₚ p_cmd t :: finished ts.
Proof.
  unfold finished. revert i. induction ts as [|u ts IH]; intros [|i] Hi Ht; [done..| |].
  - injection Hi as ->. change (<[0%nat := ?x]> (t :: ts)) with (x :: ts).
    by rewrite filter_cons_True, filter_cons_False.
  - change (<[S i := ?x]> (u :: ts)) with (u :: <[i := x]> ts). rewrite !filter_cons. case_decide; simpl; [|by apply IH].
    rewrite (IH i Hi Ht). apply Permutation_swap.
Qed.

Lemma finished_length ts i t :
  ts !! i = Some t -> p_pc t <> PDone -> (length (finished ts) < length ts)%nat.
Proof.
  unfold finished. rewrite length_fmap. revert i. induction ts as [|u ts IH]; intros [|i] Hi Ht; [done..| |].
  - injection Hi as ->. rewrite filter_cons_False by done. pose proof (length_filter is_done ts). simpl. lia.
  - specialize (IH i Hi Ht). rewrite filter_cons. case_decide; simpl; lia.
Qed.

Lemma finished_all ts : Forall is_done ts -> finished ts = p_cmd <$> ts.
Proof.
  unfold finished. induction 1 as [|t ts Ht _ IH]; [done|]. by rewrite filter_cons_True, !fmap_cons, IH.
Qed.

Lemma cmds_insert (ts : list pusher) (i : nat) t pc :
  ts !! i = Some t -> p_cmd <$> <[i := mkPusher (p_cmd t) pc]> ts = p_cmd <$> ts.
Proof.
  intros Hi. rewrite list_fmap_insert. apply list_insert_id. by rewrite list_lookup_fmap, Hi.
Qed.

Lemma waiting_insert (ts : list pusher) (i : nat) t' :
  (forall j u, j <> i -> ts !! j = Some u -> waiting u) -> waiting t' -> Forall waiting (<[i := t']> ts).
Proof.
  intros H Ht. apply Forall_lookup. intros j u. destruct (decide (j = i)) as [->|Hne].
  - intros E. destruct (decide (i < length ts)%nat) as [Hl|Hl].
    + rewrite list_lookup_insert_eq in E by done. by injection E as <-.
    + rewrite list_insert_ge in E by lia. apply lookup_lt_Some in E. lia.
  - rewrite list_lookup_insert_ne by done. by apply H.
Qed.

(** ** Pushes only *)

Section pushes.
Context (cmds : list command) (k : Z) (q : list command) (h : heap).
Hypothesis (Hroom : k + zlen cmds <= NET_SEND_COMMAND_NUM).
Hypothesis (Hlive : forall x, x ∈ cmds -> mem h !! x.1 = Some (BBytes x.2)).
Hypothesis (Hdistinct : NoDup (q ++ cmds).*1).

(** [ds] are the commands pushed so far, [f] is the queue without the push that
    is under way. *)
Record pushing_inv (s : shared) (ds : list command) (f : fifo_t) : Prop := {
  pi_rep : send_rep f h (k + zlen ds) (q ++ ds);
  pi_heap : sh_heap s = h;
  pi_popper : popper s = SDone;
  pi_cmds : p_cmd <$> pushers s = cmds;
  pi_done : ds ≡ₚ finished (pushers s);
  pi_one : (Forall waiting (pushers s) /\ sh_fifo s = f) \/
           (exists i t, pushers s !! i = Some t /\ inside f (p_pc t) /\
              sh_fifo s = partial (p_pc t) (p_cmd t) f /\
              forall j u, j <> i -> pushers s !! j = Some u -> waiting u)
}.

(** The command of a thread that is not done can be pushed. *)
Lemma pushable s ds f i t :
  pushing_inv s ds f -> pushers s !! i = Some t -> p_pc t <> PDone ->
  k + zlen ds < NET_SEND_COMMAND_NUM /\ mem h !! (p_cmd t).1 = Some (BBytes (p_cmd t).2) /\
  (p_cmd t).1 ∉ (q ++ ds).*1.
Proof.
  intros [_ _ _ Hc Hd _] Hi Ht.
  assert (p_cmd <$> pushers s !! i = Some (p_cmd t)) as Hi'; [by rewrite Hi|].
  rewrite <- list_lookup_fmap, Hc in Hi'. split_and!.
  - pose proof (finished_length _ _ _ Hi Ht) as Hl. rewrite <- Hd in Hl.
    apply (f_equal length) in Hc. rewrite length_fmap in Hc. unfold zlen in *. lia.
  - apply Hlive. by apply list_elem_of_lookup_2 in Hi'.
  - rewrite fmap_app in Hdistinct. apply NoDup_app in Hdistinct as (_ & Hq & Hcm).
    assert (cmds.*1 !! i = Some (p_cmd t).1) as H1 by by rewrite list_lookup_fmap, Hi'.
    rewrite fmap_app. intros [Hin|Hin]%elem_of_app.
    + apply (Hq _ Hin). by apply list_elem_of_lookup_2 in H1.
    + rewrite Hd in Hin. apply list_elem_of_fmap in Hin as (y & E & Hy).
      apply list_elem_of_fmap in Hy as (u & -> & [Hu Hin]%list_elem_of_filter).
      apply list_elem_of_lookup in Hin as [j Hj].
      assert (p_cmd <$> pushers s !! j = Some (p_cmd u)) as Hj' by by rewrite Hj.
      rewrite <- list_lookup_fmap, Hc in Hj'.
      assert (cmds.*1 !! j = Some (p_cmd t).1) as H2 by (rewrite list_lookup_fmap, Hj'; simpl; by rewrite E).
      pose proof (NoDup_lookup _ _ _ _ Hcm H1 H2) as <-. rewrite Hi in Hj. injection Hj as <-. done.
Qed.

Lemma pushing_init f : send_rep f h k q -> pushing_inv (pushing cmds f h) [] f.
Proof.
  intros H. split; try done.
  - by rewrite Z.add_0_r, app_nil_r.
  - simpl. rewrite <- list_fmap_compose. apply list_fmap_id.
  - simpl. clear. unfold finished. induction cmds as [|x l IH]; [done|]. by rewrite fmap_cons, filter_cons_False.
  - left. split; [|done]. simpl. apply Forall_fmap, Forall_true. intros x. by left.
Qed.

(** Every access of a thread that can make one succeeds and keeps the invariant. *)
Lemma pushing_access s ds f i :
  pushing_inv s ds f ->
  match access i s with
  | None => True
  | Some r => exists s' ds' f', r = Ok s' /\ pushing_inv s' ds' f'
  end.
Proof.
  intros I. pose proof I as [H1 H2 H3 H4 H5 H6]. destruct i as [i|]; simpl; [|by rewrite H3].
  destruct (pushers s !! i) as [t|] eqn:Hi; simpl; [|done]. rewrite H2.
  destruct H6 as [[Hw Hf]|(i0 & t0 & Hi0 & Hin & Hf & Hw)].
  - rewrite Forall_lookup in Hw. destruct (Hw i t Hi) as [E|E]; rewrite E; [|done].
    rewrite Hf, (push_starts _ _ _ _ _ H1). simpl. eexists _, ds, f. split; [done|].
    split; simpl; try done.
    + by rewrite cmds_insert.
    + by rewrite finished_other by (done || by rewrite E).
    + right. eexists i, _. split; [apply list_lookup_insert_eq; by eapply lookup_lt_Some|].
      split_and!; [done..|]. intros j u Hj. rewrite list_lookup_insert_ne by done. apply Hw.
  - destruct (decide (i = i0)) as [->|Hne].
    + rewrite Hi0 in Hi. injection Hi as ->.
      assert (p_pc t <> PDone) as Hnd by (intros E; by rewrite E in Hin).
      destruct (pushable _ _ _ _ _ I Hi0 Hnd) as (Hk & Hx & Hn).
      destruct (push_goes_on f h _ _ (p_cmd t) (p_pc t) H1 Hk Hin) as (pc' & f' & E & Hor).
      rewrite Hf, E. simpl. destruct Hor as [[Hin' ->]|[-> ->]].
      * eexists _, ds, f. split; [done|]. split; simpl; try done; [by rewrite cmds_insert| |].
        { rewrite finished_other; [done..|]. intros ->. done. }
        right. eexists i0, _. split; [apply list_lookup_insert_eq; by eapply lookup_lt_Some|].
        split_and!; [done..|]. intros j u Hj. rewrite list_lookup_insert_ne by done. by apply Hw.
      * eexists _, (ds ++ [p_cmd t]), (pushed (p_cmd t) f). split; [done|]. split; simpl; try done.
        { rewrite zlen_app, app_assoc. change (zlen [p_cmd t]) with 1. rewrite Z.add_assoc.
          by apply pushed_rep. }
        { by rewrite cmds_insert. }
        { rewrite finished_done by done. by rewrite Permutation_app_comm, H5. }
        { left. split; [|done]. apply waiting_insert; [done | by right]. }
    + destruct (Hw i t Hne Hi) as [E|E]; rewrite E; [|done]. by rewrite Hf, push_waits.
Qed.

(** Some thread can go on until all are done. *)
Lemma pushing_progress s ds f :
  pushing_inv s ds f -> ~ all_pushed s -> exists i s', access i s = Some (Ok s').
Proof.
  intros I Hn. pose proof I as [H1 H2 H3 H4 H5 H6].
  assert (forall i t, pushers s !! i = Some t ->
    is_Some (push_access (p_cmd t) (p_pc t) (sh_fifo s) (sh_heap s)) ->
    exists s', access (Some i) s = Some (Ok s')) as Hgo.
  { intros i t Hi [r Hr]. pose proof (pushing_access s ds f (Some i) I) as Ha.
    destruct (access (Some i) s) as [r'|] eqn:E; [destruct Ha as (s' & _ & _ & -> & _); eauto|].
    simpl in E. by rewrite Hi in E; simpl in E; rewrite Hr in E. }
  destruct H6 as [[Hw Hf]|(i & t & Hi & Hin & Hf & Hw)].
  - unfold all_pushed in Hn. apply not_Forall_Exists in Hn; [|intros ?; apply _].
    apply Exists_exists in Hn as (t & Ht & Hpc). apply list_elem_of_lookup in Ht as [i Hi].
    exists (Some i). apply (Hgo i t Hi). rewrite Forall_lookup in Hw.
    destruct (Hw i t Hi) as [->|E]; [|done]. rewrite Hf, H2, (push_starts _ _ _ _ _ H1). eauto.
  - exists (Some i). apply (Hgo i t Hi). rewrite Hf, H2.
    assert (p_pc t <> PDone) as Hnd by (intros E; by rewrite E in Hin).
    destruct (pushable _ _ _ _ _ I Hi Hnd) as (Hk & _).
    destruct (push_goes_on f h _ _ (p_cmd t) (p_pc t) H1 Hk Hin) as (pc' & f' & -> & _). eauto.
Qed.

Lemma pushing_reach f0 s :
  send_rep f0 h k q -> rtc sstep (pushing cmds f0 h) s -> exists ds f, pushing_inv s ds f.
Proof.
  intros H Hr. assert (exists ds f, pushing_inv (pushing cmds f0 h) ds f) as Hi.
  { exists [], f0. by apply pushing_init. }
  induction Hr as [|s1 s2 s3 [i s s' E] _ IH]; [done|]. apply IH. destruct Hi as (ds & f & I).
  pose proof (pushing_access s ds f i I) as Ha. rewrite E in Ha. destruct Ha as (? & ds' & f' & [= <-] & ?). eauto.
Qed.

End pushes.

(** Every access brings one push nearer to its end. *)
Definition accesses_left (pc : push_pc) : nat :=
  match pc with
  | PLock => 8 | PFree => 7 | PData => 6 | PSize => 5 | PAdvance => 4 | PLoad => 3 | PStore _ => 2
  | PUnlock => 1 | PDone => 0
  end.
Definition work_left (s : shared) : nat := sum_list_with (fun t => accesses_left (p_pc t)) (pushers s).

Lemma push_access_left x pc f h pc' f' h' :
  push_access x pc f h = Some (Ok (pc', f', h')) -> accesses_left pc = S (accesses_left pc').
Proof.
  destruct pc; cbn [push_access]; intros E; repeat (case_match; simplify_eq); try done;
    injection E as E; res_inv; by simplify_eq.
Qed.

Lemma sum_list_with_insert {A} (g : A -> nat) l i x y :
  l !! i = Some x -> (sum_list_with g (<[i := y]> l) + g x = sum_list_with g l + g y)%nat.
Proof.
  revert i. induction l as [|z l IH]; intros [|i] Hi; simpl in *; [done..| |].
  - injection Hi as ->. lia.
  - specialize (IH i Hi). lia.
Qed.

Lemma work_decreases s s' : popper s = SDone -> sstep s s' -> work_left s = S (work_left s') /\ popper s' = SDone.
Proof.
  intros Hp Hst. inversion Hst as [i s0 s1 E]; subst. destruct i as [i|]; simpl in E; [|by rewrite Hp in E].
  destruct (pushers s !! i) as [t|] eqn:Hi; simpl in E; [|done].
  destruct (push_access _ _ _ _) as [[[[pc f] h]|e]|] eqn:Ea; simpl in E; simplify_eq. split; [|done].
  unfold work_left. simpl.
  pose proof (sum_list_with_insert (fun t => accesses_left (p_pc t)) _ i t (mkPusher (p_cmd t) pc) Hi) as Hs.
  simpl in Hs. rewrite (push_access_left _ _ _ _ _ _ _ Ea) in Hs. lia.
Qed.

Lemma work_bound m s s' : popper s = SDone -> nsteps sstep m s s' -> (m + work_left s' = work_left s)%nat.
Proof.
  intros Hp H. induction H as [|m s1 s2 s3 H1 _ IH]; [done|].
  destruct (work_decreases _ _ Hp H1) as [E Hp']. specialize (IH Hp'). lia.
Qed.

(** ** Properties *)

(** C25: in every interleaving of pushes, as many as the array takes in its life
    (8192), they take effect one after the other: no access fails; as long as a push is not finished some thread can
    go on, and after eight accesses per push all are finished; then the queue has
    all the commands behind those that were queued before, in some order, each
    once and intact. *)
Theorem pushes_linearize (cmds : list command) (k : Z) (q : list command) (f : fifo_t) (h : heap) s m :
  send_rep f h k q -> k + zlen cmds <= NET_SEND_COMMAND_NUM ->
  (forall x, x ∈ cmds -> mem h !! x.1 = Some (BBytes x.2)) -> NoDup (q ++ cmds).*1 ->
  nsteps sstep m (pushing cmds f h) s ->
  (forall i e, access i s <> Some (Err e)) /\
  (all_pushed s \/ exists i s', access i s = Some (Ok s')) /\
  (m <= 8 * length cmds)%nat /\ (all_pushed s <-> m = (8 * length cmds)%nat) /\
  (all_pushed s -> exists ds, ds ≡ₚ cmds /\ send_rep (sh_fifo s) (sh_heap s) (k + zlen cmds) (q ++ ds)).
Proof.
  intros H Hroom Hlive Hd Hrun.
  destruct (pushing_reach cmds k q h Hroom Hlive Hd f s H (rtc_nsteps_2 _ _ _ Hrun)) as (ds & g & I).
  assert (work_left (pushing cmds f h) = (8 * length cmds)%nat) as Ew.
  { unfold work_left. simpl. clear. induction cmds as [|x l IH]; [done|]. rewrite fmap_cons. cbn [sum_list_with length p_pc accesses_left].
    rewrite IH. lia. }
  pose proof (work_bound m (pushing cmds f h) s eq_refl Hrun) as Hw. rewrite Ew in Hw.
  assert (all_pushed s <-> work_left s = 0%nat) as Hall.
  { unfold all_pushed, work_left. induction (pushers s) as [|t l IH]; simpl; [done|].
    rewrite Forall_cons, IH. destruct (p_pc t); simpl; split; naive_solver lia. }
  split_and!.
  - intros i e E. pose proof (pushing_access cmds k q h Hroom Hlive Hd s ds g i I) as Ha.
    rewrite E in Ha. by destruct Ha as (? & ? & ? & ? & _).
  - destruct (decide (work_left s = 0%nat)) as [E|E]; [left; by apply Hall|right].
    eapply (pushing_progress cmds k q h); [done..|]. by rewrite Hall.
  - lia.
  - rewrite Hall. lia.
  - intros Hdone. destruct I as [H1 H2 H3 H4 H5 H6]. rewrite finished_all in H5 by done. rewrite H4 in H5.
    exists ds. split; [done|]. rewrite H2. assert (zlen cmds = zlen ds) as -> by (unfold zlen; by rewrite H5).
    destruct H6 as [[_ ->]|(i & t & Hi & Hin & _)]; [done|]. exfalso.
    unfold all_pushed in Hdone. rewrite Forall_lookup in Hdone. by rewrite (Hdone i t Hi) in Hin.
Qed.

(** One command is queued; the sending thread takes it out while another thread
    pushes the command [y]. *)
Definition race_start (x y : command) : shared :=
  mkShared [mkPusher y PLock] SUnlock
    (pushed x (send_command_fifo_init send_fifo_zero))
    (mkHeap (<[x.1 := BBytes x.2]> {[y.1 := BBytes y.2]}) (S (max x.1 y.1))).

(** The sending thread has loaded [num], and stores it after the push. *)
Definition race_schedule : list (option nat) :=
  [None; None; None; None] ++ replicate 8 (Some 0%nat) ++ [None; None].

(** C40: a push and a pop at the same time can lose the push: [pop] does not take
    the mutex, so both update [num] from the same value.  Then the queue counts
    as empty although the command of the push is its top; the sending thread does
    not send it. *)
Theorem pop_race_strands_command (d e : list Z) :
  exists s, interleave race_schedule (race_start (0%nat, d) (1%nat, e)) = Ok s /\
    all_pushed s /\ popper s = SDone /\ send_data_fifo_mutex (sh_fifo s) = false /\
    send_command_fifo_empty (sh_fifo s) = true /\
    send_command_fifo_top (sh_fifo s) = Ok (slot_of (1%nat, e)) /\
    the_bytes (Some 1%nat) (sh_heap s) = Ok e.
Proof.
  destruct (interleave race_schedule (race_start (0%nat, d) (1%nat, e))) as [s|x] eqn:E;
    vm_compute in E; [|discriminate]. injection E as <-. eexists. split; [reflexivity|].
  split_and!; [by repeat constructor | reflexivity..].
Qed.

(** ** The theorem at a concrete run *)

Lemma interleave_nsteps sched s s' : interleave sched s = Ok s' -> nsteps sstep (length sched) s s'.
Proof.
  revert s. induction sched as [|i sched IH]; intros s; simpl.
  - intros [= ->]. constructor.
  - destruct (access i s) as [[s1|]|] eqn:E; simpl; [|done..]. intros H. eapply nsteps_l; [|by apply IH].
    by econstructor.
Qed.

Definition two_commands : list command := [(0%nat, [1; 97]); (1%nat, [7])].
Definition two_blocks : heap := mkHeap (<[0%nat := BBytes [1; 97]]> {[1%nat := BBytes [7]]}) 2.

Lemma two_blocks_wf : heap_wf two_blocks.
Proof.
  intros l Hl. simpl in *. rewrite lookup_insert_ne, lookup_singleton_ne by lia. done.
Qed.

(** The second thread gets the mutex first. *)
Lemma pushes_linearize_witness :
  exists s ds, interleave (replicate 8 (Some 1%nat) ++ replicate 8 (Some 0%nat))
      (pushing two_commands (send_command_fifo_init send_fifo_zero) two_blocks) = Ok s /\
    ds ≡ₚ two_commands /\ send_rep (sh_fifo s) (sh_heap s) 2 ds.
Proof.
  destruct (interleave (replicate 8 (Some 1%nat) ++ replicate 8 (Some 0%nat))
    (pushing two_commands (send_command_fifo_init send_fifo_zero) two_blocks)) as [s|e] eqn:E;
    [|exfalso; apply (f_equal is_ok) in E; vm_compute in E; discriminate E].
  destruct (pushes_linearize two_commands 0 [] (send_command_fifo_init send_fifo_zero) two_blocks s 16)
    as (_ & _ & _ & Hall & Hds).
  - apply send_rep_init, two_blocks_wf.
  - vm_compute. discriminate.
  - intros x Hx. unfold two_commands in Hx. rewrite !elem_of_cons, elem_of_nil in Hx.
    destruct Hx as [->|[->|[]]]; reflexivity.
  - apply (bool_decide_eq_true_1 (NoDup ([] ++ two_commands).*1)). vm_compute. reflexivity.
  - exact (interleave_nsteps _ _ _ E).
  - destruct (Hds (proj2 Hall eq_refl)) as (ds & Hp & Hr). exists s, ds. split; [reflexivity|].
    split; [exact Hp | exact Hr].
Defined.
