(* ===== verification/Client.v ===== *)
(** * The client structure and the parser of received data (API/C/netWork.h, netWork.c)

    [stupid_p2p_t] is the state of one connection of the client library;
    [parse_recv_net_command] cuts the bytes received on it into messages, queues
    the data of others and records the replies of the server in
    [command_status], where the thread that issued the command polls for them.
    The array [command] of the parser keeps the bytes of the previous message,
    as in the source. *)

From S2P Require Import Prelude Endian StringPiece Buffer Codec Ring RecvFifo Heap RecvList SendFifo.

Definition NET_PACKAGE_LENGTH : Z := 4.
Definition CALL_BACK_MASK : Z := 128.
Definition REGISTER_DEVICE : Z := 1.
Definition REGISTER_DEVICE_CALL_BACK : Z := Eval compute in Z.lor CALL_BACK_MASK REGISTER_DEVICE.
Definition SUBSCRIBE_DEVICE : Z := 2.
Definition SUBSCRIBE_DEVICE_CALL_BACK : Z := Eval compute in Z.lor CALL_BACK_MASK SUBSCRIBE_DEVICE.
Definition SEND_DATA : Z := 3.
Definition SEND_DATA_CALL_BACK : Z := Eval compute in Z.lor CALL_BACK_MASK SEND_DATA.
Definition UNREGISTER_DEVICE : Z := 4.
Definition UNREGISTER_DEVICE_CALL_BACK : Z := Eval compute in Z.lor CALL_BACK_MASK UNREGISTER_DEVICE.
Definition UNSUBSCRIBE_DEVICE : Z := 5.
Definition UNSUBSCRIBE_DEVICE_CALL_BACK : Z := Eval compute in Z.lor CALL_BACK_MASK UNSUBSCRIBE_DEVICE.
Definition CHECK_DEVICE_ALIVE : Z := 6.
Definition CKECK_DEVICE_ALIVE_CALL_BACK : Z := Eval compute in Z.lor CALL_BACK_MASK CHECK_DEVICE_ALIVE.
Definition HEART_BEAT : Z := 7.
Definition HEART_BEAT_CALL_BACK : Z := Eval compute in Z.lor CALL_BACK_MASK HEART_BEAT.
Definition EXEC_FAIL : Z := 0.
Definition EXEC_SUCCESS : Z := 1.
Definition CALL_BACK_ERROR : Z := 0.
Definition CALL_BACK_SUCCESS : Z := 1.
Definition CALL_BACK_NOT_RECEIVE : Z := 255.

(** [realtime_command_status_t]: seven flags and a counter, all [uint8_t]. *)
Record realtime_command_status_t := mkStatus {
  register_flag : Z;
  subscribe_flag : Z;
  send_data_flag : Z;
  unregister_flag : Z;
  unsubscribe_flag : Z;
  check_alive_flag : Z;
  heart_beat_flag : Z;
  heart_beat_not_receive_num : Z
}.

Definition status_zero : realtime_command_status_t := mkStatus 0 0 0 0 0 0 0 0.

(** A pointer to one of the flags of a status. *)
Inductive flag :=
  | FRegister | FSubscribe | FSendData | FUnregister | FUnsubscribe | FCheckAlive | FHeartBeat.

#[global] Instance flag_eq_dec : EqDecision flag.
Proof. solve_decision. Defined.

Definition get_flag (f : flag) (s : realtime_command_status_t) : Z :=
  match f with
  | FRegister => register_flag s
  | FSubscribe => subscribe_flag s
  | FSendData => send_data_flag s
  | FUnregister => unregister_flag s
  | FUnsubscribe => unsubscribe_flag s
  | FCheckAlive => check_alive_flag s
  | FHeartBeat => heart_beat_flag s
  end.

Definition set_flag (f : flag) (v : Z) (s : realtime_command_status_t) : realtime_command_status_t :=
  match s with mkStatus a b c d e g h n =>
    match f with
    | FRegister => mkStatus v b c d e g h n
    | FSubscribe => mkStatus a v c d e g h n
    | FSendData => mkStatus a b v d e g h n
    | FUnregister => mkStatus a b c v e g h n
    | FUnsubscribe => mkStatus a b c d v g h n
    | FCheckAlive => mkStatus a b c d e v h n
    | FHeartBeat => mkStatus a b c d e g v n
    end
  end.
Definition set_not_receive_num (v : Z) (s : realtime_command_status_t) : realtime_command_status_t :=
  match s with mkStatus a b c d e g h _ => mkStatus a b c d e g h v end.

(** [struct sockaddr_in], as far as it is used. *)
Record sockaddr_in := mkAddr { sin_family : Z; sin_port : Z; sin_addr : Z }.

Record stupid_p2p_t := mkP2P {
  fd : Z;
  socket_fd : Z;
  server_addr : sockaddr_in;
  recv_fifo : net_work_recv_data_fifo_t;
  send_fifo : net_work_send_command_fifo_t;
  recv_data_list : recv_data_list_t;
  need_to_restart_flag : Z;
  command_status : realtime_command_status_t;
  p2p_next : ptr
}.

(** The memory of the structure after [calloc], and of the static [stupid_p2p_head]. *)
Definition p2p_zero : stupid_p2p_t :=
  mkP2P 0 0 (mkAddr 0 0 0) recv_fifo_zero send_fifo_zero recv_list_zero 0 status_zero None.

Definition set_fd v (c : stupid_p2p_t) :=
  mkP2P v (socket_fd c) (server_addr c) (recv_fifo c) (send_fifo c) (recv_data_list c)
    (need_to_restart_flag c) (command_status c) (p2p_next c).
Definition set_socket_fd v (c : stupid_p2p_t) :=
  mkP2P (fd c) v (server_addr c) (recv_fifo c) (send_fifo c) (recv_data_list c)
    (need_to_restart_flag c) (command_status c) (p2p_next c).
Definition set_server_addr v (c : stupid_p2p_t) :=
  mkP2P (fd c) (socket_fd c) v (recv_fifo c) (send_fifo c) (recv_data_list c)
    (need_to_restart_flag c) (command_status c) (p2p_next c).
Definition set_recv_fifo v (c : stupid_p2p_t) :=
  mkP2P (fd c) (socket_fd c) (server_addr c) v (send_fifo c) (recv_data_list c)
    (need_to_restart_flag c) (command_status c) (p2p_next c).
Definition set_send_fifo v (c : stupid_p2p_t) :=
  mkP2P (fd c) (socket_fd c) (server_addr c) (recv_fifo c) v (recv_data_list c)
    (need_to_restart_flag c) (command_status c) (p2p_next c).
Definition set_recv_data_list v (c : stupid_p2p_t) :=
  mkP2P (fd c) (socket_fd c) (server_addr c) (recv_fifo c) (send_fifo c) v
    (need_to_restart_flag c) (command_status c) (p2p_next c).
Definition set_restart v (c : stupid_p2p_t) :=
  mkP2P (fd c) (socket_fd c) (server_addr c) (recv_fifo c) (send_fifo c) (recv_data_list c)
    v (command_status c) (p2p_next c).
Definition set_status v (c : stupid_p2p_t) :=
  mkP2P (fd c) (socket_fd c) (server_addr c) (recv_fifo c) (send_fifo c) (recv_data_list c)
    (need_to_restart_flag c) v (p2p_next c).
Definition set_p2p_next v (c : stupid_p2p_t) :=
  mkP2P (fd c) (socket_fd c) (server_addr c) (recv_fifo c) (send_fifo c) (recv_data_list c)
    (need_to_restart_flag c) (command_status c) v.

(** ** [parse_recv_net_command] *)

Section parse.
Context {al : Alloc}.

(** What a function works on: the structure and the heap. *)
Abbreviation cstate := (stupid_p2p_t * heap)%type.

(** [for (i = 0; i < command_length; i++) command[i] = *top; pop(1)]. *)
Fixpoint read_command (n : nat) (i : Z) (command : list Z) (fifo : net_work_recv_data_fifo_t) :
    res (list Z * net_work_recv_data_fifo_t) :=
  match n with
  | O => Ok (command, fifo)
  | S n =>
      let* b := top_byte fifo in
      let* command := set_at command i b in
      let* fifo := recv_data_fifo_pop fifo 1 in
      read_command n (i + 1) command fifo
  end.

(** Sizes of [recv_data_t] and of [recv_data_list_node_t]. *)
Definition sizeof_recv_data_t : Z := 16.
Definition sizeof_list_node_t : Z := 24.

(** The case [SEND_DATA]. *)
Definition queue_data (command : list Z) (command_length : Z) (s : cstate) : res cstate :=
  let (c, h) := s in
  let* length := add32 command_length (-1) in
  let size := u64 length in
  let (p, h) := alloc size (BBytes (replicate (Z.to_nat size) 0)) h in
  match p with
  | None => Ok (c, h)
  | Some data =>
      let* d := read_at command 1 size in
      let h := set_block data (BBytes d) h in
      let (p, h) := alloc sizeof_recv_data_t (BRecvData (mkRecvData 0 None)) h in
      match p with
      | None => let* h := free (Some data) h in Ok (c, h)
      | Some rd =>
          let h := set_block rd (BRecvData (mkRecvData length (Some data))) h in
          let (p, h) := alloc sizeof_list_node_t (BNode (mkNode None LNull LNull)) h in
          match p with
          | None => let* h := free (Some data) h in let* h := free (Some rd) h in Ok (c, h)
          | Some node =>
              let h := set_block node (BNode (mkNode (Some rd) LNull LNull)) h in
              let* (l, h) := recv_data_list_add (LNode node) (recv_data_list c, h) in
              Ok (set_recv_data_list l c, h)
          end
      end
  end.

(** The flag a reply is for. *)
Definition reply_flag (code : Z) : option flag :=
  if code =? REGISTER_DEVICE_CALL_BACK then Some FRegister
  else if code =? SUBSCRIBE_DEVICE_CALL_BACK then Some FSubscribe
  else if code =? SEND_DATA_CALL_BACK then Some FSendData
  else if code =? UNREGISTER_DEVICE_CALL_BACK then Some FUnregister
  else if code =? UNSUBSCRIBE_DEVICE_CALL_BACK then Some FUnsubscribe
  else if code =? CKECK_DEVICE_ALIVE_CALL_BACK then Some FCheckAlive
  else if code =? HEART_BEAT_CALL_BACK then Some FHeartBeat
  else None.

(** The [switch] on [command[0]]; a wrong length of a reply is only logged. *)
Definition exec_command (command : list Z) (command_length : Z) (s : cstate) : res cstate :=
  let* code := get_at command 0 in
  if code =? SEND_DATA then queue_data command command_length s
  else match reply_flag code with
       | Some f =>
           let* r := get_at command 1 in
           let v := if r =? EXEC_SUCCESS then EXEC_SUCCESS else EXEC_FAIL in
           Ok (set_status (set_flag f v (command_status s.1)) s.1, s.2)
       | None => Ok s
       end.

(** The [while] loop; every turn pops the length, so the bytes bound the turns. *)
Fixpoint parse_loop (fuel : nat) (command : list Z) (s : cstate) : res cstate :=
  match fuel with
  | O => Err OutOfFuel
  | S fuel =>
      if NET_PACKAGE_LENGTH <=? recv_data_fifo_length (recv_fifo s.1) then
        let* command_length := recv_data_fifo_top_int (recv_fifo s.1) in
        let* need := add32 command_length 4 in
        if need <=? recv_data_fifo_length (recv_fifo s.1) then
          let* fifo := recv_data_fifo_pop (recv_fifo s.1) 4 in
          let* (command, fifo) := read_command (Z.to_nat command_length) 0 command fifo in
          let* s := exec_command command command_length (set_recv_fifo fifo s.1, s.2) in
          parse_loop fuel command s
        else Ok s
      else Ok s
  end.

Definition parse_recv_net_command (s : cstate) : res cstate :=
  parse_loop (S (Z.to_nat (rf_length (recv_fifo s.1)))) (replicate (Z.to_nat 2048) 0) s.

End parse.

(** ** Specification: what one message does *)

Section spec.
Context {al : Alloc}.
Abbreviation cstate := (stupid_p2p_t * heap)%type.

(** A payload is queued in three new blocks, or in none. *)
Definition queue_payload (d : list Z) (s : cstate) : res cstate :=
  let (c, h) := s in
  let l := allocs h in
  if alloc_ok l (zlen d) then
    if alloc_ok (S l) sizeof_recv_data_t then
      if alloc_ok (S (S l)) sizeof_list_node_t then
        let m := <[S (S l) := BNode (mkNode (Some (S l)) LNull LNull)]>
                 (<[S l := BRecvData (mkRecvData (zlen d) (Some l))]> (<[l := BBytes d]> (mem h))) in
        let* (li, h) := recv_data_list_add (LNode (S (S l))) (recv_data_list c, mkHeap m (S (S (S l)))) in
        Ok (set_recv_data_list li c, h)
      else Ok (c, mkHeap (mem h) (S (S (S l))))
    else Ok (c, mkHeap (mem h) (S (S l)))
  else Ok (c, mkHeap (mem h) (S l)).

Definition exec_message (m : list Z) (s : cstate) : res cstate :=
  match m with
  | [] => Ok s
  | code :: arg =>
      if code =? SEND_DATA then queue_payload arg s
      else match reply_flag code, arg with
           | Some f, r :: _ =>
               let v := if r =? EXEC_SUCCESS then EXEC_SUCCESS else EXEC_FAIL in
               Ok (set_status (set_flag f v (command_status s.1)) s.1, s.2)
           | _, _ => Ok s
           end
  end.

(** Messages the parser handles: they fit the array, and a reply has a result. *)
Definition acceptable (m : list Z) : Prop :=
  bytes m /\ 1 <= zlen m <= 2048 /\ (zlen m = 1 -> forall x, head m = Some x -> reply_flag x = None).

Fixpoint exec_messages (ms : list (list Z)) (s : cstate) : res cstate :=
  match ms with [] => Ok s | m :: ms => let* s := exec_message m s in exec_messages ms s end.

(** What the structure stands for: the payloads that wait for the user, the
    received bytes that are not parsed yet, and the commands that wait to be sent. *)
Record client_rep (s : cstate) (its : list item) (bs : list Z) (k : Z) (cmds : list command) : Prop := {
  cr_list : list_rep (recv_data_list s.1, s.2) its;
  cr_fifo : fifo_rep (recv_fifo s.1) bs;
  cr_send : send_rep (send_fifo s.1) s.2 k cmds;
  cr_disj l : l ∈ concat (item_locs <$> its) -> l ∉ cmds.*1
}.

(** ** Lemmas *)

Lemma get_set_flag f g v s :
  get_flag g (set_flag f v s) = if decide (g = f) then v else get_flag g s.
Proof. destruct s, f, g; done. Qed.

Lemma list_rep_frame l h h' its :
  list_rep (l, h) its -> heap_wf h' ->
  (forall x, x ∈ concat (item_locs <$> its) -> mem h' !! x = mem h !! x) -> list_rep (l, h') its.
Proof.
  intros [H1 H2 H3 H4 H5] Hwf Hm.
  assert (forall p, (p = LHead \/ exists x, p = LNode x /\ x ∈ it_node <$> its) ->
    node_of (l, h') p = node_of (l, h) p) as Hn.
  { intros p [->|(x & -> & Hx)]; simpl; [done|]. rewrite Hm; [done|].
    by eapply elem_of_sublist; [|apply nodes_sublist]. }
  split; try done.
  - eapply linked_ext; [| |exact H3]; intros p Hp; unfold nx_of, pv_of; by rewrite Hn.
  - intros it Hit. destruct (H5 it Hit) as [O1 [O2 O3]]. split; [|split]; simpl in *.
    + rewrite Hm; [done|]. eapply elem_item_locs; [done | left].
    + rewrite Hm; [done|]. eapply elem_item_locs; [done | right; left].
    + rewrite Hm; [done|]. eapply elem_item_locs; [done | right; right; left].
Qed.

Lemma item_live (s : recv_data_list_t * heap) its x :
  (forall it, it ∈ its -> item_ok s it) -> x ∈ concat (item_locs <$> its) -> is_Some (mem s.2 !! x).
Proof.
  intros H Hx. apply list_elem_of_In, in_concat in Hx as (ls & Hls & Hx).
  apply list_elem_of_In, list_elem_of_fmap in Hls as (it & -> & Hit).
  apply list_elem_of_In in Hx. destruct (H it Hit) as [(n & Hn & _)%fmap_Some [O2 O3]].
  unfold item_locs in Hx. rewrite !elem_of_cons, elem_of_nil in Hx.
  destruct Hx as [->|[->|[->|[]]]]; [|eauto..].
  simpl in Hn. destruct (mem s.2 !! it_node it); [eauto | done].
Qed.

Lemma item_lt s its x : list_rep s its -> x ∈ concat (item_locs <$> its) -> (x < allocs s.2)%nat.
Proof.
  intros H Hx. destruct (item_live s its x (lr_items _ _ H) Hx) as [b Hb].
  eapply heap_wf_lt; [apply (lr_wf _ _ H) | exact Hb].
Qed.

Lemma command_lt fifo h k q x : send_rep fifo h k q -> x ∈ q.*1 -> (x < allocs h)%nat.
Proof.
  intros H ([l d] & -> & Hin)%list_elem_of_fmap. eapply heap_wf_lt; [apply (sr_wf _ _ _ _ H)|].
  by apply (sr_live _ _ _ _ H (l, d)).
Qed.

(** The queues survive a heap in which only new addresses differ. *)
Lemma client_rep_frame c h h' its bs k cmds :
  client_rep (c, h) its bs k cmds -> heap_wf h' -> (allocs h <= allocs h')%nat ->
  (forall l, (l < allocs h)%nat -> mem h' !! l = mem h !! l) -> client_rep (c, h') its bs k cmds.
Proof.
  intros [H1 H2 H3 H4] Hwf Hal Hm. split; [| done | | done].
  - eapply list_rep_frame; [exact H1 | done |]. intros x Hx. apply Hm. by apply (item_lt _ _ _ H1).
  - eapply send_rep_frame; [exact H3 | done | done | |].
    + intros x Hx. apply Hm. eapply command_lt; [exact H3|]. apply list_elem_of_fmap. eauto.
    + intros l Hl Hd. by rewrite Hm.
Qed.

(** The heap with the three blocks of a payload, before the node is linked. *)
Definition payload_heap (d : list Z) (h : heap) : heap :=
  let l := allocs h in
  mkHeap (<[S (S l) := BNode (mkNode (Some (S l)) LNull LNull)]>
           (<[S l := BRecvData (mkRecvData (zlen d) (Some l))]> (<[l := BBytes d]> (mem h)))) (S (S (S l))).
Definition payload_item (d : list Z) (h : heap) : item :=
  mkItem (S (S (allocs h))) (S (allocs h)) (allocs h) d.

Lemma payload_heap_rep d c h its bs k cmds :
  client_rep (c, h) its bs k cmds ->
  client_rep (c, payload_heap d h) its bs k cmds /\
  item_ok (recv_data_list c, payload_heap d h) (payload_item d h) /\
  NoDup (concat (item_locs <$> its) ++ item_locs (payload_item d h)).
Proof.
  intros H. pose proof (lr_wf _ _ (cr_list _ _ _ _ _ H)) as Hwf. simpl in Hwf. split_and!.
  - eapply client_rep_frame; [exact H | | simpl; lia |].
    + intros x Hx. simpl in *. rewrite !lookup_insert_ne by lia. apply Hwf. lia.
    + intros x Hx. simpl. rewrite !lookup_insert_ne by lia. done.
  - split; [|split]; simpl; [by rewrite lookup_insert_eq | |].
    + rewrite lookup_insert_ne by lia. by rewrite lookup_insert_eq.
    + rewrite !lookup_insert_ne by lia. by rewrite lookup_insert_eq.
  - apply NoDup_app. split_and!; [apply (lr_nodup _ _ (cr_list _ _ _ _ _ H)) | |].
    + intros x Hx Hx'. pose proof (item_lt _ _ _ (cr_list _ _ _ _ _ H) Hx) as Hlt. simpl in Hlt.
      unfold item_locs in Hx'. simpl in Hx'. rewrite !elem_of_cons, elem_of_nil in Hx'. lia.
    + unfold item_locs. simpl. repeat constructor; rewrite ?elem_of_cons, elem_of_nil; lia.
Qed.

(** The node of the payload is linked: the client holds one payload more. *)
Lemma payload_added d c h li h2 its bs k cmds :
  client_rep (c, h) its bs k cmds -> list_rep (li, h2) (its ++ [payload_item d h]) ->
  allocs h2 = allocs (payload_heap d h) ->
  (forall x, x ∉ concat (item_locs <$> its ++ [payload_item d h]) -> mem h2 !! x = mem (payload_heap d h) !! x) ->
  client_rep (set_recv_data_list li c, h2) (its ++ [payload_item d h]) bs k cmds.
Proof.
  intros H Hl Hal Hm. destruct (payload_heap_rep d c h its bs k cmds H) as (H1 & Hit & _).
  assert (forall x, x ∈ cmds.*1 -> x ∉ concat (item_locs <$> its ++ [payload_item d h])) as Hd.
  { intros x Hx Hx'. pose proof (command_lt _ _ _ _ _ (cr_send _ _ _ _ _ H) Hx) as Hc. simpl in Hc.
    rewrite fmap_app, concat_app in Hx'. apply elem_of_app in Hx' as [Hx'|Hx']; [by eapply (cr_disj _ _ _ _ _ H)|].
    simpl in Hx'. rewrite !elem_of_cons, elem_of_nil in Hx'. lia. }
  split; cbn [fst snd recv_data_list recv_fifo send_fifo set_recv_data_list].
  - exact Hl.
  - apply (cr_fifo _ _ _ _ _ H).
  - eapply send_rep_frame; [apply (cr_send _ _ _ _ _ H1) | apply (lr_wf _ _ Hl) | cbn [snd]; lia | |].
    + intros x Hx. cbn [snd]. rewrite Hm; [done|]. apply Hd. apply list_elem_of_fmap. eauto.
    + intros x Hx Hdead. cbn [snd] in *.
      destruct (decide (x ∈ concat (item_locs <$> its ++ [payload_item d h]))) as [Hin|Hin]; [|by rewrite Hm].
      exfalso. assert (is_Some (mem (payload_heap d h) !! x)) as [? ?]; [|congruence].
      apply (item_live (recv_data_list c, payload_heap d h) (its ++ [payload_item d h])); [|done].
      intros it' Hin'. apply elem_of_app in Hin' as [Hin'|Hin'%list_elem_of_singleton].
      * by apply (lr_items _ _ (cr_list _ _ _ _ _ H1)).
      * by subst.
  - intros x Hx Hx'. by eapply Hd.
Qed.

Lemma queue_payload_spec d s its bs k cmds :
  client_rep s its bs k cmds ->
  exists s', queue_payload d s = Ok s' /\ command_status s'.1 = command_status s.1 /\
    need_to_restart_flag s'.1 = need_to_restart_flag s.1 /\
    (forall l, (l < allocs s.2)%nat -> l ∉ concat (item_locs <$> its) -> mem s'.2 !! l = mem s.2 !! l) /\
    ((exists it, it_payload it = d /\ client_rep s' (its ++ [it]) bs k cmds) \/
     (client_rep s' its bs k cmds /\ mem s'.2 = mem s.2 /\
      exists l n, n <= zlen d + 24 /\ alloc_ok l n = false)).
Proof.
  destruct s as [c h]. intros H. unfold queue_payload. simpl.
  assert (forall n, client_rep (c, mkHeap (mem h) (allocs h + n)) its bs k cmds) as Hfail.
  { intros n. eapply client_rep_frame; [exact H | | simpl; lia | done].
    intros l Hl. apply (lr_wf _ _ (cr_list _ _ _ _ _ H)). simpl in *. lia. }
  destruct (alloc_ok (allocs h) (zlen d)) eqn:A1.
  2: { eexists. split_and!; try done. right. split_and!; [by rewrite <- Nat.add_1_r | done |].
       exists (allocs h), (zlen d). split; [zlia | done]. }
  destruct (alloc_ok (S (allocs h)) sizeof_recv_data_t) eqn:A2.
  2: { eexists. split_and!; try done. right. split_and!; [|done|].
       - by replace (S (S (allocs h))) with (allocs h + 2)%nat by lia.
       - eexists _, _. split; [|done]. unfold sizeof_recv_data_t. zlia. }
  destruct (alloc_ok (S (S (allocs h))) sizeof_list_node_t) eqn:A3.
  2: { eexists. split_and!; try done. right. split_and!; [|done|].
       - by replace (S (S (S (allocs h)))) with (allocs h + 3)%nat by lia.
       - eexists _, _. split; [|done]. unfold sizeof_list_node_t. zlia. }
  destruct (payload_heap_rep d c h its bs k cmds H) as (H1 & Hit & Hnd).
  destruct (recv_add_spec _ its _ (cr_list _ _ _ _ _ H1) Hit Hnd) as ([li h2] & E & Hl & Hal & Hm).
  fold (payload_heap d h). simpl in E. rewrite E. cbn [res_bind]. eexists. split_and!; [done..| |].
  - intros x Hx Hx'. simpl in *. rewrite Hm.
    + simpl. by rewrite !lookup_insert_ne by lia.
    + rewrite fmap_app, concat_app. simpl. rewrite elem_of_app, !elem_of_cons, elem_of_nil.
      intros [?|?]; [done | simpl in *; lia].
  - left. exists (payload_item d h). split; [done|]. by apply payload_added.
Qed.

#[local] Arguments free : simpl never.

Lemma free_fresh l b (m : gmap loc block) n :
  m !! l = None -> free (Some l) (mkHeap (<[l := b]> m) n) = Ok (mkHeap m n).
Proof. intros H. unfold free. simpl. by rewrite lookup_insert_eq, delete_insert_id. Qed.

(** The case [SEND_DATA] queues the bytes after the command. *)
Lemma queue_data_payload m rest s :
  heap_wf s.2 -> 1 <= zlen m <= 2048 ->
  queue_data (m ++ rest) (zlen m) s = queue_payload (drop 1 m) s.
Proof.
  destruct s as [c h]. simpl. intros Hwf Hm. unfold queue_data, queue_payload.
  assert (zlen (drop 1 m) = zlen m - 1) as Hd by (unfold zlen in *; rewrite length_drop; lia).
  rewrite add32_ok by lia. cbn [res_bind]. change (zlen m + -1) with (zlen m - 1).
  rewrite wrapu_id by lia. rewrite Hd. unfold alloc at 1.
  set (l := allocs h). assert (mem h !! l = None) as Hl by (apply Hwf; lia).
  assert (mem h !! S l = None) as Hl1 by (apply Hwf; lia).
  destruct (alloc_ok l (zlen m - 1)); [|done].
  assert (read_at (m ++ rest) 1 (zlen m - 1) = Ok (drop 1 m)) as ->.
  { rewrite read_at_ok by zlia. f_equal. rewrite zdrop_app_l by lia.
    change (zdrop 1 m) with (drop 1 m). rewrite ztake_app_l by lia. apply ztake_all. lia. }
  cbn [res_bind]. unfold set_block. cbn [mem allocs]. rewrite insert_insert_eq.
  unfold alloc at 1. cbn [mem allocs]. destruct (alloc_ok (S l) sizeof_recv_data_t);
    [|lazy beta iota zeta; by rewrite free_fresh by done].
  cbn [mem allocs]. rewrite insert_insert_eq. unfold alloc at 1. cbn [mem allocs].
  destruct (alloc_ok (S (S l)) sizeof_list_node_t); [cbn [mem allocs]; by rewrite insert_insert_eq|].
  lazy beta iota zeta. rewrite insert_insert_ne by lia. rewrite free_fresh by (by rewrite lookup_insert_ne by lia).
  cbn [res_bind]. by rewrite free_fresh by done.
Qed.

Lemma get_at_head x (l : list Z) : get_at (x :: l) 0 = Ok x.
Proof. done. Qed.
Lemma get_at_second x y (l : list Z) : get_at (x :: y :: l) 1 = Ok y.
Proof. done. Qed.

Lemma exec_command_message m rest s :
  heap_wf s.2 -> acceptable m -> exec_command (m ++ rest) (zlen m) s = exec_message m s.
Proof.
  intros Hwf (_ & Hm & Hone). destruct m as [|code arg]; [zlia|].
  unfold exec_command. simpl ((code :: arg) ++ rest). rewrite get_at_head. cbn [res_bind].
  unfold exec_message. destruct (code =? SEND_DATA).
  { apply (queue_data_payload (code :: arg)); done. }
  destruct arg as [|r arg].
  - rewrite (Hone eq_refl code eq_refl). done.
  - destruct (reply_flag code); [|done]. simpl (_ ++ rest). by rewrite get_at_second.
Qed.

Lemma read_command_spec m i command fifo q :
  fifo_rep fifo (m ++ q) -> 0 <= i -> i + zlen m <= zlen command ->
  exists fifo', read_command (length m) i command fifo =
      Ok (ztake i command ++ m ++ zdrop (i + zlen m) command, fifo') /\ fifo_rep fifo' q.
Proof.
  revert i command fifo. induction m as [|b m IH]; intros i command fifo H Hi Hlen.
  - exists fifo. simpl. rewrite zlen_nil, Z.add_0_r, ztake_zdrop. done.
  - cbn [length read_command]. rewrite (top_byte_spec _ _ _ H). cbn [res_bind].
    rewrite set_at_ok by zlia. cbn [res_bind].
    destruct (recv_pop_spec fifo [b] (m ++ q) H) as (f1 & E1 & H1).
    change (zlen [b]) with 1 in E1. rewrite E1. cbn [res_bind].
    assert (<[Z.to_nat i := b]> command = ztake i command ++ b :: zdrop (i + 1) command) as E.
    { rewrite insert_take_drop by (unfold zlen in Hlen; simpl in Hlen; lia). unfold ztake, zdrop.
      by replace (S (Z.to_nat i)) with (Z.to_nat (i + 1)) by lia. }
    assert (zlen (ztake i command) = i) as Hz by (apply zlen_ztake; zlia).
    assert (zlen (zdrop (i + 1) command) = zlen command - (i + 1)) as Hz' by (apply zlen_zdrop; zlia).
    destruct (IH (i + 1) (<[Z.to_nat i := b]> command) f1 H1) as (f2 & -> & H2).
    + lia.
    + rewrite E. zlia.
    + exists f2. split; [|done]. do 2 f_equal. rewrite E.
      rewrite ztake_app_r, Hz by lia. replace (i + 1 - i) with 1 by lia.
      change (ztake 1 (b :: zdrop (i + 1) command)) with [b]. rewrite <- app_assoc. f_equal. simpl. f_equal. f_equal.
      rewrite zdrop_app_r, Hz by zlia.
      replace (i + 1 + zlen m - i) with (1 + zlen m) by lia. rewrite zlen_cons.
      rewrite <- (zdrop_zdrop (zlen m) 1) by zlia.
      change (zdrop 1 (b :: zdrop (i + 1) command)) with (zdrop (i + 1) command).
      rewrite zdrop_zdrop by zlia. f_equal. lia.
Qed.

(** More bytes than the array holds are written past its end. *)
Lemma read_command_overflow m i command fifo q :
  fifo_rep fifo (m ++ q) -> 0 <= i <= zlen command -> zlen command < i + zlen m ->
  read_command (length m) i command fifo = Err OutOfBounds.
Proof.
  revert i command fifo. induction m as [|b m IH]; intros i command fifo H Hi Hlen; [zlia|].
  cbn [length read_command]. rewrite (top_byte_spec _ _ _ H). cbn [res_bind].
  destruct (decide (i = zlen command)) as [->|Hne].
  { unfold set_at. rewrite (proj2 (Z.ltb_ge _ _)) by lia. by rewrite andb_false_r. }
  rewrite set_at_ok by lia. cbn [res_bind].
  destruct (recv_pop_spec fifo [b] (m ++ q) H) as (f1 & E1 & H1).
  change (zlen [b]) with 1 in E1. rewrite E1. cbn [res_bind].
  assert (zlen (<[Z.to_nat i := b]> command) = zlen command) as Hz by (unfold zlen; by rewrite length_insert).
  apply IH; [done | lia | zlia].
Qed.

(** What a sequence of messages brings: the payloads for the user, and the flags. *)
Definition payload_of (m : list Z) : option (list Z) :=
  match m with code :: d => if code =? SEND_DATA then Some d else None | [] => None end.
Definition received (ms : list (list Z)) : list (list Z) := omap payload_of ms.

Definition status_step (st : realtime_command_status_t) (m : list Z) : realtime_command_status_t :=
  match m with
  | code :: r :: _ =>
      if code =? SEND_DATA then st
      else match reply_flag code with
           | Some f => set_flag f (if r =? EXEC_SUCCESS then EXEC_SUCCESS else EXEC_FAIL) st
           | None => st
           end
  | _ => st
  end.
Definition status_after (ms : list (list Z)) (st : realtime_command_status_t) : realtime_command_status_t :=
  foldl status_step st ms.

(** The allocator never fails on a small request. *)
Definition plenty : Prop := forall l n, n <= 4096 -> alloc_ok l n = true.

(** [add] is what the messages [ms] add to the queue of payloads. *)
Definition added (ms : list (list Z)) (add : list item) : Prop :=
  (it_payload <$> add) `sublist_of` received ms /\ (plenty -> it_payload <$> add = received ms).

Lemma added_app ms1 ms2 add1 add2 : added ms1 add1 -> added ms2 add2 -> added (ms1 ++ ms2) (add1 ++ add2).
Proof.
  intros [S1 P1] [S2 P2]. unfold added, received. rewrite omap_app, fmap_app. split.
  - by apply sublist_app.
  - intros H. by rewrite P1, P2.
Qed.

Lemma exec_message_spec m s its bs k cmds :
  acceptable m -> client_rep s its bs k cmds ->
  exists s' add, exec_message m s = Ok s' /\ client_rep s' (its ++ add) bs k cmds /\
    command_status s'.1 = status_step (command_status s.1) m /\
    need_to_restart_flag s'.1 = need_to_restart_flag s.1 /\ added [m] add.
Proof.
  intros (Hb & Hm & Hone) H. destruct m as [|code arg]; [zlia|]. unfold exec_message.
  destruct (code =? SEND_DATA) eqn:Ec.
  - destruct (queue_payload_spec arg s its bs k cmds H) as (s' & E & Hst & Hr & _ & Hq).
    assert (status_step (command_status s.1) (code :: arg) = command_status s.1) as Hs.
    { simpl. destruct arg; [done|]. by rewrite Ec. }
    assert (received [code :: arg] = [arg]) as Hrec by (unfold received; simpl; by rewrite Ec).
    destruct Hq as [(it & Hp & Hrep)|(Hrep & _ & l & n & Hn & Hal)].
    + exists s', [it]. split_and!; try done; [congruence|]. unfold added. rewrite Hrec. simpl.
      by rewrite Hp.
    + exists s', []. rewrite app_nil_r. split_and!; try done; [congruence|]. split.
      * apply sublist_nil_l.
      * intros Hpl. rewrite Hpl in Hal; [done|]. zlia.
  - assert (forall st', client_rep (set_status st' s.1, s.2) its bs k cmds) as Hset.
    { intros st'. destruct H as [H1 H2 H3 H4]. by split. }
    assert (received [code :: arg] = []) as Hrec by (unfold received; simpl; by rewrite Ec).
    assert (added [code :: arg] []) as Hadd by (unfold added; rewrite Hrec; done).
    destruct (reply_flag code) as [f|] eqn:Ef.
    + destruct arg as [|r arg]; [by rewrite (Hone eq_refl code eq_refl) in Ef|].
      eexists _, []. rewrite app_nil_r. split_and!; [done | apply Hset | | done | done].
      cbn [status_step]. by rewrite Ec, Ef.
    + exists s, []. rewrite app_nil_r. split_and!; try done. destruct arg; [done|].
      cbn [status_step]. by rewrite Ec, Ef.
Qed.

(** What is left of a stream of bytes when no complete message is in it. *)
Definition incomplete (rest : list Z) : Prop :=
  zlen rest < 4 \/ (bytes rest /\ zlen rest < 4 + header rest /\ header rest + 4 < 2 ^ 31).

Lemma encode_parts m : encode m = be_bytes 4 (zlen m) ++ m.
Proof. done. Qed.

Lemma parse_stop fuel command s its rest k cmds :
  client_rep s its rest k cmds -> incomplete rest -> parse_loop (S fuel) command s = Ok s.
Proof.
  intros H Hi. cbn [parse_loop]. unfold recv_data_fifo_length, NET_PACKAGE_LENGTH.
  pose proof (cr_fifo _ _ _ _ _ H) as Hf. rewrite (fifo_length _ _ Hf).
  destruct (Z.leb_spec 4 (zlen rest)); [|done].
  destruct Hi as [?|(Hb & Hlt & Hov)]; [lia|].
  pose proof Hf as Hf'. rewrite <- (ztake_zdrop 4 rest) in Hf'.
  rewrite (recv_top_int_spec _ _ _ Hf'); [|apply zlen_ztake; lia|auto with p2p].
  cbn [res_bind]. fold (header rest). pose proof (wraps_range 32 (be_val (ztake 4 rest))) as Hw.
  unfold header in *. rewrite add32_ok by lia. cbn [res_bind]. bool_lia. done.
Qed.

Lemma parse_message fuel command s its m rest k cmds :
  client_rep s its (encode m ++ rest) k cmds -> acceptable m -> zlen command = 2048 ->
  exists s' add command',
    parse_loop (S fuel) command s = parse_loop fuel command' s' /\ zlen command' = 2048 /\
    client_rep s' (its ++ add) rest k cmds /\
    command_status s'.1 = status_step (command_status s.1) m /\
    need_to_restart_flag s'.1 = need_to_restart_flag s.1 /\ added [m] add.
Proof.
  intros H Hacc Hcmd. pose proof Hacc as (Hb & Hm & _).
  pose proof (cr_fifo _ _ _ _ _ H) as Hf. rewrite encode_parts, <- app_assoc in Hf.
  cbn [parse_loop]. unfold recv_data_fifo_length at 1, NET_PACKAGE_LENGTH.
  rewrite (fifo_length _ _ Hf). rewrite !zlen_app, zlen_be_bytes. bool_lia.
  rewrite (recv_top_int_spec _ _ _ Hf); [|apply zlen_be_bytes|auto with p2p].
  assert (i32 (be_val (be_bytes 4 (zlen m))) = zlen m) as ->.
  { rewrite (wraps_be_val_be_bytes 4) by lia. apply wraps_id; lia. }
  cbn [res_bind]. rewrite add32_ok by lia. cbn [res_bind]. unfold recv_data_fifo_length.
  rewrite (fifo_length _ _ Hf). rewrite !zlen_app, zlen_be_bytes.
  rewrite (proj2 (Z.leb_le _ _)) by zlia.
  destruct (recv_pop_spec _ _ _ Hf) as (f1 & E1 & Hf1). rewrite zlen_be_bytes in E1.
  change (Z.of_nat 4) with 4 in E1. rewrite E1. cbn [res_bind].
  assert (Z.to_nat (zlen m) = length m) as -> by (unfold zlen; lia).
  destruct (read_command_spec m 0 command f1 rest Hf1) as (f2 & -> & Hf2); [lia | lia |].
  cbn [res_bind]. rewrite ztake_0, Z.add_0_l by lia. simpl ([] ++ _).
  assert (client_rep (set_recv_fifo f2 s.1, s.2) its rest k cmds) as H2.
  { destruct H as [L1 _ L3 L4]. by split. }
  rewrite exec_command_message by (apply Hacc || apply (lr_wf _ _ (cr_list _ _ _ _ _ H))).
  destruct (exec_message_spec m _ _ _ _ _ Hacc H2) as (s' & add & -> & H' & Hst & Hr & Hadd).
  cbn [res_bind]. exists s', add, (m ++ zdrop (zlen m) command). split_and!; try done.
  rewrite zlen_app, zlen_zdrop; zlia.
Qed.

Lemma parse_messages ms fuel command s its rest k cmds :
  client_rep s its (concat (encode <$> ms) ++ rest) k cmds -> Forall acceptable ms ->
  incomplete rest -> zlen command = 2048 -> (length ms < fuel)%nat ->
  exists s' add, parse_loop fuel command s = Ok s' /\ client_rep s' (its ++ add) rest k cmds /\
    command_status s'.1 = status_after ms (command_status s.1) /\
    need_to_restart_flag s'.1 = need_to_restart_flag s.1 /\ added ms add.
Proof.
  revert fuel command s its. induction ms as [|m ms IH]; intros fuel command s its H Hacc Hi Hc Hf;
    (destruct fuel as [|fuel]; [simpl in Hf; lia|]).
  - exists s, []. rewrite app_nil_r. split_and!; try done. by eapply parse_stop.
  - apply Forall_cons in Hacc as [Hm Hms]. simpl in H. rewrite <- app_assoc in H.
    destruct (parse_message fuel command s its m _ k cmds H Hm Hc)
      as (s1 & add1 & c1 & -> & Hc1 & H1 & Hst1 & Hr1 & Ha1).
    destruct (IH fuel c1 s1 _ H1 Hms Hi Hc1) as (s2 & add2 & -> & H2 & Hst2 & Hr2 & Ha2);
      [simpl in Hf; lia|].
    exists s2, (add1 ++ add2). rewrite app_assoc. split_and!; [done | done | | congruence |].
    + rewrite Hst2, Hst1. done.
    + by apply (added_app [m] ms).
Qed.

Lemma parse_recv_spec ms s its rest k cmds :
  client_rep s its (concat (encode <$> ms) ++ rest) k cmds -> Forall acceptable ms -> incomplete rest ->
  exists s' add, parse_recv_net_command s = Ok s' /\ client_rep s' (its ++ add) rest k cmds /\
    command_status s'.1 = status_after ms (command_status s.1) /\
    need_to_restart_flag s'.1 = need_to_restart_flag s.1 /\ added ms add.
Proof.
  intros H Hacc Hi. unfold parse_recv_net_command. eapply parse_messages; try done.
  rewrite (fifo_length _ _ (cr_fifo _ _ _ _ _ H)). unfold zlen. rewrite Nat2Z.id, length_app.
  assert (length ms <= length (concat (encode <$> ms)))%nat; [|lia].
  clear. induction ms as [|m ms IH]; [done|]. rewrite fmap_cons. cbn [concat length].
  rewrite length_app, encode_parts, length_app.
  pose proof (zlen_be_bytes 4 (zlen m)) as Hz. unfold zlen at 1 in Hz. lia.
Qed.

End spec.

(** ** Properties *)

Section properties.
Context {al : Alloc}.

(** C15: when the received bytes are a sequence of frames the parser can handle,
    followed by an incomplete one, the parser returns; it hands over the payload
    of every data message in order, sets the flags the replies are for, and keeps
    the incomplete frame for the next bytes.  When memory runs out a payload is
    dropped as a whole, and nothing else is lost. *)
Theorem parse_delivers (ms : list (list Z)) (s : stupid_p2p_t * heap) its rest k cmds :
  client_rep s its (concat (encode <$> ms) ++ rest) k cmds -> Forall acceptable ms -> incomplete rest ->
  exists s' its', parse_recv_net_command s = Ok s' /\ client_rep s' its' rest k cmds /\
    command_status s'.1 = status_after ms (command_status s.1) /\
    (exists add, its' = its ++ add /\ (it_payload <$> add) `sublist_of` received ms) /\
    (plenty -> it_payload <$> its' = (it_payload <$> its) ++ received ms).
Proof.
  intros H Hacc Hi. destruct (parse_recv_spec ms s its rest k cmds H Hacc Hi)
    as (s' & add & E & Hr & Hst & _ & [Hsub Hp]).
  exists s', (its ++ add). split_and!; [done..| eauto |].
  intros Hpl. by rewrite fmap_app, Hp.
Qed.

(** A frame of more than 2048 bytes that has arrived in full is copied past
    the end of the parser's array. *)
Lemma parse_overflow (m : list Z) (s : stupid_p2p_t * heap) its rest k cmds :
  client_rep s its (encode m ++ rest) k cmds -> 2048 < zlen m ->
  parse_recv_net_command s = Err OutOfBounds.
Proof.
  intros H Hm. pose proof (cr_fifo _ _ _ _ _ H) as Hf. pose proof (fifo_fits _ _ Hf) as Hfit.
  rewrite encode_parts, <- app_assoc in Hf. unfold NET_READ_DATA_LENGTH in Hfit.
  rewrite zlen_app, encode_parts, zlen_app, zlen_be_bytes in Hfit. pose proof (zlen_nonneg rest).
  unfold parse_recv_net_command. cbn [parse_loop]. unfold recv_data_fifo_length at 1, NET_PACKAGE_LENGTH.
  rewrite (fifo_length _ _ Hf). rewrite !zlen_app, zlen_be_bytes.
  rewrite (proj2 (Z.leb_le _ _)) by zlia.
  rewrite (recv_top_int_spec _ _ _ Hf); [|apply zlen_be_bytes|auto with p2p].
  assert (i32 (be_val (be_bytes 4 (zlen m))) = zlen m) as ->.
  { rewrite (wraps_be_val_be_bytes 4) by lia. apply wraps_id; lia. }
  cbn [res_bind]. rewrite add32_ok by lia. cbn [res_bind]. unfold recv_data_fifo_length.
  rewrite (fifo_length _ _ Hf). rewrite !zlen_app, zlen_be_bytes.
  rewrite (proj2 (Z.leb_le _ _)) by zlia.
  destruct (recv_pop_spec _ _ _ Hf) as (f1 & E1 & Hf1). rewrite zlen_be_bytes in E1.
  change (Z.of_nat 4) with 4 in E1. rewrite E1. cbn [res_bind].
  assert (Z.to_nat (zlen m) = length m) as -> by (unfold zlen; lia).
  assert (zlen (replicate (Z.to_nat 2048) 0) = 2048) as Hz by (unfold zlen; by rewrite length_replicate).
  by rewrite (read_command_overflow m 0 _ f1 rest) by (done || lia).
Qed.

(** A frame of more than 8188 bytes stops the client: its end never fits the
    receive buffer, so the parser never takes anything out of it again. *)
Lemma parse_stalls (s : stupid_p2p_t * heap) its bs k cmds :
  client_rep s its bs k cmds -> bytes bs -> 4 <= zlen bs -> 8188 < header bs < 2 ^ 31 - 4 ->
  parse_recv_net_command s = Ok s.
Proof.
  intros H Hb H4 Hh. eapply parse_stop; [exact H|]. right.
  pose proof (fifo_fits _ _ (cr_fifo _ _ _ _ _ H)) as Hf. unfold NET_READ_DATA_LENGTH in Hf.
  split_and!; [done | lia | lia].
Qed.

End properties.

(** Examples: a client that has received some bytes. *)
Definition demo_alloc : Alloc := fun _ n => n <? 2 ^ 20.

Lemma demo_client (bs : list Z) :
  bytes bs -> zlen bs <= 8192 ->
  exists c, client_rep (c, heap0) [] bs 0 [] /\ command_status c = status_zero /\
    need_to_restart_flag c = 0.
Proof.
  intros Hb Hl. destruct (recv_push_spec _ [] bs (zlen bs) fifo_rep_init) as (f & _ & Hf); [zlia | done |].
  exists (mkP2P 1 3 (mkAddr 0 0 0) f (send_command_fifo_init send_fifo_zero)
            (recv_data_list_init recv_list_zero) 0 status_zero None).
  split; [split; simpl|done].
  - apply list_rep_init, heap0_wf.
  - by rewrite ztake_all in Hf by lia.
  - apply send_rep_init, heap0_wf.
  - set_solver.
Qed.

Lemma demo_plenty : @plenty demo_alloc.
Proof. intros l n Hn. apply Z.ltb_lt. lia. Qed.

(** A client that holds [n] payloads. *)
Lemma demo_payloads n :
  exists c h its, client_rep (c, h) its [] 0 [] /\ length its = n /\ need_to_restart_flag c = 0 /\
    Forall (fun it => it_payload it = [7]) its.
Proof.
  induction n as [|n (c & h & its & H & Hn & Hr & Hp)].
  - destruct (demo_client []) as (c & H & _ & Hr); [constructor | done |]. exists c, heap0, []. done.
  - destruct (@queue_payload_spec demo_alloc [7] (c, h) its [] 0 [] H) as ([c' h'] & _ & _ & Hr' & _ & Hq).
    simpl in Hr'. destruct Hq as [(it & Hit & Hrep)|(_ & _ & l & k & Hk & Hf)].
    + exists c', h', (its ++ [it]). split_and!; [done | rewrite length_app; simpl; lia | congruence |].
      apply Forall_app. split; [done | by repeat constructor].
    + rewrite demo_plenty in Hf; [done|]. unfold zlen in Hk. simpl in Hk. lia.
Qed.

Lemma parse_delivers_witness :
  exists c s' its', @parse_recv_net_command demo_alloc (c, heap0) = Ok s' /\
    it_payload <$> its' = [[104; 105]] /\ register_flag (command_status s'.1) = 1 /\
    list_rep (recv_data_list s'.1, s'.2) its'.
Proof.
  destruct (demo_client (concat (encode <$> [[3; 104; 105]; [129; 1]]) ++ [0; 0])) as (c & H & Hst & _).
  { apply (bool_decide_unpack _). vm_compute. exact I. }
  { vm_compute. discriminate. }
  destruct (@parse_delivers demo_alloc [[3; 104; 105]; [129; 1]] (c, heap0) [] [0; 0] 0 [] H)
    as (s' & its' & E & Hr & Hs & _ & Hp).
  - repeat constructor; try (vm_compute; discriminate); try lia; try done.
  - left. reflexivity.
  - exists c, s', its'. split; [exact E|]. split; [exact (Hp demo_plenty)|].
    split; [rewrite Hs; simpl; rewrite Hst; reflexivity | exact (cr_list _ _ _ _ _ Hr)].
Defined.

Lemma parse_overflow_witness :
  exists c, @parse_recv_net_command demo_alloc (c, heap0) = Err OutOfBounds.
Proof.
  destruct (demo_client (encode (replicate (Z.to_nat 2049) 3) ++ [])) as (c & H & _).
  { apply (bool_decide_unpack _). vm_compute. exact I. }
  { vm_compute. discriminate. }
  exists c. apply (@parse_overflow demo_alloc _ (c, heap0) [] [] 0 [] H). vm_compute. reflexivity.
Defined.

Lemma parse_stalls_witness :
  exists c, @parse_recv_net_command demo_alloc (c, heap0) = Ok (c, heap0).
Proof.
  destruct (demo_client [0; 0; 32; 0; 3]) as (c & H & _).
  { apply (bool_decide_unpack _). vm_compute. exact I. }
  { vm_compute. discriminate. }
  exists c. apply (@parse_stalls demo_alloc (c, heap0) [] [0; 0; 32; 0; 3] 0 [] H).
  - apply (bool_decide_unpack _). vm_compute. exact I.
  - vm_compute. discriminate.
  - vm_compute. split; reflexivity.
Defined.
