(* ===== verification/ParserTotal.v ===== *)
(** * The parser of the client on arbitrary input (API/C/netWork.c)

    Client.v says what [parse_recv_net_command] does with frames it can handle.
    Here: on every state of the client whatsoever its loop ends, with a result that
    does not depend on the bound the model puts on it; and [to_hex], with which
    the parser used to log the commands. *)

From S2P Require Import Prelude Ring RecvFifo Heap RecvList SendFifo Client.

(** ** Lemmas: what cannot run out of turns *)

Definition ends {A} (r : res A) : Prop := r <> Err OutOfFuel.

Create HintDb ends.

Lemma ends_ok {A} (a : A) : ends (Ok a).
Proof. done. Qed.
Lemma ends_bind {A B} (r : res A) (f : A -> res B) : ends r -> (forall a, r = Ok a -> ends (f a)) -> ends (res_bind r f).
Proof. intros H Hf. destruct r as [a|e]; simpl; [by apply Hf|]. intros [= ->]. by apply H. Qed.
Lemma ends_get_at {A} (l : list A) i : ends (get_at l i).
Proof. unfold ends, get_at. repeat case_match; congruence. Qed.
Lemma ends_set_at {A} (l : list A) i x : ends (set_at l i x).
Proof. unfold ends, set_at. repeat case_match; congruence. Qed.
Lemma ends_add32 x y : ends (add32 x y).
Proof. unfold ends, add32. repeat case_match; congruence. Qed.
Lemma ends_read_at {A} (l : list A) i n : ends (read_at l i n).
Proof. unfold ends, read_at. repeat case_match; congruence. Qed.
Lemma ends_free p h : ends (free p h).
Proof. unfold ends, free. repeat case_match; congruence. Qed.
Lemma ends_node_at p s : ends (node_at p s).
Proof. unfold ends, node_at, the_node, load_block, res_bind. repeat case_match; congruence. Qed.
Lemma ends_lock m : ends (pthread_mutex_lock m).
Proof. unfold ends, pthread_mutex_lock. repeat case_match; congruence. Qed.

#[export] Hint Resolve ends_ok ends_get_at ends_set_at ends_add32 ends_read_at ends_free ends_node_at ends_lock : ends.

(** Goes through a sequence of operations. *)
Ltac solve_ends :=
  repeat first
    [ progress intros
    | solve [auto with ends]
    | simple apply ends_bind
    | case_match
    | discriminate ].

Lemma ends_set_next p v s : ends (set_next p v s).
Proof. unfold set_next. solve_ends. Qed.
Lemma ends_set_prev p v s : ends (set_prev p v s).
Proof. unfold set_prev. solve_ends. Qed.
#[export] Hint Resolve ends_set_next ends_set_prev : ends.

Lemma ends_list_add n s : ends (recv_data_list_add n s).
Proof. unfold recv_data_list_add, lock_list. solve_ends. Qed.
Lemma ends_pop fifo n : ends (recv_data_fifo_pop fifo n).
Proof. unfold recv_data_fifo_pop. solve_ends. Qed.
#[export] Hint Resolve ends_list_add ends_pop : ends.

Lemma ends_read_command n i command fifo : ends (read_command n i command fifo).
Proof.
  revert i command fifo. induction n as [|n IH]; intros i command fifo; cbn [read_command]; [done|].
  unfold top_byte. solve_ends.
Qed.
#[export] Hint Resolve ends_read_command : ends.

Lemma ends_top_int fifo : ends (recv_data_fifo_top_int fifo).
Proof. unfold recv_data_fifo_top_int. cbn [top_int_loop]. solve_ends. Qed.
#[export] Hint Resolve ends_top_int : ends.

Section total.
Context {al : Alloc}.

Lemma ends_queue_data command n s : ends (queue_data command n s).
Proof. unfold queue_data, alloc. solve_ends. Qed.

Lemma ends_exec_command command n s : ends (exec_command command n s).
Proof. unfold exec_command. pose proof ends_queue_data. solve_ends. Qed.

(** ** Lemmas: what a turn takes out of the buffer *)

Lemma pop_length fifo n fifo' :
  recv_data_fifo_pop fifo n = Ok fifo' -> rf_length fifo' = rf_length fifo - n.
Proof.
  unfold recv_data_fifo_pop, add32. intros E. case_match; cbn [res_bind] in E; [|done].
  injection E as <-. simpl. lia.
Qed.

Lemma read_command_length n i command fifo command' fifo' :
  read_command n i command fifo = Ok (command', fifo') -> rf_length fifo' = rf_length fifo - Z.of_nat n.
Proof.
  revert i command fifo. induction n as [|n IH]; intros i command fifo; cbn [read_command].
  - intros [= <- <-]. lia.
  - intros E. destruct (top_byte fifo); cbn [res_bind] in E; [|done].
    destruct (set_at command i _); cbn [res_bind] in E; [|done].
    destruct (recv_data_fifo_pop fifo 1) as [f|] eqn:Ep; cbn [res_bind] in E; [|done].
    apply IH in E. apply pop_length in Ep. lia.
Qed.

Lemma exec_command_fifo command n s s' :
  exec_command command n s = Ok s' -> recv_fifo s'.1 = recv_fifo s.1.
Proof.
  unfold exec_command, queue_data, alloc. intros E. destruct s as [c h].
  repeat (case_match || (match goal with H : res_bind ?r _ = Ok _ |- _ =>
    destruct r eqn:?; cbn [res_bind] in H; [|done] end)); simplify_eq; done.
Qed.

(** A turn either ends the parser or goes on with at least four bytes less. *)
Definition turn (command : list Z) (s : stupid_p2p_t * heap) : res (option (list Z * (stupid_p2p_t * heap))) :=
  if NET_PACKAGE_LENGTH <=? recv_data_fifo_length (recv_fifo s.1) then
    let* command_length := recv_data_fifo_top_int (recv_fifo s.1) in
    let* need := add32 command_length 4 in
    if need <=? recv_data_fifo_length (recv_fifo s.1) then
      let* fifo := recv_data_fifo_pop (recv_fifo s.1) 4 in
      let* (command, fifo) := read_command (Z.to_nat command_length) 0 command fifo in
      let* s := exec_command command command_length (set_recv_fifo fifo s.1, s.2) in
      Ok (Some (command, s))
    else Ok None
  else Ok None.

Lemma parse_loop_turn fuel command s :
  parse_loop (S fuel) command s =
  let* r := turn command s in
  match r with Some (command, s) => parse_loop fuel command s | None => Ok s end.
Proof.
  cbn [parse_loop]. unfold turn. case_match; [|done].
  destruct (recv_data_fifo_top_int _); cbn [res_bind]; [|done].
  destruct (add32 _ _); cbn [res_bind]; [|done]. case_match; [|done].
  destruct (recv_data_fifo_pop _ _); cbn [res_bind]; [|done].
  destruct (read_command _ _ _ _) as [[]|]; cbn [res_bind]; [|done].
  by destruct (exec_command _ _ _).
Qed.

Lemma ends_turn command s : ends (turn command s).
Proof. unfold turn. pose proof ends_exec_command. solve_ends. Qed.

Lemma turn_takes command s command' s' :
  turn command s = Ok (Some (command', s')) ->
  4 <= rf_length (recv_fifo s.1) /\ rf_length (recv_fifo s'.1) <= rf_length (recv_fifo s.1) - 4.
Proof.
  unfold turn, recv_data_fifo_length, NET_PACKAGE_LENGTH. intros E.
  destruct (Z.leb_spec 4 (rf_length (recv_fifo s.1))); [|done]. split; [done|].
  destruct (recv_data_fifo_top_int _) as [n|]; cbn [res_bind] in E; [|done].
  destruct (add32 _ _); cbn [res_bind] in E; [|done]. case_match; [|done].
  destruct (recv_data_fifo_pop _ _) as [f|] eqn:Ep; cbn [res_bind] in E; [|done].
  destruct (read_command _ _ _ _) as [[c f']|] eqn:Er; cbn [res_bind] in E; [|done].
  destruct (exec_command _ _ _) as [s1|] eqn:Ex; cbn [res_bind] in E; [|done]. injection E as <- <-.
  apply exec_command_fifo in Ex. apply pop_length in Ep. apply read_command_length in Er.
  simpl in Ex. rewrite Ex. lia.
Qed.

(** C16: the parser ends on every state of a client, whatever bytes, lengths and
    counters it has: its loop does not run out of the turns the model gives it, and
    any larger number of turns gives the same result. *)
Theorem parse_terminates (s : stupid_p2p_t * heap) (fuel : nat) :
  parse_recv_net_command s <> Err OutOfFuel /\
  ((Z.to_nat (rf_length (recv_fifo s.1)) < fuel)%nat ->
   parse_loop fuel (replicate (Z.to_nat 2048) 0) s = parse_recv_net_command s).
Proof.
  assert (forall n m command s, (Z.to_nat (rf_length (recv_fifo s.1)) < n)%nat -> (n <= m)%nat ->
    ends (parse_loop n command s) /\ parse_loop m command s = parse_loop n command s) as H.
  { clear. induction n as [|n IH]; intros [|m] command s Hn Hm; try lia.
    rewrite !parse_loop_turn. pose proof (ends_turn command s) as Ht.
    destruct (turn command s) as [[[command' s']|]|e] eqn:E; cbn [res_bind]; [|done|].
    - apply turn_takes in E. apply IH; lia.
    - split; [|done]. intros [= ->]. by apply Ht. }
  unfold parse_recv_net_command. split.
  - by apply (H _ (S (Z.to_nat (rf_length (recv_fifo s.1))))); [lia|].
  - intros Hf. apply H; lia.
Qed.

End total.

(** ** [to_hex] *)

Definition hex_table : list Z := chars "0123456789ABCDEF".

(** [while (l--)]: [i] and [j] are the positions of [s] and [d]. *)
Fixpoint to_hex_loop (l : nat) (s : list Z) (i : Z) (d : list Z) (j : Z) : res (list Z * Z) :=
  match l with
  | O => Ok (d, j)
  | S l =>
      let* c := get_at s i in
      let* x := get_at hex_table (Z.shiftr c 4) in
      let* d := set_at d j x in
      let* y := get_at hex_table (Z.land c 15) in
      let* d := set_at d (j + 1) y in
      to_hex_loop l s (i + 1) d (j + 2)
  end.

(** A negative [l] never reaches zero: the loop leaves the array. *)
Definition to_hex (s : list Z) (l : Z) (d : list Z) : res (list Z) :=
  if l <? 0 then Err OutOfBounds
  else
    let* (d, j) := to_hex_loop (Z.to_nat l) s 0 d 0 in
    set_at d j 0.

(** The two digits of a byte. *)
Definition hex_digits (c : Z) : list Z :=
  [nth (Z.to_nat (c / 16)) hex_table 0; nth (Z.to_nat (c mod 16)) hex_table 0].

Definition hex_string (s : list Z) : list Z := s ≫= hex_digits.

(** Reading the digits back. *)
Definition hex_value (x : Z) : option Z := Z.of_nat ∘ fst <$> list_find (fun y => y = x) hex_table.

Fixpoint of_hex (d : list Z) : list Z :=
  match d with
  | x :: y :: d' =>
      match hex_value x, hex_value y with
      | Some a, Some b => (16 * a + b) :: of_hex d'
      | _, _ => []
      end
  | _ => []
  end.

Lemma set_at_middle {A} (l r : list A) x y i : i = zlen l -> set_at (l ++ x :: r) i y = Ok (l ++ y :: r).
Proof.
  intros ->. rewrite set_at_ok by (rewrite zlen_app, zlen_cons; zlia). unfold zlen. rewrite Nat2Z.id.
  by rewrite insert_app_r_alt, Nat.sub_diag by lia.
Qed.

Lemma get_at_middle {A} (l r : list A) x i : i = zlen l -> get_at (l ++ x :: r) i = Ok x.
Proof.
  intros ->. apply get_at_ok; [zlia|]. unfold zlen. rewrite Nat2Z.id.
  by rewrite lookup_app_r, Nat.sub_diag by lia.
Qed.

Lemma get_hex c : 0 <= c < 16 -> get_at hex_table c = Ok (nth (Z.to_nat c) hex_table 0).
Proof.
  intros H. apply get_at_ok; [lia|]. rewrite nth_lookup.
  destruct (lookup_lt_is_Some_2 hex_table (Z.to_nat c)) as [x ->]; [|done].
  change (length hex_table) with 16%nat. lia.
Qed.

Lemma high_digit c : is_byte c -> Z.shiftr c 4 = c / 16 /\ Z.land c 15 = c mod 16 /\ 0 <= c / 16 < 16 /\ 0 <= c mod 16 < 16.
Proof.
  unfold is_byte. intros H. rewrite Z.shiftr_div_pow2 by lia.
  change 15 with (Z.ones 4). rewrite Z.land_ones by lia. change (2 ^ 4) with 16.
  split_and!; [done | done | ..]; try (apply Z.div_pos; lia); try (apply Z.div_lt_upper_bound; lia);
    apply Z.mod_pos_bound; lia.
Qed.

Lemma to_hex_loop_spec s2 : forall s1 out rest,
  bytes s2 -> 2 * zlen s2 <= zlen rest ->
  to_hex_loop (length s2) (s1 ++ s2) (zlen s1) (out ++ rest) (zlen out) =
  Ok (out ++ hex_string s2 ++ zdrop (2 * zlen s2) rest, zlen out + 2 * zlen s2).
Proof.
  induction s2 as [|c s2 IH]; intros s1 out rest Hb Hr; cbn [length to_hex_loop].
  - change (zlen (@nil Z)) with 0. rewrite Z.mul_0_r, Z.add_0_r. by rewrite zdrop_0 by lia.
  - apply Forall_cons in Hb as [Hc Hb]. destruct (high_digit c Hc) as (E1 & E2 & H1 & H2).
    rewrite zlen_cons in Hr. destruct rest as [|x rest]; [zlia|]. destruct rest as [|y rest]; [zlia|].
    rewrite get_at_middle by done. cbn [res_bind]. rewrite E1, E2, get_hex by done. cbn [res_bind].
    rewrite set_at_middle by done. cbn [res_bind]. rewrite get_hex by done. cbn [res_bind].
    set (a := nth _ _ _). set (b := nth (Z.to_nat (c mod 16)) _ _).
    change (out ++ a :: y :: rest) with (out ++ [a] ++ y :: rest). rewrite app_assoc.
    rewrite set_at_middle by (rewrite zlen_app; done). cbn [res_bind].
    specialize (IH (s1 ++ [c]) (out ++ [a; b]) rest Hb).
    rewrite <- !app_assoc in IH. rewrite <- app_assoc. cbn [app] in IH |- *.
    rewrite !zlen_app in IH. change (zlen [c]) with 1 in IH. change (zlen [a; b]) with 2 in IH.
    rewrite IH by zlia. rewrite zlen_cons. do 2 f_equal; [|zlia].
    f_equal. unfold hex_string. simpl. do 2 f_equal. f_equal.
    replace (2 * (1 + zlen s2)) with (1 + (1 + 2 * zlen s2)) by lia.
    unfold zdrop. pose proof (zlen_nonneg s2). rewrite !Z2Nat.inj_add by lia. done.
Qed.

(** A command of [s] is logged as its digits and a NUL, if there is room. *)
Lemma to_hex_spec s d :
  bytes s -> 2 * zlen s < zlen d ->
  to_hex s (zlen s) d = Ok (hex_string s ++ 0 :: zdrop (2 * zlen s + 1) d).
Proof.
  intros Hb Hd. unfold to_hex. rewrite (proj2 (Z.ltb_ge _ _)) by zlia.
  pose proof (to_hex_loop_spec s [] [] d Hb ltac:(lia)) as E. cbn [app] in E. change (zlen (@nil Z)) with 0 in E. unfold zlen at 1. rewrite Nat2Z.id.
  rewrite E. cbn [res_bind].
  assert (exists x r, zdrop (2 * zlen s) d = x :: r /\ zdrop (2 * zlen s + 1) d = r) as (x & r & -> & ->).
  { unfold zdrop. pose proof (zlen_nonneg s).
    destruct (drop (Z.to_nat (2 * zlen s)) d) as [|x r] eqn:Ed.
    - apply (f_equal length) in Ed. rewrite length_drop in Ed. unfold zlen in *. simpl in Ed. lia.
    - exists x, r. split; [done|]. rewrite Z2Nat.inj_add, <- drop_drop, Ed by lia. done. }
  apply set_at_middle. unfold hex_string. clear.
  induction s as [|c s IH]; [done|]. rewrite bind_cons, zlen_app, zlen_cons. change (zlen (hex_digits c)) with 2. lia.
Qed.

Lemma hex_value_digit c : 0 <= c < 16 -> hex_value (nth (Z.to_nat c) hex_table 0) = Some c.
Proof.
  intros H. assert (Forall (fun c => hex_value (nth c hex_table 0) = Some (Z.of_nat c)) (seq 0 16)) as Hall
    by (vm_compute; repeat constructor).
  rewrite Forall_forall in Hall. rewrite (Hall (Z.to_nat c)); [f_equal; lia|]. apply elem_of_seq. lia.
Qed.

(** Nothing is lost: the digits give the command back. *)
Lemma to_hex_roundtrip s : bytes s -> of_hex (hex_string s) = s.
Proof.
  induction 1 as [|c s Hc _ IH]; [done|]. unfold hex_string in *. cbn [mbind list_bind hex_digits app of_hex].
  destruct (high_digit c Hc) as (_ & _ & H1 & H2). rewrite !hex_value_digit by done.
  change (list_bind _ _ hex_digits s) with (s ≫= hex_digits). rewrite IH. f_equal.
  rewrite (Z.div_mod c 16) at 3 by lia. done.
Qed.

(** ** The theorem at a concrete state *)

Lemma parse_terminates_witness :
  @parse_recv_net_command demo_alloc (p2p_zero, heap0) = @parse_loop demo_alloc 5 (replicate (Z.to_nat 2048) 0) (p2p_zero, heap0).
Proof. symmetry. apply (@parse_terminates demo_alloc (p2p_zero, heap0) 5). simpl. lia. Defined.
