(* ===== verification/Wire.v ===== *)
(** * What the server sends is what the client expects

    The messages the server puts on a connection have the shape the parser of the
    client handles, as long as no client sends a message larger than the parser's
    array; so the parser works on every cut of the stream. *)

From S2P Require Import Prelude Endian StringPiece Buffer Codec Muduo Server ServerSpec ServerInv ServerProps Hub Ring RecvFifo Heap RecvList SendFifo Client.

(** The messages for one connection, and its bytes: all that the server gives to
    [send].  On a connection that is being closed the library drops what is sent;
    such bytes are counted here all the same, as the last ones of the stream. *)
Definition to_conn (c : connid) (out : list output) : list (list Z) := (filter (fun o => o.1 = c) out).*2.
Definition stream (c : connid) (s : p2pServer) : list Z := concat (to_conn c (wire (trace s))).

(** Messages that fit the array of the parser. *)
Definition small (ls : list label) : Prop :=
  forall c m, LMsg c m ∈ ls -> bytes m /\ zlen m <= 2048.

(** ** Lemmas *)

Lemma to_conn_framed c out : to_conn c (Hub.framed <$> out) = encode <$> to_conn c out.
Proof.
  unfold to_conn. induction out as [|o out IH]; [done|]. rewrite fmap_cons, !filter_cons.
  change (Hub.framed o).1 with o.1. case_decide; rewrite ?fmap_cons, IH; done.
Qed.

Lemma to_conn_app c o o' : to_conn c (o ++ o') = to_conn c o ++ to_conn c o'.
Proof. unfold to_conn. by rewrite filter_app, fmap_app. Qed.

Lemma to_conn_copies c (cs : list connid) (m : list Z) :
  to_conn c ((., m) <$> cs) = (fun _ => m) <$> filter (.= c) cs.
Proof.
  unfold to_conn. induction cs as [|x cs IH]; [done|]. rewrite fmap_cons, !filter_cons. simpl.
  case_decide; rewrite ?fmap_cons, IH; done.
Qed.

Lemma u8_byte x : is_byte (u8 x).
Proof. unfold is_byte, u8, wrapu. apply Z.mod_pos_bound. lia. Qed.

Lemma reply_acceptable cmd r : acceptable (reply cmd r).
Proof.
  split; [|split; [vm_compute; split; discriminate | intros H; discriminate H]].
  constructor; [apply u8_byte|]. constructor; [apply u8_byte | constructor].
Qed.

Lemma message_outputs c m h :
  bytes m -> zlen m <= 2048 -> Forall (fun o => acceptable o.2) (hub_message c m h).2.
Proof.
  intros Hb Hl. unfold hub_message.
  assert (forall cmd r, Forall (fun o => acceptable o.2) [(c, reply cmd r)]) as Hr.
  { intros cmd r. constructor; [apply reply_acceptable | constructor]. }
  destruct (message_0 m =? Server.REGISTER_DEVICE); [apply Hr|].
  destruct (message_0 m =? Server.SUBSCRIBE_DEVICE); [destruct (hub_subscribe c (message_tail m) h); apply Hr|].
  destruct (Z.eqb_spec (message_0 m) Server.SEND_DATA) as [E|_].
  { apply Forall_app. split; [|apply Hr]. apply Forall_fmap, Forall_forall. intros x _. simpl.
    destruct m as [|y m]; [done|]. change (y = 3) in E. subst y.
    split; [done|]. split; [rewrite zlen_cons in *; zlia|]. by intros _ x' [= <-]. }
  by repeat case_match; try apply Hr; constructor.
Qed.

Lemma hub_do_outputs st l :
  (forall c m, l = LMsg c m -> bytes m /\ zlen m <= 2048) ->
  Forall (fun o => acceptable o.2) st.2 -> Forall (fun o => acceptable o.2) (hub_do st l).2.
Proof.
  destruct st as [h out]. intros Hl Ho. destruct l as [c|c m|c|c]; try exact Ho. simpl.
  destruct (Hl c m eq_refl) as [Hb Hz]. pose proof (message_outputs c m h Hb Hz) as Hm.
  destruct (hub_message c m h). simpl in *. by apply Forall_app.
Qed.

Lemma hub_run_outputs ls : small ls -> Forall (fun o => acceptable o.2) (hub_run ls).2.
Proof.
  intros Hs. unfold hub_run.
  assert (forall ls st, small ls -> Forall (fun o => acceptable o.2) st.2 ->
    Forall (fun o => acceptable o.2) (foldl hub_do st ls).2) as H.
  { clear. intros ls. induction ls as [|l ls IH]; intros st Hs Ho; [done|]. simpl. apply IH.
    - intros c m Hin. apply (Hs c m). by right.
    - apply hub_do_outputs; [|done]. intros c m ->. apply (Hs c m). left. }
  apply H; [done | constructor].
Qed.

(** A message whose frame a client can count: not empty, with a length of 31 bits. *)
Definition framable (m : list Z) : Prop := bytes m /\ 1 <= zlen m < 2 ^ 31 - 4.

Lemma acceptable_framable m : acceptable m -> framable m.
Proof. intros (Hb & Hm & _). split; [done | lia]. Qed.
Lemma all_framable ms : Forall acceptable ms -> Forall framable ms.
Proof. intros H. eapply Forall_impl; [exact H | apply acceptable_framable]. Qed.
#[export] Hint Resolve acceptable_framable all_framable : p2p.

(** A frame that is cut off is incomplete. *)
Lemma cut_frame m n : framable m -> 0 <= n < zlen (encode m) -> incomplete (ztake n (encode m)).
Proof.
  intros [Hb Hm] Hn. unfold encode in *. rewrite zlen_app, zlen_be_bytes in Hn.
  destruct (decide (n < 4)) as [Hlt|Hge].
  { left. rewrite zlen_ztake; [done|]. rewrite zlen_app, zlen_be_bytes. lia. }
  rewrite ztake_app_r by (rewrite zlen_be_bytes; lia). rewrite zlen_be_bytes. right.
  assert (header (be_bytes 4 (zlen m) ++ ztake (n - Z.of_nat 4) m) = zlen m) as Hh.
  { rewrite header_app by apply zlen_be_bytes. rewrite (wraps_be_val_be_bytes 4) by lia. apply wraps_id; lia. }
  rewrite Hh, zlen_app, zlen_be_bytes, zlen_ztake by lia. split_and!; [|lia|lia].
  apply Forall_app. split; [apply be_bytes_bytes | by apply Forall_take].
Qed.

(** Every prefix of a sequence of frames is some frames and an incomplete one. *)
Lemma frames_prefix ms : forall n,
  Forall framable ms ->
  exists ms1 ms2 rest, ms = ms1 ++ ms2 /\ ztake n (concat (encode <$> ms)) = concat (encode <$> ms1) ++ rest /\
    incomplete rest.
Proof.
  induction ms as [|m ms IH]; intros n Hacc.
  - exists [], [], []. split_and!; [done | apply take_nil | by left].
  - apply Forall_cons in Hacc as [Hm Hacc]. cbn [fmap list_fmap concat].
    destruct (decide (n <= 0)) as [Hn|Hn].
    { exists [], (m :: ms), []. split_and!; [done | by rewrite ztake_0 | by left]. }
    destruct (decide (n < zlen (encode m))) as [Hlt|Hge].
    + exists [], (m :: ms), (ztake n (encode m)).
      split_and!; [done | rewrite ztake_app_l by lia; done | apply cut_frame; [done | lia]].
    + destruct (IH (n - zlen (encode m)) Hacc) as (ms1 & ms2 & rest & -> & E & Hi).
      exists (m :: ms1), ms2, rest. split_and!; [done | | done].
      rewrite ztake_app_r by lia. rewrite E. cbn [fmap list_fmap concat]. by rewrite app_assoc.
Qed.

Lemma concat_encode_app ms ms' :
  concat (encode <$> (ms ++ ms')) = concat (encode <$> ms) ++ concat (encode <$> ms').
Proof. by rewrite fmap_app, concat_app. Qed.

(** The next piece of a stream of frames, after the frames that were handled. *)
Lemma frames_piece handled todo unparsed bs wire :
  Forall framable todo ->
  concat (encode <$> (handled ++ todo)) = (concat (encode <$> handled) ++ unparsed) ++ bs ++ wire ->
  exists ms todo' rest, todo = ms ++ todo' /\ unparsed ++ bs = concat (encode <$> ms) ++ rest /\ incomplete rest.
Proof.
  intros Hacc E. rewrite concat_encode_app, <- !app_assoc in E. apply app_inv_head in E.
  destruct (frames_prefix todo (zlen (unparsed ++ bs)) Hacc) as (ms & todo' & rest & -> & Et & Hi).
  exists ms, todo', rest. split_and!; try done. rewrite <- Et, E, app_assoc. by rewrite ztake_app_eq.
Qed.

(** An incomplete frame stays incomplete without its end, and does not hold a frame. *)
Lemma incomplete_prefix r1 r2 : incomplete (r1 ++ r2) -> incomplete r1.
Proof.
  unfold incomplete. rewrite zlen_app. pose proof (zlen_nonneg r2). intros [?|(Hb & H1 & H2)]; [left; lia|].
  destruct (decide (zlen r1 < 4)); [by left | right].
  assert (header (r1 ++ r2) = header r1) as Eh by (unfold header; by rewrite ztake_app_l by lia).
  rewrite Eh in H1, H2. apply bytes_app in Hb as [Hb _]. split_and!; [done | lia | lia].
Qed.

Lemma incomplete_no_frame m k : framable m -> ~ incomplete (encode m ++ k).
Proof.
  intros [_ Hm] Hi. pose proof (zlen_nonneg k) as Hk.
  assert (zlen (encode m ++ k) = 4 + zlen m + zlen k) as Hl by (by rewrite zlen_app, encode_parts, zlen_app, zlen_be_bytes).
  assert (header (encode m ++ k) = zlen m) as Hh.
  { unfold encode. rewrite <- app_assoc, header_app by apply zlen_be_bytes.
    rewrite (wraps_be_val_be_bytes 4) by lia. apply wraps_id; lia. }
  destruct Hi as [Hi|(_ & Hi & _)]; lia.
Qed.

Lemma frames_all_read ms k : Forall framable ms -> incomplete (concat (encode <$> ms) ++ k) -> ms = [].
Proof.
  intros Hacc Hi. destruct ms as [|m ms]; [done|]. apply Forall_cons in Hacc as [Hm _].
  cbn [fmap list_fmap concat] in Hi. rewrite <- app_assoc in Hi. by destruct (incomplete_no_frame _ _ Hm Hi).
Qed.

(** What is left in the receive buffer is smaller than the largest frame. *)
Lemma unparsed_small unparsed X ms :
  Forall acceptable ms -> unparsed ++ X = concat (encode <$> ms) -> incomplete unparsed ->
  zlen unparsed < 4 + 2048.
Proof.
  intros Hacc E [H|(_ & H & _)]; [lia|]. destruct (decide (zlen unparsed < 4)); [lia|].
  destruct ms as [|m ms]; [apply app_eq_nil in E as [-> _]; rewrite zlen_nil in *; lia|].
  apply Forall_cons in Hacc as [(_ & Hm & _) _].
  assert (header unparsed = zlen m) as Hh; [|lia].
  assert (header unparsed = header (unparsed ++ X)) as -> by (unfold header; by rewrite ztake_app_l by lia).
  rewrite E. cbn [fmap list_fmap concat]. unfold encode. rewrite <- app_assoc, header_app by apply zlen_be_bytes.
  rewrite (wraps_be_val_be_bytes 4) by lia. apply wraps_id; lia.
Qed.

(** A piece of a stream of frames and an incomplete one. *)
Lemma stream_piece u bs more ms rest :
  Forall framable ms -> incomplete rest -> u ++ bs ++ more = concat (encode <$> ms) ++ rest ->
  exists ms1 ms2 r, ms = ms1 ++ ms2 /\ u ++ bs = concat (encode <$> ms1) ++ r /\ incomplete r /\
    r ++ more = concat (encode <$> ms2) ++ rest.
Proof.
  intros Hacc Hi E. rewrite app_assoc in E.
  destruct (decide (zlen (u ++ bs) <= zlen (concat (encode <$> ms)))) as [Hle|Hgt].
  - destruct (frames_prefix ms (zlen (u ++ bs)) Hacc) as (ms1 & ms2 & r & -> & Ep & Hr).
    exists ms1, ms2, r. assert (u ++ bs = concat (encode <$> ms1) ++ r) as Eu.
    { rewrite <- Ep. apply (f_equal (ztake (zlen (u ++ bs)))) in E.
      rewrite ztake_app_eq, ztake_app_l in E by done. exact E. }
    split_and!; try done. rewrite Eu, concat_encode_app, <- !app_assoc in E. by apply app_inv_head in E.
  - assert (u ++ bs = concat (encode <$> ms) ++ zdrop (zlen (concat (encode <$> ms))) (u ++ bs)) as Eu.
    { rewrite <- (ztake_zdrop (zlen (concat (encode <$> ms))) (u ++ bs)) at 1. f_equal.
      apply (f_equal (ztake (zlen (concat (encode <$> ms))))) in E.
      rewrite (ztake_app_l _ (u ++ bs)) in E by lia. by rewrite (ztake_app_eq _ (concat (encode <$> ms))) in E. }
    set (r := zdrop _ _) in Eu. rewrite Eu, <- app_assoc in E. apply app_inv_head in E.
    exists ms, [], r. rewrite app_nil_r. split_and!; try done. rewrite <- E in Hi. by eapply incomplete_prefix.
Qed.

Lemma to_conn_acceptable ls c : small ls -> Forall acceptable (to_conn c (hub_run ls).2).
Proof.
  intros Hs. unfold to_conn. apply Forall_fmap, Forall_forall. intros o [_ Ho]%list_elem_of_filter.
  pose proof (hub_run_outputs ls Hs) as Ha. rewrite Forall_forall in Ha. by apply Ha.
Qed.

(** The bytes on a connection are the frames of the hub's messages. *)
Lemma served_stream {host : Host} {lib : TcpLib} {libok : TcpLibOk} tid idle ls s c :
  served tid idle ls s -> stream c s = concat (encode <$> to_conn c (hub_run ls).2).
Proof.
  intros H. destruct (served_good tid idle ls s H) as [_ [_ Hw]]. unfold stream. by rewrite Hw, to_conn_framed.
Qed.

(** ** Theorem *)

Section typed.
Context {host : Host} {lib : TcpLib} {libok : TcpLibOk} {al : Alloc} (tid idle : Z).

(** C14: as long as the clients are polite (a client registers while its connection
    is open, under one id at a time and not under the reserved one) and none of them
    sends a message of more than 2048 bytes, every prefix of what the server sends on a connection consists of messages the
    parser of the client handles, those of the hub in their order, and a frame
    that is not complete yet; a client that holds the prefix parses all of the
    messages and keeps the rest. *)
Theorem stream_is_typed (ls : list label) (s : p2pServer) (c : connid) (n : Z) :
  served tid idle ls s -> small ls ->
  exists ms1 ms2 rest, to_conn c (hub_run ls).2 = ms1 ++ ms2 /\ Forall acceptable (ms1 ++ ms2) /\
    ztake n (stream c s) = concat (encode <$> ms1) ++ rest /\ incomplete rest /\
    (forall cl its k cmds, client_rep cl its (ztake n (stream c s)) k cmds ->
       exists cl' its', parse_recv_net_command cl = Ok cl' /\ client_rep cl' its' rest k cmds /\
         (plenty -> it_payload <$> its' = (it_payload <$> its) ++ received ms1)).
Proof.
  intros H Hs. pose proof (served_stream tid idle ls s c H) as Est.
  pose proof (to_conn_acceptable ls c Hs) as Hacc.
  destruct (frames_prefix _ n (all_framable _ Hacc)) as (ms1 & ms2 & rest & E & Ep & Hi).
  exists ms1, ms2, rest. rewrite <- E, Est. split_and!; try done.
  intros cl its k cmds Hrep. rewrite Ep in Hrep. rewrite E in Hacc. apply Forall_app in Hacc as [Hacc _].
  destruct (parse_recv_spec ms1 cl its rest k cmds Hrep Hacc Hi) as (cl' & add & Ec & Hr & _ & _ & [_ Hp]).
  exists cl', (its ++ add). split_and!; [done | done |]. intros Hpl. by rewrite fmap_app, Hp.
Qed.

End typed.

(** ** The theorem at a concrete run *)

#[local] Existing Instance demo_host.
#[local] Existing Instance demo_lib.
#[local] Existing Instance demo_lib_ok.
#[local] Existing Instance demo_alloc.

Lemma stream_is_typed_witness :
  exists ms1 ms2 rest, ms1 ++ ms2 = [[130; 1]; msg SEND_DATA "hi"] /\
    ztake 9 (stream 2 (hub_demo 5)) = concat (encode <$> ms1) ++ rest /\ incomplete rest.
Proof.
  destruct (stream_is_typed 1 10 _ _ 2%nat 9 hub_demo_served) as (ms1 & ms2 & rest & E & _ & Ep & Hi & _).
  - intros c m Hin. rewrite !elem_of_cons, elem_of_nil in Hin.
    destruct Hin as [|[|[[= -> ->]|[[= -> ->]|[[= -> ->]|[]]]]]]; try discriminate;
      (split; [apply (bool_decide_unpack _); vm_compute; exact I | vm_compute; discriminate]).
  - exists ms1, ms2, rest. split; [|split; [exact Ep | exact Hi]]. rewrite <- E. vm_compute. reflexivity.
Defined.
