(* ===== verification/PythonClient.v ===== *)
(** * The client in Python (API/Python/stupidP2P.py)

    The module has three classes: [clientRecvThread] parses what the server sends,
    [clientCheckNetThread] calls the heart beat every three seconds, and
    [stupidP2PClient] has the functions of the user.  A [collections.deque] is a
    list whose right end is its last element.  A Python exception that leaves a
    thread is an error ([IndexError], [AttributeError]).  What the socket does is
    the class [PySocket].  While [__sendCommand] sleeps the other threads run: what
    they do during the [k]-th sleep is the argument [others], as in Api.v.

    [python_parser_equiv] says that this client and the one in C understand the
    same bytes in the same way; [python_call_waits] that they send the same frames
    and wait for the reply in the same way. *)

From S2P Require Import Prelude Endian StringPiece Buffer Codec Ring RecvFifo Heap RecvList SendFifo Client Wire.

(** ** collections.deque *)

Definition deque := list Z.
Definition extendleft (xs : list Z) (dq : deque) : deque := reverse xs ++ dq.
Definition extend (xs : list Z) (dq : deque) : deque := dq ++ xs.
Definition pop (dq : deque) : res (Z * deque) :=
  match last dq with
  | Some x => Ok (x, take (pred (length dq)) dq)
  | None => Err IndexError
  end.

(** [n] times [pop]: the bytes in the order they come out. *)
Fixpoint pops (n : nat) (dq : deque) : res (list Z * deque) :=
  match n with
  | O => Ok ([], dq)
  | S n => let* (x, dq) := pop dq in let* (xs, dq) := pops n dq in Ok (x :: xs, dq)
  end.

(** ** clientRecvThread *)

Module Py.

Definition commandHeaderLength : Z := 4.
Definition registerCommand : Z := 1.
Definition subscribeCommand : Z := 2.
Definition sendDataCommand : Z := 3.
Definition unregisterCommand : Z := 4.
Definition unsubscribeCommand : Z := 5.
Definition checkCommand : Z := 6.
Definition heartBeatCommand : Z := 7.
Definition registerCommandResponse : Z := 129.
Definition subscribeCommandResponse : Z := 130.
Definition sendDataCommandResponse : Z := 131.
Definition unregisterCommandResponse : Z := 132.
Definition unsubscribeCommandResponse : Z := 133.
Definition checkCommandResponse : Z := 134.
Definition heartBeatCommandResponse : Z := 135.
Definition failResponse : Z := 0.
Definition successResponse : Z := 1.
Definition notReceiveResponse : Z := 255.
Definition backIndexMax : Z := heartBeatCommand + 1.
Definition maxsize : Z := 4096.

Record clientRecvThread := mkThread {
  recvDeque : deque;
  commandResponse : list Z;
  recvDataQueue : list (list Z);
  stop_event : bool
}.

Definition new_clientRecvThread : clientRecvThread :=
  mkThread [] (replicate (Z.to_nat backIndexMax) notReceiveResponse) [] false.

Definition set_deque (dq : deque) (t : clientRecvThread) : clientRecvThread :=
  mkThread dq (commandResponse t) (recvDataQueue t) (stop_event t).
Definition set_response (i r : Z) (t : clientRecvThread) : clientRecvThread :=
  mkThread (recvDeque t) (<[Z.to_nat i := r]> (commandResponse t)) (recvDataQueue t) (stop_event t).
(** [if not full(): put(data)]. *)
Definition put_data (data : list Z) (t : clientRecvThread) : clientRecvThread :=
  if zlen (recvDataQueue t) <? maxsize
  then mkThread (recvDeque t) (commandResponse t) (recvDataQueue t ++ [data]) (stop_event t) else t.
Definition stop (t : clientRecvThread) : clientRecvThread :=
  mkThread (recvDeque t) (commandResponse t) (recvDataQueue t) true.
Definition stopped (t : clientRecvThread) : bool := stop_event t.

Definition getCommandResponse (nowPopLength : Z) (dq : deque) : res (Z * Z * deque) :=
  let* (x, dq) := pop dq in Ok (nowPopLength + 1, x, dq).

(** The entry of [commandResponse] a response goes to. *)
Definition response_index (command : Z) : option Z :=
  if command =? registerCommandResponse then Some registerCommand
  else if command =? subscribeCommandResponse then Some subscribeCommand
  else if command =? sendDataCommandResponse then Some sendDataCommand
  else if command =? unregisterCommandResponse then Some unregisterCommand
  else if command =? unsubscribeCommandResponse then Some unsubscribeCommand
  else if command =? checkCommandResponse then Some checkCommand
  else if command =? heartBeatCommandResponse then Some heartBeatCommand
  else None.

(** A frame whose header says [headerLength], after the header: the [if] chain and
    the loop that takes out the rest of the frame. *)
Definition exec_frame (headerLength : Z) (t : clientRecvThread) : res clientRecvThread :=
  let* (command, dq) := pop (recvDeque t) in
  let popLength := 1 in
  let* (popLength, t) :=
    match response_index command with
    | Some i =>
        let* (popLength, r, dq) := getCommandResponse popLength dq in
        Ok (popLength, set_response i r (set_deque dq t))
    | None =>
        if command =? sendDataCommand then
          let* (data, dq) := pops (Z.to_nat (headerLength - popLength)) dq in
          Ok (headerLength, put_data data (set_deque dq t))
        else Ok (popLength, set_deque dq t)
    end in
  let* (_, dq) := pops (Z.to_nat (headerLength - popLength)) (recvDeque t) in
  Ok (set_deque dq t).

(** [while len(self._recvDeque) > self.__commandHeaderLength]. *)
Fixpoint parse (fuel : nat) (t : clientRecvThread) : res clientRecvThread :=
  if commandHeaderLength <? zlen (recvDeque t) then
    match fuel with
    | O => Err OutOfFuel
    | S fuel =>
        let* (headerBytes, dq) := pops (Z.to_nat commandHeaderLength) (recvDeque t) in
        let headerLength := be_val headerBytes in
        if headerLength <=? zlen dq then
          let* t := exec_frame headerLength (set_deque dq t) in
          parse fuel t
        else Ok (set_deque (extend (le_bytes 4 headerLength) dq) t)
    end
  else Ok t.

(** What [recv(1024)] does. *)
Inductive received_data := RTimeout | RError | RData (bs : list Z).

(** One turn of [while not self.stopped()]. *)
Definition run_turn (r : received_data) (t : clientRecvThread) : res clientRecvThread :=
  if stopped t then Ok t
  else match r with
       | RTimeout | RError => Ok t
       | RData bs =>
           let t := set_deque (extendleft bs (recvDeque t)) t in
           parse (length (recvDeque t)) t
       end.

Fixpoint run_turns (rs : list received_data) (t : clientRecvThread) : res clientRecvThread :=
  match rs with [] => Ok t | r :: rs => let* t := run_turn r t in run_turns rs t end.

(** ** stupidP2PClient *)

(** What the socket does at the [k]-th call: whether [connect] succeeds, and how many
    bytes [send] takes, or that it raises an exception. *)
Class PySocket := {
  py_connect : nat -> bool;
  py_send : nat -> option Z
}.

Inductive sockevent :=
  | PConnect (ok : bool)
  | PSend (bs : list Z) (taken : option Z)
  | PClose
  | PStart (recv : bool).   (* [start] of the receiving thread, or of the checking one *)

(** The attributes [recvThread] and [checkNetThread] do not exist before
    [initClient]; of the latter only the event that stops it is kept. *)
Record stupidP2PClient := mkClient {
  runningFlag : Z;
  needToRestartFlag : Z;
  notReceiveNum : Z;
  recvThread : option clientRecvThread;
  checkNetThread : option bool;
  sockevents : list sockevent
}.

Definition new_stupidP2PClient : stupidP2PClient := mkClient 0 0 0 None None [].

Definition set_running v (c : stupidP2PClient) : stupidP2PClient :=
  mkClient v (needToRestartFlag c) (notReceiveNum c) (recvThread c) (checkNetThread c) (sockevents c).
Definition set_needToRestart v (c : stupidP2PClient) : stupidP2PClient :=
  mkClient (runningFlag c) v (notReceiveNum c) (recvThread c) (checkNetThread c) (sockevents c).
Definition set_notReceiveNum v (c : stupidP2PClient) : stupidP2PClient :=
  mkClient (runningFlag c) (needToRestartFlag c) v (recvThread c) (checkNetThread c) (sockevents c).
Definition set_recvThread v (c : stupidP2PClient) : stupidP2PClient :=
  mkClient (runningFlag c) (needToRestartFlag c) (notReceiveNum c) v (checkNetThread c) (sockevents c).
Definition set_checkNetThread v (c : stupidP2PClient) : stupidP2PClient :=
  mkClient (runningFlag c) (needToRestartFlag c) (notReceiveNum c) (recvThread c) v (sockevents c).
Definition sock_event e (c : stupidP2PClient) : stupidP2PClient :=
  mkClient (runningFlag c) (needToRestartFlag c) (notReceiveNum c) (recvThread c) (checkNetThread c)
    (sockevents c ++ [e]).

Definition the_recvThread (c : stupidP2PClient) : res clientRecvThread :=
  match recvThread c with Some t => Ok t | None => Err AttributeError end.

Section client.
Context {so : PySocket}.

Definition initClient (c : stupidP2PClient) : bool * stupidP2PClient :=
  let ok := py_connect (length (sockevents c)) in
  let c := sock_event (PConnect ok) c in
  if ok then
    let c := sock_event (PStart true) (set_recvThread (Some new_clientRecvThread) c) in
    let c := sock_event (PStart false) (set_checkNetThread (Some false) c) in
    (true, set_running 1 c)
  else (false, c).

(** The loops [while not self.checkNetThread.stopped()] read the event that was
    set just before: they do not sleep. *)
Definition deinitClient (c : stupidP2PClient) : res stupidP2PClient :=
  if negb (runningFlag c =? 0) then
    let c := set_running 0 c in
    let* c := match checkNetThread c with
              | Some _ => Ok (set_checkNetThread (Some true) c)
              | None => Err AttributeError
              end in
    let* t := the_recvThread c in
    Ok (sock_event PClose (set_recvThread (Some (stop t)) c))
  else Ok c.

(** [while ret == False]: the loop goes on until a connection is made. *)
Fixpoint restartClient (fuel : nat) (c : stupidP2PClient) : res stupidP2PClient :=
  match fuel with
  | O => Err OutOfFuel
  | S fuel =>
      let* c := deinitClient c in
      let (ret, c) := initClient c in
      if ret : bool then Ok (set_needToRestart 0 c) else restartClient fuel c
  end.

(** [__send].  How many bytes [send] takes is not looked at. *)
Definition send (command : list Z) (c : stupidP2PClient) : stupidP2PClient :=
  let commandSendBytes := be_bytes 4 (zlen command) ++ command in
  if negb (runningFlag c =? 0) && (needToRestartFlag c =? 0) then
    let taken := py_send (length (sockevents c)) in
    let c := sock_event (PSend commandSendBytes taken) c in
    match taken with Some _ => c | None => set_needToRestart 1 c end
  else c.

Section waiting.
(** What the other threads do while this one sleeps. *)
Context (others : nat -> stupidP2PClient -> res stupidP2PClient).

Definition response (command : Z) (c : stupidP2PClient) : res Z :=
  let* t := the_recvThread c in
  match commandResponse t !! Z.to_nat command with Some r => Ok r | None => Err IndexError end.

(** [while commandResponse[command] == notReceive], with the variable [loop]. *)
Fixpoint wait_response (fuel : nat) (loop : Z) (command : Z) (c : stupidP2PClient) : res stupidP2PClient :=
  let* r := response command c in
  if r =? notReceiveResponse then
    match fuel with
    | O => Err OutOfFuel
    | S fuel =>
        let* c := others (Z.to_nat loop) c in
        if 300 <? loop then Ok c else wait_response fuel (loop + 1) command c
    end
  else Ok c.

Definition max_sleeps : nat := 302.

(** [__sendCommand]. *)
Definition sendCommand (command : Z) (data : list Z) (c : stupidP2PClient) : res (Z * stupidP2PClient) :=
  if (runningFlag c =? 0) || (needToRestartFlag c =? 1) then Ok (failResponse, c)
  else
    let* t := the_recvThread c in
    let c := set_recvThread (Some (set_response command notReceiveResponse t)) c in
    let c := send (command :: data) c in
    let* c := wait_response max_sleeps 0 command c in
    let* r := response command c in
    Ok (r, c).

(** The argument is the UTF-8 encoding of the string. *)
Definition registerDevice (deviceId : list Z) := sendCommand registerCommand deviceId.
Definition subscribeDevice (subscribeDeviceId : list Z) := sendCommand subscribeCommand subscribeDeviceId.
Definition sendData (data : list Z) (c : stupidP2PClient) : res (Z * stupidP2PClient) :=
  if zlen data =? 0 then Ok (failResponse, c) else sendCommand sendDataCommand data c.
Definition unregisterDevice := sendCommand unregisterCommand [].
Definition unscribeDevice (unscriveDeviceId : list Z) := sendCommand unsubscribeCommand unscriveDeviceId.
Definition checkDeviceAlive (checkDeviceId : list Z) := sendCommand checkCommand checkDeviceId.

(** [__heartBeat]; [tries] bounds the attempts of [restartClient]. *)
Definition heartBeat (tries : nat) (c : stupidP2PClient) : res (Z * stupidP2PClient) :=
  let* (ret, c) := sendCommand heartBeatCommand [] c in
  let c := if ret =? notReceiveResponse then set_notReceiveNum (notReceiveNum c + 1) c else c in
  if (2 <? notReceiveNum c) || negb (needToRestartFlag c =? 0) then
    let* c := restartClient tries (set_notReceiveNum 0 c) in Ok (ret, c)
  else Ok (ret, c).

(** One turn of [clientCheckNetThread.run], after the sleep. *)
Definition check_turn (tries : nat) (stopped : bool) (c : stupidP2PClient) : res stupidP2PClient :=
  if stopped then Ok c else res_map snd (heartBeat tries c).

End waiting.

(** The loop takes everything out of the queue. *)
Definition recvData (c : stupidP2PClient) : res (list (list Z) * stupidP2PClient) :=
  if (needToRestartFlag c =? 0) || (runningFlag c =? 1) then
    let* t := the_recvThread c in
    Ok (recvDataQueue t,
        set_recvThread (Some (mkThread (recvDeque t) (commandResponse t) [] (stop_event t))) c)
  else Ok ([], c).

End client.

End Py.

(** ** Lemmas: the deque *)

Lemma pop_reverse x k : pop (reverse (x :: k)) = Ok (x, reverse k).
Proof.
  unfold pop. rewrite reverse_cons, last_snoc, length_app. simpl.
  replace (pred (length (reverse k) + 1)) with (length (reverse k)) by lia. by rewrite take_app_length.
Qed.

Lemma pops_reverse a : forall b, pops (length a) (reverse (a ++ b)) = Ok (a, reverse b).
Proof. induction a as [|x a IH]; intros b; [done|]. cbn [pops length app]. rewrite pop_reverse. simpl. by rewrite IH. Qed.

Lemma pops_split n a b : Z.to_nat n = length a -> pops (Z.to_nat n) (reverse (a ++ b)) = Ok (a, reverse b).
Proof. intros ->. apply pops_reverse. Qed.

Lemma extendleft_reverse xs k : extendleft xs (reverse k) = reverse (k ++ xs).
Proof. unfold extendleft. by rewrite reverse_app. Qed.

(** The header goes back to where it was. *)
Lemma extend_header hdr k :
  bytes hdr -> length hdr = 4%nat -> extend (le_bytes 4 (be_val hdr)) (reverse k) = reverse (hdr ++ k).
Proof.
  intros Hb Hl. unfold extend. rewrite reverse_app. f_equal.
  rewrite <- (reverse_involutive (le_bytes 4 (be_val hdr))). fold (be_bytes 4 (be_val hdr)).
  by rewrite <- Hl, be_bytes_be_val.
Qed.

(** ** Lemmas: the parser *)

Import Py.

(** A message the parser takes: it is not empty, and a response has a result. *)
Definition py_message (m : list Z) : Prop :=
  framable m /\
  (forall x i, head m = Some x -> response_index x = Some i -> 2 <= zlen m).

Definition py_incomplete (rest : list Z) : Prop :=
  zlen rest <= 4 \/ (bytes rest /\ zlen rest < 4 + be_val (ztake 4 rest)).

(** What the thread makes of a message. *)
Definition py_step (t : clientRecvThread) (m : list Z) : clientRecvThread :=
  match m with
  | code :: d =>
      match response_index code with
      | Some i => match d with r :: _ => set_response i r t | [] => t end
      | None => if code =? sendDataCommand then put_data d t else t
      end
  | [] => t
  end.

(** Messages do not depend on what follows them. *)
Lemma py_step_deque dq t m : py_step (set_deque dq t) m = set_deque dq (py_step t m).
Proof. destruct m as [|x [|r d]]; [done|..]; simpl; unfold put_data; simpl; repeat case_match; done. Qed.

Lemma py_steps_deque dq t ms : foldl py_step (set_deque dq t) ms = set_deque dq (foldl py_step t ms).
Proof. revert t. induction ms as [|m ms IH]; intros t; [done|]. cbn [foldl]. by rewrite py_step_deque, IH. Qed.

Lemma exec_frame_spec m k t :
  py_message m -> recvDeque t = reverse (m ++ k) ->
  exec_frame (zlen m) t = Ok (set_deque (reverse k) (py_step t m)).
Proof.
  intros ([Hb Hm] & Hr) Hdq. unfold exec_frame. rewrite Hdq.
  destruct m as [|code d]; [rewrite zlen_nil in Hm; lia|]. simpl (_ ++ _). rewrite pop_reverse. cbn [res_bind].
  assert (Z.to_nat (zlen (code :: d) - 1) = length d) as Hd by (rewrite zlen_cons; unfold zlen; lia).
  unfold py_step. destruct (response_index code) as [i|] eqn:Ei.
  - pose proof (Hr code i eq_refl Ei) as H2. destruct d as [|r d]; [change (zlen [code]) with 1 in H2; lia|].
    unfold getCommandResponse. simpl (_ ++ _). rewrite pop_reverse. cbn [res_bind]. simpl (recvDeque _).
    rewrite (pops_split _ d k); [done|]. rewrite !zlen_cons. unfold zlen. lia.
  - destruct (code =? sendDataCommand).
    + rewrite (pops_split _ d k) by done. cbn [res_bind]. rewrite Z.sub_diag. simpl.
      unfold put_data. simpl. by case_match.
    + cbn [res_bind]. simpl (recvDeque _). by rewrite (pops_split _ d k).
Qed.

Lemma py_header m : py_message m -> be_val (be_bytes 4 (zlen m)) = zlen m.
Proof. intros [[_ Hm] _]. rewrite be_val_be_bytes. apply Z.mod_small. simpl. lia. Qed.

Lemma parse_stops fuel t rest :
  recvDeque t = reverse rest -> py_incomplete rest -> (length rest <= fuel)%nat -> parse fuel t = Ok t.
Proof.
  intros Hdq Hi Hf. destruct fuel as [|fuel]; cbn [parse]; unfold commandHeaderLength; rewrite Hdq.
  { destruct rest; [done | simpl in Hf; lia]. }
  assert (zlen (reverse rest) = zlen rest) as Hl by (unfold zlen; by rewrite length_reverse). rewrite Hl.
  destruct (Z.ltb_spec 4 (zlen rest)) as [H4|_]; [|done].
  destruct Hi as [|[Hb Hi]]; [lia|]. rewrite <- (ztake_zdrop 4 rest) at 1.
  assert (length (ztake 4 rest) = 4%nat) as H4l.
  { pose proof (zlen_ztake 4 rest ltac:(lia)) as E. unfold zlen in E. lia. }
  rewrite (pops_split 4 (ztake 4 rest) (zdrop 4 rest)) by (by rewrite H4l). cbn [res_bind].
  assert (zlen (reverse (zdrop 4 rest)) = zlen rest - 4) as ->.
  { unfold zlen at 1. rewrite length_reverse. fold (zlen (zdrop 4 rest)). apply zlen_zdrop. lia. }
  rewrite (proj2 (Z.leb_gt _ _)) by lia. rewrite extend_header; [|by apply Forall_take|done].
  rewrite ztake_zdrop, <- Hdq. by destruct t.
Qed.

Lemma parse_frames ms : forall fuel t rest,
  Forall py_message ms -> recvDeque t = reverse (concat (encode <$> ms) ++ rest) -> py_incomplete rest ->
  (length ms + length rest <= fuel)%nat ->
  parse fuel t = Ok (set_deque (reverse rest) (foldl py_step t ms)).
Proof.
  induction ms as [|m ms IH]; intros fuel t rest Hms Hdq Hi Hf.
  - rewrite (parse_stops fuel t rest Hdq Hi Hf). simpl in *. rewrite <- Hdq. by destruct t.
  - destruct fuel as [|fuel]; [simpl in Hf; lia|]. apply Forall_cons in Hms as [Hm Hms]. pose proof Hm as [[Hmb Hml] _]. cbn [parse].
    set (k := concat (encode <$> ms) ++ rest). cbn [fmap list_fmap concat] in Hdq.
    rewrite <- app_assoc in Hdq. unfold encode in Hdq at 1. rewrite <- app_assoc in Hdq. fold k in Hdq.
    assert (forall l : list Z, zlen (reverse l) = zlen l) as Hrev by (intros; unfold zlen; by rewrite length_reverse).
    unfold commandHeaderLength. rewrite Hdq, Hrev, !zlen_app, zlen_be_bytes.
    pose proof (zlen_nonneg k) as Hk. rewrite (proj2 (Z.ltb_lt _ _)) by lia.
    rewrite (pops_split 4 (be_bytes 4 (zlen m)) (m ++ k)).
    2: { unfold be_bytes. by rewrite length_reverse, length_le_bytes. }
    cbn [res_bind]. rewrite (py_header m Hm), Hrev, zlen_app, (proj2 (Z.leb_le _ _)) by lia.
    rewrite (exec_frame_spec m k) by done. cbn [res_bind].
    rewrite (IH fuel _ rest); [ | done | done | done | simpl in Hf; lia].
    f_equal. cbn [foldl]. by rewrite !py_step_deque, !py_steps_deque.
Qed.

(** ** Lemmas: turns of the thread *)

(** The entry of [commandResponse] that stands for a flag of the C library. *)
Definition flag_index (f : flag) : Z :=
  match f with
  | FRegister => 1 | FSubscribe => 2 | FSendData => 3 | FUnregister => 4 | FUnsubscribe => 5
  | FCheckAlive => 6 | FHeartBeat => 7
  end.

Lemma response_flag x : response_index x = flag_index <$> reply_flag x.
Proof.
  unfold response_index, reply_flag, REGISTER_DEVICE_CALL_BACK, SUBSCRIBE_DEVICE_CALL_BACK, SEND_DATA_CALL_BACK,
    UNREGISTER_DEVICE_CALL_BACK, UNSUBSCRIBE_DEVICE_CALL_BACK, CKECK_DEVICE_ALIVE_CALL_BACK,
    HEART_BEAT_CALL_BACK, registerCommandResponse, subscribeCommandResponse, sendDataCommandResponse,
    unregisterCommandResponse, unsubscribeCommandResponse, checkCommandResponse, heartBeatCommandResponse.
  repeat case_match; done.
Qed.

Lemma acceptable_py m : acceptable m -> py_message m.
Proof.
  intros Ha. split; [by apply acceptable_framable|]. destruct Ha as (Hb & Hm & Hr). intros x i Hx Hi.
  destruct (decide (zlen m = 1)) as [E|]; [|lia]. rewrite response_flag, (Hr E x Hx) in Hi. done.
Qed.

Lemma all_py ms : Forall acceptable ms -> Forall py_message ms.
Proof. intros H. eapply Forall_impl; [exact H | apply acceptable_py]. Qed.
Lemma py_framable ms : Forall py_message ms -> Forall framable ms.
Proof. intros H. eapply Forall_impl; [exact H | by intros m [? _]]. Qed.

Lemma incomplete_py rest : incomplete rest -> py_incomplete rest.
Proof.
  intros [H|(Hb & H & _)]; [left; lia|]. destruct (decide (zlen rest <= 4)); [by left | right].
  split; [done|]. unfold header, wraps in H.
  pose proof (be_val_range (ztake 4 rest) ltac:(by apply Forall_take)) as Hr.
  pose proof (Z.mod_le (be_val (ztake 4 rest) + 2 ^ (32 - 1)) (2 ^ 32) ltac:(lia) ltac:(lia)). lia.
Qed.

Lemma frames_longer ms : (length ms <= length (concat (encode <$> ms)))%nat.
Proof.
  induction ms as [|m ms IH]; [done|]. rewrite fmap_cons. cbn [concat length].
  rewrite length_app, encode_parts, length_app. unfold be_bytes. rewrite length_reverse, length_le_bytes. lia.
Qed.

Lemma run_turn_spec t u bs ms rest :
  stop_event t = false -> recvDeque t = reverse u -> u ++ bs = concat (encode <$> ms) ++ rest ->
  Forall py_message ms -> incomplete rest ->
  run_turn (RData bs) t = Ok (set_deque (reverse rest) (foldl py_step t ms)).
Proof.
  intros Hst Hdq E Hacc Hi. unfold run_turn, stopped. rewrite Hst. cbn [recvDeque set_deque].
  rewrite Hdq, extendleft_reverse, E. rewrite (parse_frames ms _ _ rest).
  - by rewrite py_steps_deque.
  - done.
  - done.
  - by apply incomplete_py.
  - rewrite length_reverse, length_app. pose proof (frames_longer ms). lia.
Qed.

Lemma stop_steps t ms : stop_event (foldl py_step t ms) = stop_event t.
Proof.
  revert t. induction ms as [|m ms IH]; intros t; [done|]. cbn [foldl]. rewrite IH.
  destruct m as [|x [|r d]]; [done|..]; simpl; unfold put_data; repeat case_match; done.
Qed.

(** The stream may be cut anywhere. *)
Lemma run_turns_spec bss : forall t u ms rest,
  stop_event t = false -> recvDeque t = reverse u -> incomplete u ->
  u ++ concat bss = concat (encode <$> ms) ++ rest -> Forall py_message ms -> incomplete rest ->
  run_turns (RData <$> bss) t = Ok (set_deque (reverse rest) (foldl py_step t ms)).
Proof.
  induction bss as [|bs bss IH]; intros t u ms rest Hst Hdq Hu E Hacc Hi.
  - simpl in E. rewrite app_nil_r in E. subst u. rewrite (frames_all_read ms rest (py_framable _ Hacc) Hu) in *.
    simpl in *. rewrite <- Hdq. by destruct t.
  - cbn [concat] in E. destruct (stream_piece u bs (concat bss) ms rest (py_framable _ Hacc) Hi E) as (ms1 & ms2 & r & -> & E1 & Hr & E2).
    apply Forall_app in Hacc as [Hacc1 Hacc2]. cbn [fmap list_fmap run_turns].
    rewrite (run_turn_spec t u bs ms1 r) by done. cbn [res_bind].
    rewrite (IH _ r ms2 rest); try done; [|simpl; by rewrite stop_steps].
    by rewrite py_steps_deque, foldl_app.
Qed.

(** ** The two clients understand the same bytes *)

(** The responses of the thread are the flags of the C structure. *)
Definition agrees (t : clientRecvThread) (st : realtime_command_status_t) : Prop :=
  forall f, commandResponse t !! Z.to_nat (flag_index f) = Some (get_flag f st).

(** The result of a reply is one of the two the server sends. *)
Definition plain_result (m : list Z) : Prop :=
  forall code r d, m = code :: r :: d -> is_Some (reply_flag code) -> r = 0 \/ r = 1.

Lemma flag_index_inj f g : flag_index f = flag_index g -> f = g.
Proof. by destruct f, g. Qed.
Lemma flag_index_pos f : 0 < flag_index f.
Proof. by destruct f. Qed.

Lemma py_step_agrees t st m :
  agrees t st -> acceptable m -> plain_result m -> agrees (py_step t m) (status_step st m).
Proof.
  intros Ha (_ & Hm & Hr) Hp. destruct m as [|code d]; [rewrite zlen_nil in Hm; lia|].
  unfold py_step, status_step. rewrite response_flag. destruct (reply_flag code) as [f|] eqn:Ef; simpl.
  - destruct d as [|r d]; [specialize (Hr eq_refl code eq_refl); congruence|].
    destruct (Z.eqb_spec code SEND_DATA) as [->|_]; [done|]. intros g. simpl. rewrite get_set_flag.
    case_decide as Hg.
    + subst g. rewrite list_lookup_insert_eq by (by eapply lookup_lt_Some). f_equal.
      destruct (Hp code r d eq_refl) as [-> | ->]; eauto.
    + rewrite list_lookup_insert_ne; [apply Ha|]. pose proof (flag_index_pos f). pose proof (flag_index_pos g).
      intros E. apply Hg, flag_index_inj. lia.
  - assert (agrees (if code =? sendDataCommand then put_data d t else t) st) as H.
    { destruct (code =? sendDataCommand); [|done]. unfold put_data. by case_match. }
    destruct d; [done|]. by destruct (code =? SEND_DATA).
Qed.

Lemma py_steps_agree ms : forall t st,
  agrees t st -> Forall acceptable ms -> Forall plain_result ms -> agrees (foldl py_step t ms) (status_after ms st).
Proof.
  induction ms as [|m ms IH]; intros t st Ha Hacc Hp; [done|].
  apply Forall_cons in Hacc as [Hm Hacc]. apply Forall_cons in Hp as [Hpm Hp].
  unfold status_after. cbn [foldl]. apply IH; auto using py_step_agrees.
Qed.

(** The queue takes data until it is full; the rest is dropped. *)
Lemma py_step_queue t m :
  recvDataQueue (py_step t m) =
    match payload_of m with
    | Some d => if zlen (recvDataQueue t) <? maxsize then recvDataQueue t ++ [d] else recvDataQueue t
    | None => recvDataQueue t
    end.
Proof.
  destruct m as [|code d]; [done|]. unfold py_step, payload_of. rewrite response_flag.
  destruct (Z.eqb_spec code SEND_DATA) as [->|Hne].
  - simpl. unfold put_data. by destruct (zlen (recvDataQueue t) <? maxsize).
  - destruct (reply_flag code); simpl; [by destruct d|]. change sendDataCommand with SEND_DATA.
    by rewrite (proj2 (Z.eqb_neq _ _)).
Qed.

Lemma py_steps_queue ms : forall t,
  zlen (recvDataQueue t) <= maxsize ->
  recvDataQueue (foldl py_step t ms) = recvDataQueue t ++ ztake (maxsize - zlen (recvDataQueue t)) (received ms).
Proof.
  induction ms as [|m ms IH]; intros t Hq; cbn [foldl].
  { unfold received, ztake. simpl. by rewrite take_nil, app_nil_r. }
  unfold received. cbn [omap list_omap].
  fold (received ms). pose proof (py_step_queue t m) as Es.
  destruct (payload_of m) as [d|]; [|rewrite IH, Es by (done || by rewrite Es); done].
  destruct (Z.ltb_spec (zlen (recvDataQueue t)) maxsize) as [Hlt|Hge].
  - assert (zlen (recvDataQueue (py_step t m)) = zlen (recvDataQueue t) + 1) as Hl by (by rewrite Es, zlen_app).
    rewrite IH by (done || lia). rewrite Hl, Es, <- app_assoc. f_equal. unfold ztake.
    replace (Z.to_nat (maxsize - zlen (recvDataQueue t))) with
      (S (Z.to_nat (maxsize - (zlen (recvDataQueue t) + 1)))) by lia. done.
  - rewrite IH, Es by (done || by rewrite Es). rewrite !ztake_0 by lia. done.
Qed.

(** C17: for messages as the server sends them when no client sends longer ones (not
    empty, at most 2048 bytes, and a reply with a result, 0 or 1), the client in
    Python and the client in C understand the same bytes in the same way, however
    the stream is cut for the Python client: both keep the same incomplete frame, the
    responses of one are the flags of the other, and the user of each gets the same
    payloads, up to the 4096 the Python queue holds.  (A longer message overruns the
    array of the parser in C, [Client.parse_overflow]; of another result the parser in
    C makes 0, and Python keeps the byte.) *)
Theorem python_parser_equiv {al : Alloc} (t : clientRecvThread) (cl : stupid_p2p_t * heap) its k cmds u bss ms rest :
  plenty -> stop_event t = false -> recvDeque t = reverse u -> incomplete u ->
  agrees t (command_status cl.1) -> it_payload <$> its = recvDataQueue t -> zlen (recvDataQueue t) <= 4096 ->
  client_rep cl its (concat (encode <$> ms) ++ rest) k cmds ->
  u ++ concat bss = concat (encode <$> ms) ++ rest ->
  Forall acceptable ms -> Forall plain_result ms -> incomplete rest ->
  exists t' cl' its', run_turns (RData <$> bss) t = Ok t' /\ parse_recv_net_command cl = Ok cl' /\
    recvDeque t' = reverse rest /\ client_rep cl' its' rest k cmds /\
    agrees t' (command_status cl'.1) /\ recvDataQueue t' = ztake 4096 (it_payload <$> its').
Proof.
  intros Hpl Hst Hdq Hu Ha Hq Hl Hrep E Hacc Hp Hi.
  destruct (parse_recv_spec ms cl its rest k cmds Hrep Hacc Hi) as (cl' & add & Ec & Hrep' & Hs & _ & [_ Hadd]).
  exists (set_deque (reverse rest) (foldl py_step t ms)), cl', (its ++ add).
  split_and!; try done.
  - apply (run_turns_spec bss t u ms rest); auto using all_py.
  - rewrite Hs. intros f. by apply py_steps_agree.
  - simpl. rewrite py_steps_queue, fmap_app, Hadd, Hq by done.
    unfold maxsize. by rewrite ztake_app_r.
Qed.

(** ** The functions of the user *)

Section calls.
Context {so : PySocket} (others : nat -> stupidP2PClient -> res stupidP2PClient).

(** The client has a receiving thread with an entry for the command. *)
Definition has_response (command : Z) (c : stupidP2PClient) : Prop := exists r, response command c = Ok r.

Definition py_keeps (command : Z) : Prop :=
  forall i c, has_response command c -> exists c', others i c = Ok c' /\ has_response command c'.

(** The state after the others ran [n] times, from the [i]-th time on. *)
Fixpoint py_run (i n : nat) (c : stupidP2PClient) : res stupidP2PClient :=
  match n with O => Ok c | S n => let* c := others i c in py_run (S i) n c end.

Lemma wait_response_spec n : forall loop command c,
  py_keeps command -> has_response command c -> 0 <= loop -> loop + Z.of_nat n = 302 -> (0 < n)%nat ->
  exists i c' r, (i <= n)%nat /\ py_run (Z.to_nat loop) i c = Ok c' /\
    wait_response others n loop command c = Ok c' /\ response command c' = Ok r /\
    (forall j c1, (j < i)%nat -> py_run (Z.to_nat loop) j c = Ok c1 -> response command c1 = Ok notReceiveResponse) /\
    (i = n \/ r <> notReceiveResponse).
Proof.
  induction n as [|n IH]; intros loop command c Hk [r Hr] Hl Hn Hpos; [lia|].
  cbn [wait_response]. rewrite Hr. cbn [res_bind].
  destruct (Z.eqb_spec r notReceiveResponse) as [->|Hne].
  2: { exists 0%nat, c, r. split_and!; try done; [lia | lia | by right]. }
  destruct (Hk (Z.to_nat loop) c) as (c1 & E1 & [r1 Hr1]); [by eexists|]. rewrite E1. cbn [res_bind].
  destruct (Z.ltb_spec 300 loop) as [Hlast|Hmore].
  - assert (n = 0%nat) as -> by lia. exists 1%nat, c1, r1. cbn [py_run]. rewrite E1. split_and!; try done; [|by left].
    intros [|j] c2 Hj H2; [|lia]. cbn [py_run] in H2. by injection H2 as <-.
  - destruct (IH (loop + 1) command c1 Hk) as (i & c' & r' & Hi & Hrun & Hw & Hr' & Hj & Hend); [by eexists|lia..|].
    replace (Z.to_nat (loop + 1)) with (S (Z.to_nat loop)) in Hrun, Hj by lia.
    exists (S i), c', r'. split_and!; [lia | | done | done | | ].
    + cbn [py_run]. by rewrite E1.
    + intros [|j] c2 Hlt H2; cbn [py_run] in H2; [by injection H2 as <-|].
      rewrite E1 in H2. cbn [res_bind] in H2. apply (Hj j); [lia | done].
    + destruct Hend as [->|?]; auto.
Qed.

(** Up to the wait a command does this: the entry is reset and the frame is sent. *)
Lemma sendCommand_starts command data c t :
  runningFlag c <> 0 -> needToRestartFlag c = 0 -> recvThread c = Some t -> 0 <= command < zlen (commandResponse t) ->
  exists taken c1, sockevents c1 = sockevents c ++ [PSend (encode (command :: data)) taken] /\
    recvThread c1 = Some (set_response command notReceiveResponse t) /\ checkNetThread c1 = checkNetThread c /\
    runningFlag c1 = runningFlag c /\ needToRestartFlag c1 = (match taken with Some _ => 0 | None => 1 end) /\
    response command c1 = Ok notReceiveResponse /\
    sendCommand others command data c =
      (let* c := wait_response others max_sleeps 0 command c1 in let* r := response command c in Ok (r, c)).
Proof.
  intros Hrun Hrs Ht Hcmd. unfold sendCommand. rewrite (proj2 (Z.eqb_neq _ _)) by done. rewrite Hrs. simpl (_ || _).
  unfold the_recvThread at 1. rewrite Ht. cbn [res_bind].
  set (c0 := set_recvThread _ c). set (c1 := send (command :: data) c0). set (taken := py_send (length (sockevents c))).
  exists taken, c1.
  assert (sockevents c1 = sockevents c ++ [PSend (encode (command :: data)) taken] /\
    recvThread c1 = recvThread c0 /\ checkNetThread c1 = checkNetThread c0 /\ runningFlag c1 = runningFlag c0 /\
    needToRestartFlag c1 = match taken with Some _ => 0 | None => 1 end) as (Hev & Ht1 & Hn1 & Hr1 & Hf1).
  { unfold c1, send. simpl. rewrite (proj2 (Z.eqb_neq _ _)) by done. rewrite Hrs. simpl. fold taken.
    by destruct taken. }
  split_and!; try done. unfold response, the_recvThread. rewrite Ht1. simpl.
  rewrite list_lookup_insert_eq; [done|]. unfold zlen in Hcmd. lia.
Qed.

(** C20: a call of the Python client whose connection works forgets the last
    response to this command, and changes nothing else of its receiving thread;
    hands one frame, the same as the C library, to the socket; sleeps at least once
    and at most 302 times 10 ms; and returns the first response the receiving
    thread stores meanwhile, or 255 when it stores none.  The other threads may do
    anything that does not fail or take away the receiving thread. *)
Theorem python_call_waits (command : Z) (data : list Z) (c : stupidP2PClient) (t : clientRecvThread) :
  runningFlag c <> 0 -> needToRestartFlag c = 0 -> recvThread c = Some t ->
  0 <= command < zlen (commandResponse t) -> py_keeps command ->
  exists taken c1 i c' r, sockevents c1 = sockevents c ++ [PSend (encode (command :: data)) taken] /\
    recvThread c1 = Some (set_response command notReceiveResponse t) /\
    response command c1 = Ok notReceiveResponse /\
    checkNetThread c1 = checkNetThread c /\ runningFlag c1 = runningFlag c /\
    needToRestartFlag c1 = (match taken with Some _ => 0 | None => 1 end) /\
    (0 < i <= 302)%nat /\ py_run 0 i c1 = Ok c' /\ sendCommand others command data c = Ok (r, c') /\
    response command c' = Ok r /\
    (forall j cj, (j < i)%nat -> py_run 0 j c1 = Ok cj -> response command cj = Ok notReceiveResponse) /\
    (i = 302%nat \/ r <> notReceiveResponse).
Proof.
  intros Hrun Hrs Ht Hcmd Hk.
  destruct (sendCommand_starts command data c t Hrun Hrs Ht Hcmd) as (taken & c1 & Hev & Ht1 & Hn1 & Hr1 & Hf1 & Hresp & ->).
  destruct (wait_response_spec max_sleeps 0 command c1 Hk) as (i & c' & r & Hi & Hrn & Hw & Hr & Hj & Hend);
    [by eexists | lia | done | unfold max_sleeps; lia |].
  exists taken, c1, i, c', r. split_and!; try done; [|by rewrite Hw; cbn [res_bind]; rewrite Hr].
  destruct i as [|i]; [|lia]. injection Hrn as <-. destruct Hend as [?|Hne]; [done|]. congruence.
Qed.

End calls.

Section restart.
Context {so : PySocket}.

Lemma deinit_stops c :
  (runningFlag c <> 0 -> is_Some (recvThread c) /\ is_Some (checkNetThread c)) ->
  exists c', deinitClient c = Ok c' /\ runningFlag c' = 0 /\
    length (sockevents c') = (length (sockevents c) + (if (runningFlag c =? 0)%Z then 0 else 1))%nat.
Proof.
  intros H. unfold deinitClient. destruct (Z.eqb_spec (runningFlag c) 0) as [E|E]; simpl.
  - exists c. split_and!; [done | done | lia].
  - destruct (H E) as [[t Ht] [b Hb]]. rewrite Hb. cbn [res_bind]. unfold the_recvThread. simpl. rewrite Ht. cbn [res_bind].
    eexists. split; [done|]. split; [done|]. simpl. rewrite length_app. simpl. lia.
Qed.

Lemma deinit_idle c : runningFlag c = 0 -> deinitClient c = Ok c.
Proof. intros H. unfold deinitClient. by rewrite H. Qed.

(** [restartClient] ends as soon as the server can be reached again: the client
    runs, with a new receiving thread. *)
Lemma restart_connects k : forall c n,
  runningFlag c = 0 -> n = length (sockevents c) ->
  (forall j, (j < k)%nat -> py_connect (n + j) = false) -> py_connect (n + k) = true ->
  exists c', restartClient (S k) c = Ok c' /\ runningFlag c' = 1 /\ needToRestartFlag c' = 0 /\
    recvThread c' = Some new_clientRecvThread /\ notReceiveNum c' = notReceiveNum c.
Proof.
  induction k as [|k IH]; intros c n Hr -> Hf Ht; cbn [restartClient];
    rewrite (deinit_idle c Hr); cbn [res_bind]; unfold initClient.
  - rewrite Nat.add_0_r in Ht. rewrite Ht. eexists. split; [done|]. done.
  - pose proof (Hf 0%nat ltac:(lia)) as H0. rewrite Nat.add_0_r in H0. rewrite H0.
    destruct (IH (sock_event (PConnect false) c) (S (length (sockevents c)))) as (c' & E & Hc').
    + done.
    + simpl. rewrite length_app. simpl. lia.
    + intros j Hj. rewrite Nat.add_succ_l, <- Nat.add_succ_r. apply Hf. lia.
    + by rewrite Nat.add_succ_l, <- Nat.add_succ_r.
    + exists c'. split; [exact E | exact Hc'].
Qed.

(** What has arrived is handed over once, oldest first. *)
Lemma recv_data_all c t :
  recvThread c = Some t -> needToRestartFlag c = 0 \/ runningFlag c = 1 ->
  exists c' t', recvData c = Ok (recvDataQueue t, c') /\ recvThread c' = Some t' /\ recvDataQueue t' = [] /\
    recvDeque t' = recvDeque t /\ commandResponse t' = commandResponse t.
Proof.
  intros Ht Hf. unfold recvData.
  assert ((needToRestartFlag c =? 0) || (runningFlag c =? 1) = true) as ->.
  { apply orb_true_iff. rewrite !Z.eqb_eq. done. }
  unfold the_recvThread. rewrite Ht. cbn [res_bind]. eexists _, _. done.
Qed.

(** Before [initClient] there is no [recvThread] to ask. *)
Lemma recv_data_before_init : recvData new_stupidP2PClient = Err AttributeError.
Proof. done. Qed.

End restart.

(** ** The theorems at concrete states *)

#[local] Existing Instance demo_alloc.

Definition no_reply : realtime_command_status_t := mkStatus 255 255 255 255 255 255 255 0.

Lemma demo_acceptable : Forall acceptable [[130; 1]; [3; 104; 105]].
Proof. repeat constructor; try (vm_compute; discriminate); vm_compute; intros; congruence. Qed.

Lemma python_parser_equiv_witness :
  exists t' cl cl', run_turns (RData <$> [[0; 0; 0; 2; 130]; [1; 0; 0; 0; 3; 3; 104; 105; 0; 0]]) new_clientRecvThread = Ok t' /\
    parse_recv_net_command cl = Ok cl' /\ get_flag FSubscribe (command_status cl'.1) = 1 /\
    commandResponse t' !! 2%nat = Some 1.
Proof.
  destruct (demo_client [0; 0; 0; 2; 130; 1; 0; 0; 0; 3; 3; 104; 105; 0; 0]) as (C & HC & _ & _);
    [apply (bool_decide_unpack _); vm_compute; exact I | vm_compute; discriminate |].
  destruct (python_parser_equiv new_clientRecvThread (set_status no_reply C, heap0) [] 0 [] []
    [[0; 0; 0; 2; 130]; [1; 0; 0; 0; 3; 3; 104; 105; 0; 0]] [[130; 1]; [3; 104; 105]] [0; 0])
    as (t' & cl' & its' & E & Ec & _ & _ & Ha & _).
  - exact demo_plenty.
  - reflexivity.
  - reflexivity.
  - left. vm_compute. reflexivity.
  - intros f. destruct f; reflexivity.
  - reflexivity.
  - vm_compute. discriminate.
  - destruct HC as [R1 R2 R3 R4]. split; [exact R1 | exact R2 | exact R3 | exact R4].
  - reflexivity.
  - exact demo_acceptable.
  - constructor; [intros code r d [= _ <- _] _; by right|]. constructor; [|constructor].
    intros code r d [= <- <- _] [f Hf]. discriminate Hf.
  - left. vm_compute. reflexivity.
  - assert (command_status cl'.1 = status_after [[130; 1]; [3; 104; 105]] no_reply) as Es.
    { destruct (parse_recv_spec [[130; 1]; [3; 104; 105]] (set_status no_reply C, heap0) [] [0; 0] 0 [])
        as (cl1 & add & E1 & _ & Hs & _).
      - destruct HC as [R1 R2 R3 R4]. split; [exact R1 | exact R2 | exact R3 | exact R4].
      - exact demo_acceptable.
      - left. vm_compute. reflexivity.
      - rewrite E1 in Ec. injection Ec as <-. exact Hs. }
    exists t', (set_status no_reply C, heap0), cl'. split; [exact E|]. split; [exact Ec|].
    specialize (Ha FSubscribe). rewrite Es in Ha |- *. split; [reflexivity | exact Ha].
Defined.

(** A socket that always works, and others that answer a heart beat, or nothing. *)
Definition demo_socket : PySocket := {| py_connect _ := true; py_send _ := Some 1024 |}.
#[local] Existing Instance demo_socket.

Definition silent : nat -> stupidP2PClient -> res stupidP2PClient := fun _ c => Ok c.
Definition answering : nat -> stupidP2PClient -> res stupidP2PClient := fun i c =>
  let* t := the_recvThread c in
  let* t := run_turn (RData [0; 0; 0; 2; 135; 1]) t in
  Ok (set_recvThread (Some t) c).

Definition running_client : stupidP2PClient := (initClient new_stupidP2PClient).2.

Lemma python_call_waits_witness :
  exists c', sendCommand silent heartBeatCommand [] running_client = Ok (255, c').
Proof.
  destruct (python_call_waits silent heartBeatCommand [] running_client new_clientRecvThread) as
    (taken & c1 & i & c' & r & _ & _ & _ & _ & _ & _ & _ & Hrun & E & Hr & _).
  - discriminate.
  - reflexivity.
  - reflexivity.
  - vm_compute. split; [discriminate | reflexivity].
  - intros j c Hc. exists c. split; [reflexivity | exact Hc].
  - exists c'. rewrite E. vm_compute in E. congruence.
Defined.

(** The count of heart beats without an answer is never set back: three of them
    restart the client, whatever was answered in between. *)
Definition heart_beats (bs : list bool) (c : stupidP2PClient) : res stupidP2PClient :=
  foldl (fun r b => let* c := r in res_map snd (heartBeat (if b : bool then answering else silent) 1 c)) (Ok c) bs.

Lemma misses_add_up :
  match heart_beats [false; true; true; false; true; true; true; false] running_client with
  | Ok c => existsb (fun e => match e with PClose => true | _ => false end) (sockevents c)
  | Err _ => false
  end = true.
Proof. vm_compute. reflexivity. Qed.
