(* ===== verification/Utf8.v ===== *)
(** * Text in Python: [bytes(s, encoding="UTF-8")] and [str(bs, encoding="UTF-8")]

    A Python string is a list of code points, and the conversions are strict: they
    raise an exception on a surrogate and on bytes that are not the shortest
    encoding of a code point.  The Python client and the program with the window
    convert every id and every text this way. *)

From S2P Require Import Prelude.

Definition text := list Z.

Definition surrogate (c : Z) : bool := (55296 <=? c) && (c <=? 57343).

Definition utf8_char (c : Z) : res (list Z) :=
  if c <? 128 then Ok [c]
  else if c <? 2048 then Ok [192 + c / 64; 128 + c mod 64]
  else if c <? 65536 then
    if surrogate c then Err UnicodeError
    else Ok [224 + c / 4096; 128 + c / 64 mod 64; 128 + c mod 64]
  else Ok [240 + c / 262144; 128 + c / 4096 mod 64; 128 + c / 64 mod 64; 128 + c mod 64].

Fixpoint utf8 (s : text) : res (list Z) :=
  match s with
  | [] => Ok []
  | c :: s => let* b := utf8_char c in let* bs := utf8 s in Ok (b ++ bs)
  end.

(** A byte that continues a code point, and its six bits. *)
Definition continues (b : Z) : bool := (128 <=? b) && (b <? 192).
Definition six (b : Z) : Z := b - 128.

(** A code point read from the bytes, when it is not too small for their number. *)
Definition code_point (lo c : Z) (k : res text) : res text :=
  if (lo <=? c) && (c <=? 1114111) && negb (surrogate c)
  then let* s := k in Ok (c :: s) else Err UnicodeError.

Fixpoint utf8_decode (bs : list Z) : res text :=
  match bs with
  | [] => Ok []
  | b0 :: bs1 =>
      if b0 <? 128 then let* s := utf8_decode bs1 in Ok (b0 :: s)
      else if b0 <? 192 then Err UnicodeError
      else match bs1 with
           | [] => Err UnicodeError
           | b1 :: bs2 =>
               if negb (continues b1) then Err UnicodeError
               else if b0 <? 224 then
                 code_point 128 ((b0 - 192) * 64 + six b1) (utf8_decode bs2)
               else match bs2 with
                    | [] => Err UnicodeError
                    | b2 :: bs3 =>
                        if negb (continues b2) then Err UnicodeError
                        else if b0 <? 240 then
                          code_point 2048 ((b0 - 224) * 4096 + six b1 * 64 + six b2) (utf8_decode bs3)
                        else match bs3 with
                             | [] => Err UnicodeError
                             | b3 :: bs4 =>
                                 if negb (continues b3) then Err UnicodeError
                                 else if b0 <? 248 then
                                   code_point 65536
                                     ((b0 - 240) * 262144 + six b1 * 4096 + six b2 * 64 + six b3)
                                     (utf8_decode bs4)
                                 else Err UnicodeError
                             end
                    end
           end
  end.

(** What a string that can be encoded consists of. *)
Definition scalar (c : Z) : Prop := 0 <= c <= 1114111 /\ surrogate c = false.

(** ** Lemmas *)

Lemma div_mod_step a b c : 0 < b -> 0 < c -> a / b = a / (b * c) * c + a / b mod c.
Proof. intros Hb Hc. rewrite <- Z.div_div by lia. pose proof (Z.div_mod (a / b) c). lia. Qed.

(** A code point as its groups of six bits. *)
Lemma six_bits c : 0 <= c ->
  c = c / 64 * 64 + c mod 64 /\ c / 64 = c / 4096 * 64 + c / 64 mod 64 /\
  c / 4096 = c / 262144 * 64 + c / 4096 mod 64 /\
  0 <= c mod 64 < 64 /\ 0 <= c / 64 mod 64 < 64 /\ 0 <= c / 4096 mod 64 < 64 /\
  0 <= c / 64 /\ 0 <= c / 4096 /\ 0 <= c / 262144.
Proof.
  intros H. pose proof (Z.div_mod c 64 ltac:(lia)). split_and!; try apply Z.mod_pos_bound; try apply Z.div_pos; try lia.
  - apply (div_mod_step c 64 64); lia.
  - apply (div_mod_step c 4096 64); lia.
Qed.

Lemma continues_six x : 0 <= x < 64 -> continues (128 + x) = true.
Proof. intros H. unfold continues. apply andb_true_iff. rewrite Z.leb_le, Z.ltb_lt. lia. Qed.

Lemma code_point_ok lo c c' k : lo <= c' -> c = c' -> scalar c' -> code_point lo c k = (let* s := k in Ok (c' :: s)).
Proof.
  intros H -> [Hc Hs]. unfold code_point. rewrite (proj2 (Z.leb_le _ _) H), (proj2 (Z.leb_le _ _) (proj2 Hc)), Hs. done.
Qed.

Ltac test_false := rewrite (proj2 (Z.ltb_ge _ _)) by lia.
Ltac test_true := rewrite (proj2 (Z.ltb_lt _ _)) by lia.

(** One code point goes out and comes back. *)
Lemma utf8_char_spec c : scalar c ->
  exists bs, utf8_char c = Ok bs /\ bytes bs /\ (0 < length bs)%nat /\
    forall k, utf8_decode (bs ++ k) = let* s := utf8_decode k in Ok (c :: s).
Proof.
  intros Hc. pose proof Hc as [Hr Hs]. destruct (six_bits c ltac:(lia)) as (E1 & E2 & E3 & B1 & B2 & B3 & P1 & P2 & P3).
  unfold utf8_char. destruct (Z.ltb_spec c 128) as [H1|H1].
  { exists [c]. split_and!; [done | repeat constructor; lia | simpl; lia |]. intros k. cbn [app utf8_decode]. by test_true. }
  destruct (Z.ltb_spec c 2048) as [H2|H2].
  { eexists. split; [done|]. split_and!; [repeat constructor; lia | simpl; lia |]. intros k. cbn [app utf8_decode].
    do 2 test_false. rewrite continues_six by done. cbn [negb]. test_true.
    apply code_point_ok; [lia | unfold six; lia | done]. }
  destruct (Z.ltb_spec c 65536) as [H3|H3].
  { rewrite Hs. eexists. split; [done|]. split_and!; [repeat constructor; lia | simpl; lia |]. intros k. cbn [app utf8_decode].
    do 2 test_false. rewrite continues_six by done. cbn [negb]. test_false.
    rewrite continues_six by done. cbn [negb]. test_true. apply code_point_ok; [lia | unfold six; lia | done]. }
  eexists. split; [done|]. split_and!; [repeat constructor; lia | simpl; lia |]. intros k. cbn [app utf8_decode].
  do 2 test_false. rewrite continues_six by done. cbn [negb]. test_false.
  rewrite continues_six by done. cbn [negb]. test_false. rewrite continues_six by done. cbn [negb]. test_true.
  apply code_point_ok; [lia | unfold six; lia | done].
Qed.

Lemma utf8_roundtrip (s : text) : Forall scalar s ->
  exists bs, utf8 s = Ok bs /\ bytes bs /\ utf8_decode bs = Ok s /\ (length s <= length bs)%nat.
Proof.
  induction 1 as [|c s Hc _ (bs & E & Hb & Hd & Hl)]; [by exists []; repeat constructor|].
  destruct (utf8_char_spec c Hc) as (b & Ec & Hbb & Hlb & Hk). exists (b ++ bs). cbn [utf8]. rewrite Ec. cbn [res_bind].
  rewrite E. cbn [res_bind]. split; [done|]. split; [by apply Forall_app|].
  split; [by rewrite Hk, Hd|]. rewrite length_app. simpl. lia.
Qed.

Lemma code_point_error lo c k x : (forall y, k = Err y -> y = UnicodeError) -> code_point lo c k = Err x -> x = UnicodeError.
Proof.
  intros Hk. unfold code_point. destruct (_ && _); [|by intros [= <-]]. destruct k as [s|y]; [done|]. intros [= <-]. by apply Hk.
Qed.

(** The only way to fail. *)
Lemma utf8_decode_error bs x : utf8_decode bs = Err x -> x = UnicodeError.
Proof.
  revert x. remember (length bs) as n eqn:Hn. revert bs Hn.
  induction (lt_wf n) as [n _ IH]; intros bs -> x.
  assert (forall k, (length k < length bs)%nat -> forall y, utf8_decode k = Err y -> y = UnicodeError) as IHk by eauto.
  clear IH. destruct bs as [|b0 bs1]; [done|]. cbn [utf8_decode]. destruct (b0 <? 128).
  { destruct (utf8_decode bs1) eqn:E; [done|]. intros [= <-]. apply (IHk bs1); [simpl; lia | done]. }
  repeat (case_match; try by intros [= <-]); subst.
  all: intros E; eapply code_point_error; [|exact E]; apply IHk; simpl; lia.
Qed.

(** A string is encoded only if it has no surrogate: the other way to lose. *)
Lemma utf8_fails (s : text) c : c ∈ s -> surrogate c = true -> utf8 s = Err UnicodeError.
Proof.
  intros Hin Hs. induction s as [|c' s IH]; [by apply elem_of_nil in Hin|].
  cbn [utf8]. apply elem_of_cons in Hin as [<-|Hin].
  - assert (55296 <= c <= 57343) as Hr. { unfold surrogate in Hs. apply andb_prop in Hs as [?%Z.leb_le ?%Z.leb_le]. lia. }
    unfold utf8_char. do 2 test_false. test_true. by rewrite Hs.
  - rewrite (IH Hin). unfold utf8_char. repeat case_match; done.
Qed.
