(* ===== verification/Window.v ===== *)
(** * The program with the window (API/Python/test/main.py)

    A window with a button per function of the Python client, and a thread that
    shows what arrives.  The attributes [client], [deviceId], [subscribeId] and
    [recvThread] of the window do not exist before a handler sets them: reading one
    too early is an [AttributeError].  The texts of the window are the constructors
    of [tip] and [shown]; what [int] makes of the text of the port is the argument
    of the handler.  A handler runs to its end before the next event; while it waits
    for a reply the threads of the client run, as in PythonClient.v.

    [window_safe] says which events can raise an exception, and that no other can;
    [text_travels] that a text that is typed in one window is shown in another. *)

From S2P Require Import Prelude Endian StringPiece Buffer Codec Ring RecvFifo Heap RecvList SendFifo Client Wire PythonClient Utf8.

Module Win.

(** ** The window *)

Inductive colour := Green | Red | Burlywood.

(** What a command was for, in the text of its result. *)
Inductive header := HRegister | HUnregister | HAlive | HSubscribe | HUnsubscribe | HSend.

Inductive tip :=
  | InvalidServer | Connected | ConnectFailed | ConnectFirst
  | InvalidId | InvalidSubscribeId | NotRegistered | NotSubscribed
  | NoReply | Failed (h : header) | Succeeded (h : header).

Inductive shown := Received (s : text) | Sent (s : text).

Definition ERROR_TIPS : Z := 0.
Definition SUCCESS_TIPS : Z := 1.
Definition WARN_TIPS : Z := 2.

(** [clientRecvThread] of this program: the event that stops it. *)
Record clientRecvThread := mkThread { stop_event : bool }.
Definition stop (t : clientRecvThread) : clientRecvThread := mkThread true.
Definition stopped (t : clientRecvThread) : bool := stop_event t.

Record client := mkClient {
  startFlag : Z;
  the_client : option Py.stupidP2PClient;
  deviceId : option text;
  subscribeId : option text;
  recvThread : option clientRecvThread;
  label_colour : option colour;
  label_tips : option tip;
  textBrowser : list shown
}.

Definition new_client : client := mkClient 0 None None None None None None [].

Definition set_start v (w : client) : client :=
  mkClient v (the_client w) (deviceId w) (subscribeId w) (recvThread w) (label_colour w) (label_tips w) (textBrowser w).
Definition set_client v (w : client) : client :=
  mkClient (startFlag w) v (deviceId w) (subscribeId w) (recvThread w) (label_colour w) (label_tips w) (textBrowser w).
Definition set_deviceId v (w : client) : client :=
  mkClient (startFlag w) (the_client w) v (subscribeId w) (recvThread w) (label_colour w) (label_tips w) (textBrowser w).
Definition set_subscribeId v (w : client) : client :=
  mkClient (startFlag w) (the_client w) (deviceId w) v (recvThread w) (label_colour w) (label_tips w) (textBrowser w).
Definition set_recvThread v (w : client) : client :=
  mkClient (startFlag w) (the_client w) (deviceId w) (subscribeId w) v (label_colour w) (label_tips w) (textBrowser w).
Definition set_label col t (w : client) : client :=
  mkClient (startFlag w) (the_client w) (deviceId w) (subscribeId w) (recvThread w) col t (textBrowser w).
Definition printTextBrowser (s : shown) (w : client) : client :=
  mkClient (startFlag w) (the_client w) (deviceId w) (subscribeId w) (recvThread w) (label_colour w) (label_tips w)
    (textBrowser w ++ [s]).

(** Reading an attribute. *)
Definition attr {A} (x : option A) : res A := match x with Some a => Ok a | None => Err AttributeError end.

Definition printTips (level : Z) (t : tip) (w : client) : client :=
  let col := if level =? SUCCESS_TIPS then Some Green
             else if level =? ERROR_TIPS then Some Red
             else if level =? WARN_TIPS then Some Burlywood else label_colour w in
  set_label col (Some t) w.

Definition checkCommandReturn (ret : Z) (h : header) (w : client) : client :=
  if ret =? 255 then printTips WARN_TIPS NoReply w
  else if ret =? 0 then printTips ERROR_TIPS (Failed h) w
  else if ret =? 1 then printTips SUCCESS_TIPS (Succeeded h) w
  else w.

Section handlers.
Context {so : Py.PySocket} (others : nat -> Py.stupidP2PClient -> res Py.stupidP2PClient).

(** [server_port] is what [int] returned, or that it raised an exception. *)
Definition buttonConnectionClicked (server_port : option Z) (w : client) : client :=
  if startFlag w =? 0 then
    match server_port with
    | None => printTips ERROR_TIPS InvalidServer w
    | Some _ =>
        let (ret, c) := Py.initClient Py.new_stupidP2PClient in
        let w := set_client (Some c) w in
        if ret : bool then
          let w := set_start 1 (printTips SUCCESS_TIPS Connected w) in
          set_recvThread (Some (mkThread false)) w
        else printTips ERROR_TIPS ConnectFailed w
    end
  else w.

(** [ret = self.client.f(...); self.__checkCommandReturn(ret, h)]. *)
Definition call (f : Py.stupidP2PClient -> res (Z * Py.stupidP2PClient)) (h : header) (w : client) : res client :=
  let* c := attr (the_client w) in
  let* (ret, c) := f c in
  Ok (checkCommandReturn ret h (set_client (Some c) w)).

Definition buttonRegisterClicked (my_id : text) (w : client) : res client :=
  if startFlag w =? 0 then Ok (printTips WARN_TIPS ConnectFirst w)
  else
    let w := set_deviceId (Some my_id) w in
    if bool_decide (my_id = []) then Ok (printTips ERROR_TIPS InvalidId w)
    else call (fun c => let* bs := utf8 my_id in Py.registerDevice others bs c) HRegister w.

(** There is no [return] after the warning. *)
Definition buttonUnregisterCliecked (w : client) : res client :=
  if startFlag w =? 0 then Ok (printTips WARN_TIPS ConnectFirst w)
  else
    let* d := attr (deviceId w) in
    let w := if bool_decide (d = []) then printTips WARN_TIPS NotRegistered w else w in
    call (Py.unregisterDevice others) HUnregister w.

Definition buttoCheckAliveCliecked (id : text) (w : client) : res client :=
  if startFlag w =? 0 then Ok (printTips WARN_TIPS ConnectFirst w)
  else if bool_decide (id = []) then Ok (printTips ERROR_TIPS InvalidSubscribeId w)
  else call (fun c => let* bs := utf8 id in Py.checkDeviceAlive others bs c) HAlive w.

Definition buttonSubscribeCliecked (id : text) (w : client) : res client :=
  if startFlag w =? 0 then Ok (printTips WARN_TIPS ConnectFirst w)
  else
    let w := set_subscribeId (Some id) w in
    if bool_decide (id = []) then Ok (printTips ERROR_TIPS InvalidSubscribeId w)
    else call (fun c => let* bs := utf8 id in Py.subscribeDevice others bs c) HSubscribe w.

Definition buttonUnsubscribeCliecked (w : client) : res client :=
  if startFlag w =? 0 then Ok (printTips WARN_TIPS ConnectFirst w)
  else
    let* d := attr (subscribeId w) in
    let w := if bool_decide (d = []) then printTips WARN_TIPS NotSubscribed w else w in
    call (fun c => let* bs := utf8 d in Py.unscribeDevice others bs c) HUnsubscribe w.

Definition buttonSendDataCliecked (sendStr : text) (w : client) : res client :=
  if startFlag w =? 0 then Ok (printTips WARN_TIPS ConnectFirst w)
  else if bool_decide (sendStr = []) then Ok w
  else
    let* w := call (fun c => let* bs := utf8 sendStr in Py.sendData others bs c) HSend w in
    Ok (printTextBrowser (Sent sendStr) w).

(** [for data in dataList: printStrTrigger.emit(...)], and the slot it is connected to. *)
Fixpoint show_all (dataList : list (list Z)) (w : client) : res client :=
  match dataList with
  | [] => Ok w
  | data :: dataList => let* s := utf8_decode data in show_all dataList (printTextBrowser (Received s) w)
  end.

(** One turn of the thread, after its sleep. *)
Definition run_turn (w : client) : res client :=
  let* t := attr (recvThread w) in
  if stopped t then Ok w
  else
    let* c := attr (the_client w) in
    let* (dataList, c) := Py.recvData c in
    show_all dataList (set_client (Some c) w).

(** [reply] is the answer to the question; the result is whether the event is
    accepted.  The loop [while not self.recvThread.stopped()] reads the event that
    was just set. *)
Definition closeEvent (reply : bool) (w : client) : res (bool * client) :=
  if reply then
    let* w := (if startFlag w =? 1 then
        let* c := attr (the_client w) in
        let* c := Py.deinitClient c in
        let w := set_client (Some c) w in
        let* t := attr (recvThread w) in
        Ok (set_start 0 (set_recvThread (Some (stop t)) w))
      else Ok w) in
    Ok (true, w)
  else Ok (false, w).

(** ** What happens to the window *)

Inductive event :=
  | EConnect (server_port : option Z)
  | ERegister (my_id : text)
  | EUnregister
  | ECheckAlive (id : text)
  | ESubscribe (id : text)
  | EUnsubscribe
  | ESendData (s : text)
  | EReceive
  | EClose (reply : bool).

Definition handle (e : event) (w : client) : res client :=
  match e with
  | EConnect p => Ok (buttonConnectionClicked p w)
  | ERegister s => buttonRegisterClicked s w
  | EUnregister => buttonUnregisterCliecked w
  | ECheckAlive s => buttoCheckAliveCliecked s w
  | ESubscribe s => buttonSubscribeCliecked s w
  | EUnsubscribe => buttonUnsubscribeCliecked w
  | ESendData s => buttonSendDataCliecked s w
  | EReceive => if bool_decide (recvThread w = None) then Ok w else run_turn w
  | EClose r => res_map snd (closeEvent r w)
  end.

End handlers.

End Win.

Import Win.

(** ** Lemmas: the client behind the window *)

(** A client whose threads were started: the attributes exist, and the table has an
    entry for every command. *)
Definition live (c : Py.stupidP2PClient) : Prop :=
  (Py.needToRestartFlag c = 0 \/ Py.needToRestartFlag c = 1) /\ is_Some (Py.checkNetThread c) /\
  exists t, Py.recvThread c = Some t /\ zlen (Py.commandResponse t) = Py.backIndexMax.

(** What the threads of the client may do while a handler waits. *)
Definition keeps_live (others : nat -> Py.stupidP2PClient -> res Py.stupidP2PClient) : Prop :=
  forall i c, live c -> exists c', others i c = Ok c' /\ live c'.

Lemma live_response c command : live c -> 0 <= command < Py.backIndexMax -> has_response command c.
Proof.
  intros (_ & _ & t & Ht & Hl) Hc. unfold has_response, Py.response, Py.the_recvThread. rewrite Ht. cbn [res_bind].
  destruct (lookup_lt_is_Some_2 (Py.commandResponse t) (Z.to_nat command)) as [r Hr]; [unfold zlen in Hl; lia|].
  exists r. by rewrite Hr.
Qed.

(** A new connection, a stopped one, and a turn of the receiving thread. *)
Lemma init_live {so : Py.PySocket} c :
  live c \/ c = Py.new_stupidP2PClient -> (Py.initClient c).1 = true -> live (Py.initClient c).2.
Proof.
  unfold Py.initClient. destruct (Py.py_connect _); [|done]. intros Hc _. simpl.
  split; [by destruct Hc as [[? _]| ->]; [|left]|]. split; [by eexists|]. by eexists.
Qed.

Lemma deinit_live c : live c -> exists c', Py.deinitClient c = Ok c' /\ live c'.
Proof.
  intros (Hn & [b Hb] & t & Ht & Hl). unfold Py.deinitClient. destruct (negb _).
  - simpl. rewrite Hb. cbn [res_bind]. unfold Py.the_recvThread. simpl. rewrite Ht. cbn [res_bind].
    eexists. split; [done|]. split; [done|]. split; [by eexists|]. by eexists.
  - exists c. split; [done|]. split; [done|]. split; [by eexists|]. by eexists.
Qed.

Lemma recvData_live c : live c ->
  exists ds c', Py.recvData c = Ok (ds, c') /\ live c' /\
    exists t, Py.recvThread c = Some t /\ (forall d, d ∈ ds -> d ∈ Py.recvDataQueue t).
Proof.
  intros (Hn & Hb & t & Ht & Hl). unfold Py.recvData, Py.the_recvThread. rewrite Ht. cbn [res_bind].
  destruct (_ || _).
  - eexists _, _. split; [done|]. split; [|by exists t]. split; [done|]. split; [done|]. by eexists.
  - eexists _, _. split; [done|]. split; [by split_and!; eauto|]. exists t. split; [done|]. by intros d ?%elem_of_nil.
Qed.

Section window.
Context {so : Py.PySocket} (others : nat -> Py.stupidP2PClient -> res Py.stupidP2PClient).
Hypothesis others_live : keeps_live others.

Lemma wait_live n : forall loop command c,
  live c -> 0 <= command < Py.backIndexMax -> 0 <= loop -> loop + Z.of_nat n = 302 -> (0 < n)%nat ->
  exists c', Py.wait_response others n loop command c = Ok c' /\ live c'.
Proof.
  induction n as [|n IH]; intros loop command c Hc Hcmd Hl Hn Hpos; [lia|].
  destruct (live_response c command Hc Hcmd) as [r Hr]. cbn [Py.wait_response]. rewrite Hr. cbn [res_bind].
  destruct (r =? _); [|eauto]. destruct (others_live (Z.to_nat loop) c Hc) as (c1 & E1 & Hc1).
  rewrite E1. cbn [res_bind]. destruct (Z.ltb_spec 300 loop); [eauto|].
  apply IH; [done | done | lia..].
Qed.

Lemma command_live command data c :
  live c -> 0 <= command < Py.backIndexMax ->
  exists r c', Py.sendCommand others command data c = Ok (r, c') /\ live c'.
Proof.
  intros Hc Hcmd. destruct (decide (Py.runningFlag c = 0)) as [H0|H0].
  { unfold Py.sendCommand. rewrite H0. cbn. eauto. }
  destruct Hc as ([Hn|Hn] & Hb & t & Ht & Hl).
  2: { unfold Py.sendCommand. rewrite Hn. rewrite orb_true_r. eexists _, c. split; [done|].
       split; [by right|]. split; [done|]. by exists t. }
  destruct (sendCommand_starts others command data c t) as (tk & c1 & _ & Ht1 & Hb1 & _ & Hf1 & _ & ->); try done; [lia|].
  assert (live c1) as Hc1.
  { split; [destruct tk; auto|]. split; [by rewrite Hb1|]. eexists. split; [exact Ht1|]. simpl.
    unfold zlen in *. by rewrite length_insert. }
  destruct (wait_live Py.max_sleeps 0 command c1 Hc1 Hcmd) as (c2 & -> & Hc2); [lia | done | unfold Py.max_sleeps; lia |].
  cbn [res_bind]. destruct (live_response c2 command Hc2 Hcmd) as [r ->]. cbn [res_bind]. eauto.
Qed.

(** A call of the client reports its result and keeps the client alive. *)
Lemma call_live f h w c :
  the_client w = Some c -> (exists r c', f c = Ok (r, c') /\ live c') ->
  exists r c', call f h w = Ok (checkCommandReturn r h (set_client (Some c') w)) /\ live c'.
Proof. intros Hc (r & c' & E & Hl). exists r, c'. unfold call, attr. rewrite Hc. cbn [res_bind]. by rewrite E. Qed.

Lemma text_command_live (f : list Z -> Py.stupidP2PClient -> res (Z * Py.stupidP2PClient)) s c :
  Forall scalar s -> (forall bs, exists r c', f bs c = Ok (r, c') /\ live c') ->
  exists r c', (let* bs := utf8 s in f bs c) = Ok (r, c') /\ live c'.
Proof. intros Hs Hf. destruct (utf8_roundtrip s Hs) as (bs & -> & _). cbn [res_bind]. apply Hf. Qed.

Lemma sendData_live bs c : live c -> exists r c', Py.sendData others bs c = Ok (r, c') /\ live c'.
Proof. intros Hc. unfold Py.sendData. destruct (_ =? _); [eauto|]. by apply command_live. Qed.

(** ** The invariant of the window *)

Record winv (w : client) : Prop := {
  i_flag : startFlag w = 0 \/ startFlag w = 1;
  i_live : startFlag w = 1 -> exists c, the_client w = Some c /\ live c;
  i_started : startFlag w = 1 -> recvThread w = Some (mkThread false);
  i_stopped : startFlag w = 0 -> recvThread w = None \/ recvThread w = Some (mkThread true);
  i_device s : deviceId w = Some s -> Forall scalar s;
  i_subscribe s : subscribeId w = Some s -> Forall scalar s
}.

(** The parts of the window the invariant does not speak of. *)
Lemma winv_label col t w : winv w -> winv (set_label col t w).
Proof. intros [H1 H2 H3 H4 H5 H6]. by split. Qed.
Lemma winv_tips l t w : winv w -> winv (printTips l t w).
Proof. apply winv_label. Qed.
Lemma winv_shown s w : winv w -> winv (printTextBrowser s w).
Proof. intros [H1 H2 H3 H4 H5 H6]. by split. Qed.
Lemma winv_result r h w : winv w -> winv (checkCommandReturn r h w).
Proof. intros H. unfold checkCommandReturn. repeat case_match; by try apply winv_tips. Qed.
Lemma winv_client c w : winv w -> live c -> winv (set_client (Some c) w).
Proof. intros [H1 H2 H3 H4 H5 H6] Hc. split; simpl; try done. eauto. Qed.
Lemma winv_device s w : winv w -> Forall scalar s -> winv (set_deviceId (Some s) w).
Proof. intros [H1 H2 H3 H4 H5 H6] Hs. split; simpl; try done. by intros ? [= <-]. Qed.
Lemma winv_subscribe s w : winv w -> Forall scalar s -> winv (set_subscribeId (Some s) w).
Proof. intros [H1 H2 H3 H4 H5 H6] Hs. split; simpl; try done. by intros ? [= <-]. Qed.

(** The text an event carries can be encoded. *)
Definition typed (e : event) : Prop :=
  match e with
  | ERegister s | ECheckAlive s | ESubscribe s | ESendData s => Forall scalar s
  | _ => True
  end.

(** The exceptions. *)
Inductive raises (w : client) : event -> err -> Prop :=
  | r_unregister : startFlag w = 1 -> deviceId w = None -> raises w EUnregister AttributeError
  | r_unsubscribe : startFlag w = 1 -> subscribeId w = None -> raises w EUnsubscribe AttributeError
  | r_receive c t d : the_client w = Some c -> Py.recvThread c = Some t -> d ∈ Py.recvDataQueue t ->
      utf8_decode d = Err UnicodeError -> raises w EReceive UnicodeError.

(** A handler that ends well, or raises one of these. *)
Definition handled (w : client) (e : event) (r : res client) : Prop :=
  match r with Ok w' => winv w' | Err x => raises w e x end.

Lemma show_all_handled ds : forall w w0,
  winv w -> (forall d, d ∈ ds -> utf8_decode d = Err UnicodeError -> raises w0 EReceive UnicodeError) ->
  handled w0 EReceive (show_all ds w).
Proof.
  induction ds as [|d ds IH]; intros w w0 Hw Hd; cbn [show_all]; [done|].
  destruct (utf8_decode d) as [s|x] eqn:E; cbn [res_bind].
  - apply IH; [by apply winv_shown|]. intros d' Hin. apply Hd. by right.
  - rewrite (utf8_decode_error _ _ E) in E |- *. apply (Hd d); [left | done].
Qed.

Lemma call_handled f h w w0 e :
  winv w -> startFlag w = 1 -> (forall c, live c -> exists r c', f c = Ok (r, c') /\ live c') ->
  handled w0 e (call f h w).
Proof.
  intros Hw H1 Hf. destruct (i_live w Hw H1) as (c & Hc & Hl).
  destruct (call_live f h w c Hc (Hf c Hl)) as (r & c' & -> & Hl'). by apply winv_result, winv_client.
Qed.

(** A window that is not connected: all it can do is connect. *)
Lemma connect_handled p w e : winv w -> startFlag w = 0 -> handled w e (Ok (buttonConnectionClicked p w)).
Proof.
  intros Hw H0. unfold buttonConnectionClicked. rewrite H0. cbn [Z.eqb]. destruct p as [p|]; [|by apply winv_tips].
  destruct (Py.initClient Py.new_stupidP2PClient) as [ret c] eqn:E.
  pose proof (init_live Py.new_stupidP2PClient (or_intror eq_refl)) as Hl. rewrite E in Hl. simpl in Hl.
  destruct Hw as [H1 H2 H3 H4 H5 H6]. destruct ret.
  - split; simpl; try done; [by right|]. intros _. exists c. auto.
  - apply winv_tips. split; simpl; try done. intros Hs. by rewrite Hs in H0.
Qed.

Lemma idle_handled e w : winv w -> startFlag w = 0 -> handled w e (handle others e w).
Proof.
  intros Hw H0. pose proof (winv_tips WARN_TIPS ConnectFirst w Hw) as Hfirst.
  destruct e as [p|s| |s|s| |s| |r]; cbn [handle]; [by apply connect_handled|..].
  1: unfold buttonRegisterClicked. 2: unfold buttonUnregisterCliecked. 3: unfold buttoCheckAliveCliecked.
  4: unfold buttonSubscribeCliecked. 5: unfold buttonUnsubscribeCliecked. 6: unfold buttonSendDataCliecked.
  8: unfold closeEvent.
  all: rewrite ?H0; try exact Hfirst.
  - unfold run_turn. destruct (i_stopped w Hw H0) as [Hn|Hn]; rewrite Hn; done.
  - by destruct r.
Qed.

(** The thread shows what has arrived. *)
Lemma receive_handled w : winv w -> startFlag w = 1 -> handled w EReceive (handle others EReceive w).
Proof.
  intros Hw H1. destruct (i_live w Hw H1) as (c & Hc & Hl). cbn [handle]. unfold run_turn.
  rewrite (i_started w Hw H1), Hc. cbn. destruct (recvData_live c Hl) as (ds & c' & -> & Hl' & t & Ht & Hds).
  cbn [res_bind]. apply show_all_handled; [by apply winv_client|]. intros d Hd E. by apply (r_receive w c t d); [| |apply Hds|].
Qed.

Lemma close_handled r w : winv w -> startFlag w = 1 -> handled w (EClose r) (handle others (EClose r) w).
Proof.
  intros Hw H1. destruct (i_live w Hw H1) as (c & Hc & Hl). cbn [handle]. unfold closeEvent.
  destruct r; [|done]. rewrite H1, Hc. cbn. destruct (deinit_live c Hl) as (c' & -> & Hl'). cbn [res_bind].
  cbn [recvThread set_client]. rewrite (i_started w Hw H1). cbn.
  destruct Hw as [I1 I2 I3 I4 I5 I6]. split; simpl; try done; [by left | by right].
Qed.

Lemma handle_handled e w : winv w -> typed e -> handled w e (handle others e w).
Proof.
  intros Hw Ht. destruct (i_flag w Hw) as [H0|H1]; [by apply idle_handled|].
  destruct e as [p|s| |s|s| |s| |r]; [..|by apply receive_handled | by apply close_handled]; cbn [handle].
  - unfold buttonConnectionClicked. by rewrite H1.
  - unfold buttonRegisterClicked. rewrite H1. cbn [Z.eqb].
    case_bool_decide; [by apply winv_tips, winv_device|]. apply call_handled; [by apply winv_device | done |].
    intros c Hl. apply text_command_live; [done|]. intros bs. by apply command_live.
  - unfold buttonUnregisterCliecked. rewrite H1. cbn [Z.eqb].
    destruct (deviceId w) as [d|] eqn:Ed; cbn [attr res_bind]; [|by constructor].
    apply call_handled; [case_bool_decide; by try apply winv_tips | by case_bool_decide |].
    intros c Hl. by apply command_live.
  - unfold buttoCheckAliveCliecked. rewrite H1. cbn [Z.eqb]. case_bool_decide; [by apply winv_tips|].
    apply call_handled; [done..|]. intros c Hl. apply text_command_live; [done|]. intros bs. by apply command_live.
  - unfold buttonSubscribeCliecked. rewrite H1. cbn [Z.eqb].
    case_bool_decide; [by apply winv_tips, winv_subscribe|]. apply call_handled; [by apply winv_subscribe | done |].
    intros c Hl. apply text_command_live; [done|]. intros bs. by apply command_live.
  - unfold buttonUnsubscribeCliecked. rewrite H1. cbn [Z.eqb].
    destruct (subscribeId w) as [d|] eqn:Ed; cbn [attr res_bind]; [|by constructor].
    apply call_handled; [case_bool_decide; by try apply winv_tips | by case_bool_decide |].
    intros c Hl. apply text_command_live; [by apply (i_subscribe w Hw)|]. intros bs. by apply command_live.
  - unfold buttonSendDataCliecked. rewrite H1. cbn [Z.eqb]. case_bool_decide; [done|].
    destruct (i_live w Hw H1) as (c & Hc & Hl).
    destruct (call_live (fun c => let* bs := utf8 s in Py.sendData others bs c) HSend w c Hc) as (r & c' & -> & Hl').
    + apply text_command_live; [done|]. intros bs. by apply sendData_live.
    + by apply winv_shown, winv_result, winv_client.
Qed.

End window.

(** ** Reachable states *)

(** The window handles an event, or the threads of its client run. *)
Inductive wstep : client -> client -> Prop :=
  | ws_event (so : Py.PySocket) others e w w' :
      keeps_live others -> typed e -> handle others e w = Ok w' -> wstep w w'
  | ws_threads w c c' :
      the_client w = Some c -> startFlag w = 1 -> live c' -> wstep w (set_client (Some c') w).

Lemma winv_reachable w : rtc wstep new_client w -> winv w.
Proof.
  assert (forall w0, winv w0 -> rtc wstep w0 w -> winv w) as Hind.
  { intros w0 H0 Hr. induction Hr as [|w1 w2 w3 Hs _ IH]; [done|]. apply IH.
    destruct Hs as [so others e w w' Hk Ht E|w c c' Hc H1 Hl]; [|by apply winv_client].
    pose proof (handle_handled others Hk e w H0 Ht) as H. by rewrite E in H. }
  apply Hind. split; simpl; try done; auto.
Qed.

(** ** Theorems *)

(** C19: no exception but three: in every state the window reaches, and for texts
    that can be encoded (no surrogates), a handler ends well, unless a device is
    unregistered or a subscription ended that there never was, for which an
    attribute is missing, or data arrives that is not text. *)
Theorem window_safe (so : Py.PySocket) (others : nat -> Py.stupidP2PClient -> res Py.stupidP2PClient) (w : client) (e : event) :
  keeps_live others -> rtc wstep new_client w -> typed e ->
  (exists w', handle others e w = Ok w') \/ exists x, handle others e w = Err x /\ raises w e x.
Proof.
  intros Hk Hr Ht. pose proof (handle_handled others Hk e w (winv_reachable w Hr) Ht) as H.
  destruct (handle others e w) as [w'|x]; [left | right]; eauto.
Qed.

(** These exceptions do happen. *)
Lemma unregister_raises {so : Py.PySocket} others w :
  startFlag w = 1 -> deviceId w = None -> handle others EUnregister w = Err AttributeError.
Proof. intros H1 Hd. cbn [handle]. unfold buttonUnregisterCliecked. by rewrite H1, Hd. Qed.

Lemma unsubscribe_raises {so : Py.PySocket} others w :
  startFlag w = 1 -> subscribeId w = None -> handle others EUnsubscribe w = Err AttributeError.
Proof. intros H1 Hd. cbn [handle]. unfold buttonUnsubscribeCliecked. by rewrite H1, Hd. Qed.

(** Texts on their way. *)
Lemma show_all_texts bss ss : forall w,
  Forall2 (fun bs s => utf8_decode bs = Ok s) bss ss ->
  exists w', show_all bss w = Ok w' /\ textBrowser w' = textBrowser w ++ (Received <$> ss).
Proof.
  intros w H. revert w. induction H as [|bs s bss ss E _ IH]; intros w; cbn [show_all].
  - exists w. by rewrite app_nil_r.
  - rewrite E. cbn [res_bind]. destruct (IH (printTextBrowser (Received s) w)) as (w' & -> & E').
    exists w'. split; [done|]. rewrite E'. simpl. by rewrite <- app_assoc.
Qed.

Lemma received_data bss : received (cons SEND_DATA <$> bss) = bss.
Proof. induction bss as [|bs bss IH]; [done|]. rewrite fmap_cons. unfold received in *. cbn. f_equal. exact IH. Qed.

(** A window that is connected, with its client and the thread of the client. *)
Definition connected (w : client) (c : Py.stupidP2PClient) (t : Py.clientRecvThread) : Prop :=
  startFlag w = 1 /\ recvThread w = Some (mkThread false) /\ the_client w = Some c /\ live c /\
  Py.runningFlag c = 1 /\ Py.needToRestartFlag c = 0 /\ Py.recvThread c = Some t.

(** The button sends the text: one frame, and the window shows text and result. *)
Lemma text_sent {so : Py.PySocket} others w c t s bs :
  keeps_live others -> connected w c t -> s <> [] -> utf8 s = Ok bs -> bs <> [] ->
  exists tk c1 c' r, Py.sockevents c1 = Py.sockevents c ++ [Py.PSend (encode (SEND_DATA :: bs)) tk] /\
    Py.recvThread c1 = Some (Py.set_response SEND_DATA Py.notReceiveResponse t) /\
    Py.wait_response others Py.max_sleeps 0 SEND_DATA c1 = Ok c' /\ Py.response SEND_DATA c' = Ok r /\
    handle others (ESendData s) w =
      Ok (printTextBrowser (Sent s) (checkCommandReturn r HSend (set_client (Some c') w))).
Proof.
  intros Hk (H1 & _ & Hc & Hl & Hrun & Hf & Ht) Hs E Hbs.
  destruct Hl as (_ & Hb & t' & Ht' & Hlen). rewrite Ht in Ht'. injection Ht' as <-.
  destruct (sendCommand_starts others SEND_DATA bs c t) as (tk & c1 & Hev & Ht1 & Hb1 & _ & Hf1 & _ & Es);
    [by rewrite Hrun | done | done | rewrite Hlen; done |].
  assert (live c1) as Hc1.
  { split; [destruct tk; auto|]. split; [by rewrite Hb1|]. eexists. split; [exact Ht1|]. simpl.
    unfold zlen in *. by rewrite length_insert. }
  destruct (wait_live others Hk Py.max_sleeps 0 SEND_DATA c1 Hc1) as (c' & Ew & Hc'); [done | done | done | unfold Py.max_sleeps; lia |].
  destruct (live_response c' SEND_DATA Hc') as [r Hr]; [done|].
  exists tk, c1, c', r. split_and!; try done. cbn [handle]. unfold buttonSendDataCliecked, call, attr.
  rewrite H1, bool_decide_false, Hc by done. cbn [Z.eqb res_bind]. rewrite E. cbn [res_bind]. unfold Py.sendData.
  rewrite (proj2 (Z.eqb_neq _ _)) by (intros ?%zlen_0; done). unfold Py.sendDataCommand. change 3 with SEND_DATA at 1.
  rewrite Es, Ew. cbn [res_bind]. by rewrite Hr.
Qed.

(** The thread of the window shows what its client has queued. *)
Lemma texts_shown {so : Py.PySocket} others w c t ss :
  recvThread w = Some (mkThread false) -> the_client w = Some c -> Py.recvThread c = Some t -> Py.needToRestartFlag c = 0 ->
  Forall2 (fun bs s => utf8_decode bs = Ok s) (Py.recvDataQueue t) ss ->
  exists w', handle others EReceive w = Ok w' /\ textBrowser w' = textBrowser w ++ (Received <$> ss).
Proof.
  intros Hth Hc Ht Hf Hd. cbn [handle]. unfold run_turn. rewrite Hth, Hc. rewrite bool_decide_false by done.
  cbn [attr res_bind stopped stop_event]. destruct (recv_data_all c t) as (c2 & t2 & -> & _); [done | by left |].
  cbn [res_bind]. apply (show_all_texts _ ss (set_client (Some c2) w) Hd).
Qed.

Lemma all_utf8 ss : Forall (Forall scalar) ss ->
  exists bss, Forall2 (fun s bs => utf8 s = Ok bs) ss bss /\ Forall2 (fun bs s => utf8_decode bs = Ok s) bss ss /\ Forall bytes bss.
Proof.
  induction 1 as [|s ss Hs _ (bss & H1 & H2 & H3)]; [by exists []; repeat constructor|].
  destruct (utf8_roundtrip s Hs) as (bs & E & Hb & Hd & _). exists (bs :: bss). by repeat constructor.
Qed.

Lemma data_py bs : bytes bs -> zlen (SEND_DATA :: bs) <= max_message -> py_message (SEND_DATA :: bs).
Proof.
  unfold max_message. intros Hb Hl. split; [split; [by constructor | rewrite zlen_cons in *; zlia]|].
  by intros x i [= <-].
Qed.

(** C18: a text that is typed in one window is shown in another.  For any texts
    that can be encoded there are bytes such that a connected window, for each of
    them that is not empty, resets the response, hands one frame with its bytes to
    the socket, waits, and shows the text and the result (of an empty one nothing is
    sent or shown); and a connected window whose client has nothing queued and gets
    these frames, of the size the server relays, in any pieces, shows these texts,
    in their order, when its thread runs next: all of them, if there are at most
    4096, and else the first 4096, for more do not fit the queue of the client. *)
Theorem text_travels (so : Py.PySocket) (others : nat -> Py.stupidP2PClient -> res Py.stupidP2PClient) (ss : list text) :
  keeps_live others -> Forall (Forall scalar) ss ->
  exists bss, Forall2 (fun s bs => utf8 s = Ok bs) ss bss /\
    (forall i s bs w c t, ss !! i = Some s -> bss !! i = Some bs -> s <> [] -> connected w c t ->
       exists tk c1 c' r, Py.sockevents c1 = Py.sockevents c ++ [Py.PSend (encode (SEND_DATA :: bs)) tk] /\
         Py.recvThread c1 = Some (Py.set_response SEND_DATA Py.notReceiveResponse t) /\
         Py.wait_response others Py.max_sleeps 0 SEND_DATA c1 = Ok c' /\ Py.response SEND_DATA c' = Ok r /\
         handle others (ESendData s) w =
           Ok (printTextBrowser (Sent s) (checkCommandReturn r HSend (set_client (Some c') w)))) /\
    (forall w c t, connected w c t -> handle others (ESendData []) w = Ok w) /\
    (forall w c t pieces, connected w c t -> Forall (fun bs => zlen (SEND_DATA :: bs) <= max_message) bss ->
       Py.stop_event t = false -> Py.recvDeque t = [] -> Py.recvDataQueue t = [] ->
       concat pieces = concat (encode <$> (cons SEND_DATA <$> bss)) ->
       exists t' w', Py.run_turns (Py.RData <$> pieces) t = Ok t' /\
         handle others EReceive (set_client (Some (Py.set_recvThread (Some t') c)) w) = Ok w' /\
         textBrowser w' = textBrowser w ++ (Received <$> ztake Py.maxsize ss)).
Proof.
  intros Hk Hss. destruct (all_utf8 ss Hss) as (bss & He & Hd & Hb). exists bss. split_and!; [done|..].
  - intros i s bs w c t Hi Hbi Hs Hw. pose proof (Forall2_lookup_lr _ _ _ _ _ _ He Hi Hbi) as E.
    apply (text_sent others w c t); try done. intros ->.
    pose proof (Forall2_lookup_lr _ _ _ _ _ _ Hd Hbi Hi) as E'. simpl in E'. congruence.
  - intros w c t (H1 & _). cbn [handle]. unfold buttonSendDataCliecked. by rewrite H1.
  - intros w c t pieces (H1 & Hth & Hc & Hl & Hrun & Hf & Ht) Hsz Hst Hdq Hq Hp.
    assert (Forall py_message (cons SEND_DATA <$> bss)) as Hacc.
    { apply Forall_fmap, Forall_forall. intros bs Hin. rewrite Forall_forall in Hb, Hsz.
      apply data_py; [by apply Hb | by apply Hsz]. }
    set (t' := Py.set_deque (reverse []) (foldl py_step t (cons SEND_DATA <$> bss))).
    assert (Py.run_turns (Py.RData <$> pieces) t = Ok t') as Er.
    { apply (run_turns_spec pieces t [] _ []); try done; [by left | by rewrite app_nil_r | by left]. }
    assert (Py.recvDataQueue t' = ztake Py.maxsize bss) as Eq.
    { simpl. by rewrite py_steps_queue, Hq, received_data by (by rewrite Hq). }
    destruct (texts_shown others (set_client (Some (Py.set_recvThread (Some t') c)) w) (Py.set_recvThread (Some t') c) t'
      (ztake Py.maxsize ss)) as (w' & E' & Ew); try done; [rewrite Eq; by apply Forall2_take|].
    exists t', w'. split_and!; done.
Qed.

(** ** The threads of the client keep it alive *)

Lemma exec_frame_responses n t t' :
  Py.exec_frame n t = Ok t' -> length (Py.commandResponse t') = length (Py.commandResponse t).
Proof.
  unfold Py.exec_frame. destruct (pop (Py.recvDeque t)) as [[x dq]|]; [|done]. cbn [res_bind].
  destruct (Py.response_index x) as [i|].
  - unfold Py.getCommandResponse. destruct (pop dq) as [[r dq']|]; [|done]. cbn [res_bind].
    destruct (pops _ _) as [[? ?]|]; [|done]. intros [= <-]. simpl. apply length_insert.
  - destruct (x =? Py.sendDataCommand).
    + destruct (pops _ dq) as [[d dq']|]; [|done]. cbn [res_bind]. destruct (pops _ _) as [[? ?]|]; [|done].
      intros [= <-]. simpl. unfold Py.put_data. by case_match.
    + cbn [res_bind]. destruct (pops _ _) as [[? ?]|]; [|done]. by intros [= <-].
Qed.

Lemma parse_responses fuel : forall t t',
  Py.parse fuel t = Ok t' -> length (Py.commandResponse t') = length (Py.commandResponse t).
Proof.
  induction fuel as [|fuel IH]; intros t t'; cbn [Py.parse]; (destruct (_ <? _); [|by intros [= <-]]); [done|].
  destruct (pops _ _) as [[h dq]|]; [|done]. cbn [res_bind]. destruct (_ <=? _); [|by intros [= <-]].
  destruct (Py.exec_frame _ _) as [t1|] eqn:E; [|done]. cbn [res_bind]. intros H.
  rewrite (IH _ _ H), (exec_frame_responses _ _ _ E). done.
Qed.

Lemma recv_thread_live r c t t' :
  live c -> Py.recvThread c = Some t -> Py.run_turn r t = Ok t' -> live (Py.set_recvThread (Some t') c).
Proof.
  intros (Hn & Hb & t0 & Ht & Hl) Ht0 E. rewrite Ht in Ht0. injection Ht0 as ->. split; [done|]. split; [done|].
  exists t'. split; [done|]. unfold zlen in *. unfold Py.run_turn in E.
  destruct (Py.stopped t); [by injection E as <-|]. destruct r; [by injection E as <-..|].
  rewrite (parse_responses _ _ _ E). exact Hl.
Qed.

Lemma restart_live {so : Py.PySocket} fuel : forall c c', live c -> Py.restartClient fuel c = Ok c' -> live c'.
Proof.
  induction fuel as [|fuel IH]; intros c c' Hc; cbn [Py.restartClient]; [done|].
  destruct (deinit_live c Hc) as (c1 & -> & Hc1). cbn [res_bind].
  pose proof (init_live c1 (or_introl Hc1)) as Hi. destruct (Py.initClient c1) as [ret c2] eqn:E. simpl in Hi.
  destruct ret; [intros [= <-]|].
  - destruct (Hi eq_refl) as (_ & Hb & Ht). split; [by left | done].
  - intros H. apply (IH c2 c'); [|exact H]. unfold Py.initClient in E. destruct (Py.py_connect _); [done|].
    injection E as <-. exact Hc1.
Qed.

(** ** The theorems at concrete states *)

#[local] Existing Instance demo_socket.

Lemma silent_live : keeps_live silent.
Proof. intros i c Hc. by exists c. Qed.

(** The window after the button that connects. *)
Definition demo_window : client := buttonConnectionClicked (Some 4040) new_client.

Lemma demo_window_connected : connected demo_window running_client Py.new_clientRecvThread.
Proof. do 3 (split; [reflexivity|]). split; [|done]. split; [by left|]. split; [by eexists|]. by eexists. Qed.

Lemma demo_window_reachable : rtc wstep new_client demo_window.
Proof. apply rtc_once. by apply (ws_event demo_socket silent (EConnect (Some 4040)) _ _ silent_live). Qed.

Lemma window_safe_witness :
  exists w', handle silent (ERegister (chars "dev")) demo_window = Ok w' /\ deviceId w' = Some (chars "dev").
Proof.
  destruct (window_safe demo_socket silent demo_window (ERegister (chars "dev")) silent_live demo_window_reachable)
    as [[w' E]|(x & _ & H)].
  - repeat constructor; vm_compute; discriminate.
  - exists w'. split; [exact E|]. vm_compute in E. injection E as <-. reflexivity.
  - inversion H.
Defined.

(** "h" and U+4E2D. *)
Definition demo_text : text := [104; 20013].

Lemma demo_text_scalar : Forall (Forall scalar) [demo_text].
Proof. repeat constructor; vm_compute; discriminate. Qed.

Lemma text_travels_witness :
  exists bs t' w', utf8 demo_text = Ok bs /\
    Py.run_turns (Py.RData <$> [[0; 0]; [0; 5; 3; 104; 228]; [184; 173]]) Py.new_clientRecvThread = Ok t' /\
    handle silent EReceive (set_client (Some (Py.set_recvThread (Some t') running_client)) demo_window) = Ok w' /\
    textBrowser w' = [Received demo_text].
Proof.
  destruct (text_travels demo_socket silent [demo_text] silent_live demo_text_scalar) as (bss & Hb & _ & _ & Hr).
    apply Forall2_cons_inv_l in Hb as (bs & bss' & E & Hb' & ->). apply Forall2_nil_inv_l in Hb' as ->.
    assert (bs = [104; 228; 184; 173]) as -> by (vm_compute in E; congruence).
    destruct (Hr demo_window running_client Py.new_clientRecvThread [[0; 0]; [0; 5; 3; 104; 228]; [184; 173]])
      as (t' & w' & E1 & E2 & E3).
    - exact demo_window_connected.
    - repeat constructor. vm_compute. discriminate.
    - reflexivity.
    - reflexivity.
    - reflexivity.
    - reflexivity.
    - exists [104; 228; 184; 173], t', w'. split; [exact E|]. split; [exact E1|]. split; [exact E2 | exact E3].
Defined.
