(* ===== verification/Api.v ===== *)
(** * The client library (API/C/stupidP2P.h, API/C/stupidP2P.c)

    The clients of a process are in a singly linked list that starts at the static
    [stupid_p2p_head]; a user holds the number [fd] of a client.  Calls of the
    operating system are recorded in [w_trace]; what they return is the class
    [OS].  While a command waits for its reply, the other threads run: what they
    do during the [k]-th [usleep] is the argument [others] of the functions that
    wait.  Each iteration of the three threads of a client is a function; the
    threads as a whole are in Threads.v.  Log messages and the stack size of the
    threads are left out. *)

From S2P Require Import Prelude Endian StringPiece Buffer Codec Ring RecvFifo Heap RecvList SendFifo Client.

(** The error codes: 0x80000001 and up, as [int32_t]. *)
Definition STUPID_P2P_NO_ERROR : Z := 0.
Definition STUPID_P2P_ERROR_COMMOND : Z := -2147483647.
Definition STUPID_P2P_BAD_PARAM : Z := -2147483646.
Definition STUPID_P2P_MEMORY_ERROR : Z := -2147483645.
Definition STUPID_P2P_RESTARTING : Z := -2147483644.
Definition STUPID_P2P_NET_ERROR : Z := -2147483643.

(** A pointer to a client: the static head, or a block of [calloc]. *)
Inductive cref := CHead | CNode (l : loc).

#[global] Instance cref_eq_dec : EqDecision cref.
Proof. solve_decision. Defined.

Inductive thread := TRecv | TSend | TCheckNet.

Inductive sysevent :=
  | SSocket (sock : Z)
  | SConnect (sock : Z) (result : Z)
  | SClose (sock : Z)
  | SSend (sock : Z) (data : list Z) (result : Z)
  | SCreate (c : loc) (t : thread) (result : Z)
  | SCancel (c : cref) (t : thread)
  | SJoin (c : cref) (t : thread)
  | SDetach (c : cref) (t : thread)
  | SName (name : list Z)
  | SSignal
  (* a thread of the program that uses the library *)
  | SUserCreate (result : Z)
  | SUserCancel
  | SUserJoin.

Record world := mkWorld {
  w_heap : heap;
  w_clients : gmap loc stupid_p2p_t;
  stupid_p2p_head : stupid_p2p_t;
  _g_fd_start : Z;
  _g_init_signal_flag : Z;
  w_trace : list sysevent
}.

Definition world0 : world := mkWorld heap0 ∅ p2p_zero 0 0 [].

(** What the operating system answers to the [k]-th call, and how much of a
    buffer [send] takes. *)
Class OS := {
  os_socket : nat -> Z;
  os_connect : nat -> Z;
  os_pthread_create : nat -> Z;
  os_send : nat -> list Z -> Z;
  os_inet_pton : list Z -> option Z
}.

Definition W (A : Type) : Type := world -> res (A * world).
Definition wret {A} (a : A) : W A := fun w => Ok (a, w).
Definition wfail {A} (e : err) : W A := fun _ => Err e.
Definition wbind {A B} (m : W A) (k : A -> W B) : W B := fun w => let* (a, w) := m w in k a w.
Definition wget : W world := fun w => Ok (w, w).
Definition wlift {A} (r : res A) : W A := fun w => let* a := r in Ok (a, w).

Declare Scope world_scope.
Delimit Scope world_scope with world.
Notation "'let%' p := m 'in' k" := (wbind m (fun p => k))
  (at level 10, p as pattern, m at level 100, k at level 200) : world_scope.
#[local] Open Scope world_scope.

Definition set_heap h (w : world) : world :=
  mkWorld h (w_clients w) (stupid_p2p_head w) (_g_fd_start w) (_g_init_signal_flag w) (w_trace w).
Definition emit (e : sysevent) : W unit := fun w =>
  Ok (tt, mkWorld (w_heap w) (w_clients w) (stupid_p2p_head w) (_g_fd_start w)
            (_g_init_signal_flag w) (w_trace w ++ [e])).
(** The number of the next call of the operating system. *)
Definition calls (w : world) : nat := length (w_trace w).

(** Access through a pointer to a client. *)
Definition client_of (p : cref) (w : world) : option stupid_p2p_t :=
  match p with CHead => Some (stupid_p2p_head w) | CNode l => w_clients w !! l end.
Definition the_client (p : cref) : W stupid_p2p_t := fun w =>
  match client_of p w with Some c => Ok (c, w) | None => Err OutOfBounds end.
Definition put_client (p : cref) (c : stupid_p2p_t) (w : world) : world :=
  match p with
  | CHead => mkWorld (w_heap w) (w_clients w) c (_g_fd_start w) (_g_init_signal_flag w) (w_trace w)
  | CNode l => mkWorld (w_heap w) (<[l := c]> (w_clients w)) (stupid_p2p_head w) (_g_fd_start w)
                 (_g_init_signal_flag w) (w_trace w)
  end.
Definition update_client (p : cref) (f : stupid_p2p_t -> stupid_p2p_t) : W unit :=
  let% c := the_client p in fun w => Ok (tt, put_client p (f c) w).
(** A function of the structure and the heap. *)
Definition on_client {A} (p : cref) (f : stupid_p2p_t -> heap -> res (A * stupid_p2p_t * heap)) : W A :=
  let% c := the_client p in
  fun w => let* (a, c, h) := f c (w_heap w) in Ok (a, put_client p c (set_heap h w)).
Definition free_client (p : cref) : W unit := fun w =>
  match p with
  | CHead => Err BadFree
  | CNode l => match w_clients w !! l with
               | Some _ => Ok (tt, mkWorld (w_heap w) (delete l (w_clients w)) (stupid_p2p_head w)
                                     (_g_fd_start w) (_g_init_signal_flag w) (w_trace w))
               | None => Err BadFree
               end
  end.

(** ** The list of clients

    Each function holds [stupid_p2p_rwlock] from its first to its last statement,
    so that it is one step for the other threads. *)

(** Enough turns for a list whose nodes are the clients. *)
Definition list_fuel (w : world) : nat := S (S (size (w_clients w))).

Definition next_ref (c : stupid_p2p_t) : option cref := CNode <$> p2p_next c.

(** [while (p->next != NULL) p = p->next;] *)
Fixpoint last_loop (fuel : nat) (p : cref) : W cref :=
  match fuel with
  | O => wfail OutOfFuel
  | S fuel =>
      let% c := the_client p in
      match next_ref c with
      | Some q => last_loop fuel q
      | None => wret p
      end
  end.

Definition add_stupid_p2p_to_list (node : loc) : W Z :=
  let% w := wget in
  let% ret := wlift (add32 (_g_fd_start w) 1) in
  let% _ := (fun w => Ok (tt, mkWorld (w_heap w) (w_clients w) (stupid_p2p_head w) ret
                               (_g_init_signal_flag w) (w_trace w))) in
  let% p := last_loop (list_fuel w) CHead in
  let% _ := update_client p (set_p2p_next (Some node)) in
  wret ret.

Fixpoint remove_loop (fuel : nat) (p prev : cref) (d : Z) : W unit :=
  match fuel with
  | O => wfail OutOfFuel
  | S fuel =>
      let% c := the_client p in
      match next_ref c with
      | None => wret tt
      | Some q =>
          if fd c =? d then
            let% _ := update_client prev (set_p2p_next (p2p_next c)) in
            free_client p
          else remove_loop fuel q p d
      end
  end.

Definition remove_stupid_p2p (d : Z) : W unit :=
  let% w := wget in remove_loop (list_fuel w) CHead CHead d.

Fixpoint find_loop (fuel : nat) (p : option cref) (d : Z) : W (option cref) :=
  match p with
  | None => wret None
  | Some p =>
      match fuel with
      | O => wfail OutOfFuel
      | S fuel =>
          let% c := the_client p in
          if fd c =? d then wret (Some p) else find_loop fuel (next_ref c) d
      end
  end.

Definition find_stupid_p2p (d : Z) : W (option cref) :=
  let% w := wget in find_loop (list_fuel w) (Some CHead) d.

Definition check_module_init : W unit :=
  let% w := wget in
  if _g_init_signal_flag w =? 0 then
    let% _ := emit SSignal in
    fun w => Ok (tt, mkWorld (w_heap w) (w_clients w) (stupid_p2p_head w) (_g_fd_start w) 1 (w_trace w))
  else wret tt.

Section api.
Context {al : Alloc} {os : OS}.
(** What the other threads do while this one sleeps. *)
Context (others : nat -> world -> res world).

(** ** Waiting for a reply *)

Definition read_flag (p : cref) (f : flag) : W Z :=
  let% c := the_client p in wret (get_flag f (command_status c)).

Definition waiting_3s : nat := 300.

(** [n] is the number of turns that are left. *)
Fixpoint wait_loop (n : nat) (p : cref) (f : flag) : W unit :=
  let% v := read_flag p f in
  match n with
  | O => wret tt
  | S n' =>
      if v =? CALL_BACK_NOT_RECEIVE then
        let% _ := (fun w => let* w := others (waiting_3s - n) w in Ok (tt, w)) in
        wait_loop n' p f
      else wret tt
  end.

Definition waitting_flag_and_return (flag : option (cref * flag)) : W Z :=
  match flag with
  | None => wret STUPID_P2P_BAD_PARAM
  | Some (p, f) =>
      let% _ := wait_loop waiting_3s p f in
      let% v := read_flag p f in
      if v =? CALL_BACK_SUCCESS then wret STUPID_P2P_NO_ERROR
      else if v =? CALL_BACK_NOT_RECEIVE then wret STUPID_P2P_NET_ERROR
      else wret STUPID_P2P_ERROR_COMMOND
  end.

Definition command_flag (command : Z) : option flag :=
  if command =? REGISTER_DEVICE then Some FRegister
  else if command =? SUBSCRIBE_DEVICE then Some FSubscribe
  else if command =? SEND_DATA then Some FSendData
  else if command =? UNREGISTER_DEVICE then Some FUnregister
  else if command =? UNSUBSCRIBE_DEVICE then Some FUnsubscribe
  else if command =? CHECK_DEVICE_ALIVE then Some FCheckAlive
  else if command =? HEART_BEAT then Some FHeartBeat
  else None.

(** [malloc], then [send_data[0] = command; memcpy(&send_data[1], data, length);]. *)
Definition build_command (command : Z) (data : option cptr) (length : Z) : W ptr := fun w =>
  let size := u64 (length + 1) in
  let (p, h) := alloc size (BBytes []) (w_heap w) in
  match p with
  | None => Ok (None, set_heap h w)
  | Some l =>
      let* _ := (if 0 <? size then Ok tt else Err OutOfBounds) in
      let* d := deref data (u64 length) in
      Ok (Some l, set_heap (set_block l (BBytes (command :: d)) h) w)
  end.

Definition push_command (p : cref) (d : ptr) (size : Z) : W unit :=
  on_client p (fun c h =>
    let* (f, h) := send_command_fifo_push (send_fifo c) d size h in
    Ok (tt, set_send_fifo f c, h)).

Definition need_to_send (d : Z) (command : Z) (data : option cptr) (length : Z) : W Z :=
  if (256 <? length) || (d <=? 0) then wret STUPID_P2P_BAD_PARAM
  else
    let% p := find_stupid_p2p d in
    match p with
    | None => wret STUPID_P2P_ERROR_COMMOND
    | Some p =>
        let% c := the_client p in
        if need_to_restart_flag c =? 1 then wret STUPID_P2P_RESTARTING
        else
          let% send_data := build_command command data length in
          match send_data with
          | None => wret STUPID_P2P_MEMORY_ERROR
          | Some l =>
              match command_flag command with
              | None =>
                  let% _ := (fun w => let* h := free (Some l) (w_heap w) in Ok (tt, set_heap h w)) in
                  wret STUPID_P2P_BAD_PARAM
              | Some f =>
                  let% _ := update_client p (fun c =>
                    set_status (set_flag f CALL_BACK_NOT_RECEIVE (command_status c)) c) in
                  let% _ := push_command p (Some l) (length + 1) in
                  waitting_flag_and_return (Some (p, f))
              end
          end
    end.

(** ** The functions of the library *)

(** [strnlen(s, n)]. *)
Fixpoint strnlen_list (n : nat) (l : list Z) : res Z :=
  match n with
  | O => Ok 0
  | S n => match l with
           | [] => Err OutOfBounds
           | c :: l => if c =? 0 then Ok 0 else let* k := strnlen_list n l in Ok (1 + k)
           end
  end.
Definition strnlen (p : option cptr) (n : nat) : res Z :=
  match p with
  | None => Err NullDeref
  | Some p => if (0 <=? off p) && (off p <=? zlen (blk p))
              then strnlen_list n (zdrop (off p) (blk p)) else Err OutOfBounds
  end.

Definition stupid_p2p_register_device (d : Z) (device_id : option cptr) : W Z :=
  let% n := wlift (strnlen device_id 256) in need_to_send d REGISTER_DEVICE device_id n.
Definition stupid_p2p_subscribe_device (d : Z) (device_id : option cptr) : W Z :=
  let% n := wlift (strnlen device_id 256) in need_to_send d SUBSCRIBE_DEVICE device_id n.
Definition stupid_p2p_send_data (d : Z) (buf : option cptr) (length : Z) : W Z :=
  need_to_send d SEND_DATA buf length.
Definition stupid_p2p_unregister_device (d : Z) : W Z := need_to_send d UNREGISTER_DEVICE None 0.
Definition stupid_p2p_unsubscribe_device (d : Z) (device_id : option cptr) : W Z :=
  let% n := wlift (strnlen device_id 256) in need_to_send d UNSUBSCRIBE_DEVICE device_id n.
Definition stupid_p2p_check_device_alive (d : Z) (device_id : option cptr) : W Z :=
  let% n := wlift (strnlen device_id 256) in need_to_send d CHECK_DEVICE_ALIVE device_id n.
Definition stupid_p2p_heart_beat (d : Z) : W Z := need_to_send d HEART_BEAT None 0.

(** ** The thread that receives *)

(** What [recv] returned: its result, the bytes it stored, and [errno]. *)
Record recv_result := mkRecv { rr_ret : Z; rr_bytes : list Z; rr_errno : Z }.
Definition EINTR : Z := 4.

(** The local array of the thread, after [recv]. *)
Definition recv_into (buf : list Z) (r : recv_result) : list Z := rr_bytes r ++ zdrop (zlen (rr_bytes r)) buf.

Definition parse_client (p : cref) : W unit :=
  on_client p (fun c h => let* (c, h) := parse_recv_net_command (c, h) in Ok (tt, c, h)).

(** One turn of [while (1)] in [_stupid_p2p_recv_func]. *)
Definition recv_turn (p : cref) (r : recv_result) (buf : list Z) : W (list Z) :=
  let% c := the_client p in
  if negb (need_to_restart_flag c =? 0) then wret buf
  else
    let buf := recv_into buf r in
    if (rr_ret r <=? 0) && negb (rr_errno r =? EINTR) then
      let% _ := update_client p (set_restart 1) in wret buf
    else
      let% n := wlift (add32 (rr_ret r) (recv_data_fifo_length (recv_fifo c))) in
      let% _ := (if NET_READ_DATA_LENGTH <? n then wret tt
                 else on_client p (fun c h =>
                        let* f := recv_data_fifo_push (recv_fifo c) buf (rr_ret r) in
                        Ok (tt, set_recv_fifo f c, h))) in
      let% _ := parse_client p in
      wret buf.

(** ** The thread that sends *)

Definition prepend_length_to_buf_s (dst : list Z) (dst_length : Z) (src : list Z) (src_length : Z) : res (list Z) :=
  let src_length := if dst_length - 4 <? src_length then dst_length - 4 else src_length in
  let hdr := (fun i => Z.land (u8 (Z.shiftr src_length (8 * (3 - i)))) 255) <$> [0; 1; 2; 3] in
  let* dst := write_at dst 0 hdr in
  let* d := read_at src 0 src_length in
  write_at dst 4 d.

(** The loop over the queue, in one turn of [_stupid_p2p_send_func]. *)
Fixpoint send_loop (fuel : nat) (p : cref) (buf : list Z) : W (list Z) :=
  let% c := the_client p in
  if send_command_fifo_empty (send_fifo c) then wret buf
  else match fuel with
       | O => wfail OutOfFuel
       | S fuel =>
           if negb (need_to_restart_flag c =? 0) then wret buf
           else
             let% command := wlift (send_command_fifo_top (send_fifo c)) in
             let% w := wget in
             let% src := wlift (the_bytes (cmd_data command) (w_heap w)) in
             let% buf := wlift (prepend_length_to_buf_s buf 2048 src (cmd_size command)) in
             let% data := wlift (read_at buf 0 (cmd_size command + 4)) in
             let% _ := emit (SSend (socket_fd c) data (os_send (calls w) data)) in
             let% _ := on_client p (fun c h =>
               let* (f, h) := send_command_fifo_pop (send_fifo c) h in
               Ok (tt, set_send_fifo f c, h)) in
             send_loop fuel p buf
       end.

Definition send_turn (p : cref) (buf : list Z) : W (list Z) :=
  let% c := the_client p in
  send_loop (Z.to_nat (sf_num (send_fifo c))) p buf.

(** ** The thread that checks the connection *)

Definition start_connection (p : cref) : W Z :=
  let% w := wget in
  let sock := os_socket (calls w) in
  let% _ := emit (SSocket sock) in
  let% _ := update_client p (set_socket_fd sock) in
  if sock <? 0 then wret STUPID_P2P_ERROR_COMMOND
  else
    let% w := wget in
    let r := os_connect (calls w) in
    let% _ := emit (SConnect sock r) in
    if negb (r =? 0) then
      let% _ := emit (SClose sock) in wret STUPID_P2P_ERROR_COMMOND
    else wret STUPID_P2P_NO_ERROR.

Definition heart_beat_max : Z := 3.

Definition set_not_receive (v : Z) (c : stupid_p2p_t) : stupid_p2p_t :=
  set_status (set_not_receive_num v (command_status c)) c.

(** The block [if (need_to_restart_flag)] of the loop; [true] is its [continue]. *)
Definition restart_part (p : cref) (c : stupid_p2p_t) : W bool :=
  if negb (need_to_restart_flag c =? 0) then
    let% _ := emit (SClose (socket_fd c)) in
    let% ret := start_connection p in
    if negb (ret =? STUPID_P2P_NO_ERROR) then wret true
    else
      let% _ := update_client p (set_restart 0) in
      let% _ := update_client p (set_not_receive 0) in
      wret false
  else wret false.

(** The rest of the turn, once the heart beat has returned [ret].  The second test
    is [else if (ret = STUPID_P2P_NET_ERROR)], an assignment, which is true. *)
Definition beat_done (p : cref) (ret : Z) : W unit :=
  let% _ := (if ret =? STUPID_P2P_NO_ERROR then update_client p (set_not_receive 0)
             else update_client p (fun c =>
               set_not_receive (u8 (heart_beat_not_receive_num (command_status c) + 1)) c)) in
  let% c := the_client p in
  if heart_beat_max <=? heart_beat_not_receive_num (command_status c)
  then update_client p (set_restart 1) else wret tt.

(** One turn of [while (1)] in [_stupid_p2p_check_net_func]. *)
Definition check_net_turn (p : cref) : W unit :=
  let% c := the_client p in
  let% again := restart_part p c in
  if again : bool then wret tt
  else
    let% ret := need_to_send (fd c) HEART_BEAT None 0 in
    beat_done p ret.

(** ** Start and end of a client *)

(** [sizeof(stupid_p2p_t)] on a 64 bit host. *)
Definition sizeof_stupid_p2p_t : Z := 139488.

Definition calloc_client : W (option loc) := fun w =>
  let l := allocs (w_heap w) in
  if alloc_ok l sizeof_stupid_p2p_t then
    Ok (Some l, mkWorld (mkHeap (mem (w_heap w)) (S l)) (<[l := p2p_zero]> (w_clients w))
                  (stupid_p2p_head w) (_g_fd_start w) (_g_init_signal_flag w) (w_trace w))
  else Ok (None, set_heap (mkHeap (mem (w_heap w)) (S l)) w).

Definition pthread_create (l : loc) (t : thread) : W Z :=
  let% w := wget in
  let r := os_pthread_create (calls w) in
  let% _ := emit (SCreate l t r) in wret r.

Definition AF_INET : Z := 2.
Definition htons (x : Z) : Z := let p := u16 x in 256 * (p mod 256) + p / 256.

(** The function runs to its end here before the threads take a turn; what a turn of
    the checking thread does before the client has its number is
    [Threads.early_beat]. *)
Definition stupid_p2p_init (server_ip : list Z) (server_port : Z) : W Z :=
  let% _ := check_module_init in
  let% p := calloc_client in
  match p with
  | None => wret STUPID_P2P_MEMORY_ERROR
  | Some l =>
      match os_inet_pton server_ip with
      | None =>
          let% _ := update_client (CNode l) (set_server_addr (mkAddr AF_INET (htons server_port) 0)) in
          wret STUPID_P2P_BAD_PARAM
      | Some addr =>
          let% _ := update_client (CNode l) (fun c =>
            set_send_fifo (send_command_fifo_init (send_fifo c))
              (set_recv_data_list (recv_data_list_init (recv_data_list c))
                (set_recv_fifo (recv_data_fifo_init (recv_fifo c))
                  (set_server_addr (mkAddr AF_INET (htons server_port) addr) c)))) in
          let% ret := start_connection (CNode l) in
          if negb (ret =? STUPID_P2P_NO_ERROR) then wret ret
          else
            let% c := the_client (CNode l) in
            let% r1 := pthread_create l TRecv in
            if negb (r1 =? 0) then
              let% _ := emit (SClose (socket_fd c)) in wret STUPID_P2P_ERROR_COMMOND
            else
              let% r2 := pthread_create l TSend in
              if negb (r2 =? 0) then
                let% _ := emit (SCancel (CNode l) TRecv) in
                let% _ := emit (SJoin (CNode l) TRecv) in
                let% _ := emit (SClose (socket_fd c)) in wret STUPID_P2P_ERROR_COMMOND
              else
                let% r3 := pthread_create l TCheckNet in
                if negb (r3 =? 0) then
                  let% _ := emit (SCancel (CNode l) TRecv) in
                  let% _ := emit (SJoin (CNode l) TRecv) in
                  let% _ := emit (SCancel (CNode l) TSend) in
                  let% _ := emit (SJoin (CNode l) TSend) in
                  let% _ := emit (SClose (socket_fd c)) in wret STUPID_P2P_ERROR_COMMOND
                else
                  let% d := add_stupid_p2p_to_list l in
                  let% _ := update_client (CNode l) (set_fd d) in
                  wret d
      end
  end.

Definition stupid_p2p_deinit (d : Z) : W unit :=
  let% p := find_stupid_p2p d in
  match p with
  | None => wret tt
  | Some p =>
      let% _ := emit (SCancel p TRecv) in
      let% _ := emit (SCancel p TSend) in
      let% _ := emit (SCancel p TCheckNet) in
      let% _ := emit (SJoin p TRecv) in
      let% _ := emit (SJoin p TSend) in
      let% _ := emit (SJoin p TCheckNet) in
      let% c := the_client p in
      let% _ := emit (SClose (socket_fd c)) in
      let% _ := on_client p (fun c h =>
        let* (l, h) := recv_data_list_deinit (recv_data_list c, h) in
        Ok (tt, set_recv_data_list l c, h)) in
      let% _ := on_client p (fun c h =>
        let* (f, h) := send_command_fifo_deinit (send_fifo c) h in
        Ok (tt, set_send_fifo f c, h)) in
      remove_stupid_p2p (fd c)
  end.

(** ** Handing the received data to the user *)

(** [while (1)] in [stupid_p2p_recv_data]; [data_buf] has 1024 entries. *)
Fixpoint recv_data_loop (fuel : nat) (p : cref) (data_buf : list ptr) (n : Z) : W (list ptr * Z) :=
  match fuel with
  | O => wfail OutOfFuel
  | S fuel =>
      let% r := on_client p (fun c h =>
        let* (r, (l, h)) := recv_data_list_return_data (recv_data_list c, h) in
        Ok (r, set_recv_data_list l c, h)) in
      match r with
      | None => wret (data_buf, n)
      | Some _ =>
          if 1024 <? n then wret (data_buf, n)
          else
            let% data_buf := wlift (set_at data_buf n r) in
            recv_data_loop fuel p data_buf (n + 1)
      end
  end.

Definition walloc (size : Z) (b : block) : W ptr := fun w =>
  let (p, h) := alloc size b (w_heap w) in Ok (p, set_heap h w).
Definition wfree (p : ptr) : W unit := fun w =>
  let* h := free p (w_heap w) in Ok (tt, set_heap h w).
Fixpoint wfree_all (ps : list ptr) : W unit :=
  match ps with [] => wret tt | p :: ps => let% _ := wfree p in wfree_all ps end.

Definition stupid_p2p_recv_data (d : Z) : W ptr :=
  let% p := find_stupid_p2p d in
  match p with
  | None => wret None
  | Some p =>
      let% b := walloc 16 (BRecvBuf (mkRecvBuf 0 None)) in
      match b with
      | None => wret None
      | Some b =>
          let% w := wget in
          let% (data_buf, n) := recv_data_loop (S (S (size (mem (w_heap w))))) p (replicate (Z.to_nat 1024) None) 0 in
          let% a := walloc (8 * n) (BPtrs (ztake n data_buf)) in
          match a with
          | None =>
              let% _ := wfree (Some b) in
              let% _ := wfree_all (ztake n data_buf) in
              wret None
          | Some a =>
              fun w => Ok (Some b, set_heap (set_block b (BRecvBuf (mkRecvBuf n (Some a))) (w_heap w)) w)
          end
      end
  end.

(** The loop of [stupid_p2p_free_recv_data_buf]. *)
Fixpoint free_items (n : nat) (i : Z) (a : ptr) : W unit :=
  match n with
  | O => wret tt
  | S n =>
      let% w := wget in
      let% ps := wlift (the_ptrs a (w_heap w)) in
      let% p := wlift (get_at ps i) in
      let% r := wlift (the_recv_data p (w_heap w)) in
      let% _ := wfree (rd_data r) in
      let% _ := wfree p in
      free_items n (i + 1) a
  end.

Definition stupid_p2p_free_recv_data_buf (b : ptr) : W unit :=
  match b with
  | None => wret tt
  | Some l =>
      let% w := wget in
      let% blk := wlift (load_block l (w_heap w)) in
      match blk with
      | BRecvBuf r =>
          let% _ := free_items (Z.to_nat (num r)) 0 (rb_recv_data r) in
          wfree b
      | _ => wfail OutOfBounds
      end
  end.

End api.
