(* ===== verification/ClientList.v ===== *)
(** * The list of clients and the numbers that name them

    [clients] relates the linked list of Api.v to the sequence of its nodes, and
    the functions that walk it are shown to do what a sequence does. *)

From S2P Require Import Prelude Ring Heap Client Api.

(** From the pointer [p] the nodes are [ls], and then the list ends. *)
Fixpoint path (w : world) (p : ptr) (ls : list loc) : Prop :=
  match ls with
  | [] => p = None
  | l :: ls => p = Some l /\ exists c, w_clients w !! l = Some c /\ path w (p2p_next c) ls
  end.

Record clients (w : world) (ls : list loc) : Prop := {
  cl_path : path w (p2p_next (stupid_p2p_head w)) ls;
  cl_nodup : NoDup ls;
  cl_head : fd (stupid_p2p_head w) = 0
}.

Definition fd_of (w : world) (l : loc) : option Z := fd <$> w_clients w !! l.

(** The first node with the number [d]. *)
Fixpoint find_in (w : world) (d : Z) (ls : list loc) : option loc :=
  match ls with
  | [] => None
  | l :: ls => if decide (fd_of w l = Some d) then Some l else find_in w d ls
  end.

(** ** Lemmas *)

Lemma the_client_run p w c : client_of p w = Some c -> the_client p w = Ok (c, w).
Proof. intros H. unfold the_client. by rewrite H. Qed.

Lemma update_client_run p f w c :
  client_of p w = Some c -> update_client p f w = Ok (tt, put_client p (f c) w).
Proof. intros H. unfold update_client, wbind. by rewrite (the_client_run p w c H). Qed.

Lemma clients_bound w ls : clients w ls -> (length ls <= size (w_clients w))%nat.
Proof.
  intros [Hp Hn _]. rewrite <- size_dom, <- (size_list_to_set (C := gset loc)) by done.
  apply subseteq_size. intros x. rewrite elem_of_list_to_set. clear Hn. revert Hp.
  generalize (p2p_next (stupid_p2p_head w)). induction ls as [|l ls IH]; intros p; simpl; [set_solver|].
  intros (_ & c & Hc & Hp). rewrite elem_of_cons. intros [->|Hx]; [|by eapply IH].
  apply elem_of_dom. eauto.
Qed.

Lemma find_loop_S fuel p d w c :
  client_of p w = Some c ->
  find_loop (S fuel) (Some p) d w =
    if fd c =? d then Ok (Some p, w) else find_loop fuel (next_ref c) d w.
Proof.
  intros H. cbn [find_loop]. unfold wbind. rewrite (the_client_run p w c H). cbn [res_bind].
  by destruct (fd c =? d).
Qed.

Lemma last_loop_S fuel p w c :
  client_of p w = Some c ->
  last_loop (S fuel) p w =
    match next_ref c with Some q => last_loop fuel q w | None => Ok (p, w) end.
Proof.
  intros H. cbn [last_loop]. unfold wbind. rewrite (the_client_run p w c H). cbn [res_bind].
  by destruct (next_ref c).
Qed.

Lemma find_loop_spec fuel w d p ls :
  path w p ls -> (length ls < fuel)%nat ->
  find_loop fuel (CNode <$> p) d w = Ok (CNode <$> find_in w d ls, w).
Proof.
  revert p fuel. induction ls as [|l ls IH]; intros p fuel Hp Hf; simpl in Hp.
  - subst p. by destruct fuel.
  - destruct Hp as (-> & c & Hc & Hp). destruct fuel as [|fuel]; [lia|].
    cbn [fmap option_fmap option_map]. rewrite (find_loop_S fuel (CNode l) d w c Hc).
    cbn [find_in]. unfold fd_of. rewrite Hc. cbn [fmap option_fmap option_map]. destruct (Z.eqb_spec (fd c) d) as [E|E].
    + by rewrite decide_True by congruence.
    + rewrite decide_False by congruence. apply IH; [done | simpl in Hf; lia].
Qed.

(** Looking up a number: 0 finds the head, another number the first client with it. *)
Lemma find_spec w ls d :
  clients w ls ->
  find_stupid_p2p d w = Ok ((if decide (d = 0) then Some CHead else CNode <$> find_in w d ls), w).
Proof.
  intros H. pose proof (clients_bound w ls H) as Hb. destruct H as [Hp Hn Hh].
  unfold find_stupid_p2p, wbind, wget. cbn [res_bind]. unfold list_fuel.
  rewrite (find_loop_S _ CHead d w (stupid_p2p_head w)), Hh by done.
  destruct (Z.eqb_spec 0 d) as [<-|Hd]; [by rewrite decide_True|]. rewrite decide_False by done.
  apply find_loop_spec; [done | lia].
Qed.

Lemma find_in_Some w d ls l : find_in w d ls = Some l -> l ∈ ls /\ fd_of w l = Some d.
Proof.
  induction ls as [|x ls IH]; simpl; [done|]. case_decide.
  - intros [= <-]. split; [left | done].
  - intros H1. destruct (IH H1). split; [by right | done].
Qed.

(** The last node: where the walk to the end stops. *)
Definition last_ref (ls : list loc) : cref := from_option CNode CHead (last ls).

Lemma last_loop_spec fuel w l ls c :
  w_clients w !! l = Some c -> path w (p2p_next c) ls -> (length ls < fuel)%nat ->
  last_loop fuel (CNode l) w = Ok (from_option CNode (CNode l) (last ls), w).
Proof.
  revert l c fuel. induction ls as [|x ls IH]; intros l c fuel Hc Hp Hf; simpl in Hp;
    (destruct fuel as [|fuel]; [lia|]); rewrite (last_loop_S fuel (CNode l) w c Hc); unfold next_ref.
  - by rewrite Hp.
  - destruct Hp as (-> & c' & Hc' & Hp). cbn [fmap option_fmap option_map].
    rewrite (IH x c' fuel Hc' Hp) by (simpl in Hf; lia). rewrite last_cons. by destruct (last ls).
Qed.

Lemma last_run w ls :
  clients w ls -> last_loop (list_fuel w) CHead w = Ok (last_ref ls, w).
Proof.
  intros H. pose proof (clients_bound w ls H) as Hb. destruct H as [Hp Hn Hh].
  unfold list_fuel. rewrite (last_loop_S _ CHead w (stupid_p2p_head w)) by done. unfold next_ref.
  destruct ls as [|l ls]; simpl in Hp; [by rewrite Hp|]. destruct Hp as (-> & c & Hc & Hp).
  cbn [fmap option_fmap option_map].
  rewrite (last_loop_spec _ w l ls c) by (done || (simpl in Hb; lia)).
  unfold last_ref. rewrite last_cons. by destruct (last ls).
Qed.

Lemma path_ext w w' p ls :
  (forall l, l ∈ ls -> w_clients w' !! l = w_clients w !! l) -> path w p ls -> path w' p ls.
Proof.
  revert p. induction ls as [|l ls IH]; intros p Hw; simpl; [done|].
  intros (-> & c & Hc & Hp). split; [done|]. exists c. split.
  - rewrite Hw by left. done.
  - apply IH; [|done]. intros x Hx. apply Hw. by right.
Qed.

(** A node gets a new tail. *)
Lemma path_retail w w' p l1 x cx l2 l3 :
  path w p (l1 ++ x :: l3) ->
  (forall l, l ∈ l1 -> w_clients w' !! l = w_clients w !! l) ->
  w_clients w' !! x = Some cx -> path w' (p2p_next cx) l2 -> path w' p (l1 ++ x :: l2).
Proof.
  revert p. induction l1 as [|y l1 IH]; intros p H Hw Hx H2; simpl in *.
  - destruct H as (-> & _). eauto.
  - destruct H as (-> & c & Hc & H). split; [done|].
    exists c. split; [by rewrite Hw by left|]. apply IH; try done. intros l Hl. apply Hw. by right.
Qed.

Lemma path_prefix w p l1 x l2 : path w p (l1 ++ x :: l2) -> exists c, w_clients w !! x = Some c /\
  path w (p2p_next c) l2.
Proof.
  revert p. induction l1 as [|y l1 IH]; intros p; simpl; [intros (_ & ?); done|].
  intros (_ & c & _ & H). by eapply IH.
Qed.

(** Adding a client at the end of the list. *)
Lemma add_spec w ls l c :
  clients w ls -> w_clients w !! l = Some c -> p2p_next c = None -> l ∉ ls ->
  0 <= _g_fd_start w < 2 ^ 31 - 1 ->
  exists w', add_stupid_p2p_to_list l w = Ok (_g_fd_start w + 1, w') /\ clients w' (ls ++ [l]) /\
    _g_fd_start w' = _g_fd_start w + 1 /\ w_heap w' = w_heap w /\ w_trace w' = w_trace w /\
    (forall x, fd_of w' x = fd_of w x) /\ w_clients w' !! l = Some c.
Proof.
  intros H Hc Hnext Hl Hfd. unfold add_stupid_p2p_to_list, wbind, wget. cbn [res_bind].
  unfold wlift. rewrite add32_ok by lia. cbn [res_bind].
  set (w1 := mkWorld _ _ _ _ _ _). assert (clients w1 ls) as H1.
  { destruct H as [P N F]. split; [by apply (path_ext w)|done..]. }
  change (list_fuel w) with (list_fuel w1). rewrite (last_run w1 ls H1). cbn [res_bind].
  destruct H1 as [P N F]. destruct (last ls) as [x|] eqn:E.
  - apply last_Some in E as [ls' ->]. unfold last_ref. rewrite last_snoc. simpl.
    destruct (path_prefix w1 _ ls' x [] P) as (cx & Hx & _).
    rewrite (update_client_run (CNode x) _ w1 cx Hx). cbn [res_bind]. unfold wret.
    assert (x <> l) as Hxl by (intros ->; apply Hl; set_solver).
    eexists. split; [done|]. split_and!; try done; simpl.
    + split; [|apply NoDup_app; split_and!; [done | set_solver | apply NoDup_singleton]|done].
      simpl. rewrite <- app_assoc. simpl. eapply (path_retail w1); [exact P | | |].
      * intros y Hy. simpl. rewrite lookup_insert_ne; [done|]. intros ->.
        apply NoDup_app in N as (_ & N & _). apply (N y); [done | left].
      * simpl. apply lookup_insert_eq.
      * simpl. split; [done|]. exists c. rewrite lookup_insert_ne by done. done.
    + intros y. unfold fd_of. simpl. destruct (decide (y = x)) as [->|]; [|by rewrite lookup_insert_ne].
      rewrite lookup_insert_eq. simpl in Hx. by rewrite Hx.
    + by rewrite lookup_insert_ne.
  - apply last_None in E as ->. change (last_ref []) with CHead.
    rewrite (update_client_run CHead _ w1 (stupid_p2p_head w1)) by done. cbn [res_bind]. unfold wret.
    eexists. split; [done|]. split_and!; try done.
    split; [|apply NoDup_singleton|done]. simpl. split; [done|]. eauto.
Qed.

(** ** Removing a client *)

Lemma remove_loop_S fuel p prev d w c :
  client_of p w = Some c ->
  remove_loop (S fuel) p prev d w =
    match next_ref c with
    | None => Ok (tt, w)
    | Some q => if fd c =? d
                then wbind (update_client prev (set_p2p_next (p2p_next c))) (fun _ => free_client p) w
                else remove_loop fuel q p d w
    end.
Proof.
  intros H. cbn [remove_loop]. unfold wbind at 1. rewrite (the_client_run p w c H). cbn [res_bind].
  destruct (next_ref c); [|done]. by destruct (fd c =? d).
Qed.

Lemma remove_loop_walk fuel w d p prev c l1 l l2 :
  client_of p w = Some c -> fd c <> d -> path w (p2p_next c) (l1 ++ l :: l2) ->
  find_in w d l1 = None -> (length l1 < fuel)%nat ->
  exists fuel', (fuel = S (length l1) + fuel')%nat /\
    remove_loop fuel p prev d w = remove_loop fuel' (CNode l) (from_option CNode p (last l1)) d w.
Proof.
  revert fuel p prev c. induction l1 as [|x l1 IH]; intros fuel p prev c Hc Hd Hp Hf Hlen;
    (destruct fuel as [|fuel]; [lia|]); rewrite (remove_loop_S fuel p prev d w c Hc); unfold next_ref;
    simpl in Hp; destruct Hp as (-> & c' & Hc' & Hp); cbn [fmap option_fmap option_map];
    rewrite (proj2 (Z.eqb_neq _ _)) by done.
  - exists fuel. split; [done|]. done.
  - simpl in Hf. case_decide as Hx; [done|].
    destruct (IH fuel (CNode x) p c') as (fuel' & -> & ->); try done.
    + unfold fd_of in Hx. rewrite Hc' in Hx. simpl in Hx. congruence.
    + simpl in Hlen. lia.
    + exists fuel'. split; [done|]. rewrite last_cons. by destruct (last l1).
Qed.

Lemma remove_loop_none fuel w d p prev c ls :
  client_of p w = Some c -> fd c <> d -> path w (p2p_next c) ls ->
  find_in w d (removelast ls) = None -> (length ls < fuel)%nat ->
  remove_loop fuel p prev d w = Ok (tt, w).
Proof.
  revert fuel p prev c. induction ls as [|x ls IH]; intros fuel p prev c Hc Hd Hp Hf Hlen;
    (destruct fuel as [|fuel]; [lia|]); rewrite (remove_loop_S fuel p prev d w c Hc); unfold next_ref;
    simpl in Hp.
  - by rewrite Hp.
  - destruct Hp as (-> & c' & Hc' & Hp). cbn [fmap option_fmap option_map].
    rewrite (proj2 (Z.eqb_neq _ _)) by done. destruct ls as [|y ls].
    + destruct fuel as [|fuel]; [simpl in Hlen; lia|].
      rewrite (remove_loop_S fuel (CNode x) p d w c' Hc'). unfold next_ref. simpl in Hp. by rewrite Hp.
    + change (removelast (x :: y :: ls)) with (x :: removelast (y :: ls)) in Hf. simpl in Hf.
      case_decide as Hx; [done|]. eapply IH; try done; [|simpl in Hlen |- *; lia].
      unfold fd_of in Hx. rewrite Hc' in Hx. simpl in Hx. congruence.
Qed.

Lemma find_in_split w d ls l :
  find_in w d ls = Some l -> exists l1 l2, ls = l1 ++ l :: l2 /\ find_in w d l1 = None.
Proof.
  induction ls as [|x ls IH]; simpl; [done|]. case_decide as Hx.
  - intros [= ->]. by exists [], ls.
  - intros H. destruct (IH H) as (l1 & l2 & -> & H1). exists (x :: l1), l2. split; [done|].
    simpl. by rewrite decide_False.
Qed.

Lemma filter_out (l1 l2 : list loc) l :
  NoDup (l1 ++ l :: l2) ->
  filter (.≠ l) (l1 ++ l :: l2) = l1 ++ l2 /\ NoDup (l1 ++ l2) /\ (l ∉ l1) /\ (l ∉ l2).
Proof.
  intros N. assert ((l ∉ l1) /\ (l ∉ l2)) as [Hl1 Hl2].
  { apply NoDup_app in N as (_ & N1 & N2). apply NoDup_cons in N2 as [N2 _]. split; [|done].
    intros Hin. apply (N1 l); [done | left]. }
  assert (filter (.≠ l) (l1 ++ l :: l2) = l1 ++ l2) as E.
  { assert (forall k : list loc, l ∉ k -> filter (.≠ l) k = k) as Hid.
    { induction k as [|z k IH]; intros Hk; [done|]. apply not_elem_of_cons in Hk as [? ?].
      rewrite filter_cons, decide_True by done. by rewrite IH. }
    rewrite filter_app, filter_cons, decide_False by (intros []; done). by rewrite !Hid. }
  split_and!; try done. rewrite <- E. by apply NoDup_filter.
Qed.

(** [prev->next = p->next; free(p)] for the node [l] behind [prev]: the node [x], or the head. *)
Lemma unlink_after w l1 x l y l2 c :
  clients w ((l1 ++ [x]) ++ l :: y :: l2) -> w_clients w !! l = Some c -> path w (p2p_next c) (y :: l2) ->
  exists w', wbind (update_client (CNode x) (set_p2p_next (p2p_next c))) (fun _ => free_client (CNode l)) w = Ok (tt, w') /\
    clients w' ((l1 ++ [x]) ++ y :: l2) /\ w_clients w' !! l = None /\ w_heap w' = w_heap w /\
    w_trace w' = w_trace w /\ (forall z, z <> l -> fd_of w' z = fd_of w z).
Proof.
  intros [P N F] Hc Hp. destruct (filter_out _ _ _ N) as (_ & N' & Hl1 & Hl2).
  rewrite <- app_assoc in P. simpl in P. destruct (path_prefix w _ l1 x _ P) as (cx & Hx & _).
  assert (x <> l) as Hxl by set_solver. apply NoDup_app in N' as N1. destruct N1 as (N1 & N2 & _).
  unfold wbind. rewrite (update_client_run (CNode x) _ w cx Hx). cbn [res_bind free_client].
  simpl. rewrite lookup_insert_ne, Hc by done. eexists. split; [done|]. split_and!; try done; simpl.
  - split; [|done|done]. simpl. rewrite <- app_assoc. simpl. eapply (path_retail w); [exact P | | |].
    + intros z Hz. simpl. rewrite lookup_delete_ne by set_solver. rewrite lookup_insert_ne; [done|].
      intros ->. apply NoDup_app in N1 as (_ & N1 & _). apply (N1 z); [done | left].
    + simpl. rewrite lookup_delete_ne by done. apply lookup_insert_eq.
    + eapply path_ext; [|exact Hp]. intros z Hz. simpl. rewrite lookup_delete_ne by set_solver.
      rewrite lookup_insert_ne; [done|]. intros ->. apply (N2 z); [set_solver | done].
  - apply lookup_delete_eq.
  - intros z Hz. unfold fd_of. simpl. rewrite lookup_delete_ne by done.
    destruct (decide (z = x)) as [->|]; [|by rewrite lookup_insert_ne].
    rewrite lookup_insert_eq. simpl in Hx. by rewrite Hx.
Qed.

Lemma unlink_first w l y l2 c :
  clients w (l :: y :: l2) -> w_clients w !! l = Some c -> path w (p2p_next c) (y :: l2) ->
  exists w', wbind (update_client CHead (set_p2p_next (p2p_next c))) (fun _ => free_client (CNode l)) w = Ok (tt, w') /\
    clients w' (y :: l2) /\ w_clients w' !! l = None /\ w_heap w' = w_heap w /\
    w_trace w' = w_trace w /\ (forall z, z <> l -> fd_of w' z = fd_of w z).
Proof.
  intros [P N F] Hc Hp. destruct (filter_out [] _ _ N) as (_ & N' & _ & Hl2).
  unfold wbind. rewrite (update_client_run CHead _ w (stupid_p2p_head w)) by done. cbn [res_bind free_client].
  simpl. rewrite Hc. eexists. split; [done|]. split_and!; try done; simpl.
  - split; [|done|done]. eapply path_ext; [|exact Hp]. intros z Hz. simpl. by rewrite lookup_delete_ne by set_solver.
  - apply lookup_delete_eq.
  - intros z Hz. unfold fd_of. simpl. by rewrite lookup_delete_ne.
Qed.

(** A client that is not the last one is taken out of the list and freed. *)
Lemma remove_spec w ls d l :
  clients w ls -> d <> 0 -> find_in w d (removelast ls) = Some l ->
  exists w', remove_stupid_p2p d w = Ok (tt, w') /\ clients w' (filter (.≠ l) ls) /\
    w_clients w' !! l = None /\ w_heap w' = w_heap w /\ w_trace w' = w_trace w /\
    (forall x, x <> l -> fd_of w' x = fd_of w x).
Proof.
  intros H Hd Hfind. pose proof (clients_bound w ls H) as Hb.
  destruct (find_in_Some _ _ _ _ Hfind) as [_ Hfd].
  apply find_in_split in Hfind as (l1 & l2' & Els & Hl1).
  assert (exists y l2, ls = l1 ++ l :: y :: l2) as (y & l2 & ->).
  { destruct ls as [|z ls] using rev_ind; [by destruct l1|]. rewrite removelast_last in Els. subst ls.
    rewrite <- app_assoc. simpl. destruct l2' as [|y l2']; simpl; eauto. }
  clear Els l2'. pose proof H as [P N F]. rewrite length_app in Hb. simpl in Hb.
  unfold remove_stupid_p2p, wbind at 1, wget at 1. cbn [res_bind].
  destruct (remove_loop_walk (list_fuel w) w d CHead CHead _ l1 l (y :: l2) eq_refl) as (fuel & Ef & ->);
    [by rewrite F | done | done | unfold list_fuel; lia |].
  destruct (path_prefix w _ l1 l (y :: l2) P) as (c & Hc & Hp).
  unfold list_fuel in Ef. destruct fuel as [|fuel]; [lia|].
  rewrite (remove_loop_S fuel (CNode l) _ d w c Hc). unfold next_ref. pose proof Hp as [Enext _].
  rewrite Enext. cbn [fmap option_fmap option_map]. rewrite <- Enext.
  unfold fd_of in Hfd. rewrite Hc in Hfd. simpl in Hfd. injection Hfd as Hfd.
  rewrite (proj2 (Z.eqb_eq _ _)) by done. destruct (filter_out _ _ _ N) as (-> & _).
  destruct (last l1) as [x|] eqn:El.
  - apply last_Some in El as [l1' ->]. by apply unlink_after.
  - apply last_None in El as ->. by apply unlink_first.
Qed.

(** Every other client, the last one included, stays where it is. *)
Lemma remove_none w ls d :
  clients w ls -> d <> 0 -> find_in w d (removelast ls) = None -> remove_stupid_p2p d w = Ok (tt, w).
Proof.
  intros H Hd Hf. pose proof (clients_bound w ls H) as Hb. destruct H as [P N F].
  unfold remove_stupid_p2p, wbind, wget. cbn [res_bind].
  eapply remove_loop_none; [done | by rewrite F | done | done |]. unfold list_fuel. lia.
Qed.
