(* ===== verification/ApiSpec.v ===== *)
(** * What the functions of the client library do

    Specifications of the functions of Api.v: waiting for a reply, queueing a
    command, and one turn of the threads that send and receive.  [holds] says
    what a client structure and the heap of its process stand for. *)

From S2P Require Import Prelude Endian StringPiece Buffer Codec Ring RecvFifo Heap RecvList SendFifo Client Api ClientList.

(** The client at [p] holds the payloads [its], the unparsed bytes [bs] and the
    commands [cmds], the last of [k] commands that were queued. *)
Definition holds (w : world) (p : cref) its bs k cmds : Prop :=
  exists c, client_of p w = Some c /\ client_rep (c, w_heap w) its bs k cmds.

Definition flag_of (w : world) (p : cref) (f : flag) : option Z :=
  get_flag f ∘ command_status <$> client_of p w.

(** ** Lemmas: access to clients *)

Lemma client_of_put p c w q c0 :
  client_of p w = Some c0 -> client_of q (put_client p c w) = if decide (q = p) then Some c else client_of q w.
Proof.
  intros H. destruct (decide (q = p)) as [->|Hne].
  - destruct p; [done|]. apply lookup_insert_eq.
  - destruct p, q; try done. apply lookup_insert_ne. congruence.
Qed.

Lemma heap_put p c w : w_heap (put_client p c w) = w_heap w.
Proof. by destruct p. Qed.
Lemma trace_put p c w : w_trace (put_client p c w) = w_trace w.
Proof. by destruct p. Qed.
Lemma put_client_twice p c c' w : put_client p c' (put_client p c w) = put_client p c' w.
Proof. destruct p; [done|]. unfold put_client. simpl. by rewrite insert_insert_eq. Qed.
Lemma client_of_set_heap p h w : client_of p (set_heap h w) = client_of p w.
Proof. by destruct p. Qed.

Lemma read_flag_run p f w c :
  client_of p w = Some c -> read_flag p f w = Ok (get_flag f (command_status c), w).
Proof. intros H. unfold read_flag, wbind. by rewrite (the_client_run p w c H). Qed.

Lemma on_client_run {A} p (f : stupid_p2p_t -> heap -> res (A * stupid_p2p_t * heap)) w c a c' h' :
  client_of p w = Some c -> f c (w_heap w) = Ok (a, c', h') ->
  on_client p f w = Ok (a, put_client p c' (set_heap h' w)).
Proof. intros H E. unfold on_client, wbind. rewrite (the_client_run p w c H). cbn [res_bind]. by rewrite E. Qed.

Lemma get_set_not_receive g v s : get_flag g (set_not_receive_num v s) = get_flag g s.
Proof. by destruct s, g. Qed.

(** The queues of a client survive changes of its status and of its restart flag. *)
Lemma client_rep_same c c' h its bs k cmds :
  recv_data_list c' = recv_data_list c -> recv_fifo c' = recv_fifo c -> send_fifo c' = send_fifo c ->
  client_rep (c, h) its bs k cmds -> client_rep (c', h) its bs k cmds.
Proof. intros E1 E2 E3 [H1 H2 H3 H4]. simpl in *. split; simpl; by rewrite ?E1, ?E2, ?E3. Qed.

(** ** Waiting *)

Section waiting.
Context (others : nat -> world -> res world).

(** The state after the others ran [n] times, from the [i]-th time on. *)
Fixpoint run_others (i n : nat) (w : world) : res world :=
  match n with O => Ok w | S n => let* w := others i w in run_others (S i) n w end.

(** The others keep the client in place. *)
Definition keeps (p : cref) : Prop :=
  forall i w, is_Some (client_of p w) -> exists w', others i w = Ok w' /\ is_Some (client_of p w').

Lemma wait_loop_spec n p f w :
  keeps p -> is_Some (client_of p w) -> (n <= waiting_3s)%nat ->
  exists i w', (i <= n)%nat /\ run_others (waiting_3s - n) i w = Ok w' /\
    wait_loop others n p f w = Ok (tt, w') /\ is_Some (client_of p w') /\
    (forall j w1, (j < i)%nat -> run_others (waiting_3s - n) j w = Ok w1 ->
       flag_of w1 p f = Some CALL_BACK_NOT_RECEIVE) /\
    (i = n \/ flag_of w' p f <> Some CALL_BACK_NOT_RECEIVE).
Proof.
  intros Hk. revert w. induction n as [|n IH]; intros w [c Hc] Hn.
  - exists 0%nat, w. cbn [wait_loop]. unfold wbind. rewrite (read_flag_run p f w c Hc). cbn [res_bind].
    split_and!; eauto. lia.
  - cbn [wait_loop]. unfold wbind at 1. rewrite (read_flag_run p f w c Hc). cbn [res_bind].
    destruct (Z.eqb_spec (get_flag f (command_status c)) CALL_BACK_NOT_RECEIVE) as [E|E].
    + destruct (Hk (waiting_3s - S n)%nat w) as (w1 & E1 & Hc1); [eauto|].
      unfold wbind. rewrite E1. cbn [res_bind].
      destruct (IH w1 Hc1) as (i & w' & Hi & Hrun & Hw & Hc' & Hj & Hend); [lia|].
      replace (waiting_3s - n)%nat with (S (waiting_3s - S n)) in Hrun, Hj by lia.
      exists (S i), w'. split_and!; [lia | | done | done | | ].
      * cbn [run_others]. rewrite E1. done.
      * intros [|j] w2 Hlt H2; cbn [run_others] in H2.
        { injection H2 as <-. unfold flag_of. rewrite Hc. simpl. by rewrite E. }
        rewrite E1 in H2. cbn [res_bind] in H2. apply (Hj j); [lia | done].
      * destruct Hend as [->|?]; auto.
    + exists 0%nat, w. split_and!; [lia | done | done | eauto | lia |]. right.
      unfold flag_of. rewrite Hc. simpl. congruence.
Qed.

(** The code a flag stands for. *)
Definition code_of (v : Z) : Z :=
  if v =? CALL_BACK_SUCCESS then STUPID_P2P_NO_ERROR
  else if v =? CALL_BACK_NOT_RECEIVE then STUPID_P2P_NET_ERROR
  else STUPID_P2P_ERROR_COMMOND.

Lemma waitting_spec p f w :
  keeps p -> is_Some (client_of p w) ->
  exists i w' v, (i <= 300)%nat /\ run_others 0 i w = Ok w' /\ flag_of w' p f = Some v /\
    waitting_flag_and_return others (Some (p, f)) w = Ok (code_of v, w') /\
    (forall j w1, (j < i)%nat -> run_others 0 j w = Ok w1 -> flag_of w1 p f = Some CALL_BACK_NOT_RECEIVE) /\
    (i = 300%nat \/ v <> CALL_BACK_NOT_RECEIVE).
Proof.
  intros Hk Hc. destruct (wait_loop_spec waiting_3s p f w Hk Hc) as (i & w' & Hi & Hrun & Hw & [c Hc'] & Hj & Hend);
    [lia|]. rewrite Nat.sub_diag in Hrun, Hj.
  exists i, w', (get_flag f (command_status c)).
  assert (flag_of w' p f = Some (get_flag f (command_status c))) as Hf by (unfold flag_of; by rewrite Hc').
  split_and!; [done | done | done | | done | ].
  - unfold waitting_flag_and_return, wbind. rewrite Hw. cbn [res_bind].
    rewrite (read_flag_run p f w' c Hc'). cbn [res_bind]. unfold code_of. by repeat case_match.
  - destruct Hend as [?|?]; [auto|]. right. congruence.
Qed.

End waiting.

(** ** Queueing a command *)

Section sending.
Context {al : Alloc} {os : OS} (others : nat -> world -> res world).

(** A command with the bytes [d] is queued, and its flag waits for the reply. *)
Record queued (w w' : world) (p : cref) (f : flag) (m : list Z) its bs k cmds : Prop := {
  q_holds : exists l, holds w' p its bs (k + 1) (cmds ++ [(l, m)]);
  q_flag : flag_of w' p f = Some CALL_BACK_NOT_RECEIVE;
  q_other g : g <> f -> flag_of w' p g = flag_of w p g;
  q_trace : w_trace w' = w_trace w;
  q_clients q : q <> p -> client_of q w' = client_of q w;
  q_self c : client_of p w = Some c ->
    exists sf, client_of p w' = Some (set_send_fifo sf (set_status (set_flag f CALL_BACK_NOT_RECEIVE (command_status c)) c))
}.

(** What [need_to_send] does once it has found its client: the command is built,
    its flag is reset, and it is queued; null when there is no memory. *)
Definition issue (p : cref) (command : Z) (f : flag) (data : option cptr) (length : Z) : W ptr :=
  (let% send_data := build_command command data length in
   match send_data with
   | None => wret None
   | Some l =>
       let% _ := update_client p (fun c =>
         set_status (set_flag f CALL_BACK_NOT_RECEIVE (command_status c)) c) in
       let% _ := push_command p (Some l) (length + 1) in
       wret (Some l)
   end)%world.

Lemma need_to_send_issue w ls d l c command data length f :
  clients w ls -> find_in w d ls = Some l -> 0 < d -> w_clients w !! l = Some c -> need_to_restart_flag c <> 1 ->
  length <= 256 -> command_flag command = Some f ->
  need_to_send others d command data length w =
    (let% r := issue (CNode l) command f data length in
     match r with
     | None => wret STUPID_P2P_MEMORY_ERROR
     | Some _ => waitting_flag_and_return others (Some (CNode l, f))
     end)%world w.
Proof.
  intros Hcl Hfind Hd Hc Hrs Hlen Hf. unfold need_to_send.
  rewrite (proj2 (Z.ltb_ge _ _)), (proj2 (Z.leb_gt _ _)) by lia. simpl (false || false).
  unfold wbind at 1. rewrite (find_spec w ls d Hcl), Hfind, decide_False by lia.
  cbn [res_bind fmap option_fmap option_map].
  unfold wbind at 1. rewrite (the_client_run (CNode l) w c Hc). cbn [res_bind].
  rewrite (proj2 (Z.eqb_neq _ _)) by done. unfold issue, wbind. rewrite Hf.
  destruct (build_command command data length w) as [[[x|] w1]|]; cbn [res_bind]; [|done|done].
  destruct (update_client (CNode l) _ w1) as [[? w2]|]; cbn [res_bind]; [|done].
  by destruct (push_command (CNode l) (Some x) (length + 1) w2) as [[? w3]|].
Qed.

Lemma issue_queues w p command data length bytes f its bs k cmds :
  holds w p its bs k cmds -> 0 <= length <= 256 -> deref data length = Ok bytes -> zlen bytes = length ->
  k < 8192 -> alloc_ok (allocs (w_heap w)) (length + 1) = true ->
  exists w' l, issue p command f data length w = Ok (Some l, w') /\
    queued w w' p f (command :: bytes) its bs k cmds /\
    need_to_restart_flag <$> client_of p w' = need_to_restart_flag <$> client_of p w.
Proof.
  intros (c & Hc & Hrep) Hlen Hdata Hbytes Hk Hal. unfold issue, wbind, build_command.
  rewrite !(wrapu_id 64) by lia. unfold alloc. rewrite Hal.
  pose proof (lr_wf _ _ (cr_list _ _ _ _ _ Hrep)) as Hwf. simpl in Hwf.
  set (l0 := allocs (w_heap w)). rewrite (proj2 (Z.ltb_lt _ _)) by lia. cbn [res_bind].
  rewrite Hdata. cbn [res_bind]. unfold set_block. cbn [mem allocs]. rewrite insert_insert_eq.
  set (h1 := mkHeap _ _).
  assert (client_rep (c, h1) its bs k cmds) as Hrep1.
  { eapply client_rep_frame; [exact Hrep | | simpl; lia |].
    - intros x Hx. simpl in *. rewrite lookup_insert_ne by lia. apply Hwf. lia.
    - intros x Hx. simpl. by rewrite lookup_insert_ne by lia. }
  rewrite (update_client_run p _ (set_heap h1 w) c) by (by rewrite client_of_set_heap). cbn [res_bind].
  set (c1 := set_status _ c). set (w1 := put_client p c1 _). unfold push_command.
  assert (client_of p w1 = Some c1) as Hc1.
  { unfold w1. rewrite (client_of_put _ _ _ _ c) by (by rewrite client_of_set_heap). by rewrite decide_True. }
  destruct (send_push_spec (send_fifo c) h1 k cmds l0 (command :: bytes)) as (sf & Epush & Hsend).
  { apply (cr_send _ _ _ _ _ Hrep1). }
  { done. }
  { simpl. apply lookup_insert_eq. }
  { intros Hin. pose proof (command_lt _ _ _ _ _ (cr_send _ _ _ _ _ Hrep) Hin) as Hlt. simpl in Hlt. lia. }
  rewrite zlen_cons, Hbytes, Z.add_comm in Epush.
  erewrite (on_client_run p _ w1 c1 tt (set_send_fifo sf c1) h1); [|done|].
  2: { unfold w1. rewrite heap_put. simpl (send_fifo c1). cbn [w_heap set_heap]. by rewrite Epush. }
  cbn [res_bind]. unfold wret. set (w2 := put_client p _ _).
  assert (client_of p w2 = Some (set_send_fifo sf c1)) as Hc2.
  { unfold w2. rewrite (client_of_put _ _ _ _ c1) by (by rewrite client_of_set_heap). by rewrite decide_True. }
  exists w2, l0. split; [done|]. split; [split|by rewrite Hc2, Hc].
  - exists l0, (set_send_fifo sf c1). split; [done|]. unfold w2. rewrite heap_put. cbn [w_heap set_heap].
    destruct Hrep1 as [R1 R2 R3 R4]. split; simpl in *; [done | done | done |].
    intros x Hx Hx'. rewrite fmap_app in Hx'. apply elem_of_app in Hx' as [Hx'|Hx'%list_elem_of_singleton].
    + by eapply R4.
    + simpl in Hx'. subst x. pose proof (item_lt _ _ _ (cr_list _ _ _ _ _ Hrep) Hx) as Hlt. simpl in Hlt. lia.
  - unfold flag_of. rewrite Hc2. simpl. by rewrite get_set_flag, decide_True.
  - intros g Hg. unfold flag_of. rewrite Hc2, Hc. simpl. by rewrite get_set_flag, decide_False.
  - unfold w2. rewrite trace_put. simpl. unfold w1. by rewrite trace_put.
  - intros q Hq. unfold w2. rewrite (client_of_put _ _ _ _ c1), decide_False, client_of_set_heap
      by (done || by rewrite client_of_set_heap).
    unfold w1. rewrite (client_of_put _ _ _ _ c), decide_False, client_of_set_heap
      by (done || by rewrite client_of_set_heap). done.
  - intros c' Hc'. rewrite Hc in Hc'. injection Hc' as <-. by exists sf.
Qed.

Lemma need_to_send_queues w ls d l command data length bytes f its bs k cmds :
  clients w ls -> find_in w d ls = Some l -> 0 < d ->
  holds w (CNode l) its bs k cmds -> need_to_restart_flag <$> w_clients w !! l <> Some 1 ->
  0 <= length <= 256 -> deref data length = Ok bytes -> zlen bytes = length ->
  command_flag command = Some f -> k < 8192 -> alloc_ok (allocs (w_heap w)) (length + 1) = true ->
  exists w', need_to_send others d command data length w =
      waitting_flag_and_return others (Some (CNode l, f)) w' /\
    queued w w' (CNode l) f (command :: bytes) its bs k cmds.
Proof.
  intros Hcl Hfind Hd Hh Hrs Hlen Hdata Hbytes Hf Hk Hal. destruct (id Hh) as (c & Hc & _). simpl in Hc.
  rewrite Hc in Hrs. simpl in Hrs.
  destruct (issue_queues w (CNode l) command data length bytes f its bs k cmds Hh Hlen Hdata Hbytes Hk Hal)
    as (w' & x & E & Hq & _).
  exists w'. split; [|done].
  rewrite (need_to_send_issue w ls d l c command data length f) by (done || lia || congruence).
  unfold wbind. by rewrite E.
Qed.

End sending.

(** ** The thread that sends *)

Lemma header_bytes n :
  0 <= n -> (fun i => Z.land (u8 (Z.shiftr n (8 * (3 - i)))) 255) <$> [0; 1; 2; 3] = be_bytes 4 n.
Proof.
  intros Hn. assert (forall x, Z.land (u8 x) 255 = x mod 256) as Hb.
  { intros x. change 255 with (Z.ones 8). rewrite Z.land_ones by lia. unfold wrapu.
    change (2 ^ 8) with 256. by rewrite Z.mod_mod by lia. }
  cbn [fmap list_fmap]. rewrite !Hb, !Z.shiftr_div_pow2 by lia.
  unfold be_bytes. cbn [le_bytes]. unfold reverse. cbn [rev_append].
  change (2 ^ (8 * (3 - 0))) with (256 * 256 * 256). change (2 ^ (8 * (3 - 1))) with (256 * 256).
  change (2 ^ (8 * (3 - 2))) with 256. change (2 ^ (8 * (3 - 3))) with 1.
  rewrite Z.div_1_r, <- !Z.div_div by lia. done.
Qed.

(** The bytes handed to [send] are the frame of the command. *)
Lemma prepend_length_spec buf m :
  zlen buf = 2048 -> zlen m <= 2044 ->
  exists buf', prepend_length_to_buf_s buf 2048 m (zlen m) = Ok buf' /\ zlen buf' = 2048 /\
    read_at buf' 0 (zlen m + 4) = Ok (encode m).
Proof.
  intros Hbuf Hm. pose proof (zlen_nonneg m) as Hm0. unfold prepend_length_to_buf_s.
  change (2048 - 4) with 2044. rewrite (proj2 (Z.ltb_ge 2044 (zlen m))) by lia.
  rewrite header_bytes by lia.
  assert (zlen (be_bytes 4 (zlen m)) = 4) as H4 by apply zlen_be_bytes.
  rewrite write_at_ok by lia. cbn [res_bind]. rewrite ztake_0, H4, Z.add_0_l, app_nil_l by lia.
  rewrite read_at_ok by lia. cbn [res_bind]. rewrite (zdrop_0 0 m), (ztake_all _ m) by lia.
  assert (zlen (zdrop 4 buf) = 2044) as Hd by (rewrite zlen_zdrop; lia).
  rewrite write_at_ok by (rewrite ?zlen_app; lia).
  rewrite ztake_app_eq by lia. rewrite zdrop_app_r by lia.
  eexists. split; [done|]. rewrite H4. replace (4 + zlen m - 4) with (zlen m) by lia. split.
  - rewrite !zlen_app, zlen_zdrop by lia. lia.
  - rewrite read_at_ok by (rewrite ?zlen_app, ?zlen_zdrop; lia). rewrite (zdrop_0 0) by lia.
    rewrite app_assoc, ztake_app_eq; [done|]. rewrite zlen_app. lia.
Qed.

Section threads.
Context {al : Alloc} {os : OS}.

(** The calls of [send] for a sequence of commands. *)
Definition sends (sock : Z) (cmds : list command) (es : list sysevent) : Prop :=
  Forall2 (fun c e => exists k, e = SSend sock (encode c.2) (os_send k (encode c.2))) cmds es.

(** The client keeps everything but the queue of commands. *)
Definition same_but_fifo (c c' : stupid_p2p_t) : Prop := exists f, c' = set_send_fifo f c.

Lemma send_one c h its bs k x cmds :
  client_rep (c, h) its bs k (x :: cmds) ->
  exists f h', send_command_fifo_pop (send_fifo c) h = Ok (f, h') /\
    client_rep (set_send_fifo f c, h') its bs k cmds /\ mem h' = delete x.1 (mem h) /\ allocs h' = allocs h.
Proof.
  intros H. destruct (send_pop_spec _ _ _ _ _ (cr_send _ _ _ _ _ H)) as (f & h' & E & Hs & Hm & Ha).
  exists f, h'. split_and!; [done| |done|done]. simpl in *. destruct H as [H1 H2 H3 H4]. split; simpl in *.
  - eapply list_rep_frame; [exact H1 | apply (sr_wf _ _ _ _ Hs) |]. intros y Hy. rewrite Hm.
    apply lookup_delete_ne. intros E'. apply (H4 y Hy). rewrite <- E'. left.
  - done.
  - done.
  - intros y Hy Hy'. apply (H4 y Hy). by right.
Qed.

Lemma send_loop_spec w p its bs k cmds c buf :
  client_of p w = Some c -> client_rep (c, w_heap w) its bs k cmds -> need_to_restart_flag c = 0 ->
  Forall (fun x => zlen x.2 <= 2044) cmds -> zlen buf = 2048 ->
  exists w' buf' es c', send_loop (length cmds) p buf w = Ok (buf', w') /\
    w_trace w' = w_trace w ++ es /\ sends (socket_fd c) cmds es /\
    client_of p w' = Some c' /\ same_but_fifo c c' /\ client_rep (c', w_heap w') its bs k [] /\
    (forall q, q <> p -> client_of q w' = client_of q w) /\ zlen buf' = 2048.
Proof.
  revert w c buf. induction cmds as [|x cmds IH]; intros w c buf Hc Hrep Hrs Hsz Hbuf.
  - pose proof (sr_num _ _ _ _ (cr_send _ _ _ _ _ Hrep)) as Hnum. simpl in Hnum.
    exists w, buf, [], c. cbn [length send_loop]. unfold wbind. rewrite (the_client_run p w c Hc).
    cbn [res_bind]. unfold send_command_fifo_empty. rewrite Hnum.
    split_and!; try done; [by rewrite app_nil_r | constructor |]. exists (send_fifo c). by destruct c.
  - apply Forall_cons in Hsz as [Hx Hsz]. cbn [length send_loop].
    unfold wbind at 1. rewrite (the_client_run p w c Hc). cbn [res_bind].
    pose proof (cr_send _ _ _ _ _ Hrep) as Hs. simpl in Hs.
    unfold send_command_fifo_empty. rewrite (sr_num _ _ _ _ Hs), zlen_cons.
    rewrite (proj2 (Z.eqb_neq _ _)) by zlia. rewrite Hrs. simpl (negb (0 =? 0)).
    unfold wlift, wget. unfold wbind at 1. rewrite (send_top_spec _ _ _ _ _ Hs). cbn [res_bind].
    unfold wbind at 1. cbn [res_bind]. unfold wbind at 1. cbn [slot_of cmd_data cmd_size].
    assert (the_bytes (Some x.1) (w_heap w) = Ok x.2) as ->.
    { cbn [the_bytes]. unfold load_block.
      assert (mem (w_heap w) !! x.1 = Some (BBytes x.2)) as ->; [|done].
      apply (sr_live _ _ _ _ Hs). left. }
    cbn [res_bind]. destruct (prepend_length_spec buf x.2 Hbuf Hx) as (buf1 & -> & Hbuf1 & Hread).
    unfold wbind at 1. cbn [res_bind]. unfold wbind at 1. rewrite Hread. cbn [res_bind].
    unfold wbind at 1. unfold emit. cbn [res_bind]. unfold wbind at 1.
    destruct (send_one c (w_heap w) its bs k x cmds Hrep) as (f & h' & Epop & Hrep' & _).
    set (w1 := mkWorld _ _ _ _ _ _).
    assert (client_of p w1 = Some c) as Hc1 by (destruct p; exact Hc).
    erewrite (on_client_run p _ w1 c tt (set_send_fifo f c) h'); [|exact Hc1|].
    2: { cbn [w_heap w1]. rewrite Epop. done. }
    cbn [res_bind]. set (w2 := put_client p _ _).
    assert (client_of p w2 = Some (set_send_fifo f c)) as Hc2.
    { unfold w2. rewrite (client_of_put _ _ _ _ c); [by rewrite decide_True|].
      by rewrite client_of_set_heap. }
    assert (w_heap w2 = h') as Hh2 by (unfold w2; by rewrite heap_put).
    destruct (IH w2 (set_send_fifo f c) buf1 Hc2) as (w' & buf' & es & c' & E & Ht & Hes & Hc' & Hsame & Hrep2 & Hq & Hb').
    { by rewrite Hh2. }
    { done. }
    { done. }
    { done. }
    exists w', buf', (SSend (socket_fd c) (encode x.2) (os_send (calls w) (encode x.2)) :: es), c'.
    split_and!; try done.
    + rewrite Ht. unfold w2. rewrite trace_put. simpl. by rewrite <- app_assoc.
    + constructor; [eauto | exact Hes].
    + intros q Hne. rewrite (Hq q Hne). unfold w2.
      rewrite (client_of_put _ _ _ _ c); [|by rewrite client_of_set_heap].
      rewrite decide_False by done. by destruct q.
Qed.

Lemma send_turn_run w p its bs k cmds c buf :
  client_of p w = Some c -> client_rep (c, w_heap w) its bs k cmds ->
  send_turn p buf w = send_loop (length cmds) p buf w.
Proof.
  intros Hc Hrep. unfold send_turn, wbind. rewrite (the_client_run p w c Hc). cbn [res_bind].
  pose proof (sr_num _ _ _ _ (cr_send _ _ _ _ _ Hrep)) as Hn. simpl in Hn. rewrite Hn.
  unfold zlen. by rewrite Nat2Z.id.
Qed.

(** A turn that finds the restart flag set sends nothing. *)
Lemma send_turn_waits w p its bs k cmds c buf :
  client_of p w = Some c -> client_rep (c, w_heap w) its bs k cmds -> need_to_restart_flag c <> 0 ->
  send_turn p buf w = Ok (buf, w).
Proof.
  intros Hc Hrep Hr. rewrite (send_turn_run _ _ _ _ _ _ _ _ Hc Hrep).
  pose proof (sr_num _ _ _ _ (cr_send _ _ _ _ _ Hrep)) as Hn. simpl in Hn.
  destruct cmds as [|x cmds]; cbn [length send_loop]; unfold wbind; rewrite (the_client_run p w c Hc); cbn [res_bind];
    unfold send_command_fifo_empty; rewrite Hn; [done|].
  rewrite (proj2 (Z.eqb_neq _ _)) by zlia. by rewrite (proj2 (Z.eqb_neq _ _) Hr).
Qed.

(** ** The thread that receives *)

(** A chunk the network hands to a client, in one piece. *)
Definition chunk (bs : list Z) : recv_result := mkRecv (zlen bs) bs 0.

Lemma recv_turn_waits w p c r buf :
  client_of p w = Some c -> need_to_restart_flag c <> 0 -> recv_turn p r buf w = Ok (buf, w).
Proof.
  intros Hc Hr. unfold recv_turn, wbind. rewrite (the_client_run p w c Hc). cbn [res_bind].
  by rewrite (proj2 (Z.eqb_neq _ _) Hr).
Qed.

Lemma recv_turn_spec w p its bs k cmds c r buf ms rest :
  client_of p w = Some c -> client_rep (c, w_heap w) its bs k cmds -> need_to_restart_flag c = 0 ->
  rr_ret r = zlen (rr_bytes r) -> 0 < rr_ret r -> zlen bs + rr_ret r <= 8192 ->
  bs ++ rr_bytes r = concat (encode <$> ms) ++ rest -> Forall acceptable ms -> incomplete rest ->
  exists w' c' add, recv_turn p r buf w = Ok (recv_into buf r, w') /\ client_of p w' = Some c' /\
    client_rep (c', w_heap w') (its ++ add) rest k cmds /\
    command_status c' = status_after ms (command_status c) /\
    need_to_restart_flag c' = need_to_restart_flag c /\ added ms add /\ w_trace w' = w_trace w.
Proof.
  intros Hc Hrep Hrs Hret Hpos Hfit Hsplit Hacc Hinc. unfold recv_turn, wbind at 1.
  rewrite (the_client_run p w c Hc). cbn [res_bind]. rewrite Hrs. simpl (negb (0 =? 0)).
  rewrite (proj2 (Z.leb_gt _ _)) by lia. simpl (false && _).
  unfold recv_data_fifo_length. pose proof (cr_fifo _ _ _ _ _ Hrep) as Hf. simpl in Hf.
  rewrite (fifo_length _ _ Hf). unfold wlift, wbind at 1. rewrite add32_ok by (unfold zlen in *; lia).
  cbn [res_bind]. unfold NET_READ_DATA_LENGTH. rewrite (proj2 (Z.ltb_ge _ _)) by lia.
  assert (ztake (rr_ret r) (recv_into buf r) = rr_bytes r) as Htake.
  { unfold recv_into. by rewrite ztake_app_eq. }
  destruct (recv_push_spec (recv_fifo c) bs (recv_into buf r) (rr_ret r) Hf) as (f & Epush & Hf').
  { unfold recv_into. rewrite zlen_app. pose proof (zlen_nonneg (zdrop (zlen (rr_bytes r)) buf)). lia. }
  { unfold NET_READ_DATA_LENGTH. lia. }
  rewrite Htake in Hf'. unfold wbind at 1.
  erewrite (on_client_run p _ w c tt (set_recv_fifo f c) (w_heap w)); [|done|by rewrite Epush].
  cbn [res_bind]. set (w1 := put_client p _ _).
  assert (client_of p w1 = Some (set_recv_fifo f c)) as Hc1.
  { unfold w1. rewrite (client_of_put _ _ _ _ c); [by rewrite decide_True|]. by rewrite client_of_set_heap. }
  assert (w_heap w1 = w_heap w) as Hh1 by (unfold w1; by rewrite heap_put).
  assert (client_rep (set_recv_fifo f c, w_heap w) its (concat (encode <$> ms) ++ rest) k cmds) as Hrep1.
  { rewrite <- Hsplit. destruct Hrep as [R1 R2 R3 R4]. by split. }
  destruct (parse_recv_spec ms _ its rest k cmds Hrep1 Hacc Hinc) as ([c' h'] & add & Ep & Hrep2 & Hst & Hr2 & Hadd).
  unfold parse_client, wbind. erewrite (on_client_run p _ w1 _ tt c' h'); [|exact Hc1|].
  2: { rewrite Hh1. by rewrite Ep. }
  cbn [res_bind]. unfold wret. eexists _, c', add. split; [done|]. split_and!; try done.
  - rewrite (client_of_put _ _ _ _ (set_recv_fifo f c)); [by rewrite decide_True|].
    by rewrite client_of_set_heap.
  - by rewrite heap_put.
  - simpl in Hr2. congruence.
  - rewrite trace_put. simpl. unfold w1. by rewrite trace_put.
Qed.

End threads.

(** ** Handing over received data *)

Section handing.
Context {al : Alloc}.

(** One turn of the loop: the first payload is taken out. *)
Lemma take_one c h it its bs k cmds :
  client_rep (c, h) (it :: its) bs k cmds ->
  exists l h', recv_data_list_return_data (recv_data_list c, h) = Ok (Some (it_data it), (l, h')) /\
    client_rep (set_recv_data_list l c, h') its bs k cmds /\ payload_ok h' it /\ allocs h' = allocs h /\
    mem h' !! it_node it = None /\
    (forall x, x ∉ concat (item_locs <$> (it :: its)) -> mem h' !! x = mem h !! x).
Proof.
  intros H. destruct (recv_return_spec _ it its (cr_list _ _ _ _ _ H)) as ([l h'] & E & Hl & Hp & Hn & Ha & Hm).
  exists l, h'. split_and!; try done. simpl in *. destruct H as [H1 H2 H3 H4]. split; simpl in *.
  - done.
  - done.
  - eapply send_rep_frame; [exact H3 | apply (lr_wf _ _ Hl) | simpl; lia | |].
    + intros x Hx. apply Hm. intros Hin. apply (H4 _ Hin). apply list_elem_of_fmap. eauto.
    + intros x Hx Hd. destruct (decide (x ∈ concat (item_locs <$> it :: its))) as [Hin|Hin].
      * destruct (item_live (recv_data_list c, h) (it :: its) x (lr_items _ _ H1) Hin) as [b Hb].
        simpl in Hb. congruence.
      * by rewrite Hm.
  - intros x Hx. apply H4. simpl. rewrite !elem_of_cons. auto.
Qed.

Definition ptrs_of (its : list item) : list ptr := (fun it => Some (it_data it)) <$> its.

(** Storing the next pointer extends the part of the array that is filled. *)
Lemma ptrs_snoc taken it (buf : list ptr) :
  zlen taken < zlen buf -> ztake (zlen taken) buf = ptrs_of taken ->
  ztake (zlen (taken ++ [it])) (<[Z.to_nat (zlen taken) := Some (it_data it)]> buf) = ptrs_of (taken ++ [it]).
Proof.
  intros Hlt Htk. rewrite zlen_app. change (zlen [it]) with 1. unfold ptrs_of. rewrite fmap_app. simpl.
  rewrite insert_take_drop by (unfold zlen in *; zlia). fold (ztake (zlen taken) buf). rewrite Htk.
  change (@cons ptr ?a ?b) with ([a] ++ b). rewrite app_assoc. apply ztake_app_eq.
  rewrite zlen_app. unfold ptrs_of, zlen. rewrite length_fmap. simpl. lia.
Qed.

(** The blocks of a payload that was taken are not the remaining list's. *)
Lemma taken_apart taken it its :
  NoDup (concat (item_locs <$> it :: its)) ->
  (forall it' x, it' ∈ taken -> x ∈ [it_data it'; it_bytes it'] -> x ∉ concat (item_locs <$> it :: its)) ->
  forall it' x, it' ∈ taken ++ [it] -> x ∈ [it_data it'; it_bytes it'] -> x ∉ concat (item_locs <$> its).
Proof.
  intros Hnd Hdis it' x Hit' Hx Hin. apply elem_of_app in Hit' as [Hit'|Hit'%list_elem_of_singleton].
  - eapply (Hdis it' x Hit' Hx). simpl. rewrite !elem_of_cons. auto.
  - subst it'. simpl in Hnd. apply NoDup_cons in Hnd as [_ Hnd]. apply NoDup_cons in Hnd as [N2 Hnd].
    apply NoDup_cons in Hnd as [N3 _]. set_solver.
Qed.

(** The loop hands over all payloads, in order, when they fit the array. *)
Lemma recv_data_loop_spec its : forall fuel w p c bs k cmds buf taken,
  client_of p w = Some c -> client_rep (c, w_heap w) its bs k cmds ->
  zlen buf = 1024 -> ztake (zlen taken) buf = ptrs_of taken -> zlen taken + zlen its <= 1024 ->
  (length its < fuel)%nat -> Forall (payload_ok (w_heap w)) taken ->
  (forall it x, it ∈ taken -> x ∈ [it_data it; it_bytes it] -> x ∉ concat (item_locs <$> its)) ->
  exists w' c' buf', recv_data_loop fuel p buf (zlen taken) w = Ok (buf', zlen taken + zlen its, w') /\
    ztake (zlen taken + zlen its) buf' = ptrs_of (taken ++ its) /\
    client_of p w' = Some c' /\ client_rep (c', w_heap w') [] bs k cmds /\
    Forall (payload_ok (w_heap w')) (taken ++ its) /\ allocs (w_heap w') = allocs (w_heap w) /\
    w_trace w' = w_trace w /\
    (forall x, x ∉ concat (item_locs <$> its) -> mem (w_heap w') !! x = mem (w_heap w) !! x) /\
    need_to_restart_flag c' = need_to_restart_flag c.
Proof.
  induction its as [|it its IH]; intros fuel w p c bs k cmds buf taken Hc Hrep Hbuf Htk Hfit Hfuel Hpay Hdis;
    (destruct fuel as [|fuel]; [simpl in Hfuel; lia|]); cbn [recv_data_loop]; unfold wbind at 1.
  - pose proof (recv_return_empty _ (cr_list _ _ _ _ _ Hrep)) as E. simpl in E.
    erewrite (on_client_run p _ w c None (set_recv_data_list (recv_data_list c) c) (w_heap w)); [|done|by rewrite E].
    cbn [res_bind]. rewrite zlen_nil, Z.add_0_r, app_nil_r.
    eexists _, (set_recv_data_list (recv_data_list c) c), buf. split; [done|]. split_and!; try done.
    + rewrite (client_of_put _ _ _ _ c); [by rewrite decide_True | by rewrite client_of_set_heap].
    + rewrite heap_put. by destruct c.
    + by rewrite heap_put.
    + by rewrite heap_put.
    + by rewrite trace_put.
    + intros x _. by rewrite heap_put.
  - destruct (take_one c (w_heap w) it its bs k cmds Hrep) as (l & h' & E & Hrep' & Hpay' & Ha & Hn & Hm).
    erewrite (on_client_run p _ w c (Some (it_data it)) (set_recv_data_list l c) h'); [|done|by rewrite E].
    cbn [res_bind]. rewrite zlen_cons in Hfit. rewrite (proj2 (Z.ltb_ge _ _)) by zlia.
    unfold wlift, wbind at 1. rewrite set_at_ok by zlia. cbn [res_bind].
    set (w1 := put_client p _ _).
    assert (client_of p w1 = Some (set_recv_data_list l c)) as Hc1.
    { unfold w1. rewrite (client_of_put _ _ _ _ c); [by rewrite decide_True | by rewrite client_of_set_heap]. }
    assert (w_heap w1 = h') as Hh1 by (unfold w1; by rewrite heap_put).
    pose proof (lr_nodup _ _ (cr_list _ _ _ _ _ Hrep)) as Hnd.
    destruct (IH fuel w1 p (set_recv_data_list l c) bs k cmds
      (<[Z.to_nat (zlen taken) := Some (it_data it)]> buf) (taken ++ [it])) as
      (w' & c' & buf' & Er & Hb' & Hc' & Hrep2 & Hp2 & Ha2 & Ht2 & Hm2 & Hr2).
    + done.
    + by rewrite Hh1.
    + unfold zlen. rewrite length_insert. exact Hbuf.
    + apply ptrs_snoc; [zlia | done].
    + rewrite zlen_app. change (zlen [it]) with 1. lia.
    + simpl in Hfuel. lia.
    + rewrite Hh1. apply Forall_app. split; [|by constructor].
      apply Forall_forall. intros it' Hit'. rewrite Forall_forall in Hpay. destruct (Hpay it' Hit') as [P1 P2].
      split; rewrite Hm; try done; eapply (Hdis it'); try done; set_solver.
    + by apply taken_apart.
    + rewrite zlen_app in Er, Hb'. change (zlen [it]) with 1 in Er, Hb'. rewrite zlen_cons.
      replace (zlen taken + (1 + zlen its)) with (zlen taken + 1 + zlen its) by lia.
      rewrite <- app_assoc in Hb', Hp2. exists w', c', buf'. split_and!; try done.
      * by rewrite Ha2, Hh1.
      * rewrite Ht2. unfold w1. by rewrite trace_put.
      * intros x Hx. rewrite Hm2, Hh1, Hm; [done | done |]. intros Hin. apply Hx. simpl.
        rewrite !elem_of_cons. auto.
Qed.

(** With one payload more than the array holds, it is written past its end. *)
Lemma recv_data_loop_overflow its : forall fuel w p c bs k cmds buf n,
  client_of p w = Some c -> client_rep (c, w_heap w) its bs k cmds ->
  zlen buf = 1024 -> 0 <= n <= 1024 -> 1024 < n + zlen its -> (length its < fuel)%nat ->
  recv_data_loop fuel p buf n w = Err OutOfBounds.
Proof.
  induction its as [|it its IH]; intros fuel w p c bs k cmds buf n Hc Hrep Hbuf Hn Hfit Hfuel; [zlia|].
  destruct fuel as [|fuel]; [simpl in Hfuel; lia|]. cbn [recv_data_loop]. unfold wbind at 1.
  destruct (take_one c (w_heap w) it its bs k cmds Hrep) as (l & h' & E & Hrep' & _).
  erewrite (on_client_run p _ w c (Some (it_data it)) (set_recv_data_list l c) h'); [|done|by rewrite E].
  cbn [res_bind]. rewrite (proj2 (Z.ltb_ge _ _)) by lia. unfold wlift, wbind at 1.
  destruct (decide (n = 1024)) as [->|Hne].
  { unfold set_at. rewrite Hbuf. done. }
  rewrite set_at_ok by lia. cbn [res_bind]. eapply IH.
  - rewrite (client_of_put _ _ _ _ c); [by rewrite decide_True | by rewrite client_of_set_heap].
  - rewrite heap_put. exact Hrep'.
  - unfold zlen. by rewrite length_insert.
  - lia.
  - rewrite zlen_cons in Hfit. lia.
  - simpl in Hfuel. lia.
Qed.

(** The number of payloads is bounded by the number of blocks. *)
Lemma items_bound c h its bs k cmds :
  client_rep (c, h) its bs k cmds -> (length its <= size (mem h))%nat.
Proof. intros H. apply (nodes_bound (recv_data_list c, h)). apply (cr_list _ _ _ _ _ H). Qed.

End handing.
