(* ===== verification/ApiProps.v ===== *)
(** * Correctness of the client library

    The properties of the functions a user calls and of the threads behind them,
    with the runs in which they do not do what they mean to. *)

From S2P Require Import Prelude Endian StringPiece Buffer Codec Ring RecvFifo Heap RecvList SendFifo Client Api ClientList ApiSpec.

(** ** Starting a client *)

(** The numbers in use, and that new addresses are new. *)
Record api_inv (w : world) (ls : list loc) : Prop := {
  ai_clients : clients w ls;
  ai_heap : heap_wf (w_heap w);
  ai_fresh l : (allocs (w_heap w) <= l)%nat -> w_clients w !! l = None;
  ai_fds l : l ∈ ls -> exists d, fd_of w l = Some d /\ 0 < d <= _g_fd_start w;
  ai_start : 0 <= _g_fd_start w
}.

Lemma api_inv_world0 : api_inv world0 [].
Proof.
  split; [split; [done | constructor | done] | apply heap0_wf | | |done].
  - intros l _. apply lookup_empty.
  - by intros l ?%elem_of_nil.
Qed.

Lemma path_mem w p ls l : path w p ls -> l ∈ ls -> is_Some (w_clients w !! l).
Proof.
  revert p. induction ls as [|x ls IH]; intros p; simpl; [set_solver|].
  intros (_ & c & Hc & Hp) [->|Hl]%elem_of_cons; eauto.
Qed.

Lemma find_in_none w d ls : (forall l, l ∈ ls -> fd_of w l <> Some d) -> find_in w d ls = None.
Proof.
  induction ls as [|x ls IH]; intros H; [done|]. simpl. rewrite decide_False by (apply H; left).
  apply IH. intros l Hl. apply H. by right.
Qed.

Lemma find_in_app w d l1 l2 :
  find_in w d (l1 ++ l2) = match find_in w d l1 with Some l => Some l | None => find_in w d l2 end.
Proof. induction l1 as [|x l1 IH]; simpl; [done|]. case_decide; [done | apply IH]. Qed.

(** The structure [stupid_p2p_init] prepares. *)
Definition started (addr port sock d : Z) (nxt : ptr) : stupid_p2p_t :=
  mkP2P d sock (mkAddr AF_INET (htons port) addr) (recv_data_fifo_init recv_fifo_zero)
    (send_command_fifo_init send_fifo_zero) (recv_data_list_init recv_list_zero) 0 status_zero nxt.

Lemma started_rep addr port sock d nxt h :
  heap_wf h -> client_rep (started addr port sock d nxt, h) [] [] 0 [].
Proof.
  intros Hwf. split; simpl.
  - by apply list_rep_init.
  - apply fifo_rep_init.
  - by apply send_rep_init.
  - intros l ?%elem_of_nil. done.
Qed.

(** Changing a client other than its link keeps the list. *)
Lemma clients_put w ls l c c' :
  clients w ls -> w_clients w !! l = Some c -> p2p_next c' = p2p_next c ->
  clients (put_client (CNode l) c' w) ls.
Proof.
  intros [P N F] Hc Hn. split; [|done|done]. revert P. simpl. generalize (p2p_next (stupid_p2p_head w)).
  clear N. induction ls as [|x ls IH]; intros p; simpl; [done|]. intros (-> & c0 & Hc0 & Hp).
  split; [done|]. destruct (decide (x = l)) as [->|].
  - exists c'. split; [apply lookup_insert_eq|]. simplify_eq. rewrite Hn. by apply IH.
  - exists c0. rewrite lookup_insert_ne by done. eauto.
Qed.

Lemma clients_set_heap w ls h : clients w ls -> clients (set_heap h w) ls.
Proof. intros [P N F]. split; [by apply (path_ext w)|done..]. Qed.

Section starting.
Context {al : Alloc} {os : OS}.

(** The operating system grants everything. *)
Record os_grants : Prop := {
  og_socket k : 0 <= os_socket k;
  og_connect k : os_connect k = 0;
  og_create k : os_pthread_create k = 0
}.

Definition traced (es : list sysevent) (w : world) : world :=
  mkWorld (w_heap w) (w_clients w) (stupid_p2p_head w) (_g_fd_start w) (_g_init_signal_flag w)
    (w_trace w ++ es).

Lemma start_connection_run p w c :
  os_grants -> client_of p w = Some c ->
  exists sock es, start_connection p w =
    Ok (STUPID_P2P_NO_ERROR, traced es (put_client p (set_socket_fd sock c) w)).
Proof.
  intros [G1 G2 _] Hc. exists (os_socket (calls w)), [SSocket (os_socket (calls w));
    SConnect (os_socket (calls w)) (os_connect (calls (put_client p (set_socket_fd (os_socket (calls w)) c)
      (traced [SSocket (os_socket (calls w))] w))))].
  unfold start_connection. unfold wbind at 1, wget at 1. cbn [res_bind].
  unfold wbind at 1, emit at 1. cbn [res_bind].
  fold (traced [SSocket (os_socket (calls w))] w).
  set (w1 := traced _ w). assert (client_of p w1 = Some c) as Hc1 by (destruct p; exact Hc).
  unfold wbind at 1. rewrite (update_client_run p _ w1 c Hc1). cbn [res_bind].
  rewrite (proj2 (Z.ltb_ge _ _)) by apply G1. unfold wbind at 1, wget. cbn [res_bind].
  unfold wbind at 1, emit at 1. cbn [res_bind]. rewrite !G2. simpl (negb (0 =? 0)). unfold wret.
  do 2 f_equal. unfold w1, traced. destruct p; simpl; f_equal; by rewrite <- app_assoc.
Qed.

Lemma pthread_create_run l t w :
  os_grants -> exists es, pthread_create l t w = Ok (0, traced es w).
Proof.
  intros [_ _ G3]. unfold pthread_create, wbind, wget, emit, wret. cbn [res_bind]. rewrite G3.
  eexists. reflexivity.
Qed.

Lemma clients_traced w ls es : clients w ls -> clients (traced es w) ls.
Proof. intros [P N F]. split; [by apply (path_ext w)|done..]. Qed.

Lemma traced_traced es1 es2 w : traced es2 (traced es1 w) = traced (es1 ++ es2) w.
Proof. unfold traced. simpl. by rewrite app_assoc. Qed.

(** The state in which [stupid_p2p_init] adds the new client to the list. *)
Definition before_add (w : world) (addr port sock : Z) (es : list sysevent) : world :=
  let l := allocs (w_heap w) in
  mkWorld (mkHeap (mem (w_heap w)) (S l)) (<[l := started addr port sock 0 None]> (w_clients w))
    (stupid_p2p_head w) (_g_fd_start w) 1 (w_trace w ++ es).

Lemma init_prefix w ip port addr :
  _g_init_signal_flag w = 0 \/ _g_init_signal_flag w = 1 ->
  os_grants -> os_inet_pton ip = Some addr ->
  alloc_ok (allocs (w_heap w)) sizeof_stupid_p2p_t = true ->
  exists sock es, stupid_p2p_init ip port w =
    (wbind (add_stupid_p2p_to_list (allocs (w_heap w))) (fun d =>
       wbind (update_client (CNode (allocs (w_heap w))) (set_fd d)) (fun _ => wret d)))
    (before_add w addr port sock es).
Proof.
  intros Hsig G Hip Hal. unfold stupid_p2p_init. unfold wbind at 1.
  assert (exists es, check_module_init w = Ok (tt, mkWorld (w_heap w) (w_clients w) (stupid_p2p_head w)
    (_g_fd_start w) 1 (w_trace w ++ es))) as [es0 ->].
  { unfold check_module_init, wbind, wget. cbn [res_bind]. destruct Hsig as [E|E]; rewrite E.
    - eexists. simpl. reflexivity.
    - exists []. simpl. rewrite app_nil_r. unfold wret. rewrite <- E. by destruct w. }
  cbn [res_bind]. unfold wbind at 1, calloc_client. cbn [w_heap allocs mem]. rewrite Hal.
  cbn [res_bind]. rewrite Hip. set (l := allocs (w_heap w)).
  unfold wbind at 1. rewrite (update_client_run (CNode l) _ _ p2p_zero) by (simpl; apply lookup_insert_eq).
  cbn [res_bind]. set (w1 := put_client (CNode l) _ _).
  set (c1 := started addr port 0 0 None). assert (client_of (CNode l) w1 = Some c1) as Hc1
    by (simpl; apply lookup_insert_eq).
  unfold wbind at 1. destruct (start_connection_run (CNode l) w1 c1 G Hc1) as (sock & es1 & ->).
  cbn [res_bind]. rewrite Z.eqb_refl. simpl (negb true). lazy iota.
  set (w2 := traced _ _). set (c2 := set_socket_fd sock c1).
  assert (client_of (CNode l) w2 = Some c2) as Hc2 by (simpl; apply lookup_insert_eq).
  unfold wbind at 1. rewrite (the_client_run (CNode l) w2 c2 Hc2). cbn [res_bind].
  unfold wbind at 1. destruct (pthread_create_run l TRecv w2 G) as [es2 ->]. cbn [res_bind].
  simpl (negb (0 =? 0)). lazy iota.
  unfold wbind at 1. destruct (pthread_create_run l TSend (traced es2 w2) G) as [es3 ->]. cbn [res_bind].
  simpl (negb (0 =? 0)). lazy iota.
  unfold wbind at 1. destruct (pthread_create_run l TCheckNet (traced es3 (traced es2 w2)) G) as [es4 ->].
  cbn [res_bind]. simpl (negb (0 =? 0)). lazy iota. exists sock, (es0 ++ es1 ++ es2 ++ es3 ++ es4).
  f_equal. rewrite !traced_traced. unfold before_add, w2, w1, traced, put_client. simpl.
  rewrite !insert_insert_eq. f_equal. by rewrite <- !app_assoc.
Qed.

(** The list of clients does not change before. *)
Lemma before_add_clients w ls addr port sock es :
  api_inv w ls -> (allocs (w_heap w) ∉ ls) /\ clients (before_add w addr port sock es) ls.
Proof.
  intros [[P N F] _ Hfr _ _]. assert (allocs (w_heap w) ∉ ls) as Hl.
  { intros Hin. destruct (path_mem _ _ _ _ P Hin) as [c Hc]. by rewrite Hfr in Hc by lia. }
  split; [done|]. split; [|done|done]. simpl. eapply path_ext; [|exact P].
  intros x Hx. simpl. rewrite lookup_insert_ne; [done|]. intros E. by rewrite E in Hl.
Qed.

(** A number above the last one that was given is no client's. *)
Lemma find_new w ls w' d :
  api_inv w ls -> (forall x, x ∈ ls -> fd_of w' x = fd_of w x) -> _g_fd_start w < d -> find_in w' d ls = None.
Proof.
  intros [_ _ _ Hfds _] Hfd Hd. apply find_in_none. intros x Hx E. rewrite Hfd in E by done.
  destruct (Hfds x Hx) as (d' & Hd' & ?). rewrite E in Hd'. injection Hd' as <-. lia.
Qed.

(** [stupid_p2p_init] when everything is granted. *)
Lemma init_run (w : world) ls ip port addr :
  api_inv w ls -> (_g_init_signal_flag w = 0 \/ _g_init_signal_flag w = 1) -> _g_fd_start w < 2 ^ 31 - 1 ->
  os_grants -> os_inet_pton ip = Some addr ->
  alloc_ok (allocs (w_heap w)) sizeof_stupid_p2p_t = true ->
  exists w' d l, stupid_p2p_init ip port w = Ok (d, w') /\ 0 < d /\
    api_inv w' (ls ++ [l]) /\ find_stupid_p2p d w = Ok (None, w) /\
    find_stupid_p2p d w' = Ok (Some (CNode l), w') /\
    holds w' (CNode l) [] [] 0 [] /\ (forall x, x ∈ ls -> fd_of w' x = fd_of w x) /\
    find_in w' d (ls ++ [l]) = Some l /\ need_to_restart_flag <$> w_clients w' !! l = Some 0 /\
    allocs (w_heap w') = S (allocs (w_heap w)).
Proof.
  intros Hi Hsig Hmax G Hip Hal. pose proof Hi as [Hcl Hwf Hfr Hfds H0]. set (l := allocs (w_heap w)).
  destruct (init_prefix w ip port addr Hsig G Hip Hal) as (sock & es & ->). fold l.
  set (w1 := before_add w addr port sock es).
  destruct (before_add_clients w ls addr port sock es Hi) as [Hl Hcl1]. fold l in Hl. fold w1 in Hcl1.
  assert (w_clients w1 !! l = Some (started addr port sock 0 None)) as Hl1 by (simpl; apply lookup_insert_eq).
  assert (forall x, x <> l -> w_clients w1 !! x = w_clients w !! x) as Hx1.
  { intros x Hx. simpl. by rewrite lookup_insert_ne by (unfold l in Hx; congruence). }
  destruct (add_spec w1 ls l _ Hcl1 Hl1 eq_refl Hl) as (w2 & E2 & Hcl2 & Hs2 & Hh2 & Ht2 & Hf2 & Hl2);
    [simpl; lia|].
  unfold wbind. rewrite E2. cbn [res_bind].
  rewrite (update_client_run (CNode l) _ w2 _ Hl2). cbn [res_bind]. unfold wret.
  set (d := _g_fd_start w1 + 1). set (w3 := put_client _ _ w2).
  assert (_g_fd_start w1 = _g_fd_start w) as Hs1 by done.
  assert (forall x, x <> l -> fd_of w3 x = fd_of w x) as Hfd3.
  { intros x Hx. unfold fd_of at 1. simpl. rewrite lookup_insert_ne by done. fold (fd_of w2 x).
    rewrite Hf2. unfold fd_of. by rewrite Hx1. }
  assert (fd_of w3 l = Some d) as Hfdl by (unfold fd_of; simpl; by rewrite lookup_insert_eq).
  assert (clients w3 (ls ++ [l])) as Hcl3 by (by eapply clients_put).
  assert (heap_wf (w_heap w3)) as Hwf3.
  { simpl. rewrite Hh2. intros x Hx. simpl in *. apply Hwf. lia. }
  assert (forall x, x ∈ ls -> x <> l) as Hne by (intros x Hx ->; done).
  assert (find_in w3 d (ls ++ [l]) = Some l) as Hfind3.
  { rewrite find_in_app, (find_new w); [simpl; by rewrite decide_True | done | auto | lia]. }
  exists w3, d, l. split; [done|]. split; [lia|]. split_and!.
  - split; [done | done | | | simpl; lia].
    + intros x Hx. simpl in *. rewrite Hh2 in Hx. simpl in Hx. rewrite lookup_insert_ne by (unfold l; lia).
      pose proof (Hf2 x) as Hf. unfold fd_of in Hf. rewrite Hx1 in Hf by (unfold l; lia).
      rewrite Hfr in Hf by lia. by destruct (w_clients w2 !! x).
    + intros x [Hx|Hx%list_elem_of_singleton]%elem_of_app.
      * rewrite Hfd3 by auto. destruct (Hfds x Hx) as (d' & ? & ?). exists d'. split; [done|]. simpl. lia.
      * subst x. exists d. split; [done|]. simpl. lia.
  - rewrite (find_spec w ls d Hcl), decide_False by lia. rewrite (find_new w ls w); [done | done | done | lia].
  - by rewrite (find_spec w3 _ d Hcl3), decide_False, Hfind3 by lia.
  - eexists. split; [simpl; apply lookup_insert_eq|].
    by apply (started_rep addr port sock d None).
  - intros x Hx. apply Hfd3. auto.
  - done.
  - simpl. by rewrite lookup_insert_eq.
  - simpl. by rewrite Hh2.
Qed.

(** C31: when the operating system grants what it asks for, [stupid_p2p_init]
    returns a positive number that no client has, the number leads to the new
    client and to no other, and the client has nothing received, nothing to parse
    and nothing to send; the numbers of the other clients are as before. *)
Theorem init_starts_client (w : world) ls ip port addr :
  api_inv w ls -> (_g_init_signal_flag w = 0 \/ _g_init_signal_flag w = 1) -> _g_fd_start w < 2 ^ 31 - 1 ->
  os_grants -> os_inet_pton ip = Some addr ->
  alloc_ok (allocs (w_heap w)) sizeof_stupid_p2p_t = true ->
  exists w' d l, stupid_p2p_init ip port w = Ok (d, w') /\ 0 < d /\
    api_inv w' (ls ++ [l]) /\ find_stupid_p2p d w = Ok (None, w) /\
    find_stupid_p2p d w' = Ok (Some (CNode l), w') /\
    holds w' (CNode l) [] [] 0 [] /\ (forall x, x ∈ ls -> fd_of w' x = fd_of w x).
Proof.
  intros Hi Hs Hm G Hip Ha.
  destruct (init_run w ls ip port addr Hi Hs Hm G Hip Ha) as (w' & d & l & H). exists w', d, l. naive_solver.
Qed.

End starting.

(** ** Ending a client *)

Lemma clients_on w ls l c c' h :
  clients w ls -> w_clients w !! l = Some c -> p2p_next c' = p2p_next c ->
  clients (put_client (CNode l) c' (set_heap h w)) ls.
Proof. intros H Hc Hn. eapply clients_put; [by apply clients_set_heap | done | done]. Qed.

Lemma fd_of_put w l c c' h x :
  w_clients w !! l = Some c -> fd c' = fd c -> fd_of (put_client (CNode l) c' (set_heap h w)) x = fd_of w x.
Proof.
  intros Hc Hf. unfold fd_of. simpl. destruct (decide (x = l)) as [->|].
  - rewrite lookup_insert_eq, Hc. simpl. by rewrite Hf.
  - by rewrite lookup_insert_ne.
Qed.

(** Everything [stupid_p2p_deinit] does before it takes the client out of the list. *)
Lemma deinit_prefix w ls d l its bs k cmds :
  clients w ls -> find_in w d ls = Some l -> d <> 0 -> holds w (CNode l) its bs k cmds ->
  exists w1, stupid_p2p_deinit d w = remove_stupid_p2p d w1 /\ clients w1 ls /\
    (forall x, fd_of w1 x = fd_of w x) /\ holds w1 (CNode l) [] bs k [] /\
    (forall x, mem (w_heap w1) !! x =
       if decide (x ∈ concat (item_locs <$> its) ++ cmds.*1) then None else mem (w_heap w) !! x).
Proof.
  intros Hcl Hfind Hd (c & Hc & Hrep). destruct (find_in_Some _ _ _ _ Hfind) as [_ Hfd].
  simpl in Hc. unfold fd_of in Hfd. rewrite Hc in Hfd. simpl in Hfd. injection Hfd as Hfd.
  unfold stupid_p2p_deinit, wbind at 1. rewrite (find_spec w ls d Hcl), decide_False, Hfind by done.
  cbn [res_bind fmap option_fmap option_map].
  do 6 (unfold wbind at 1, emit at 1; cbn [res_bind]). set (w0 := mkWorld _ _ _ _ _ _).
  assert (w_clients w0 !! l = Some c) as Hc0 by done.
  unfold wbind at 1. rewrite (the_client_run (CNode l) w0 c Hc0). cbn [res_bind].
  unfold wbind at 1, emit at 1. cbn [res_bind].
  set (w1 := mkWorld _ _ _ _ (_g_init_signal_flag w0) _).
  destruct (recv_deinit_spec _ _ (cr_list _ _ _ _ _ Hrep)) as ([l1 h1] & E1 & Hl1 & Ha1 & Hm1).
  simpl in E1, Ha1, Hm1. unfold wbind at 1.
  erewrite (on_client_run (CNode l) _ w1 c tt (set_recv_data_list l1 c) h1); [|exact Hc|].
  2: { simpl. by rewrite E1. }
  cbn [res_bind]. set (c1 := set_recv_data_list l1 c). set (w2 := put_client _ _ _).
  assert (w_clients w2 !! l = Some c1) as Hc2 by (simpl; apply lookup_insert_eq).
  assert (send_rep (send_fifo c1) h1 k cmds) as Hs1.
  { destruct Hrep as [R1 R2 R3 R4]. simpl in *. eapply send_rep_frame; [exact R3 | apply (lr_wf _ _ Hl1) | simpl; lia | |].
    - intros x Hx. rewrite Hm1, decide_False; [done|]. intros Hin. apply (R4 _ Hin).
      apply list_elem_of_fmap. eauto.
    - intros x Hx Hdead. rewrite Hm1. by case_decide. }
  destruct (send_deinit_spec _ _ _ _ Hs1) as (f & h2 & E2 & Hs2 & Hm2 & Ha2).
  unfold wbind at 1.
  erewrite (on_client_run (CNode l) _ w2 c1 tt (set_send_fifo f c1) h2); [|exact Hc2|].
  2: { simpl. simpl in E2. by rewrite E2. }
  cbn [res_bind]. rewrite Hfd. eexists. split; [done|]. split_and!.
  - eapply clients_on; [|exact Hc2|done]. eapply clients_on; [|exact Hc|done].
    destruct Hcl as [P N F]. split; [|done|done]. by apply (path_ext w).
  - intros x. rewrite (fd_of_put w2 l c1) by done. unfold w2. rewrite (fd_of_put w1 l c) by done. done.
  - exists (set_send_fifo f c1). split; [simpl; apply lookup_insert_eq|]. rewrite heap_put.
    destruct Hrep as [R1 R2 R3 R4]. split; simpl in *; [|done|done|by intros x ?%elem_of_nil].
    eapply list_rep_frame; [exact Hl1 | apply (sr_wf _ _ _ _ Hs2) | by intros x ?%elem_of_nil].
  - intros x. rewrite heap_put. simpl. rewrite Hm2, Hm1.
    destruct (decide (x ∈ cmds.*1)) as [Hx|Hx].
    + rewrite decide_True; [done|]. apply elem_of_app. by right.
    + destruct (decide (x ∈ concat (item_locs <$> its))) as [Hy|Hy].
      * rewrite decide_True; [done|]. apply elem_of_app. by left.
      * rewrite decide_False; [done|]. rewrite elem_of_app. naive_solver.
Qed.

(** A client that is found is the last of the list, or found before it. *)
Lemma find_in_front w ls d l :
  NoDup ls -> find_in w d ls = Some l ->
  find_in w d (removelast ls) = if decide (last ls = Some l) then None else Some l.
Proof.
  destruct ls as [|z ls _] using rev_ind; [done|]. rewrite removelast_last, last_snoc, find_in_app.
  intros (_ & Hz & _)%NoDup_app Hf. destruct (find_in w d ls) as [y|] eqn:E.
  - injection Hf as ->. rewrite decide_False; [done|]. intros [= ->].
    destruct (find_in_Some _ _ _ _ E) as [Hl _]. by apply (Hz l Hl), list_elem_of_singleton.
  - simpl in Hf. case_decide; [|done]. injection Hf as ->. by rewrite decide_True.
Qed.

(** C32: [stupid_p2p_deinit] frees the received data and the commands the client
    holds, and no other block.  When another client was started after it, it also
    takes it out of the list and frees it, and leaves the other clients in their
    order, with their numbers.  The client that was started last, so the only one
    of a process, stays in the list with its structure: its number still leads to
    it, although its threads are gone. *)
Theorem deinit_ends_client (w : world) ls d l its bs k cmds :
  clients w ls -> d <> 0 -> find_in w d ls = Some l -> holds w (CNode l) its bs k cmds ->
  exists w', stupid_p2p_deinit d w = Ok (tt, w') /\
    (forall x, mem (w_heap w') !! x =
       if decide (x ∈ concat (item_locs <$> its) ++ cmds.*1) then None else mem (w_heap w) !! x) /\
    (forall x, x <> l -> fd_of w' x = fd_of w x) /\
    (last ls <> Some l -> clients w' (filter (.≠ l) ls) /\ w_clients w' !! l = None) /\
    (last ls = Some l -> clients w' ls /\ find_stupid_p2p d w' = Ok (Some (CNode l), w') /\
       holds w' (CNode l) [] bs k []).
Proof.
  intros Hcl Hd Hf Hh.
  destruct (deinit_prefix w ls d l its bs k cmds Hcl Hf Hd Hh) as (w1 & -> & Hcl1 & Hfd & Hh1 & Hm).
  assert (forall l', find_in w1 d l' = find_in w d l') as Hsame.
  { induction l' as [|x l' IH]; simpl; [done|]. by rewrite Hfd, IH. }
  pose proof (find_in_front w ls d l (cl_nodup _ _ Hcl) Hf) as Hfr. rewrite <- Hsame in Hfr.
  case_decide as Hlast.
  - exists w1. split_and!; [by eapply remove_none | done | auto | done |]. intros _. split_and!; [done | | done].
    by rewrite (find_spec w1 _ d Hcl1), decide_False, Hsame, Hf by done.
  - destruct (remove_spec w1 ls d l Hcl1 Hd Hfr) as (w' & E & Hcl' & Hl & Hh' & _ & Hfd').
    exists w'. split_and!; [done | by rewrite Hh' | | done | done]. intros x Hx. by rewrite Hfd', Hfd.
Qed.

(** ** Commands *)

Section commands.
Context {al : Alloc} {os : OS} (others : nat -> world -> res world).

(** C21: a command that can be queued is queued once, after the commands that wait
    already, as its code followed by its argument; its flag is reset; then the
    call waits for at most 300 turns of the other threads and returns: success or
    failure as soon as the flag holds the reply of the server, and a network error
    only if the flag held no reply in any of the 300 turns. *)
Theorem command_waits_for_reply (w : world) ls d l command data length bytes f its bs k cmds :
  clients w ls -> find_in w d ls = Some l -> 0 < d ->
  holds w (CNode l) its bs k cmds -> need_to_restart_flag <$> w_clients w !! l <> Some 1 ->
  0 <= length <= 256 -> deref data length = Ok bytes -> zlen bytes = length ->
  command_flag command = Some f -> k < 8192 -> alloc_ok (allocs (w_heap w)) (length + 1) = true ->
  keeps others (CNode l) ->
  exists w1 i w' v,
    queued w w1 (CNode l) f (command :: bytes) its bs k cmds /\
    (i <= 300)%nat /\ run_others others 0 i w1 = Ok w' /\ flag_of w' (CNode l) f = Some v /\
    need_to_send others d command data length w =
      Ok (if v =? CALL_BACK_SUCCESS then STUPID_P2P_NO_ERROR
          else if v =? CALL_BACK_NOT_RECEIVE then STUPID_P2P_NET_ERROR
          else STUPID_P2P_ERROR_COMMOND, w') /\
    (forall j w2, (j < i)%nat -> run_others others 0 j w1 = Ok w2 ->
       flag_of w2 (CNode l) f = Some CALL_BACK_NOT_RECEIVE) /\
    (i = 300%nat \/ v <> CALL_BACK_NOT_RECEIVE).
Proof.
  intros Hcl Hf Hd Hh Hrs Hlen Hdata Hb Hfl Hk Hal Hkeep.
  destruct (need_to_send_queues others w ls d l command data length bytes f its bs k cmds
    Hcl Hf Hd Hh Hrs Hlen Hdata Hb Hfl Hk Hal) as (w1 & E & Hq).
  destruct (waitting_spec others (CNode l) f w1 Hkeep) as (i & w' & v & Hi & Hrun & Hv & Ew & Hj & Hend).
  { destruct (q_holds _ _ _ _ _ _ _ _ _ Hq) as (x & c & Hc & _). eauto. }
  exists w1, i, w', v. split_and!; try done. by rewrite E, Ew.
Qed.

(** A command that cannot be queued is refused with the code for its reason,
    at once, and no block and no queue is changed. *)
Lemma command_refused (w : world) ls d command data length :
  clients w ls -> heap_wf (w_heap w) ->
  (256 < length \/ d <= 0 ->
     need_to_send others d command data length w = Ok (STUPID_P2P_BAD_PARAM, w)) /\
  (length <= 256 -> 0 < d -> find_in w d ls = None ->
     need_to_send others d command data length w = Ok (STUPID_P2P_ERROR_COMMOND, w)) /\
  (forall l c, length <= 256 -> 0 < d -> find_in w d ls = Some l -> w_clients w !! l = Some c ->
     (need_to_restart_flag c = 1 ->
        need_to_send others d command data length w = Ok (STUPID_P2P_RESTARTING, w)) /\
     (need_to_restart_flag c <> 1 -> alloc_ok (allocs (w_heap w)) (u64 (length + 1)) = false ->
        exists w', need_to_send others d command data length w = Ok (STUPID_P2P_MEMORY_ERROR, w') /\
          mem (w_heap w') = mem (w_heap w) /\ w_clients w' = w_clients w) /\
     (need_to_restart_flag c <> 1 -> command_flag command = None ->
        alloc_ok (allocs (w_heap w)) (length + 1) = true -> 0 <= length ->
        (exists bytes, deref data length = Ok bytes) ->
        exists w', need_to_send others d command data length w = Ok (STUPID_P2P_BAD_PARAM, w') /\
          mem (w_heap w') = mem (w_heap w) /\ w_clients w' = w_clients w)).
Proof.
  intros Hcl Hwf. split_and!.
  - intros H. unfold need_to_send.
    assert ((256 <? length) || (d <=? 0) = true) as -> by lia. done.
  - intros H1 H2 Hf. unfold need_to_send.
    assert ((256 <? length) || (d <=? 0) = false) as -> by lia.
    unfold wbind. rewrite (find_spec w ls d Hcl), decide_False, Hf by lia. done.
  - intros l c H1 H2 Hf Hc. unfold need_to_send.
    assert ((256 <? length) || (d <=? 0) = false) as -> by lia.
    unfold wbind. rewrite (find_spec w ls d Hcl), decide_False, Hf by lia.
    cbn [res_bind fmap option_fmap option_map]. rewrite (the_client_run (CNode l) w c Hc). cbn [res_bind].
    split_and!.
    + intros ->. done.
    + intros Hr Ha. rewrite (proj2 (Z.eqb_neq _ _)) by done. unfold build_command, alloc. rewrite Ha.
      cbn [res_bind]. eexists. split; [done|]. done.
    + intros Hr Hcmd Ha Hl [bytes Hdata]. rewrite (proj2 (Z.eqb_neq _ _)) by done.
      unfold build_command, alloc. rewrite !(wrapu_id 64) by lia. rewrite Ha.
      rewrite (proj2 (Z.ltb_lt _ _)) by lia. cbn [res_bind]. rewrite Hdata. cbn [res_bind]. rewrite Hcmd.
      unfold set_block. cbn [mem allocs w_heap set_heap]. rewrite insert_insert_eq, free_fresh by (apply Hwf; lia).
      cbn [res_bind]. eexists. split; [done|]. done.
Qed.

(** A negative length is not refused: [stupid_p2p_send_data] with the length
    -1 allocates no byte and writes the code of the command into it. *)
Lemma negative_length (w : world) ls d l data :
  clients w ls -> find_in w d ls = Some l -> 0 < d ->
  need_to_restart_flag <$> w_clients w !! l = Some 0 -> alloc_ok (allocs (w_heap w)) 0 = true ->
  stupid_p2p_send_data others d data (-1) w = Err OutOfBounds.
Proof.
  intros Hcl Hf Hd Hrs Hal. unfold stupid_p2p_send_data, need_to_send.
  assert ((256 <? -1) || (d <=? 0) = false) as -> by lia.
  unfold wbind. rewrite (find_spec w ls d Hcl), decide_False, Hf by lia.
  cbn [res_bind fmap option_fmap option_map].
  apply fmap_Some in Hrs as (c & Hc & Hr). rewrite (the_client_run (CNode l) w c Hc). cbn [res_bind].
  rewrite <- Hr. change (0 =? 1) with false. cbn [res_bind]. unfold build_command, alloc.
  change (u64 (-1 + 1)) with 0. by rewrite Hal.
Qed.

End commands.

(** ** The threads *)

Section threads.
Context {al : Alloc} {os : OS}.

(** One turn of the sending thread of a client whose connection works sends
    every queued command, in order and as one frame each, and empties the queue;
    the received data is not touched. *)
Lemma send_thread_sends_frames (w : world) (p : cref) its bs k cmds c buf :
  client_of p w = Some c -> client_rep (c, w_heap w) its bs k cmds -> need_to_restart_flag c = 0 ->
  Forall (fun x => zlen x.2 <= 2044) cmds -> zlen buf = 2048 ->
  exists w' buf' es, send_turn p buf w = Ok (buf', w') /\ w_trace w' = w_trace w ++ es /\
    Forall2 (fun m e => exists i, e = SSend (socket_fd c) (encode m) (os_send i (encode m))) cmds.*2 es /\
    holds w' p its bs k [].
Proof.
  intros Hc Hrep Hrs Hsz Hbuf. rewrite (send_turn_run w p its bs k cmds c buf Hc Hrep).
  destruct (send_loop_spec w p its bs k cmds c buf Hc Hrep Hrs Hsz Hbuf) as
    (w' & buf' & es & c' & E & Ht & Hes & Hc' & _ & Hrep' & _).
  exists w', buf', es. split_and!; [done|done| |by exists c'].
  clear -Hes. induction Hes; constructor; done.
Qed.

(** One turn of the receiving thread handles the bytes it gets together with
    what was left over, however the stream was cut: it hands over the payloads,
    sets the flags of the replies and keeps the rest. *)
Lemma recv_thread_delivers (w : world) (p : cref) its bs k cmds c r buf ms rest :
  client_of p w = Some c -> client_rep (c, w_heap w) its bs k cmds -> need_to_restart_flag c = 0 ->
  rr_ret r = zlen (rr_bytes r) -> 0 < rr_ret r -> zlen bs + rr_ret r <= 8192 ->
  bs ++ rr_bytes r = concat (encode <$> ms) ++ rest -> Forall acceptable ms -> incomplete rest -> plenty ->
  exists w' its', recv_turn p r buf w = Ok (recv_into buf r, w') /\ holds w' p its' rest k cmds /\
    it_payload <$> its' = (it_payload <$> its) ++ received ms /\
    (forall f, flag_of w' p f = Some (get_flag f (status_after ms (command_status c)))).
Proof.
  intros Hc Hrep Hrs Hret Hpos Hfit Hsplit Hacc Hinc Hpl.
  destruct (recv_turn_spec w p its bs k cmds c r buf ms rest Hc Hrep Hrs Hret Hpos Hfit Hsplit Hacc Hinc)
    as (w' & c' & add & E & Hc' & Hrep' & Hst & _ & [_ Hadd] & _).
  exists w', (its ++ add). split_and!; [done | by exists c' | |].
  - by rewrite fmap_app, Hadd.
  - intros f. unfold flag_of. rewrite Hc'. simpl. by rewrite Hst.
Qed.

(** A [recv] that a signal interrupts returns -1, which is added to the length
    of the receive buffer: the buffer then counts one byte less than it holds. *)
Lemma interrupted_recv_loses_byte (w : world) (p : cref) its bs k cmds c r buf :
  client_of p w = Some c -> client_rep (c, w_heap w) its bs k cmds -> need_to_restart_flag c = 0 ->
  rr_ret r = -1 -> rr_errno r = EINTR -> 0 < zlen bs < 4 ->
  exists w' c', recv_turn p r buf w = Ok (recv_into buf r, w') /\ client_of p w' = Some c' /\
    rf_length (recv_fifo c') = zlen bs - 1 /\
    rf_w_ptr (recv_fifo c') = rf_w_ptr (recv_fifo c) /\ rf_r_ptr (recv_fifo c') = rf_r_ptr (recv_fifo c).
Proof.
  intros Hc Hrep Hrs Hret Herr Hbs. unfold recv_turn, wbind at 1.
  rewrite (the_client_run p w c Hc). cbn [res_bind]. rewrite Hrs, Hret, Herr. simpl (negb _). lazy iota.
  simpl ((-1 <=? 0) && false). unfold recv_data_fifo_length.
  pose proof (fifo_length _ _ (cr_fifo _ _ _ _ _ Hrep)) as Hl. simpl in Hl. rewrite Hl.
  unfold wlift, wbind at 1. rewrite add32_ok by lia. cbn [res_bind].
  rewrite (proj2 (Z.ltb_ge _ _)) by (unfold NET_READ_DATA_LENGTH; lia).
  set (f := mkRecvFifo (rf_data (recv_fifo c)) (rf_r_ptr (recv_fifo c)) (rf_w_ptr (recv_fifo c)) (zlen bs - 1)).
  assert (recv_data_fifo_push (recv_fifo c) (recv_into buf r) (-1) = Ok f) as Ef.
  { unfold recv_data_fifo_push. change (Z.to_nat (-1)) with 0%nat.
    cbn [recv_data_fifo_push_loop res_bind]. rewrite Hl.
    rewrite add32_ok by lia. done. }
  unfold wbind at 1. erewrite (on_client_run p _ w c tt (set_recv_fifo f c) (w_heap w)); [|done|by rewrite Ef].
  cbn [res_bind]. set (w1 := put_client p _ _).
  assert (client_of p w1 = Some (set_recv_fifo f c)) as Hc1.
  { unfold w1. rewrite (client_of_put _ _ _ _ c); [by rewrite decide_True | by rewrite client_of_set_heap]. }
  unfold parse_client, wbind. erewrite (on_client_run p _ w1 _ tt (set_recv_fifo f c) (w_heap w1)); [|exact Hc1|].
  2: { unfold parse_recv_net_command. cbn [parse_loop]. unfold recv_data_fifo_length at 1. simpl (rf_length _).
       rewrite (proj2 (Z.leb_gt _ _)) by (unfold NET_PACKAGE_LENGTH; lia). done. }
  cbn [res_bind]. eexists _, (set_recv_fifo f c). split; [done|]. split_and!; try done.
  rewrite (client_of_put _ _ _ _ (set_recv_fifo f c)); [by rewrite decide_True | by rewrite client_of_set_heap].
Qed.

(** A new block leaves the client alone. *)
Lemma client_rep_new c h its bs k cmds v :
  client_rep (c, h) its bs k cmds ->
  client_rep (c, mkHeap (<[allocs h := v]> (mem h)) (S (allocs h))) its bs k cmds.
Proof.
  intros Hrep. pose proof (lr_wf _ _ (cr_list _ _ _ _ _ Hrep)) as Hwf. simpl in Hwf.
  eapply client_rep_frame; [exact Hrep | | simpl; lia |].
  - intros x Hx. simpl in *. rewrite lookup_insert_ne by lia. apply Hwf. lia.
  - intros x Hx. simpl. by rewrite lookup_insert_ne by lia.
Qed.

(** Writing the buffer that is handed out leaves a client with an empty list alone. *)
Lemma client_rep_buffer c h bs k cmds b v v' :
  client_rep (c, h) [] bs k cmds -> mem h !! b = Some (BRecvBuf v) ->
  client_rep (c, set_block b (BRecvBuf v') h) [] bs k cmds.
Proof.
  intros Hrep Hb. pose proof (lr_wf _ _ (cr_list _ _ _ _ _ Hrep)) as Hwf. simpl in Hwf.
  pose proof (heap_wf_lt _ _ _ Hwf Hb) as Hlt. destruct Hrep as [R1 R2 R3 R4]. simpl in *.
  assert (heap_wf (set_block b (BRecvBuf v') h)) as Hwf'.
  { intros x Hx. simpl in *. rewrite lookup_insert_ne by lia. by apply Hwf. }
  split; simpl; [| done | | done].
  - eapply list_rep_frame; [exact R1 | done | by intros x ?%elem_of_nil].
  - eapply send_rep_frame; [exact R3 | done | simpl; lia | |].
    + intros x Hx. simpl. rewrite lookup_insert_ne; [done|]. intros Ex.
      pose proof (sr_live _ _ _ _ R3 x Hx) as Hlive. simpl in Hlive. rewrite <- Ex in Hlive. congruence.
    + intros x Hx Hdead. simpl in *. rewrite lookup_insert_ne; [done|]. intros <-. congruence.
Qed.

(** Payloads stay where they are when the buffer and its array are written. *)
Lemma payloads_stay h its b r v v' :
  heap_wf h -> mem h !! b = Some (BRecvBuf r) -> Forall (payload_ok h) its ->
  Forall (payload_ok (set_block b (BRecvBuf v') (mkHeap (<[allocs h := v]> (mem h)) (S (allocs h))))) its.
Proof.
  intros Hwf Hb Hp. apply (Forall_impl _ _ _ Hp). intros it [P1 P2].
  pose proof (heap_wf_lt _ _ _ Hwf P1) as L1. pose proof (heap_wf_lt _ _ _ Hwf P2) as L2.
  split; simpl; rewrite !lookup_insert_ne; (done || lia || congruence).
Qed.

(** [stupid_p2p_recv_data] with at most 1024 payloads. *)
Lemma recv_data_run (w : world) ls d l its bs k cmds :
  clients w ls -> find_in w d ls = Some l -> d <> 0 -> holds w (CNode l) its bs k cmds ->
  zlen its <= 1024 -> (forall i n, n <= 8192 -> alloc_ok i n = true) ->
  exists w' b a, stupid_p2p_recv_data d w = Ok (Some b, w') /\
    mem (w_heap w') !! b = Some (BRecvBuf (mkRecvBuf (zlen its) (Some a))) /\
    mem (w_heap w') !! a = Some (BPtrs (ptrs_of its)) /\
    Forall (payload_ok (w_heap w')) its /\ holds w' (CNode l) [] bs k cmds.
Proof.
  intros Hcl Hf Hd (c & Hc & Hrep) Hn Hal. unfold stupid_p2p_recv_data, wbind at 1.
  rewrite (find_spec w ls d Hcl), decide_False, Hf by done. cbn [res_bind fmap option_fmap option_map].
  unfold walloc at 1, wbind at 1, alloc. rewrite Hal by lia. cbn [res_bind].
  set (b := allocs (w_heap w)). set (h1 := mkHeap _ _). set (w1 := set_heap h1 w).
  assert (client_rep (c, h1) its bs k cmds) as Hrep1 by by apply client_rep_new.
  unfold wbind at 1, wget at 1. cbn [res_bind]. unfold wbind at 1.
  assert (b ∉ concat (item_locs <$> its)) as Hb.
  { intros Hin. pose proof (item_lt _ _ _ (cr_list _ _ _ _ _ Hrep) Hin) as Hlt. simpl in Hlt. unfold b in Hlt. lia. }
  destruct (recv_data_loop_spec its (S (S (size (mem (w_heap w1))))) w1 (CNode l) c bs k cmds
    (replicate (Z.to_nat 1024) None) []) as (w2 & c2 & buf & E & Hbuf & Hc2 & Hrep2 & Hp2 & Ha2 & _ & Hm2 & _);
    try done; [| by intros it x ?%elem_of_nil |].
  { pose proof (items_bound _ _ _ _ _ _ Hrep1). simpl in *. lia. }
  rewrite zlen_nil in E. rewrite E. cbn [res_bind]. rewrite zlen_nil, Z.add_0_l in Hbuf. simpl ([] ++ _) in *.
  unfold wbind, walloc, alloc. rewrite Hal by lia. cbn [res_bind]. rewrite Z.add_0_l, Hbuf.
  assert (allocs (w_heap w2) = S b) as Eab by (rewrite Ha2; done).
  assert (mem (w_heap w2) !! b = Some (BRecvBuf (mkRecvBuf 0 None))) as Hb2.
  { rewrite Hm2 by done. simpl. apply lookup_insert_eq. }
  eexists _, b, (allocs (w_heap w2)). split; [done|]. split_and!.
  - simpl. apply lookup_insert_eq.
  - simpl. rewrite lookup_insert_ne by lia. apply lookup_insert_eq.
  - eapply payloads_stay; [apply (lr_wf _ _ (cr_list _ _ _ _ _ Hrep2)) | exact Hb2 | exact Hp2].
  - exists c2. split; [exact Hc2|]. eapply client_rep_buffer; [by apply client_rep_new|].
    simpl. rewrite lookup_insert_ne by lia. exact Hb2.
Qed.

(** With more than 1024 payloads waiting, [stupid_p2p_recv_data] writes past
    the end of its array of 1024 pointers. *)
Lemma recv_data_overflow (w : world) ls d l its bs k cmds :
  clients w ls -> find_in w d ls = Some l -> d <> 0 -> holds w (CNode l) its bs k cmds ->
  1024 < zlen its -> alloc_ok (allocs (w_heap w)) 16 = true ->
  stupid_p2p_recv_data d w = Err OutOfBounds.
Proof.
  intros Hcl Hf Hd (c & Hc & Hrep) Hn Hal. unfold stupid_p2p_recv_data, wbind at 1.
  rewrite (find_spec w ls d Hcl), decide_False, Hf by done. cbn [res_bind fmap option_fmap option_map].
  unfold walloc at 1, wbind at 1, alloc. rewrite Hal. cbn [res_bind].
  set (h1 := mkHeap _ _). set (w1 := set_heap h1 w).
  pose proof (lr_wf _ _ (cr_list _ _ _ _ _ Hrep)) as Hwf. simpl in Hwf.
  assert (client_rep (c, h1) its bs k cmds) as Hrep1.
  { eapply client_rep_frame; [exact Hrep | | simpl; lia |].
    - intros x Hx. simpl in *. rewrite lookup_insert_ne by lia. apply Hwf. lia.
    - intros x Hx. simpl. by rewrite lookup_insert_ne by lia. }
  unfold wbind at 1, wget at 1. cbn [res_bind]. unfold wbind at 1.
  rewrite (recv_data_loop_overflow its _ w1 (CNode l) c bs k cmds); try done.
  pose proof (items_bound _ _ _ _ _ _ Hrep1). simpl in *. lia.
Qed.

(** C24: when memory is there, [stupid_p2p_recv_data] hands over every payload that
    was received, oldest first, in one buffer, as long as at most 1024 wait: the list
    is empty afterwards and each payload is where the buffer says.  When more wait
    it fails: it writes past the end of its array of 1024 pointers. *)
Theorem recv_data_hands_over (w : world) ls d l its bs k cmds :
  clients w ls -> find_in w d ls = Some l -> d <> 0 -> holds w (CNode l) its bs k cmds ->
  (forall i n, n <= 8192 -> alloc_ok i n = true) ->
  (zlen its <= 1024 ->
    exists w' b a, stupid_p2p_recv_data d w = Ok (Some b, w') /\
      mem (w_heap w') !! b = Some (BRecvBuf (mkRecvBuf (zlen its) (Some a))) /\
      mem (w_heap w') !! a = Some (BPtrs (ptrs_of its)) /\
      Forall (payload_ok (w_heap w')) its /\ holds w' (CNode l) [] bs k cmds) /\
  (1024 < zlen its -> stupid_p2p_recv_data d w = Err OutOfBounds).
Proof.
  intros Hcl Hf Hd Hh Hal. split; intros Hn; [by apply (recv_data_run w ls)|].
  apply (recv_data_overflow w ls d l its bs k cmds); try done. by apply Hal.
Qed.

End threads.

(** ** Freeing what was handed over *)

Definition data_locs (its : list item) : list loc := concat ((fun it => [it_data it; it_bytes it]) <$> its).

Lemma wfree_run l b w :
  heap_wf (w_heap w) -> mem (w_heap w) !! l = Some b ->
  exists h', wfree (Some l) w = Ok (tt, set_heap h' w) /\ heap_wf h' /\ mem h' = delete l (mem (w_heap w)) /\
    allocs h' = allocs (w_heap w).
Proof.
  intros Hwf Hl. destruct (free_spec l _ b Hwf Hl) as (h' & E & Hwf' & Hm & Ha).
  exists h'. unfold wfree. by rewrite E.
Qed.

Lemma free_items_spec its1 : forall its0 w a,
  heap_wf (w_heap w) -> mem (w_heap w) !! a = Some (BPtrs (ptrs_of (its0 ++ its1))) ->
  Forall (payload_ok (w_heap w)) its1 -> NoDup (data_locs its1) ->
  exists h', free_items (length its1) (zlen its0) (Some a) w = Ok (tt, set_heap h' w) /\ heap_wf h' /\
    (forall x, mem h' !! x = if decide (x ∈ data_locs its1) then None else mem (w_heap w) !! x) /\
    allocs h' = allocs (w_heap w).
Proof.
  induction its1 as [|it its1 IH]; intros its0 w a Hwf Ha Hp Hnd.
  { exists (w_heap w). split; [by destruct w|]. split; [done|]. done. }
  apply Forall_cons in Hp as [[Hd Hb] Hp]. unfold data_locs in Hnd. simpl in Hnd.
  apply NoDup_cons in Hnd as [N1 Hnd]. apply NoDup_cons in Hnd as [N2 Hnd].
  cbn [length free_items]. unfold wbind at 1, wget at 1. cbn [res_bind]. unfold wlift, wbind at 1.
  cbn [the_ptrs]. unfold load_block at 1. rewrite Ha. cbn [res_bind]. unfold wbind at 1.
  rewrite (get_at_ok _ _ (Some (it_data it))).
  2: apply zlen_nonneg.
  2: { unfold ptrs_of, zlen. rewrite Nat2Z.id, fmap_app, lookup_app_r by (by rewrite length_fmap).
       rewrite length_fmap, Nat.sub_diag. done. }
  cbn [res_bind]. unfold wbind at 1. cbn [the_recv_data]. unfold load_block. rewrite Hd. cbn [res_bind rd_data].
  destruct (wfree_run (it_bytes it) _ w Hwf Hb) as (h1 & E1 & Hwf1 & Hm1 & Ha1').
  unfold wbind at 1. rewrite E1. cbn [res_bind].
  destruct (wfree_run (it_data it) (BRecvData (mkRecvData (zlen (it_payload it)) (Some (it_bytes it))))
    (set_heap h1 w)) as (h2 & E2 & Hwf2 & Hm2 & Ha2'); [done | simpl; rewrite Hm1, lookup_delete_ne; [done|set_solver] |].
  unfold wbind at 1. rewrite E2. cbn [res_bind]. simpl in Hm2.
  assert (forall x, x <> it_data it -> x <> it_bytes it -> mem h2 !! x = mem (w_heap w) !! x) as Hx.
  { intros x ? ?. by rewrite Hm2, Hm1, !lookup_delete_ne. }
  assert (forall it' x, it' ∈ its1 -> x ∈ [it_data it'; it_bytes it'] -> x ∈ data_locs its1) as Hin.
  { intros it' x Hit' Hx'. unfold data_locs. rewrite list_elem_of_In. apply in_concat.
    exists [it_data it'; it_bytes it']. split; apply list_elem_of_In; [|done]. apply list_elem_of_fmap. eauto. }
  assert (a <> it_data it /\ a <> it_bytes it) as [Ha1 Ha2] by (split; intros ->; congruence).
  destruct (IH (its0 ++ [it]) (set_heap h2 w) a) as (h' & E & Hwf' & Hm & Ha').
  - done.
  - simpl. rewrite Hx by done. by rewrite <- app_assoc.
  - apply Forall_forall. intros it' Hit'. rewrite Forall_forall in Hp. destruct (Hp it' Hit') as [P1 P2].
    split; simpl; (rewrite Hx; [done| |]); intros X.
    + apply N1. right. rewrite <- X. eapply Hin; [done | left].
    + apply N2. rewrite <- X. eapply Hin; [done | left].
    + apply N1. right. rewrite <- X. eapply Hin; [done | right; left].
    + apply N2. rewrite <- X. eapply Hin; [done | right; left].
  - done.
  - exists h'. rewrite zlen_app in E. change (zlen [it]) with 1 in E. split_and!; [exact E | done | | simpl in *; congruence].
    intros x. rewrite Hm. change (data_locs (it :: its1)) with ([it_data it; it_bytes it] ++ data_locs its1).
    destruct (decide (x ∈ data_locs its1)) as [Hi|Hi]; [rewrite decide_True by set_solver; done|].
    destruct (decide (x ∈ [it_data it; it_bytes it])) as [Hj|Hj].
    + rewrite decide_True by set_solver. simpl. rewrite Hm2, Hm1, lookup_delete_None, lookup_delete_None. set_solver.
    + rewrite decide_False by set_solver. simpl. rewrite Hx; [done | set_solver | set_solver].
Qed.

(** [stupid_p2p_free_recv_data_buf] frees the buffer and every payload in it,
    each once, but not the array of pointers, which nothing refers to any more. *)
Lemma free_buf_leaks_array (w : world) (b a : loc) (its : list item) :
  heap_wf (w_heap w) -> mem (w_heap w) !! b = Some (BRecvBuf (mkRecvBuf (zlen its) (Some a))) ->
  mem (w_heap w) !! a = Some (BPtrs (ptrs_of its)) -> Forall (payload_ok (w_heap w)) its ->
  NoDup (data_locs its) ->
  exists w' h', stupid_p2p_free_recv_data_buf (Some b) w = Ok (tt, w') /\
    w' = set_heap h' w /\ heap_wf h' /\ allocs h' = allocs (w_heap w) /\
    mem (w_heap w') !! a = Some (BPtrs (ptrs_of its)) /\
    (forall x, x <> b -> mem (w_heap w') !! x = if decide (x ∈ data_locs its) then None else mem (w_heap w) !! x) /\
    mem (w_heap w') !! b = None.
Proof.
  intros Hwf Hb Ha Hp Hnd.
  assert (forall x, x ∈ data_locs its -> (exists d, mem (w_heap w) !! x = Some (BRecvData d)) \/
    exists d, mem (w_heap w) !! x = Some (BBytes d)) as Hlocs.
  { intros x Hx. unfold data_locs in Hx. rewrite list_elem_of_In in Hx. apply in_concat in Hx as (l & Hl & Hx).
    apply list_elem_of_In, list_elem_of_fmap in Hl as (it & -> & Hit). apply list_elem_of_In in Hx.
    rewrite Forall_forall in Hp. destruct (Hp it Hit) as [P1 P2]. rewrite !elem_of_cons, elem_of_nil in Hx.
    destruct Hx as [->|[->|[]]]; eauto. }
  unfold stupid_p2p_free_recv_data_buf, wbind, wget, wlift. cbn [res_bind]. unfold load_block. rewrite Hb.
  cbn [res_bind num rb_recv_data]. destruct (free_items_spec its [] w a Hwf Ha Hp Hnd) as (h1 & E & Hwf1 & Hm1 & Ha1).
  rewrite zlen_nil in E. unfold zlen. rewrite Nat2Z.id, E. cbn [res_bind].
  destruct (wfree_run b (BRecvBuf (mkRecvBuf (zlen its) (Some a))) (set_heap h1 w)) as (h2 & E2 & Hwf2 & Hm2 & Ha2).
  { done. }
  { simpl. rewrite Hm1, decide_False; [done|]. intros Hin. destruct (Hlocs b Hin) as [[? ?]|[? ?]]; congruence. }
  rewrite E2. simpl in Hm2, Ha2. eexists _, h2. split; [done|]. simpl. rewrite Hm2.
  split; [by destruct w|]. split; [done|]. split; [congruence|]. split_and!.
  - rewrite lookup_delete_ne by (intros ->; congruence). rewrite Hm1, decide_False; [done|].
    intros Hin. destruct (Hlocs a Hin) as [[? ?]|[? ?]]; congruence.
  - intros x Hx. rewrite lookup_delete_ne by done. apply Hm1.
  - apply lookup_delete_eq.
Qed.

(** ** Heart beats *)

(** The count of missed heart beats after one that returned [ret]. *)
Definition misses_after (ret : Z) (c : stupid_p2p_t) : Z :=
  if ret =? STUPID_P2P_NO_ERROR then 0 else u8 (heart_beat_not_receive_num (command_status c) + 1).

(** The structure after the heart beat: the count, and the flag from three on. *)
Definition beaten (ret : Z) (c : stupid_p2p_t) : stupid_p2p_t :=
  let c' := set_not_receive (misses_after ret c) c in
  if 3 <=? misses_after ret c then set_restart 1 c' else c'.

Lemma beat_done_run (p : cref) (ret : Z) (w : world) c :
  client_of p w = Some c -> beat_done p ret w = Ok (tt, put_client p (beaten ret c) w).
Proof.
  intros Hc. unfold beat_done, beaten. set (n := misses_after ret c). set (c2 := set_not_receive n c).
  assert ((if ret =? STUPID_P2P_NO_ERROR then update_client p (set_not_receive 0)
           else update_client p (fun c => set_not_receive (u8 (heart_beat_not_receive_num (command_status c) + 1)) c))
          w = Ok (tt, put_client p c2 w)) as E.
  { unfold c2, n, misses_after. destruct (ret =? STUPID_P2P_NO_ERROR); by rewrite (update_client_run p _ w c Hc). }
  unfold wbind at 1. rewrite E. cbn [res_bind]. set (w2 := put_client p c2 w).
  assert (client_of p w2 = Some c2) as Hc2.
  { unfold w2. rewrite (client_of_put _ _ _ _ c) by done. by rewrite decide_True. }
  assert (heart_beat_not_receive_num (command_status c2) = n) as Hn2.
  { unfold c2, set_not_receive. simpl. by destruct (command_status c). }
  unfold wbind. rewrite (the_client_run p w2 c2 Hc2). cbn [res_bind]. rewrite Hn2. unfold heart_beat_max.
  destruct (3 <=? n); [|done]. rewrite (update_client_run p _ w2 c2 Hc2). unfold w2. by rewrite put_client_twice.
Qed.

Section heartbeat.
Context {al : Alloc} {os : OS} (others : nat -> world -> res world).

(** On a working connection a turn of the checking thread sends one heart
    beat.  Success resets the counter of missed ones; every other result counts
    as a missed heart beat, also a refusal for another reason, since the test for
    a network error is an assignment; with three the connection is restarted. *)
Lemma heart_beat_counts (w w1 : world) (p : cref) c c1 ret :
  client_of p w = Some c -> need_to_restart_flag c = 0 ->
  need_to_send others (fd c) HEART_BEAT None 0 w = Ok (ret, w1) -> client_of p w1 = Some c1 ->
  let n := misses_after ret c1 in
  exists w' c', check_net_turn others p w = Ok (tt, w') /\ client_of p w' = Some c' /\
    heart_beat_not_receive_num (command_status c') = n /\
    need_to_restart_flag c' = (if 3 <=? n then 1 else need_to_restart_flag c1) /\
    w_heap w' = w_heap w1 /\ (forall f, flag_of w' p f = flag_of w1 p f).
Proof.
  intros Hc Hrs Hsend Hc1 n. unfold check_net_turn, restart_part. unfold wbind at 1.
  rewrite (the_client_run p w c Hc). cbn [res_bind]. rewrite Hrs. simpl (negb (0 =? 0)). lazy iota.
  unfold wbind at 1, wret at 1. cbn [res_bind]. unfold wbind at 1. rewrite Hsend. cbn [res_bind].
  rewrite (beat_done_run p ret w1 c1 Hc1). eexists _, (beaten ret c1). split; [done|].
  assert (client_of p (put_client p (beaten ret c1) w1) = Some (beaten ret c1)) as Hc2.
  { rewrite (client_of_put _ _ _ _ c1) by done. by rewrite decide_True. }
  split; [done|]. unfold flag_of. rewrite Hc2, heap_put. unfold beaten. fold n.
  clearbody n. split_and!; [destruct (3 <=? n); simpl; by destruct (command_status c1) | by destruct (3 <=? n) | done |].
  intros f. rewrite Hc1. simpl. destruct (3 <=? n); simpl; by rewrite get_set_not_receive.
Qed.

End heartbeat.

(** ** The theorems at concrete states *)

Definition demo_os : OS := {|
  os_socket _ := 5; os_connect _ := 0; os_pthread_create _ := 0;
  os_send _ bs := zlen bs; os_inet_pton _ := Some 16777343
|}.
Definition idle_others : nat -> world -> res world := fun _ w => Ok w.

#[local] Existing Instance demo_alloc.
#[local] Existing Instance demo_os.

(** A process with one client, whose number is 1. *)
Definition demo_world (c : stupid_p2p_t) (h : heap) : world :=
  mkWorld h {[0%nat := set_p2p_next None (set_fd 1 c)]} (set_p2p_next (Some 0%nat) p2p_zero) 1 1 [].

Lemma demo_world_clients c h : clients (demo_world c h) [0%nat].
Proof.
  split; [|apply NoDup_singleton|done]. simpl. split; [done|]. eexists. split; [apply lookup_singleton_eq|]. done.
Qed.

Lemma demo_world_holds c h its bs k cmds :
  client_rep (c, h) its bs k cmds -> holds (demo_world c h) (CNode 0) its bs k cmds.
Proof.
  intros H. exists (set_p2p_next None (set_fd 1 c)). split; [simpl; apply lookup_singleton_eq|].
  by apply (client_rep_same c).
Qed.

Lemma demo_world_find c h : find_in (demo_world c h) 1 [0%nat] = Some 0%nat.
Proof. reflexivity. Qed.

Lemma init_starts_client_witness :
  exists w' d l, stupid_p2p_init (chars "127.0.0.1") 4040 world0 = Ok (d, w') /\
    find_stupid_p2p d w' = Ok (Some (CNode l), w').
Proof.
  destruct (init_starts_client world0 [] (chars "127.0.0.1") 4040 16777343 api_inv_world0) as
    (w' & d & l & E & _ & _ & _ & Hf & _).
  - left. reflexivity.
  - vm_compute. reflexivity.
  - split; intros k; [vm_compute; discriminate | reflexivity | reflexivity].
  - reflexivity.
  - vm_compute. reflexivity.
  - exists w', d, l. split; [exact E | exact Hf].
Defined.

(** Two clients, with the numbers 1 and 2. *)
Definition demo_two (c : stupid_p2p_t) : world :=
  mkWorld heap0 {[0%nat := set_p2p_next (Some 1%nat) (set_fd 1 c); 1%nat := set_p2p_next None (set_fd 2 c)]}
    (set_p2p_next (Some 0%nat) p2p_zero) 2 1 [].

Lemma demo_two_clients c : clients (demo_two c) [0%nat; 1%nat].
Proof.
  split; [|apply (bool_decide_unpack _); vm_compute; exact I|done]. simpl.
  split; [done|]. eexists. split; [reflexivity|]. simpl. split; [done|]. eexists. split; [reflexivity | done].
Qed.

Lemma deinit_ends_client_witness :
  exists w w', clients w [0%nat; 1%nat] /\ stupid_p2p_deinit 1 w = Ok (tt, w') /\ clients w' [1%nat].
Proof.
  destruct (demo_client []) as (c & H & _); [constructor | vm_compute; discriminate |].
  exists (demo_two c). destruct (deinit_ends_client (demo_two c) [0%nat; 1%nat] 1 0 [] [] 0 [])
    as (w' & E & _ & _ & Hc & _).
  - apply demo_two_clients.
  - discriminate.
  - reflexivity.
  - eexists. split; [reflexivity|]. by apply (client_rep_same c).
  - exists w'. split; [apply demo_two_clients|]. split; [exact E | apply Hc; discriminate].
Defined.

Lemma command_waits_for_reply_witness :
  exists w w', need_to_send idle_others 1 SEND_DATA (Some (mkPtr [104; 105] 0)) 2 w =
    Ok (STUPID_P2P_NET_ERROR, w') /\ exists l, holds w' (CNode 0) [] [] 1 [(l, [3; 104; 105])].
Proof.
  destruct (demo_client []) as (c & H & _ & Hr); [constructor | vm_compute; discriminate |].
  exists (demo_world c heap0).
  destruct (command_waits_for_reply idle_others (demo_world c heap0) [0%nat] 1 0 SEND_DATA
    (Some (mkPtr [104; 105] 0)) 2 [104; 105] FSendData [] [] 0 []) as (w1 & i & w' & v & Hq & _ & Hrun & Hv & E & _).
  - apply demo_world_clients.
  - apply demo_world_find.
  - lia.
  - by apply demo_world_holds.
  - unfold demo_world. cbn [w_clients]. rewrite lookup_singleton_eq. simpl. rewrite Hr. discriminate.
  - lia.
  - reflexivity.
  - reflexivity.
  - reflexivity.
  - lia.
  - reflexivity.
  - intros j w Hw. exists w. split; [reflexivity | exact Hw].
  - assert (forall n j x, run_others idle_others j n x = Ok x) as Hid.
    { induction n as [|n IH]; intros j x; [reflexivity | apply IH]. }
    rewrite Hid in Hrun. injection Hrun as <-. rewrite (q_flag _ _ _ _ _ _ _ _ _ Hq) in Hv. injection Hv as <-.
    exists w1. split; [exact E | exact (q_holds _ _ _ _ _ _ _ _ _ Hq)].
Defined.

Lemma command_refused_witness :
  exists w, need_to_send idle_others 1 SEND_DATA None 257 w = Ok (STUPID_P2P_BAD_PARAM, w) /\
    need_to_send idle_others 2 SEND_DATA None 0 w = Ok (STUPID_P2P_ERROR_COMMOND, w).
Proof.
  exists (demo_world p2p_zero heap0). split.
  - apply (command_refused idle_others _ [0%nat] 1 SEND_DATA None 257 (demo_world_clients p2p_zero heap0) heap0_wf).
    left. lia.
  - apply (command_refused idle_others _ [0%nat] 2 SEND_DATA None 0 (demo_world_clients p2p_zero heap0) heap0_wf);
      [lia | lia | reflexivity].
Defined.

Lemma negative_length_witness :
  stupid_p2p_send_data idle_others 1 None (-1) (demo_world p2p_zero heap0) = Err OutOfBounds.
Proof.
  apply (negative_length idle_others (demo_world p2p_zero heap0) [0%nat] 1 0).
  - apply demo_world_clients.
  - apply demo_world_find.
  - lia.
  - reflexivity.
  - reflexivity.
Defined.

(** A client with the command [d] to send. *)
Lemma demo_command d :
  exists c h l, client_rep (c, h) [] [] 1 [(l, d)] /\ need_to_restart_flag c = 0.
Proof.
  destruct (push_bytes_spec _ _ 0 [] d (send_rep_init heap0 heap0_wf)) as (f & h & _ & Hf); [lia|].
  exists (set_send_fifo f (started 0 0 0 1 None)), h, (allocs heap0). split; [|done].
  destruct (started_rep 0 0 0 1 None h (sr_wf _ _ _ _ Hf)) as [R1 R2 _ _].
  split; [exact R1 | exact R2 | exact Hf | by intros x ?%elem_of_nil].
Qed.

Lemma send_thread_sends_frames_witness :
  exists w w' buf' sock r, send_turn (CNode 0) (replicate (Z.to_nat 2048) 0) w = Ok (buf', w') /\
    w_trace w' = w_trace w ++ [SSend sock [0; 0; 0; 3; 3; 104; 105] r].
Proof.
  destruct (demo_command [3; 104; 105]) as (c & h & l & H & Hr). exists (demo_world c h).
  destruct (send_thread_sends_frames (demo_world c h) (CNode 0) [] [] 1 [(l, [3; 104; 105])]
    (set_p2p_next None (set_fd 1 c)) (replicate (Z.to_nat 2048) 0)) as (w' & buf' & es & E & Ht & Hes & _).
  - apply lookup_singleton_eq.
  - by apply (client_rep_same c).
  - exact Hr.
  - repeat constructor. simpl. unfold zlen. simpl. lia.
  - reflexivity.
  - inversion Hes as [|m e ms es' [r He] Hnil]; subst. inversion Hnil; subst.
    exists w', buf', (socket_fd c), (os_send r (encode [3; 104; 105])). split; [exact E | exact Ht].
Defined.

Lemma recv_thread_delivers_witness :
  exists w w' its', recv_turn (CNode 0) (mkRecv 5 [3; 104; 105; 0; 0] 0) (replicate (Z.to_nat 4096) 0) w =
      Ok (recv_into (replicate (Z.to_nat 4096) 0) (mkRecv 5 [3; 104; 105; 0; 0] 0), w') /\
    holds w' (CNode 0) its' [0; 0] 0 [] /\ it_payload <$> its' = [[104; 105]].
Proof.
  destruct (demo_client [0; 0; 0; 3]) as (c & H & _ & Hr); [apply (bool_decide_unpack _); vm_compute; exact I | vm_compute; discriminate |].
  exists (demo_world c heap0).
  destruct (recv_thread_delivers (demo_world c heap0) (CNode 0) [] [0; 0; 0; 3] 0 []
    (set_p2p_next None (set_fd 1 c)) (mkRecv 5 [3; 104; 105; 0; 0] 0) (replicate (Z.to_nat 4096) 0)
    [[3; 104; 105]] [0; 0]) as (w' & its' & E & Hh & Hp & _).
  - apply lookup_singleton_eq.
  - by apply (client_rep_same c).
  - exact Hr.
  - reflexivity.
  - reflexivity.
  - vm_compute. discriminate.
  - reflexivity.
  - repeat constructor; try (vm_compute; discriminate); try lia; try done.
  - left. reflexivity.
  - exact demo_plenty.
  - exists w', its'. split; [exact E|]. split; [exact Hh | exact Hp].
Defined.

Lemma interrupted_recv_loses_byte_witness :
  exists w w' c', recv_turn (CNode 0) (mkRecv (-1) [] EINTR) [] w = Ok ([], w') /\
    client_of (CNode 0) w' = Some c' /\ rf_length (recv_fifo c') = 1.
Proof.
  destruct (demo_client [0; 0]) as (c & H & _ & Hr); [apply (bool_decide_unpack _); vm_compute; exact I | vm_compute; discriminate |].
  exists (demo_world c heap0).
  destruct (interrupted_recv_loses_byte (demo_world c heap0) (CNode 0) [] [0; 0] 0 []
    (set_p2p_next None (set_fd 1 c)) (mkRecv (-1) [] EINTR) []) as (w' & c' & E & Hc & Hl & _).
  - apply lookup_singleton_eq.
  - by apply (client_rep_same c).
  - exact Hr.
  - reflexivity.
  - reflexivity.
  - vm_compute. split; reflexivity.
  - exists w', c'. split; [exact E|]. split; [exact Hc | exact Hl].
Defined.

Lemma recv_data_hands_over_witness :
  exists w w' b its a, stupid_p2p_recv_data 1 w = Ok (Some b, w') /\ length its = 3%nat /\
    mem (w_heap w') !! b = Some (BRecvBuf (mkRecvBuf 3 (Some a))) /\
    Forall (payload_ok (w_heap w')) its.
Proof.
  destruct (demo_payloads 3) as (c & h & its & H & Hn & _). exists (demo_world c h).
  assert (zlen its = 3) as Hz by (unfold zlen; rewrite Hn; reflexivity).
  destruct (recv_data_hands_over (demo_world c h) [0%nat] 1 0 its [] 0 []) as [Ht _].
  - apply demo_world_clients.
  - apply demo_world_find.
  - discriminate.
  - by apply demo_world_holds.
  - intros i n Hi. apply Z.ltb_lt. lia.
  - destruct Ht as (w' & b & a & E & Hb & _ & Hp & _); [rewrite Hz; discriminate|].
    rewrite Hz in Hb. exists w', b, its, a. split; [exact E|]. split; [exact Hn|]. split; [exact Hb | exact Hp].
Defined.

Lemma recv_data_overflow_witness :
  exists w, stupid_p2p_recv_data 1 w = Err OutOfBounds.
Proof.
  destruct (demo_payloads (Z.to_nat 1025)) as (c & h & its & H & Hn & _). exists (demo_world c h).
  apply (recv_data_overflow (demo_world c h) [0%nat] 1 0 its [] 0 []).
  - apply demo_world_clients.
  - apply demo_world_find.
  - discriminate.
  - by apply demo_world_holds.
  - unfold zlen. rewrite Hn, Z2Nat.id; lia.
  - reflexivity.
Defined.

(** A buffer with one payload of two bytes, as [stupid_p2p_recv_data] returns it. *)
Definition demo_buf_heap : heap :=
  mkHeap {[0%nat := BRecvBuf (mkRecvBuf 1 (Some 1%nat)); 1%nat := BPtrs [Some 2%nat];
           2%nat := BRecvData (mkRecvData 2 (Some 3%nat)); 3%nat := BBytes [104; 105]]} 4.

Lemma demo_buf_heap_wf : heap_wf demo_buf_heap.
Proof. intros l Hl. simpl in *. by rewrite !lookup_insert_ne, lookup_singleton_ne by lia. Qed.

Lemma free_buf_leaks_array_witness :
  exists w', stupid_p2p_free_recv_data_buf (Some 0%nat) (demo_world p2p_zero demo_buf_heap) = Ok (tt, w') /\
    mem (w_heap w') !! 1%nat = Some (BPtrs [Some 2%nat]).
Proof.
  destruct (free_buf_leaks_array (demo_world p2p_zero demo_buf_heap) 0 1 [mkItem 9 2 3 [104; 105]])
    as (w' & h' & E & _ & _ & _ & Ha & _).
  - apply demo_buf_heap_wf.
  - reflexivity.
  - reflexivity.
  - repeat constructor.
  - apply (bool_decide_unpack _). vm_compute. exact I.
  - exists w'. split; [exact E | exact Ha].
Defined.

Lemma heart_beat_counts_witness :
  exists w w' c', check_net_turn idle_others (CNode 0) w = Ok (tt, w') /\ client_of (CNode 0) w' = Some c' /\
    need_to_restart_flag c' = 1.
Proof.
  set (c := set_not_receive 2 (set_fd (-1) p2p_zero)).
  set (w := put_client (CNode 0) c (demo_world p2p_zero heap0)).
  assert (need_to_send idle_others (fd c) HEART_BEAT None 0 w = Ok (STUPID_P2P_BAD_PARAM, w)) as Hs
    by reflexivity.
  assert (client_of (CNode 0) w = Some c) as Hc by apply lookup_insert_eq.
  destruct (heart_beat_counts idle_others w w (CNode 0) c c STUPID_P2P_BAD_PARAM Hc eq_refl Hs Hc)
    as (w' & c' & E & Hc' & _ & Hr & _).
  exists w, w', c'. split; [exact E|]. split; [exact Hc' | exact Hr].
Defined.
