(* ===== verification/Restart.v ===== *)
(** * Restarting the connection of a client (API/C/stupidP2P.c)

    What a turn of the thread that checks the connection does when
    [need_to_restart_flag] is set: it closes the socket, opens another one and
    goes on with the heart beat.  The restart changes the socket, the flag and the
    count of missed heart beats only; the theorems say what this means for data
    that was received, commands that wait, and a frame that was cut off. *)

From S2P Require Import Prelude Endian StringPiece Buffer Codec Ring RecvFifo Heap RecvList SendFifo Client Api ClientList ApiSpec ApiProps.

Section restart.
Context {al : Alloc} {os : OS}.

(** The calls of the system in a restart: [close], [socket], [connect], and
    another [close] when the connection is refused. *)
Definition new_socket (w : world) : Z := os_socket (S (calls w)).
Definition new_result (w : world) : Z := os_connect (S (S (calls w))).
Definition restart_calls (old : Z) (w : world) : list sysevent :=
  let sock := new_socket w in
  let r := new_result w in
  [SClose old; SSocket sock] ++
  (if sock <? 0 then [] else SConnect sock r :: if r =? 0 then [] else [SClose sock]).

Definition connects (w : world) : bool := (0 <=? new_socket w) && (new_result w =? 0).

(** The state of the process after a restart. *)
Definition restarted (p : cref) (c : stupid_p2p_t) (w : world) : world :=
  let c1 := set_socket_fd (new_socket w) c in
  traced (restart_calls (socket_fd c) w)
    (put_client p (if connects w then set_not_receive 0 (set_restart 0 c1) else c1) w).

(** ** Lemmas *)

Lemma put_client_traced p c es w : put_client p c (traced es w) = traced es (put_client p c w).
Proof. by destruct p. Qed.

Lemma client_of_traced p es w : client_of p (traced es w) = client_of p w.
Proof. by destruct p. Qed.

Lemma emit_run e w : emit e w = Ok (tt, traced [e] w).
Proof. done. Qed.

Lemma calls_traced es w : calls (traced es w) = (calls w + length es)%nat.
Proof. unfold calls, traced. simpl. apply length_app. Qed.

Lemma calls_put p c w : calls (put_client p c w) = calls w.
Proof. unfold calls. by rewrite trace_put. Qed.

(** The result of [start_connection], on every branch. *)
Lemma start_connection_calls p w c :
  client_of p w = Some c ->
  let sock := os_socket (calls w) in
  let r := os_connect (S (calls w)) in
  start_connection p w =
    Ok (if (0 <=? sock) && (r =? 0) then STUPID_P2P_NO_ERROR else STUPID_P2P_ERROR_COMMOND,
        traced (SSocket sock :: if sock <? 0 then [] else SConnect sock r :: if r =? 0 then [] else [SClose sock])
          (put_client p (set_socket_fd sock c) w)).
Proof.
  intros Hc sock r. unfold start_connection. unfold wbind at 1, wget at 1. cbn [res_bind]. fold sock.
  unfold wbind at 1. rewrite emit_run. cbn [res_bind].
  unfold wbind at 1. rewrite (update_client_run p _ _ c) by (by rewrite client_of_traced). cbn [res_bind].
  rewrite put_client_traced. destruct (Z.ltb_spec sock 0) as [Hs|Hs].
  { rewrite (proj2 (Z.leb_gt _ _)) by lia. done. }
  rewrite (proj2 (Z.leb_le _ _)) by lia. unfold wbind at 1, wget. cbn [res_bind].
  rewrite calls_traced, calls_put, Nat.add_1_r. fold r. unfold wbind at 1. rewrite emit_run, traced_traced. cbn [res_bind].
  destruct (r =? 0); cbn [negb andb]; [done|].
  unfold wbind. rewrite emit_run, traced_traced. done.
Qed.

Lemma client_of_replaced p es c c' w : client_of p w = Some c -> client_of p (traced es (put_client p c' w)) = Some c'.
Proof. intros Hc. rewrite client_of_traced, (client_of_put _ _ _ _ c) by done. by rewrite decide_True. Qed.

(** The block of the restart, on every branch. *)
Lemma restart_part_run p w c :
  client_of p w = Some c -> need_to_restart_flag c <> 0 ->
  restart_part p c w = Ok (negb (connects w), restarted p c w).
Proof.
  intros Hc Hr. unfold restart_part. rewrite (proj2 (Z.eqb_neq _ _) Hr). cbn [negb].
  unfold wbind at 1. rewrite emit_run. cbn [res_bind]. unfold wbind at 1.
  rewrite (start_connection_calls p (traced _ w) c) by (by rewrite client_of_traced).
  rewrite calls_traced, Nat.add_1_r, put_client_traced, traced_traced. cbn [res_bind app].
  fold (new_socket w) (new_result w). fold (connects w). unfold restarted, restart_calls. cbn [app].
  set (es := SClose _ :: _). set (c1 := set_socket_fd _ c). set (c2 := set_restart 0 c1).
  destruct (connects w); cbn [Z.eqb negb STUPID_P2P_NO_ERROR STUPID_P2P_ERROR_COMMOND]; [|done].
  unfold wbind at 1. rewrite (update_client_run p _ _ c1 (client_of_replaced p es c c1 w Hc)). cbn [res_bind].
  rewrite put_client_traced, put_client_twice. fold c2.
  unfold wbind at 1. rewrite (update_client_run p _ _ c2 (client_of_replaced p es c c2 w Hc)). cbn [res_bind].
  by rewrite put_client_traced, put_client_twice.
Qed.

Lemma check_net_idle others p w c :
  client_of p w = Some c -> need_to_restart_flag c = 0 ->
  check_net_turn others p w =
    (let% ret := need_to_send others (fd c) HEART_BEAT None 0 in beat_done p ret)%world w.
Proof.
  intros Hc Hr. unfold check_net_turn, restart_part, wbind at 1. rewrite (the_client_run p w c Hc). cbn [res_bind].
  by rewrite Hr.
Qed.

Lemma restart_prefix others p w c :
  client_of p w = Some c -> need_to_restart_flag c <> 0 ->
  check_net_turn others p w =
    if connects w then check_net_turn others p (restarted p c w) else Ok (tt, restarted p c w).
Proof.
  intros Hc Hr. unfold check_net_turn at 1. unfold wbind at 1. rewrite (the_client_run p w c Hc). cbn [res_bind].
  unfold wbind at 1. rewrite (restart_part_run p w c Hc Hr). cbn [res_bind].
  destruct (connects w) eqn:Ec; cbn [negb]; [|done].
  assert (client_of p (restarted p c w) =
          Some (set_not_receive 0 (set_restart 0 (set_socket_fd (new_socket w) c)))) as H3.
  { unfold restarted. rewrite Ec. by apply (client_of_replaced p _ c). }
  by rewrite (check_net_idle others p _ _ H3).
Qed.

Lemma restarted_client p c w :
  client_of p w = Some c ->
  client_of p (restarted p c w) =
    Some (let c1 := set_socket_fd (new_socket w) c in
          if connects w then set_not_receive 0 (set_restart 0 c1) else c1).
Proof.
  intros Hc. unfold restarted. rewrite client_of_traced, (client_of_put _ _ _ _ c) by done. by rewrite decide_True.
Qed.

Lemma restarted_holds p c w its bs k cmds :
  client_of p w = Some c -> client_rep (c, w_heap w) its bs k cmds -> holds (restarted p c w) p its bs k cmds.
Proof.
  intros Hc H. eexists. split; [by apply restarted_client|]. unfold restarted, traced. simpl. rewrite heap_put.
  apply (client_rep_same c); [by destruct (connects w)..|done].
Qed.

Lemma restarted_flag p c w f : client_of p w = Some c -> flag_of (restarted p c w) p f = flag_of w p f.
Proof.
  intros Hc. unfold flag_of. rewrite (restarted_client p c w Hc), Hc. simpl.
  destruct (connects w); simpl; [|done]. by rewrite get_set_not_receive.
Qed.

(** ** Theorems *)

(** A turn that finds the restart flag set closes the socket and opens
    another one.  When the server accepts, the turn goes on as one of a client
    with the new socket, the flag cleared and no missed heart beat; when it does
    not, the turn ends with the flag still set.  Either way the data for the
    user, the commands that wait and the results of commands are kept. *)
Lemma restart_turn (others : nat -> world -> res world) (p : cref) (w : world) c its bs k cmds :
  client_of p w = Some c -> client_rep (c, w_heap w) its bs k cmds -> need_to_restart_flag c <> 0 ->
  exists w1 c1, check_net_turn others p w = (if connects w then check_net_turn others p w1 else Ok (tt, w1)) /\
    client_of p w1 = Some c1 /\ socket_fd c1 = new_socket w /\
    need_to_restart_flag c1 = (if connects w then 0 else need_to_restart_flag c) /\
    (connects w = true -> heart_beat_not_receive_num (command_status c1) = 0) /\
    w_trace w1 = w_trace w ++ restart_calls (socket_fd c) w /\
    holds w1 p its bs k cmds /\ (forall f, flag_of w1 p f = flag_of w p f) /\
    (forall q, q <> p -> client_of q w1 = client_of q w).
Proof.
  intros Hc Hrep Hr. exists (restarted p c w). eexists. split; [by apply restart_prefix|].
  split; [by apply restarted_client|]. split; [by destruct (connects w)|].
  split; [by destruct (connects w)|]. split; [intros ->; cbn; by destruct (command_status c)|].
  split; [by unfold restarted, traced; simpl; rewrite trace_put|]. split; [by apply restarted_holds|].
  split; [intros f; by apply restarted_flag|]. intros q Hq. unfold restarted.
  rewrite client_of_traced, (client_of_put _ _ _ _ c) by done. by rewrite decide_False.
Qed.

(** When connecting fails, the number of the closed socket stays in the
    client, and the next turn closes it again: after two failed attempts the same
    descriptor, which another thread may have got in between, is closed twice. *)
Lemma restart_closes_twice (others : nat -> world -> res world) (p : cref) (w : world) c :
  client_of p w = Some c -> need_to_restart_flag c <> 0 -> 0 <= new_socket w -> new_result w <> 0 ->
  exists w1 w2 es, check_net_turn others p w = Ok (tt, w1) /\
    (connects w1 = false -> check_net_turn others p w1 = Ok (tt, w2)) /\
    w_trace w2 = w_trace w ++ es /\ es !! 3%nat = Some (SClose (new_socket w)) /\
    es !! 4%nat = Some (SClose (new_socket w)).
Proof.
  intros Hc Hr Hs Hn.
  assert (connects w = false) as Hcon.
  { unfold connects. rewrite (proj2 (Z.eqb_neq _ _) Hn). apply andb_false_r. }
  pose proof (restart_prefix others p w c Hc Hr) as E1. rewrite Hcon in E1.
  pose proof (restarted_client p c w Hc) as Hc1. rewrite Hcon in Hc1. cbn zeta in Hc1.
  set (w1 := restarted p c w) in *. set (c1 := set_socket_fd _ c) in Hc1.
  exists w1, (restarted p c1 w1). eexists. split; [exact E1|]. split.
  { intros H. rewrite (restart_prefix others p w1 c1 Hc1) by exact Hr. by rewrite H. }
  unfold restarted at 1, traced at 1. cbn [w_trace]. rewrite trace_put. unfold w1 at 1, restarted at 1, traced at 1.
  cbn [w_trace]. rewrite trace_put, <- app_assoc. split; [reflexivity|].
  unfold restart_calls at 1 3. rewrite (proj2 (Z.ltb_ge _ _)) by done. rewrite (proj2 (Z.eqb_neq _ _) Hn).
  split; reflexivity.
Qed.

(** The bytes of a new connection are read as the rest of what the old one left. *)
Lemma restart_continues (p : cref) (w : world) c its bs k cmds r buf ms rest :
  client_of p w = Some c -> client_rep (c, w_heap w) its bs k cmds -> connects w = true ->
  rr_ret r = zlen (rr_bytes r) -> 0 < rr_ret r -> zlen bs + rr_ret r <= 8192 ->
  bs ++ rr_bytes r = concat (encode <$> ms) ++ rest -> Forall acceptable ms -> incomplete rest ->
  exists w' c' add, recv_turn p r buf (restarted p c w) = Ok (recv_into buf r, w') /\ client_of p w' = Some c' /\
    client_rep (c', w_heap w') (its ++ add) rest k cmds /\ added ms add /\
    command_status c' = status_after ms (set_not_receive_num 0 (command_status c)).
Proof.
  intros Hc Hrep Hcon H1 H2 H3 H4 H5 H6.
  pose proof (restarted_client p c w Hc) as Hc1. rewrite Hcon in Hc1. cbn zeta in Hc1.
  destruct (restarted_holds p c w its bs k cmds Hc Hrep) as (c2 & Hc2 & Hrep2).
  rewrite Hc1 in Hc2. injection Hc2 as <-.
  destruct (recv_turn_spec (restarted p c w) p its bs k cmds _ r buf ms rest Hc1 Hrep2 eq_refl H1 H2 H3 H4 H5 H6)
    as (w' & c' & add & E & Hc' & Hrep' & Hst & _ & Hadd & _). eauto 10.
Qed.

(** Bytes that are shorter than the frame that was cut off do not complete it. *)
Lemma cut_frame_incomplete (m bs tail new : list Z) :
  encode m = bs ++ tail -> bytes m -> zlen m <= 2048 -> 4 <= zlen bs -> zlen new < zlen tail -> bytes new ->
  incomplete (bs ++ new).
Proof.
  intros E Hm Hlen Hbs Hnew Hb. right. pose proof (zlen_nonneg m).
  assert (bytes (bs ++ tail)) as [Hb1 _]%Forall_app.
  { rewrite <- E. apply Forall_app. split; [apply be_bytes_bytes | done]. }
  assert (ztake 4 (bs ++ new) = be_bytes 4 (zlen m)) as Ht.
  { rewrite ztake_app_l by done. rewrite <- (ztake_app_l 4 bs tail) by done. rewrite <- E. apply ztake_app_eq.
    by rewrite zlen_be_bytes. }
  assert (header (bs ++ new) = zlen m) as Hh.
  { unfold header. rewrite Ht, (wraps_be_val_be_bytes 4) by lia. apply wraps_id; lia. }
  pose proof (f_equal zlen E) as Hz. unfold encode in Hz. rewrite !zlen_app, zlen_be_bytes in Hz.
  rewrite Hh, zlen_app. split_and!; [by apply Forall_app | lia | lia].
Qed.

(** The receive buffer is not emptied when the connection is restarted: after
    a frame was cut off, a reply on the new connection is taken as the rest of
    that frame.  The flag of its command stays as it is, nothing reaches the
    user, and the reply waits in the buffer behind the old bytes. *)
Lemma restart_swallows_reply (others : nat -> world -> res world) (p : cref) (w : world) c its k cmds
    (x bs tail : list Z) code result buf :
  client_of p w = Some c -> client_rep (c, w_heap w) its bs k cmds -> need_to_restart_flag c <> 0 ->
  connects w = true -> encode (SEND_DATA :: x) = bs ++ tail -> bytes x -> 4 <= zlen bs -> 6 < zlen tail ->
  zlen x < 2048 -> is_byte code -> is_byte result ->
  let r := mkRecv 6 (encode [code; result]) 0 in
  exists w1 w2, check_net_turn others p w = check_net_turn others p w1 /\
    recv_turn p r buf w1 = Ok (recv_into buf r, w2) /\
    holds w2 p its (bs ++ encode [code; result]) k cmds /\ (forall f, flag_of w2 p f = flag_of w p f).
Proof.
  intros Hc Hrep Hr Hcon Henc Hx Hbs Htail Hlen Hcode Hres r.
  assert (zlen (bs ++ encode [code; result]) = zlen bs + 6) as Hl.
  { unfold encode. by rewrite !zlen_app, zlen_be_bytes. }
  pose proof (f_equal zlen Henc) as Hle. unfold encode in Hle.
  rewrite !zlen_app, zlen_be_bytes, zlen_cons in Hle.
  assert (incomplete (bs ++ encode [code; result])) as Hinc.
  { apply (cut_frame_incomplete (SEND_DATA :: x) bs tail); rewrite ?zlen_cons; try done; try lia.
    - by constructor.
    - apply Forall_app. split; [apply be_bytes_bytes |]. constructor; [done|]. constructor; [done|]. constructor. }
  destruct (restart_continues p w c its bs k cmds r buf [] (bs ++ encode [code; result]))
    as (w2 & c2 & add & E & Hc2 & Hrep2 & [Hnil _] & Hst); try done; [cbn; lia|].
  exists (restarted p c w), w2. split_and!; [by rewrite (restart_prefix others p w c Hc Hr), Hcon | done | |].
  - exists c2. split; [done|]. apply sublist_nil_r, fmap_nil_inv in Hnil. subst add.
    by rewrite app_nil_r in Hrep2.
  - intros f. unfold flag_of. rewrite Hc2, Hc. simpl. rewrite Hst. simpl. by rewrite get_set_not_receive.
Qed.

End restart.

(** ** The theorems at concrete states *)

#[local] Existing Instance demo_alloc.
#[local] Existing Instance demo_os.

(** A server that refuses connections. *)
Definition refusing_os : OS := {|
  os_socket _ := 5; os_connect _ := -1; os_pthread_create _ := 0;
  os_send _ bs := zlen bs; os_inet_pton _ := Some 16777343
|}.

Lemma restart_turn_witness :
  exists w w1, check_net_turn idle_others (CNode 0) w = check_net_turn idle_others (CNode 0) w1 /\
    w_trace w1 = [SClose 0; SSocket 5; SConnect 5 0] /\ holds w1 (CNode 0) [] [0; 0] 0 [].
Proof.
  destruct (demo_client [0; 0]) as (c & H & _ & Hr); [apply (bool_decide_unpack _); vm_compute; exact I | vm_compute; discriminate |].
  set (c1 := set_socket_fd 0 (set_restart 1 c)). exists (demo_world c1 heap0).
  destruct (restart_turn idle_others (CNode 0) (demo_world c1 heap0) (set_p2p_next None (set_fd 1 c1)) [] [0; 0] 0 [])
    as (w1 & c2 & E & _ & _ & _ & _ & Ht & Hh & _).
  - apply lookup_singleton_eq.
  - by apply (client_rep_same c).
  - done.
  - exists w1. split; [exact E|]. split; [exact Ht | exact Hh].
Defined.

Lemma restart_closes_twice_witness :
  exists w w1 w2 es, @check_net_turn _ refusing_os idle_others (CNode 0) w = Ok (tt, w1) /\
    @check_net_turn _ refusing_os idle_others (CNode 0) w1 = Ok (tt, w2) /\
    w_trace w2 = es /\ es !! 3%nat = Some (SClose 5) /\ es !! 4%nat = Some (SClose 5).
Proof.
  exists (demo_world (set_restart 1 p2p_zero) heap0).
  destruct (@restart_closes_twice _ refusing_os idle_others (CNode 0) (demo_world (set_restart 1 p2p_zero) heap0)
    (set_p2p_next None (set_fd 1 (set_restart 1 p2p_zero)))) as (w1 & w2 & es & E1 & E2 & Ht & H3 & H4).
  - apply lookup_singleton_eq.
  - done.
  - vm_compute. discriminate.
  - vm_compute. discriminate.
  - exists w1, w2, es. split; [exact E1|]. split; [apply E2; apply andb_false_r |].
    split; [exact Ht|]. split; [exact H3 | exact H4].
Defined.

Lemma restart_swallows_reply_witness :
  exists w w1 w2, check_net_turn idle_others (CNode 0) w = check_net_turn idle_others (CNode 0) w1 /\
    recv_turn (CNode 0) (mkRecv 6 [0; 0; 0; 2; 135; 1] 0) [] w1 = Ok ([0; 0; 0; 2; 135; 1], w2) /\
    flag_of w2 (CNode 0) FHeartBeat = flag_of w (CNode 0) FHeartBeat.
Proof.
  destruct (demo_client [0; 0; 0; 8; 3]) as (c & H & _ & Hr); [apply (bool_decide_unpack _); vm_compute; exact I | vm_compute; discriminate |].
  set (c1 := set_restart 1 c). exists (demo_world c1 heap0).
  destruct (restart_swallows_reply idle_others (CNode 0) (demo_world c1 heap0) (set_p2p_next None (set_fd 1 c1)) [] 0 []
    [97; 98; 99; 100; 101; 102; 103] [0; 0; 0; 8; 3] [97; 98; 99; 100; 101; 102; 103] 135 1 [])
    as (w1 & w2 & E1 & E2 & _ & Hf).
  - apply lookup_singleton_eq.
  - by apply (client_rep_same c).
  - done.
  - reflexivity.
  - reflexivity.
  - apply (bool_decide_unpack _). vm_compute. exact I.
  - vm_compute. discriminate.
  - vm_compute. reflexivity.
  - vm_compute. reflexivity.
  - vm_compute. split; [discriminate | reflexivity].
  - vm_compute. split; [discriminate | reflexivity].
  - exists w1, w2. split; [exact E1|]. split; [exact E2 | apply Hf].
Defined.
