(* ===== verification/Threads.v ===== *)
(** * The three threads of a client as a whole (API/C/stupidP2P.c)

    [_stupid_p2p_recv_func], [_stupid_p2p_send_func] and
    [_stupid_p2p_check_net_func]: each detaches itself, gives itself a name with the
    number of the client, and then repeats the turn that is modelled in Api.v.  The
    loops do not end; a run of a thread is as many turns as its argument says, with
    what [recv] returns in each of them.

    [recv_func_delivers] is the promise of the receiving thread from its start on;
    [silence_noticed] that the checking thread notices a server that is silent. *)

From S2P Require Import Prelude Endian StringPiece Buffer Codec Ring RecvFifo Heap RecvList SendFifo Client Wire Api ClientList ApiSpec ApiProps Restart.

(** ** The start of a thread *)

(** [%d]: at most ten digits and a sign. *)
Fixpoint decimal_digits (fuel : nat) (n : Z) : list Z :=
  match fuel with
  | O => []
  | S fuel => (if n <? 10 then [] else decimal_digits fuel (n / 10)) ++ [48 + n mod 10]
  end.
Definition decimal (d : Z) : list Z :=
  if d <? 0 then 45 :: decimal_digits 10 (- d) else decimal_digits 10 d.

Definition thread_suffix (t : thread) : list Z :=
  match t with
  | TRecv => chars ":recv thread"
  | TSend => chars ":send thread"
  | TCheckNet => chars ":check net thread"
  end.
Definition thread_title (d : Z) (t : thread) : list Z := chars "fd:" ++ decimal d ++ thread_suffix t.

(** [snprintf] into an array of 64 bytes that was zero. *)
Definition snprintf64 (s : list Z) : list Z :=
  let s := ztake 63 s in s ++ replicate (Z.to_nat (64 - zlen s)) 0.

#[local] Open Scope world_scope.

Definition thread_start (p : cref) (t : thread) : W unit :=
  let% _ := emit (SDetach p t) in
  let% c := the_client p in
  emit (SName (snprintf64 (thread_title (fd c) t))).

Section threads.
Context {al : Alloc} {os : OS}.

(** ** The loops *)

Fixpoint recv_turns (p : cref) (rs : list recv_result) (buf : list Z) : W (list Z) :=
  match rs with
  | [] => wret buf
  | r :: rs => let% buf := recv_turn p r buf in recv_turns p rs buf
  end.

Definition recv_func (p : cref) (rs : list recv_result) : W (list Z) :=
  let% _ := thread_start p TRecv in
  recv_turns p rs (replicate (Z.to_nat 4096) 0).

Fixpoint send_turns (p : cref) (n : nat) (buf : list Z) : W (list Z) :=
  match n with
  | O => wret buf
  | S n => let% buf := send_turn p buf in send_turns p n buf
  end.

Definition send_func (p : cref) (n : nat) : W (list Z) :=
  let% _ := thread_start p TSend in
  send_turns p n (replicate (Z.to_nat 2048) 0).

Fixpoint check_net_turns (others : nat -> world -> res world) (p : cref) (n : nat) : W unit :=
  match n with
  | O => wret tt
  | S n => let% _ := check_net_turn others p in check_net_turns others p n
  end.

Definition check_net_func (others : nat -> world -> res world) (p : cref) (n : nat) : W unit :=
  let% _ := thread_start p TCheckNet in
  check_net_turns others p n.

End threads.

(** ** Lemmas: names *)

(** Reading the digits back. *)
Fixpoint of_digits (l : list Z) (n : Z) : Z :=
  match l with [] => n | c :: l => of_digits l (n * 10 + (c - 48)) end.

Lemma of_digits_app l l' : forall n, of_digits (l ++ l') n = of_digits l' (of_digits l n).
Proof. induction l as [|c l IH]; intros n; [done|]. cbn [app of_digits]. apply IH. Qed.

Lemma decimal_digits_spec fuel : forall n, 0 <= n < 10 ^ Z.of_nat fuel ->
  of_digits (decimal_digits fuel n) 0 = n /\ zlen (decimal_digits fuel n) <= Z.of_nat fuel.
Proof.
  induction fuel as [|fuel IH]; intros n Hn; [change (10 ^ Z.of_nat 0) with 1 in Hn; simpl; split; [lia | zlia]|].
  cbn [decimal_digits]. rewrite of_digits_app, zlen_app. change (zlen [48 + n mod 10]) with 1. cbn [of_digits].
  pose proof (Z.div_mod n 10 ltac:(lia)) as Hdm. destruct (Z.ltb_spec n 10) as [H|H].
  - rewrite (Z.mod_small n 10) by lia. cbn [of_digits]. change (zlen (@nil Z)) with 0. lia.
  - rewrite Nat2Z.inj_succ, Z.pow_succ_r in Hn by lia.
    destruct (IH (n / 10)) as [E Hl]; [split; [apply Z.div_pos; lia | apply Z.div_lt_upper_bound; lia]|].
    rewrite E. lia.
Qed.

(** The array is large enough: the name of a thread is never cut. *)
Lemma thread_title_fits (d : Z) (t : thread) :
  - 2 ^ 31 <= d < 2 ^ 31 -> zlen (thread_title d t) < 64 /\
  snprintf64 (thread_title d t) = thread_title d t ++ replicate (Z.to_nat (64 - zlen (thread_title d t))) 0.
Proof.
  intros Hd. assert (zlen (decimal d) <= 11) as Hl.
  { unfold decimal. destruct (Z.ltb_spec d 0).
    - rewrite zlen_cons. pose proof (proj2 (decimal_digits_spec 10 (- d) ltac:(lia))). lia.
    - pose proof (proj2 (decimal_digits_spec 10 d ltac:(lia))). lia. }
  assert (zlen (thread_title d t) <= 32) as Ht.
  { unfold thread_title. rewrite !zlen_app. change (zlen (chars "fd:")) with 3.
    assert (zlen (thread_suffix t) <= 17) by (by destruct t). lia. }
  split; [lia|]. unfold snprintf64. by rewrite (ztake_all 63) by lia.
Qed.

Lemma thread_start_run p t w c :
  client_of p w = Some c ->
  thread_start p t w = Ok (tt, traced [SDetach p t; SName (snprintf64 (thread_title (fd c) t))] w).
Proof.
  intros Hc. unfold thread_start, wbind, emit at 1. cbn [res_bind].
  rewrite (the_client_run p _ c) by (by destruct p). cbn [res_bind]. unfold emit, traced. simpl. by rewrite <- app_assoc.
Qed.

(** ** Theorems *)

Section theorems.
Context {al : Alloc} {os : OS}.

Lemma recv_turns_spec pieces : forall w p c its u k cmds buf ms,
  client_of p w = Some c -> client_rep (c, w_heap w) its u k cmds -> need_to_restart_flag c = 0 ->
  incomplete u -> Forall (fun bs => 0 < zlen bs <= 4096) pieces ->
  u ++ concat pieces = concat (encode <$> ms) -> Forall acceptable ms ->
  exists w' c' add buf', recv_turns p (chunk <$> pieces) buf w = Ok (buf', w') /\ client_of p w' = Some c' /\
    client_rep (c', w_heap w') (its ++ add) [] k cmds /\ added ms add /\
    command_status c' = status_after ms (command_status c) /\ need_to_restart_flag c' = 0.
Proof.
  induction pieces as [|bs pieces IH]; intros w p c its u k cmds buf ms Hc Hrep Hrs Hu Hps E Hacc.
  - simpl in E. rewrite app_nil_r in E. subst u.
    assert (ms = []) as -> by (apply (frames_all_read ms [] (all_framable _ Hacc)); by rewrite app_nil_r).
    exists w, c, [], buf. rewrite app_nil_r. by split_and!.
  - apply Forall_cons in Hps as [Hbs Hps]. cbn [concat] in E.
    destruct (stream_piece u bs (concat pieces) ms [] (all_framable _ Hacc)) as (ms1 & ms2 & r & -> & E1 & Hr & E2);
      [by left | by rewrite app_nil_r |]. rewrite app_nil_r in E2.
    assert (zlen u < 4 + 2048) as Hul by (by apply (unparsed_small u (bs ++ concat pieces) (ms1 ++ ms2))).
    apply Forall_app in Hacc as [Hacc1 Hacc2]. cbn [fmap list_fmap recv_turns]. unfold wbind.
    destruct (recv_turn_spec w p its u k cmds c (chunk bs) buf ms1 r)
      as (w1 & c1 & add1 & -> & Hc1 & Hrep1 & Hst1 & Hrs1 & Hadd1 & _); try done; simpl; try lia.
    cbn [res_bind]. destruct (IH w1 p c1 (its ++ add1) r k cmds (recv_into buf (chunk bs)) ms2)
      as (w' & c' & add2 & buf' & -> & Hc' & Hrep' & Hadd2 & Hst' & Hrs'); try done; [congruence|].
    exists w', c', (add1 ++ add2), buf'. rewrite app_assoc. split_and!; try done; [by apply added_app|].
    rewrite Hst', Hst1. unfold status_after. by rewrite foldl_app.
Qed.

(** C22: the receiving thread, from its start on, for messages that are not empty
    and have at most 2048 bytes, and a result if they are replies (a longer one
    overruns the array of the parser or stays in the buffer, [Client.parse_overflow],
    [Client.parse_stalls]), and a client with nothing left to parse whose connection
    does not break, with memory there.  However the network cuts these messages
    into pieces of at most 4096 bytes, when the thread has read them all it has
    handed over the data of all of them, oldest first, and set the flags of all
    replies; no byte is left over or lost. *)
Theorem recv_func_delivers (w : world) (p : cref) c its k cmds (pieces ms : list (list Z)) :
  client_of p w = Some c -> client_rep (c, w_heap w) its [] k cmds -> need_to_restart_flag c = 0 ->
  Forall (fun bs => 0 < zlen bs <= 4096) pieces -> concat pieces = concat (encode <$> ms) ->
  Forall acceptable ms -> plenty ->
  exists w' its' buf, recv_func p (chunk <$> pieces) w = Ok (buf, w') /\ holds w' p its' [] k cmds /\
    it_payload <$> its' = (it_payload <$> its) ++ received ms /\
    (forall f, flag_of w' p f = Some (get_flag f (status_after ms (command_status c)))).
Proof.
  intros Hc Hrep Hrs Hps E Hacc Hpl. unfold recv_func, wbind. rewrite (thread_start_run p TRecv w c Hc). cbn [res_bind].
  destruct (recv_turns_spec pieces (traced [SDetach p TRecv; SName (snprintf64 (thread_title (fd c) TRecv))] w)
    p c its [] k cmds (replicate (Z.to_nat 4096) 0) ms) as (w' & c' & add & buf & -> & Hc' & Hrep' & [_ Hadd] & Hst & _);
    try done; [by left|].
  exists w', (its ++ add), buf. split_and!; [done | by exists c' | by rewrite fmap_app, Hadd |].
  intros f. unfold flag_of. rewrite Hc'. simpl. by rewrite Hst.
Qed.

(** The sending thread, from its start on: the first turn sends all commands, as
    one frame each and in their order, and the others find nothing to do. *)
Lemma send_turns_idle n : forall w p c its bs k buf,
  client_of p w = Some c -> client_rep (c, w_heap w) its bs k [] -> send_turns p n buf w = Ok (buf, w).
Proof.
  induction n as [|n IH]; intros w p c its bs k buf Hc Hrep; [done|]. cbn [send_turns]. unfold wbind.
  pose proof (sr_num _ _ _ _ (cr_send _ _ _ _ _ Hrep)) as Hn. simpl in Hn.
  rewrite (send_turn_run _ _ _ _ _ _ _ _ Hc Hrep). cbn [length send_loop]. unfold wbind at 1.
  rewrite (the_client_run p w c Hc). cbn [res_bind]. unfold send_command_fifo_empty. rewrite Hn. cbn.
  by apply (IH w p c its bs k buf).
Qed.

Lemma send_func_sends (w : world) (p : cref) c its bs k cmds n :
  client_of p w = Some c -> client_rep (c, w_heap w) its bs k cmds -> need_to_restart_flag c = 0 ->
  Forall (fun x => zlen x.2 <= 2044) cmds ->
  exists w' buf es, send_func p (S n) w = Ok (buf, w') /\ sends (socket_fd c) cmds es /\
    w_trace w' = w_trace w ++ [SDetach p TSend; SName (snprintf64 (thread_title (fd c) TSend))] ++ es /\
    holds w' p its bs k [].
Proof.
  intros Hc Hrep Hrs Hsz. unfold send_func, wbind. rewrite (thread_start_run p TSend w c Hc). cbn [res_bind send_turns].
  set (w1 := traced _ w). assert (client_of p w1 = Some c) as Hc1 by (by destruct p).
  destruct (send_loop_spec w1 p its bs k cmds c (replicate (Z.to_nat 2048) 0)) as
    (w' & buf & es & c' & E & Ht & Hes & Hc' & _ & Hrep' & _); try done.
  unfold wbind. rewrite (send_turn_run w1 p its bs k cmds c) by done. rewrite E. cbn [res_bind].
  exists w', buf, es. rewrite (send_turns_idle n w' p c' its bs k buf) by done. split_and!; try done; [|by exists c'].
  rewrite Ht. unfold w1, traced. simpl. by rewrite <- app_assoc.
Qed.

(** [stupid_p2p_init] starts the checking thread before the client has its number:
    a turn in between calls its thread after the number 0, and its heart beat, with
    this number, is refused at once and counts as a missed one. *)
Lemma early_beat others (w : world) (p : cref) (c : stupid_p2p_t) :
  client_of p w = Some c -> need_to_restart_flag c = 0 -> fd c = 0 ->
  heart_beat_not_receive_num (command_status c) = 0 ->
  exists c', check_net_func others p 1 w =
    Ok (tt, put_client p c' (traced [SDetach p TCheckNet; SName (snprintf64 (chars "fd:0:check net thread"))] w)) /\
    heart_beat_not_receive_num (command_status c') = 1.
Proof.
  intros Hc Hrs Hfd Hn. unfold check_net_func, wbind. rewrite (thread_start_run p TCheckNet w c Hc), Hfd. cbn [res_bind].
  set (w1 := traced _ w). assert (client_of p w1 = Some c) as Hc1 by (by destruct p).
  cbn [check_net_turns]. unfold wbind. rewrite (check_net_idle others p w1 c Hc1 Hrs), Hfd. unfold wbind. cbn.
  rewrite (beat_done_run _ _ w1 c Hc1). cbn [res_bind]. eexists. split; [reflexivity|].
  unfold beaten, misses_after. rewrite Hn. simpl. by destruct (command_status c).
Qed.

(** A thread detaches itself before it does anything else; [stupid_p2p_deinit] joins it. *)
Lemma deinit_joins_detached (p : cref) (t : thread) (w w1 w2 : world) (c : stupid_p2p_t) (es : list sysevent) :
  client_of p w = Some c -> thread_start p t w = Ok (tt, w1) -> w_trace w2 = w_trace w1 ++ es -> SJoin p t ∈ es ->
  exists before between after, w_trace w2 = before ++ SDetach p t :: between ++ SJoin p t :: after.
Proof.
  intros Hc E Ht Hin. rewrite (thread_start_run p t w c Hc) in E. injection E as <-.
  apply list_elem_of_split in Hin as (l1 & l2 & ->). rewrite Ht. unfold traced. simpl.
  eexists (w_trace w), (_ :: l1), l2. by rewrite <- app_assoc.
Qed.

End theorems.

(** ** A silent server *)

(** What the walks over the list of clients depend on. *)
Definition links (w : world) (q : cref) : option (ptr * Z) := (fun c => (p2p_next c, fd c)) <$> client_of q w.

Lemma clients_links w w' ls :
  clients w ls -> (forall q, links w' q = links w q) ->
  clients w' ls /\ forall d, find_in w' d ls = find_in w d ls.
Proof.
  intros [P N F] Hl. pose proof (Hl CHead) as Hh. unfold links in Hh. simpl in Hh. injection Hh as Hn Hf.
  assert (forall x, (fun c => (p2p_next c, fd c)) <$> w_clients w' !! x = (fun c => (p2p_next c, fd c)) <$> w_clients w !! x) as Hx.
  { intros x. apply (Hl (CNode x)). }
  split; [split; [|done|congruence]|].
  - rewrite Hn. clear N Hn Hf. revert P. generalize (p2p_next (stupid_p2p_head w)).
    induction ls as [|x ls IH]; intros p; [done|]. intros (-> & c & Hc & Hp). split; [done|].
    specialize (Hx x). rewrite Hc in Hx. simpl in Hx. apply fmap_Some in Hx as (c' & Hc' & [= E1 E2]).
    exists c'. split; [done|]. rewrite <- E1. by apply IH.
  - intros d. clear P N. induction ls as [|x ls IH]; [done|]. simpl. rewrite IH.
    assert (fd_of w' x = fd_of w x) as ->; [|done]. unfold fd_of. specialize (Hx x).
    destruct (w_clients w' !! x), (w_clients w !! x); simpl in *; congruence.
Qed.

Section silence.
Context {al : Alloc} {os : OS} (others : nat -> world -> res world) (ls : list loc) (l : loc) (d : Z).

(** The client [d] is connected, has missed [n] heart beats, and its queue is good
    for [b] more commands. *)
Record alive (w : world) (n b : Z) : Prop := {
  a_clients : clients w ls;
  a_find : find_in w d ls = Some l;
  a_state : exists c its bs k cmds, client_of (CNode l) w = Some c /\ client_rep (c, w_heap w) its bs k cmds /\
    need_to_restart_flag c = 0 /\ heart_beat_not_receive_num (command_status c) = n /\ k + b <= 8192
}.

(** The other threads go on, and queue at most [q] commands while this one sleeps
    once, but no answer to a heart beat arrives. *)
Definition mute (q : Z) : Prop := forall i w n b,
  alive w n b -> q <= b -> flag_of w (CNode l) FHeartBeat = Some CALL_BACK_NOT_RECEIVE ->
  exists w', others i w = Ok w' /\ alive w' n (b - q) /\ flag_of w' (CNode l) FHeartBeat = Some CALL_BACK_NOT_RECEIVE.

(** A command in the queue, and the count of heart beats after one. *)
Lemma alive_queued w w1 n b c f its bs k cmds m :
  alive w n b -> client_of (CNode l) w = Some c -> need_to_restart_flag c = 0 ->
  heart_beat_not_receive_num (command_status c) = n -> k + b <= 8192 ->
  queued w w1 (CNode l) f m its bs k cmds -> alive w1 n (b - 1).
Proof.
  intros [Hcl Hfind _] Hc Hrs Hn Hk Hq. destruct (q_self _ _ _ _ _ _ _ _ _ Hq c Hc) as [sf Hc1].
  destruct (clients_links w w1 ls Hcl) as [Hcl1 Hf1].
  - intros q. unfold links. destruct (decide (q = CNode l)) as [->|Hne]; [by rewrite Hc1, Hc|].
    by rewrite (q_clients _ _ _ _ _ _ _ _ _ Hq q Hne).
  - destruct (q_holds _ _ _ _ _ _ _ _ _ Hq) as (x & c2 & Hc2 & Hrep2). rewrite Hc1 in Hc2. injection Hc2 as <-.
    split; [done | by rewrite Hf1 |]. eexists _, its, bs, (k + 1), _. split; [exact Hc1|]. split; [exact Hrep2|].
    split; [done|]. split; [|lia]. simpl. rewrite <- Hn. by destruct (command_status c), f.
Qed.

Lemma alive_counted w n b c :
  alive w n b -> client_of (CNode l) w = Some c ->
  alive (put_client (CNode l) (set_not_receive (n + 1) c) w) (n + 1) b.
Proof.
  intros [Hcl Hfind (c0 & its & bs & k & cmds & Hc0 & Hrep & Hrs & _ & Hk)] Hc.
  rewrite Hc in Hc0. injection Hc0 as <-. set (c4 := set_not_receive (n + 1) c).
  destruct (clients_links w (put_client (CNode l) c4 w) ls Hcl) as [Hcl3 Hf3].
  { intros q. unfold links. rewrite (client_of_put _ _ _ _ c) by done. case_decide as Hq; [by rewrite Hq, Hc | done]. }
  split; [done | by rewrite Hf3 |]. exists c4, its, bs, k, cmds. split.
  { rewrite (client_of_put _ _ _ _ c) by done. by rewrite decide_True. }
  rewrite heap_put. split; [by apply (client_rep_same c)|]. split; [done|]. split; [|done].
  unfold c4. simpl. by destruct (command_status c).
Qed.

Context (q : Z) (q_pos : 0 <= q) (others_mute : mute q).

Lemma mute_wait m : forall w n b,
  alive w n b -> Z.of_nat m * q <= b -> flag_of w (CNode l) FHeartBeat = Some CALL_BACK_NOT_RECEIVE ->
  exists w', wait_loop others m (CNode l) FHeartBeat w = Ok (tt, w') /\ alive w' n (b - Z.of_nat m * q) /\
    flag_of w' (CNode l) FHeartBeat = Some CALL_BACK_NOT_RECEIVE.
Proof.
  induction m as [|m IH]; intros w n b Ha Hb Hf; destruct (id Ha) as [_ _ (c & its & bs & k & cmds & Hc & _)];
    cbn [wait_loop]; unfold wbind at 1; rewrite (read_flag_run _ FHeartBeat w c Hc); cbn [res_bind];
    [exists w; by rewrite Z.mul_0_l, Z.sub_0_r|].
  rewrite Nat2Z.inj_succ, Z.mul_succ_l in *. assert (0 <= Z.of_nat m * q) by (apply Z.mul_nonneg_nonneg; lia).
  unfold flag_of in Hf. rewrite Hc in Hf. simpl in Hf. injection Hf as Hf. simpl (get_flag _ _). rewrite Hf, Z.eqb_refl.
  destruct (others_mute (waiting_3s - S m)%nat w n b Ha) as (w1 & E & Ha1 & Hf1);
    [lia | unfold flag_of; rewrite Hc; simpl; by rewrite Hf|].
  unfold wbind. rewrite E. cbn [res_bind].
  destruct (IH w1 n (b - q) Ha1 ltac:(lia) Hf1) as (w' & Ew & Ha' & Hf'). exists w'. split_and!; [done | | done].
  by replace (b - (Z.of_nat m * q + q)) with (b - q - Z.of_nat m * q) by lia.
Qed.

(** The commands that may be queued in a turn: the heart beat, and those of the others. *)
Definition beat_cost : Z := 1 + Z.of_nat waiting_3s * q.

(** One heart beat without an answer. *)
Lemma mute_turn w n b :
  plenty -> 0 < d -> alive w n b -> beat_cost <= b -> 0 <= n < 3 ->
  exists w' c', check_net_turn others (CNode l) w = Ok (tt, w') /\ client_of (CNode l) w' = Some c' /\
    need_to_restart_flag c' = (if n =? 2 then 1 else 0) /\ (n < 2 -> alive w' (n + 1) (b - beat_cost)).
Proof.
  intros Hpl Hd [Hcl Hfind (c & its & bs & k & cmds & Hc & Hrep & Hrs & Hn & Hk)] Hb Hlt.
  unfold beat_cost in *. set (W := Z.of_nat waiting_3s * q) in *.
  assert (0 <= W) by (apply Z.mul_nonneg_nonneg; lia).
  assert (fd c = d) as Hfd.
  { destruct (find_in_Some _ _ _ _ Hfind) as [_ Hfd]. unfold fd_of in Hfd. simpl in Hc. rewrite Hc in Hfd. by injection Hfd. }
  rewrite (check_net_idle others _ w c Hc Hrs), Hfd. unfold wbind.
  destruct (need_to_send_queues others w ls d l HEART_BEAT None 0 [] FHeartBeat its bs k cmds)
    as (w1 & -> & Hq); try done; [by exists c | simpl in Hc; rewrite Hc; simpl; rewrite Hrs; discriminate | lia | by apply Hpl |].
  assert (alive w1 n (b - 1)) as Ha1 by (apply (alive_queued w w1 n b c FHeartBeat its bs k cmds [HEART_BEAT]); by try done; split; eauto 10).
  destruct (mute_wait waiting_3s w1 n (b - 1) Ha1 ltac:(fold W; lia) (q_flag _ _ _ _ _ _ _ _ _ Hq)) as (w2 & E & Ha2 & Hf2).
  destruct (id Ha2) as [Hcl2 Hfind2 (c2 & its2 & bs2 & k2 & cmds2 & Hc2 & Hrep2 & Hrs2 & Hn2 & Hk2)].
  unfold waitting_flag_and_return, wbind. rewrite E. cbn [res_bind]. rewrite (read_flag_run _ FHeartBeat w2 c2 Hc2). cbn [res_bind].
  unfold flag_of in Hf2. rewrite Hc2 in Hf2. simpl in Hf2. injection Hf2 as Hf2. simpl (get_flag _ _). rewrite Hf2.
  change (CALL_BACK_NOT_RECEIVE =? CALL_BACK_SUCCESS) with false. rewrite Z.eqb_refl. cbn [wret res_bind].
  rewrite (beat_done_run _ _ w2 c2 Hc2). set (c3 := beaten _ c2).
  assert (client_of (CNode l) (put_client (CNode l) c3 w2) = Some c3) as Hc3.
  { rewrite (client_of_put _ _ _ _ c2) by done. by rewrite decide_True. }
  assert (misses_after STUPID_P2P_NET_ERROR c2 = n + 1) as Hmiss.
  { unfold misses_after. cbn [Z.eqb STUPID_P2P_NET_ERROR STUPID_P2P_NO_ERROR]. rewrite Hn2. apply wrapu_id; lia. }
  exists (put_client (CNode l) c3 w2), c3. split; [done|]. split; [done|]. unfold c3, beaten. rewrite Hmiss. split.
  - destruct (Z.eqb_spec n 2) as [->|Hn2']; [done|]. rewrite (proj2 (Z.leb_gt _ _)) by lia. done.
  - intros Hn2'. rewrite (proj2 (Z.leb_gt _ _)) by lia. fold W in Ha2.
    replace (b - (1 + W)) with (b - 1 - W) by lia. by apply (alive_counted w2 n).
Qed.

Lemma alive_traced es w n b : alive w n b -> alive (traced es w) n b.
Proof.
  intros [H1 H2 H3]. destruct (clients_links w (traced es w) ls H1) as [H1' H2']; [by intros []|].
  split; [done | by rewrite H2' | exact H3].
Qed.

(** C23: a server that no longer answers is noticed.  While no answer to a heart
    beat arrives and the connection does not break, the other threads may do
    anything, queue commands, send them and receive, as long as the list of clients
    stays and the queue does not get more than the 8192 commands of its life
    (at most [q] while the thread sleeps once): then three turns of the checking
    thread from its start on ask for a restart of the connection, and two do not. *)
Theorem silence_noticed (w : world) :
  plenty -> 0 < d -> alive w 0 (3 * (1 + Z.of_nat waiting_3s * q)) ->
  (exists w2 c2, check_net_func others (CNode l) 2 w = Ok (tt, w2) /\ client_of (CNode l) w2 = Some c2 /\
     need_to_restart_flag c2 = 0) /\
  (exists w3 c3, check_net_func others (CNode l) 3 w = Ok (tt, w3) /\ client_of (CNode l) w3 = Some c3 /\
     need_to_restart_flag c3 = 1).
Proof.
  intros Hpl Hd Ha. fold beat_cost in Ha. destruct (a_state _ _ _ Ha) as (c & _ & _ & _ & _ & Hc & _).
  assert (0 <= beat_cost) by (unfold beat_cost; pose proof (Z.mul_nonneg_nonneg (Z.of_nat waiting_3s) q); lia).
  unfold check_net_func, wbind. rewrite (thread_start_run _ TCheckNet w c Hc). cbn [res_bind].
  apply (alive_traced [SDetach (CNode l) TCheckNet; SName (snprintf64 (thread_title (fd c) TCheckNet))]) in Ha.
  destruct (mute_turn _ 0 _ Hpl Hd Ha) as (w1 & c1 & E1 & Hc1 & _ & Ha1); [lia..|]. specialize (Ha1 ltac:(lia)).
  destruct (mute_turn w1 1 _ Hpl Hd Ha1) as (w2 & c2 & E2 & Hc2 & Hf2 & Ha2); [lia..|]. specialize (Ha2 ltac:(lia)).
  destruct (mute_turn w2 2 _ Hpl Hd Ha2) as (w3 & c3 & E3 & Hc3 & Hf3 & _); [lia..|].
  cbn [check_net_turns]. unfold wbind. rewrite E1. cbn [res_bind]. rewrite E2. cbn [res_bind]. rewrite E3. cbn [res_bind].
  split; [by exists w2, c2 | by exists w3, c3].
Qed.

End silence.

(** ** The theorems at concrete states *)

#[local] Existing Instance demo_alloc.
#[local] Existing Instance demo_os.

Lemma demo_acceptable_replies : Forall acceptable [[3; 104; 105]; [130; 1]].
Proof. repeat constructor; try (vm_compute; discriminate); vm_compute; intros; congruence. Qed.

Lemma recv_func_delivers_witness :
  exists w w' its' buf, recv_func (CNode 0) (chunk <$> [[0; 0]; [0; 3; 3; 104; 105; 0; 0; 0; 2]; [130; 1]]) w = Ok (buf, w') /\
    holds w' (CNode 0) its' [] 0 [] /\ it_payload <$> its' = [[104; 105]] /\ flag_of w' (CNode 0) FSubscribe = Some 1.
Proof.
  destruct (demo_client []) as (c & H & Hs & Hr); [apply (bool_decide_unpack _); vm_compute; exact I | vm_compute; discriminate |].
  exists (demo_world c heap0).
  destruct (recv_func_delivers (demo_world c heap0) (CNode 0) (set_p2p_next None (set_fd 1 c)) [] 0 []
    [[0; 0]; [0; 3; 3; 104; 105; 0; 0; 0; 2]; [130; 1]] [[3; 104; 105]; [130; 1]]) as (w' & its' & buf & E & Hh & Hp & Hf).
  - apply lookup_singleton_eq.
  - by apply (client_rep_same c).
  - exact Hr.
  - repeat constructor; vm_compute; (reflexivity || discriminate).
  - reflexivity.
  - exact demo_acceptable_replies.
  - exact demo_plenty.
  - exists w', its', buf. split; [exact E|]. split; [exact Hh|]. split; [exact Hp|]. rewrite (Hf FSubscribe). simpl. by rewrite Hs.
Defined.

(** A user who queues data all the time. *)
Definition busy_others (_ : nat) (w : world) : res world :=
  res_map snd (issue (CNode 0) SEND_DATA FSendData (Some (mkPtr [104; 105] 0)) 2 w).

Lemma busy_mute : mute busy_others [0%nat] 0 1 1.
Proof.
  intros i w n b Ha Hb Hf. destruct (id Ha) as [_ _ (c & its & bs & k & cmds & Hc & Hrep & Hrs & Hn & Hk)].
  destruct (issue_queues w (CNode 0) SEND_DATA (Some (mkPtr [104; 105] 0)) 2 [104; 105] FSendData its bs k cmds)
    as (w' & x & E & Hq & _); try done; [by exists c | lia |].
  exists w'. unfold busy_others. rewrite E. split_and!; [done | |].
  - by apply (alive_queued [0%nat] 0 1 w w' n b c FSendData its bs k cmds (SEND_DATA :: [104; 105])).
  - by rewrite (q_other _ _ _ _ _ _ _ _ _ Hq).
Qed.

Lemma silence_noticed_witness :
  exists w w3 c3, check_net_func busy_others (CNode 0) 3 w = Ok (tt, w3) /\ client_of (CNode 0) w3 = Some c3 /\
    need_to_restart_flag c3 = 1.
Proof.
  destruct (demo_client []) as (c & H & Hs & Hr); [apply (bool_decide_unpack _); vm_compute; exact I | vm_compute; discriminate |].
  exists (demo_world c heap0).
  destruct (silence_noticed busy_others [0%nat] 0 1 1) with (w := demo_world c heap0) as [_ (w3 & c3 & E & Hc & Hf)].
  - lia.
  - exact busy_mute.
  - exact demo_plenty.
  - reflexivity.
  - split; [apply demo_world_clients | reflexivity |].
    exists (set_p2p_next None (set_fd 1 c)), [], [], 0, []. split; [apply lookup_singleton_eq|].
    split; [by apply (client_rep_same c)|]. split; [exact Hr|]. split; [simpl; by rewrite Hs | vm_compute; discriminate].
  - exists w3, c3. split; [exact E|]. split; [exact Hc | exact Hf].
Defined.
