(* ===== verification/EndToEnd.v ===== *)
(** * From one client through the server to another

    The client library and the server are different programs that agree on a
    wire format.  Here the bytes one of them sends are the bytes the other one
    receives: a message a client queues reaches the user of every subscriber,
    unchanged, and the reply of the server reaches the client that waits. *)

From S2P Require Import Prelude Endian StringPiece Buffer Codec Muduo Server ServerSpec ServerInv ServerProps Ring RecvFifo Heap RecvList SendFifo Client Api ClientList ApiSpec ApiProps.

Section server_side.
Context {host : Host} {lib : TcpLib} {libok : TcpLibOk} (tid : Z).

(** What the server makes of bytes that complete the frames [ms]. *)
Lemma ev_data_decodes c b k bs t s ms rest s1 :
  inv s -> up s c -> bytes bs -> buf_of s c = Some b -> rep b k ->
  writerIndex_ b + zlen bs <= max_size -> decodes (k ++ bs) ms rest false ->
  (forall b', rep b' (k ++ bs) ->
     exists s0, deliver (server_callback tid c t) (set_buf c b' s) ms = Ok s0 /\ trace s0 = s1) ->
  exists s' b', ev_data tid c bs t s = Ok (tt, s') /\ trace s' = s1 /\
    (is_Some (buf_of s' c) -> buf_of s' c = Some b') /\ rep b' rest.
Proof.
  intros H Hup Hbs Hb Hk Hmax Hd Hdel.
  destruct (ev_data_run tid c b k bs t s ms rest H Hup Hbs Hb Hk Hmax Hd) as (b1 & Hb1 & _ & Hrun).
  destruct (Hdel b1 Hb1) as (s0 & E & Htr). destruct (Hrun s0 E) as (b2 & Hr & Eev).
  exists (set_buf c b2 s0), b2. split_and!; [done | done | | done].
  intros [b' Hb']. pose proof Hb' as [[_ ->]|[? _]]%buf_of_set_buf; done.
Qed.

(** One data message. *)
Lemma relay_step c b t s d :
  inv s -> up s c -> bytes d -> zlen d <= 65535 -> buf_of s c = Some b -> rep b [] ->
  writerIndex_ b + zlen (encode (SEND_DATA :: d)) <= max_size ->
  (forall x, x ∈ targets s c -> state_of s x = Some kConnected) ->
  exists s', ev_data tid c (encode (SEND_DATA :: d)) t s = Ok (tt, s') /\
    trace s' = trace s ++ ((fun x => ESend x (encode (SEND_DATA :: d))) <$> targets s c) ++
               [ESend c (encode [131; 1])].
Proof.
  intros H Hup Hd Hlen Hb Hr Hmax Ht.
  assert (bytes (SEND_DATA :: d)) as Hmb by (by constructor).
  assert (bytes (encode (SEND_DATA :: d))) as Hbs by (apply bytes_app; auto with p2p).
  destruct (ev_data_decodes c b [] (encode (SEND_DATA :: d)) t s [SEND_DATA :: d] []
    (trace s ++ ((fun x => ESend x (encode (SEND_DATA :: d))) <$> targets s c) ++ [ESend c (encode [131; 1])]))
    as (s' & b' & E & Htr & _); try done; [ | |eauto].
  - pose proof (decodes_encode (SEND_DATA :: d) [] [] [] false) as Hdec. rewrite app_nil_r in Hdec.
    apply Hdec; [unfold max_message; zlia|]. apply decodes_short. rewrite zlen_nil. lia.
  - intros b' Hr'. set (s0 := set_buf c b' s).
    assert (inv s0) as H0 by (apply (inv_set_buf c b' _ s H Hr'); done).
    assert (targets s0 c = targets s c) as Et by (unfold targets, s0; by rewrite info_set_buf).
    assert (up s0 c) as Hup0 by (unfold up, s0; by rewrite state_of_set_buf).
    simpl. unfold server_callback. rewrite onMessage_run.
    + simpl. eexists. split; [done|]. unfold message_post. simpl. rewrite send_all_trace. simpl.
      rewrite Et, <- app_assoc. done.
    + by apply inv_ready.
    + zlia.
    + intros _ x Hx. unfold s0. rewrite state_of_set_buf. apply Ht. by rewrite <- Et.
Qed.

End server_side.

Section end_to_end.
Context {host : Host} {lib : TcpLib} {libok : TcpLibOk} {al : Alloc} {os : OS} (tid idle : Z).


(** One frame that arrives in one piece. *)
Lemma recv_frame m w p C its k cmds buf :
  plenty -> acceptable m -> zlen m <= 4000 -> client_of p w = Some C ->
  client_rep (C, w_heap w) its [] k cmds -> need_to_restart_flag C = 0 ->
  exists w' C' add, recv_turn p (chunk (encode m)) buf w = Ok (recv_into buf (chunk (encode m)), w') /\
    client_of p w' = Some C' /\ client_rep (C', w_heap w') (its ++ add) [] k cmds /\
    command_status C' = status_after [m] (command_status C) /\ it_payload <$> add = received [m].
Proof.
  intros Hpl Hm Hml HC HrepC HrsC.
  assert (zlen (encode m) = 4 + zlen m) as Hl by (rewrite encode_parts, zlen_app, zlen_be_bytes; zlia).
  pose proof (zlen_nonneg m) as Hm0.
  destruct (recv_turn_spec w p its [] k cmds C (chunk (encode m)) buf [m] []) as
    (w' & C' & add & E & HC' & Hrep' & Hst & _ & [_ Hadd] & _); try done; simpl; rewrite ?Hl, ?zlen_nil; try lia.
  - by rewrite !app_nil_r.
  - by constructor.
  - left. rewrite zlen_nil. lia.
  - exists w', C', add. split_and!; auto.
Qed.

(** Data goes from end to end.  A client has the data [d] queued; its sending
    thread puts one frame on the wire; the server, which gets that frame on the
    connection [ca], sends the same frame to the connection [cb] of a subscriber
    and a reply to [ca]; the subscriber's receiving thread appends exactly [d] to
    what its user reads, and the sender's receiving thread sets the flag its user
    waits for to success. *)
Lemma data_end_to_end (s : p2pServer) (ca cb : connid) (b : Buffer) (t : Timestamp) (d : list Z)
    (wA wB : world) (pA pB : cref) A B itsA itsB kA kB l cmdsB bufA bufB :
  reachable tid idle s -> up s ca -> buf_of s ca = Some b -> rep b [] -> writerIndex_ b <= 2 ^ 32 ->
  (forall x, x ∈ targets s ca -> state_of s x = Some kConnected) -> cb ∈ targets s ca ->
  bytes d -> zlen d <= 256 -> plenty ->
  client_of pA wA = Some A -> client_rep (A, w_heap wA) itsA [] kA [(l, SEND_DATA :: d)] ->
  need_to_restart_flag A = 0 -> zlen bufA = 2048 ->
  client_of pB wB = Some B -> client_rep (B, w_heap wB) itsB [] kB cmdsB -> need_to_restart_flag B = 0 ->
  exists wA1 buf1 frame r s' to_cb to_ca,
    send_turn pA bufA wA = Ok (buf1, wA1) /\
    w_trace wA1 = w_trace wA ++ [SSend (socket_fd A) frame r] /\
    ev_data tid ca frame t s = Ok (tt, s') /\
    ESend cb to_cb ∈ drop (length (trace s)) (trace s') /\
    last (trace s') = Some (ESend ca to_ca) /\
    (exists wB' itsB', recv_turn pB (chunk to_cb) bufB wB = Ok (recv_into bufB (chunk to_cb), wB') /\
       holds wB' pB itsB' [] kB cmdsB /\ it_payload <$> itsB' = (it_payload <$> itsB) ++ [d]) /\
    (exists wA', recv_turn pA (chunk to_ca) buf1 wA1 = Ok (recv_into buf1 (chunk to_ca), wA') /\
       flag_of wA' pA FSendData = Some CALL_BACK_SUCCESS).
Proof.
  intros Hreach Hup Hb Hr Hw Htg Hcb Hd Hlen Hpl HA HrepA HrsA HbufA HB HrepB HrsB.
  pose proof (inv_reachable tid idle s Hreach) as Hinv.
  destruct (send_loop_spec wA pA itsA [] kA [(l, SEND_DATA :: d)] A bufA HA HrepA HrsA) as
    (wA1 & buf1 & es & A1 & Esend & Htr & Hes & HA1 & [f1 EA1] & HrepA1 & _).
  { constructor; [|constructor]. simpl. zlia. }
  { done. }
  inversion Hes as [|x e xs es' [r ->] Hnil]; subst. inversion Hnil; subst. simpl in Htr.
  set (frame := encode (SEND_DATA :: d)) in *.
  assert (zlen frame = 5 + zlen d) as Hfl by (unfold frame; rewrite encode_parts, zlen_app, zlen_be_bytes; zlia).
  destruct (relay_step tid ca b t s d Hinv Hup Hd) as (s' & Eev & Hts); try done.
  { lia. }
  { fold frame. rewrite Hfl. unfold max_size. lia. }
  fold frame in Eev, Hts.
  exists wA1, buf1, frame, (os_send r frame), s', frame, (encode [131; 1]). split_and!.
  - rewrite (send_turn_run wA pA itsA [] kA _ A bufA HA HrepA). exact Esend.
  - exact Htr.
  - exact Eev.
  - rewrite Hts, drop_app_length. apply elem_of_app. left. apply list_elem_of_fmap. eauto.
  - rewrite Hts, app_assoc. apply last_snoc.
  - destruct (recv_frame (SEND_DATA :: d) wB pB B itsB kB cmdsB bufB Hpl) as
      (w' & C' & add & E & HC' & Hrep' & _ & Hadd); try done; [|zlia|].
    { split_and!; [by constructor | zlia | zlia |]. by intros _ x [= <-]. }
    exists w', (itsB ++ add). split_and!; [done | by exists C' |]. by rewrite fmap_app, Hadd.
  - destruct (recv_frame [131; 1] wA1 pA (set_send_fifo f1 A) itsA kA [] buf1 Hpl) as
      (w' & C' & add & E & HC' & Hrep' & Hst & _); try done.
    { split_and!; [by repeat constructor | done | done | done]. }
    exists w'. split; [done|]. unfold flag_of. rewrite HC'. cbn [fmap option_fmap option_map compose].
    rewrite Hst. by destruct (command_status (set_send_fifo f1 A)).
Qed.

End end_to_end.

(** ** The theorem at a concrete state *)

#[local] Existing Instance demo_host.
#[local] Existing Instance demo_lib.
#[local] Existing Instance demo_lib_ok.
#[local] Existing Instance demo_alloc.
#[local] Existing Instance demo_os.

Lemma demo_buffer : exists b, buf_of demo 1 = Some b /\ rep b [] /\ writerIndex_ b <= 2 ^ 32.
Proof.
  destruct (buf_of demo 1) as [b|] eqn:Hb; [|discriminate (eq_trans (eq_sym Hb) ltac:(vm_compute; reflexivity))].
  exists b. split; [done|].
  destruct (inv_buf _ (inv_reachable 1 10 demo demo_reachable) 1%nat b Hb) as (k & Hk & _).
  assert (content <$> buf_of demo 1 = Some []) as Hc by (vm_compute; reflexivity).
  assert (writerIndex_ <$> buf_of demo 1 = Some 8) as Hw by (vm_compute; reflexivity).
  rewrite Hb in Hc, Hw. simpl in Hc, Hw. injection Hc as Hc. injection Hw as ->.
  destruct (rep_wf _ _ Hk) as [_ E]. rewrite Hc in E. subst k. split; [done | lia].
Qed.

(** In [demo] the device of connection 2 subscribes to the one of connection 1. *)
Lemma data_end_to_end_witness :
  exists wB wB' itsB to_cb, recv_turn (CNode 0) (chunk to_cb) [] wB = Ok (recv_into [] (chunk to_cb), wB') /\
    holds wB' (CNode 0) itsB [] 0 [] /\ it_payload <$> itsB = [[104; 105]].
Proof.
  destruct (demo_command [3; 104; 105]) as (A & h & l & HA & HrA).
  destruct (demo_client []) as (B & HB & _ & HrB); [constructor | vm_compute; discriminate |].
  destruct demo_buffer as (b & Hb & Hrep & Hw).
  destruct (data_end_to_end 1 10 demo 1 2 b (sec 4) [104; 105] (demo_world A h) (demo_world B heap0)
    (CNode 0) (CNode 0) (set_p2p_next None (set_fd 1 A)) (set_p2p_next None (set_fd 1 B))
    [] [] 1 0 l [] (replicate (Z.to_nat 2048) 0) [])
    as (_ & _ & _ & _ & _ & to_cb & _ & _ & _ & _ & _ & _ & (wB' & itsB & E & Hh & Hp) & _).
  - exact demo_reachable.
  - apply demo_up. vm_compute. reflexivity.
  - exact Hb.
  - exact Hrep.
  - exact Hw.
  - exact demo_targets.
  - assert (targets demo 1 = [2%nat]) as -> by (vm_compute; reflexivity). left.
  - apply (bool_decide_unpack _). vm_compute. exact I.
  - discriminate.
  - exact demo_plenty.
  - apply lookup_singleton_eq.
  - by apply (client_rep_same A).
  - exact HrA.
  - reflexivity.
  - apply lookup_singleton_eq.
  - by apply (client_rep_same B).
  - exact HrB.
  - exists (demo_world B heap0), wB', itsB, to_cb. split; [exact E|]. split; [exact Hh | exact Hp].
Defined.
