(* ===== verification/Rpc.v ===== *)
(** * A call of the library, to the server and back

    While a function of the client library waits for its reply, the sending thread
    puts the command on the wire, the server handles it, and the receiving thread
    gets what the server sent: the call returns what the hub of Hub.v answers. *)

From S2P Require Import Prelude Endian StringPiece Buffer Codec Muduo Server ServerSpec ServerInv ServerProps Hub Ring RecvFifo Heap RecvList SendFifo Client Wire Api ClientList ApiSpec ApiProps EndToEnd.

(** ** What the hub answers *)



(** ** Lemmas *)







Section waiting.
Context (others : nat -> world -> res world).





End waiting.

(** ** The server's half *)

Section server_half.
Context {host : Host} {lib : TcpLib} {libok : TcpLibOk} (tid idle : Z).




End server_half.

(** ** The whole call *)

Section call.
Context {host : Host} {lib : TcpLib} {libok : TcpLibOk} {al : Alloc} {os : OS} (tid idle : Z).



End call.

(** ** The theorem at a concrete state *)

#[local] Existing Instance demo_host.
#[local] Existing Instance demo_lib.
#[local] Existing Instance demo_lib_ok.
#[local] Existing Instance demo_alloc.
#[local] Existing Instance demo_os.



