(* ===== verification/Network.v ===== *)
(** * The whole system: one server and any number of clients

    A network is the server, the processes of the clients, and the connections
    between them: reliable streams of bytes that deliver what was written in any
    pieces, and as late as they like.  Each step of the network runs one function
    of the model of the server or of the client library; the steps of different
    processes interleave freely.

    A client whose connection breaks opens another one.  Its commands that were not
    sent yet are sent on the new connection; what was on the old one may still
    arrive, or not.  So a client is a sequence of sessions, of which the last one
    is open, and a network remembers the connections that are over as long as bytes
    of them can arrive.

    This file has the steps and the invariant; the theorems are in NetworkProps.v. *)

From S2P Require Import Prelude Endian StringPiece Buffer Codec Muduo Server ServerSpec ServerInv ServerProps Hub Ring RecvFifo Heap RecvList SendFifo Client Wire Api ClientList ApiSpec ApiProps Restart EndToEnd.

(** ** Networks *)

(** One connection: the bytes the server has read from it, the bytes on their way
    to the server, and the bytes the client has read. *)
Record link := mkLink {
  fed : list Z;
  up_wire : list Z;
  got : list Z
}.

Definition link0 : link := mkLink [] [] [].
Definition put_on (bs : list Z) (k : link) : link := mkLink (fed k) (up_wire k ++ bs) (got k).
Definition arrive (bs rest : list Z) (k : link) : link := mkLink (fed k ++ bs) rest (got k).
Definition read_off (bs : list Z) (k : link) : link := mkLink (fed k) (up_wire k) (got k ++ bs).

(** What a client did on a connection that is over: the commands it sent, and the
    data that came. *)
Record session := mkSession {
  s_conn : connid;
  s_sent : list (list Z);
  s_data : list (list Z)
}.

(** A client that is connected to the server: its process, the pointer to its
    structure and the local arrays of its threads; its connection and its earlier
    ones; the commands of its user that were not sent on an earlier connection; and
    the data its user was given. *)
Record peer := mkPeer {
  process : world;
  ref : cref;
  send_array : list Z;
  recv_array : list Z;
  line : link;
  before : list session;
  issued : list (list Z);
  taken : list (list Z)
}.

(** All commands of the user, and all data of earlier connections. *)
Definition asked (pr : peer) : list (list Z) := concat (s_sent <$> before pr) ++ issued pr.
Definition old_data (pr : peer) : list (list Z) := concat (s_data <$> before pr).

(** What a step changes in a client. *)
Definition runs (w : world) (pr : peer) : peer :=
  mkPeer w (ref pr) (send_array pr) (recv_array pr) (line pr) (before pr) (issued pr) (taken pr).
Definition asks (w : world) (m : list Z) (pr : peer) : peer :=
  mkPeer w (ref pr) (send_array pr) (recv_array pr) (line pr) (before pr) (issued pr ++ [m]) (taken pr).
Definition transmits (w : world) (a bs : list Z) (pr : peer) : peer :=
  mkPeer w (ref pr) a (recv_array pr) (put_on bs (line pr)) (before pr) (issued pr) (taken pr).
Definition hears (w : world) (a bs : list Z) (pr : peer) : peer :=
  mkPeer w (ref pr) (send_array pr) a (read_off bs (line pr)) (before pr) (issued pr) (taken pr).
Definition is_given (w : world) (ds : list (list Z)) (pr : peer) : peer :=
  mkPeer w (ref pr) (send_array pr) (recv_array pr) (line pr) (before pr) (issued pr) (taken pr ++ ds).
Definition on_line (k : link) (pr : peer) : peer :=
  mkPeer (process pr) (ref pr) (send_array pr) (recv_array pr) k (before pr) (issued pr) (taken pr).
(** The connection [c], on which [sent] was sent and [data] came, is over. *)
Definition reconnected (w : world) (c : connid) (sent data queue : list (list Z)) (pr : peer) : peer :=
  mkPeer w (ref pr) (send_array pr) (recv_array pr) link0 (before pr ++ [mkSession c sent data]) queue (taken pr).

Record net := mkNet {
  server : p2pServer;
  history : list label;
  peers : gmap connid peer;
  closed : gmap connid (link * list (list Z))
}.

(** The messages of one connection in a history. *)
Definition message_from (c : connid) (l : label) : option (list Z) :=
  match l with LMsg x m => if decide (x = c) then Some m else None | _ => None end.
Definition msgs_from (c : connid) (ls : list label) : list (list Z) := omap (message_from c) ls.

(** What the calls of [send] handed to the operating system. *)
Definition accepted (e : sysevent) : list Z :=
  match e with SSend _ d r => ztake r d | _ => [] end.
Definition written (es : list sysevent) : list Z := concat (accepted <$> es).
Definition written_since (w w' : world) : list Z := written (drop (length (w_trace w)) (w_trace w')).

(** The bytes a pointer of the user's buffer leads to. *)
Definition payload_at (h : heap) (p : ptr) : option (list Z) :=
  match p ≫= fun l => mem h !! l with
  | Some (BRecvData r) =>
      match rd_data r ≫= fun l => mem h !! l with Some (BBytes bs) => Some bs | _ => None end
  | _ => None
  end.

(** The number of a connection that is new: nothing was sent or received on it. *)
Definition unused (c : connid) (n : net) : Prop :=
  peers n !! c = None /\ closed n !! c = None /\ conns (server n) !! c = None /\
  msgs_from c (history n) = [] /\ stream c (server n) = [].

(** The largest piece [recv] stores: the array of the thread has 4096 bytes. *)
Definition max_piece : Z := 4096.

Section steps.
Context {host : Host} {lib : TcpLib} {al : Alloc} {os : OS} (tid : Z).

Definition on_peer (c : connid) (pr : peer) (n : net) : net :=
  mkNet (server n) (history n) (<[c := pr]> (peers n)) (closed n).
Definition on_closed (c : connid) (k : link) (sent : list (list Z)) (n : net) : net :=
  mkNet (server n) (history n) (peers n) (<[c := (k, sent)]> (closed n)).
Definition on_server (s : p2pServer) (ls : list label) (n : net) : net :=
  mkNet s (history n ++ ls) (peers n) (closed n).
(** The client at [c] lets go of its connection, on which [sent] was sent. *)
Definition leaves (c : connid) (pr : peer) (sent : list (list Z)) (n : net) : net :=
  mkNet (server n) (history n) (delete c (peers n)) (<[c := (line pr, sent)]> (closed n)).

(** The server reads the bytes [bs] from [c], which complete the messages [ms]. *)
Record reads (c : connid) (bs : list Z) (t : Timestamp) (n : net) (ms : list (list Z)) (bad : bool) (s' : p2pServer) : Prop := {
  rd_up : up (server n) c;
  rd_bytes : bytes bs;
  rd_buf : exists b rest, buf_of (server n) c = Some b /\ writerIndex_ b + zlen bs <= max_size /\
             decodes (content b ++ bs) ms rest bad;
  rd_run : ev_data tid c bs t (server n) = Ok (tt, s')
}.

Definition read_labels (c : connid) (ms : list (list Z)) (bad : bool) : list label :=
  (LMsg c <$> ms) ++ (if bad then [LClose c] else []).

(** The commands of a client that wait in its queue. *)
Definition splits (pr : peer) (C : stupid_p2p_t) (sent queue : list (list Z)) : Prop :=
  issued pr = sent ++ queue /\ zlen queue = sf_num (send_fifo C).

Inductive nstep : net -> net -> Prop :=
  (** a client connects *)
  | n_join n c now s' w p a r C :
      unused c n -> ev_up tid c now (server n) = Ok (tt, s') ->
      client_of p w = Some C -> client_rep (C, w_heap w) [] [] 0 [] -> zlen a = 2048 ->
      nstep n (on_peer c (mkPeer w p a r link0 [] [] []) (on_server s' [LUp c] n))
  (** its user, or its checking thread, calls a function that queues a command *)
  | n_issue n c pr command f data length d l w' :
      peers n !! c = Some pr -> zlen (asked pr) < 8192 ->
      0 <= length <= 256 -> deref data length = Ok d -> zlen d = length -> bytes (command :: d) ->
      issue (ref pr) command f data length (process pr) = Ok (Some l, w') ->
      nstep n (on_peer c (asks w' (command :: d) pr) n)
  (** a turn of the thread that sends *)
  | n_send n c pr a w' :
      peers n !! c = Some pr -> send_turn (ref pr) (send_array pr) (process pr) = Ok (a, w') ->
      nstep n (on_peer c (transmits w' a (written_since (process pr) w') pr) n)
  (** some of the bytes on the way to the server arrive *)
  | n_feed n c pr bs rest t ms bad s' :
      peers n !! c = Some pr -> up_wire (line pr) = bs ++ rest -> reads c bs t n ms bad s' ->
      nstep n (on_peer c (on_line (arrive bs rest (line pr)) pr) (on_server s' (read_labels c ms bad) n))
  (** some of the bytes on the way to the client arrive; a turn of its receiving thread *)
  | n_recv n c pr C bs rest a w' :
      peers n !! c = Some pr -> client_of (ref pr) (process pr) = Some C -> need_to_restart_flag C = 0 ->
      stream c (server n) = got (line pr) ++ bs ++ rest -> 0 < zlen bs <= max_piece ->
      recv_turn (ref pr) (chunk bs) (recv_array pr) (process pr) = Ok (a, w') ->
      nstep n (on_peer c (hears w' a bs pr) n)
  (** the user takes the payloads: the loop of [stupid_p2p_recv_data] *)
  | n_take n c pr ptrs k w' ds :
      peers n !! c = Some pr ->
      recv_data_loop (S (S (size (mem (w_heap (process pr)))))) (ref pr) (replicate (Z.to_nat 1024) None) 0
        (process pr) = Ok (ptrs, k, w') ->
      mapM (payload_at (w_heap w')) (ztake k ptrs) = Some ds ->
      nstep n (on_peer c (is_given w' ds pr) n)
  (** [recv] fails or finds the connection closed: the restart flag is set *)
  | n_lost n c pr r a w' :
      peers n !! c = Some pr -> rr_ret r <= 0 -> rr_errno r <> EINTR ->
      recv_turn (ref pr) r (recv_array pr) (process pr) = Ok (a, w') ->
      nstep n (on_peer c (hears w' a [] pr) n)
  (** the checking thread gets the result of its heart beat *)
  | n_beat n c pr ret w' :
      peers n !! c = Some pr -> beat_done (ref pr) ret (process pr) = Ok (tt, w') ->
      nstep n (on_peer c (runs w' pr) n)
  (** the checking thread finds the restart flag set, but cannot connect *)
  | n_retry n c pr C w' :
      peers n !! c = Some pr -> client_of (ref pr) (process pr) = Some C ->
      restart_part (ref pr) C (process pr) = Ok (true, w') ->
      nstep n (on_peer c (runs w' pr) n)
  (** it connects: the client goes on on the connection [c'], with no frame of the
      old one cut off *)
  | n_restart n c pr C w' c' now s' sent queue handled :
      peers n !! c = Some pr -> client_of (ref pr) (process pr) = Some C -> need_to_restart_flag C <> 0 ->
      restart_part (ref pr) C (process pr) = Ok (false, w') ->
      recv_data_fifo_length (recv_fifo C) = 0 -> splits pr C sent queue ->
      got (line pr) = concat (encode <$> handled) -> handled `prefix_of` to_conn c (hub_run (history n)).2 ->
      unused c' n -> ev_up tid c' now (server n) = Ok (tt, s') ->
      nstep n (on_peer c' (reconnected w' c sent (received handled) queue pr)
                 (leaves c pr sent (on_server s' [LUp c'] n)))
  (** a client ends: [stupid_p2p_deinit], or the end of its process *)
  | n_leave n c pr C sent queue :
      peers n !! c = Some pr -> client_of (ref pr) (process pr) = Some C -> splits pr C sent queue ->
      nstep n (leaves c pr sent n)
  (** bytes of a connection the client has closed arrive *)
  | n_late n c k sent bs rest t ms bad s' :
      closed n !! c = Some (k, sent) -> up_wire k = bs ++ rest -> reads c bs t n ms bad s' ->
      nstep n (on_closed c (arrive bs rest k) sent (on_server s' (read_labels c ms bad) n))
  (** clients of another make *)
  | n_up n c now s' :
      unused c n -> ev_up tid c now (server n) = Ok (tt, s') -> nstep n (on_server s' [LUp c] n)
  | n_data n c bs t ms bad s' :
      peers n !! c = None -> closed n !! c = None ->
      reads c bs t n ms bad s' -> nstep n (on_server s' (read_labels c ms bad) n)
  (** the server sees a connection go down, and its object goes away *)
  | n_down n c now s' :
      up (server n) c -> ev_down tid c now (server n) = Ok (tt, s') -> nstep n (on_server s' [LDown c] n)
  | n_destroy n c :
      unreferenced (server n) c -> nstep n (on_server (ev_destroy c (server n)) [] n)
  (** the timer of the server *)
  | n_timer n now s' :
      onTimer now (server n) = Ok (tt, s') ->
      nstep n (on_server s' (LClose <$> victims now (server n) (_connectionList (server n)).*2) n).

(** The clients are considerate: a client registers while its connection is open,
    under one id at a time and not under the reserved one, as the hub assumes
    ([polite]); and no message has more than 2048 bytes, the array of the parser (a
    client of the library in C sends 257 at most).  The server checks neither; the
    theorems about networks have this as a hypothesis on the history. *)
Definition considerate (ls : list label) : Prop :=
  forall ls1 c m ls2, ls = ls1 ++ LMsg c m :: ls2 -> polite (hub_run ls1).1 c m /\ bytes m /\ zlen m <= 2048.

Definition net0 (idle : Z) : net := mkNet (new_p2pServer idle) [] ∅ ∅.
Definition net_reachable (idle : Z) : net -> Prop := rtc nstep (net0 idle).

End steps.

(** ** Lemmas: what the server does to one connection *)

Lemma msgs_from_app c ls ls' : msgs_from c (ls ++ ls') = msgs_from c ls ++ msgs_from c ls'.
Proof. apply omap_app. Qed.

Lemma msgs_from_read c x ms bad :
  msgs_from c (read_labels x ms bad) = if decide (x = c) then ms else [].
Proof.
  unfold read_labels. rewrite msgs_from_app.
  assert (msgs_from c (if bad then [LClose x] else []) = []) as -> by (by destruct bad).
  rewrite app_nil_r. case_decide as Hx; induction ms as [|m ms IH]; try done.
  - change (msgs_from c (LMsg x <$> m :: ms)) with (msgs_from c ([LMsg x m] ++ (LMsg x <$> ms))).
    rewrite msgs_from_app, IH. unfold msgs_from. simpl. by rewrite decide_True.
  - change (msgs_from c (LMsg x <$> m :: ms)) with (msgs_from c ([LMsg x m] ++ (LMsg x <$> ms))).
    rewrite msgs_from_app, IH. unfold msgs_from. simpl. by rewrite decide_False.
Qed.

Lemma msgs_from_closes c cs : msgs_from c (LClose <$> cs) = [].
Proof. unfold msgs_from. by induction cs. Qed.

(** What the hub has sent stays sent. *)
Lemma hub_do_extends st l : exists o, (hub_do st l).2 = st.2 ++ o.
Proof.
  destruct st as [h out], l as [c|c m|c|c]; simpl; try (exists []; by rewrite app_nil_r).
  destruct (hub_message c m h) as [h' o]. by exists o.
Qed.

Lemma hub_runs_extend ls : forall st, exists o, (foldl hub_do st ls).2 = st.2 ++ o.
Proof.
  induction ls as [|l ls IH]; intros st; simpl; [exists []; by rewrite app_nil_r|].
  destruct (hub_do_extends st l) as [o1 E1]. destruct (IH (hub_do st l)) as [o2 E2].
  exists (o1 ++ o2). by rewrite E2, E1, app_assoc.
Qed.

Lemma to_conn_extends c ls ls' :
  exists more, to_conn c (hub_run (ls ++ ls')).2 = to_conn c (hub_run ls).2 ++ more.
Proof.
  unfold hub_run. rewrite foldl_app. destruct (hub_runs_extend ls' (foldl hub_do (hub0, []) ls)) as [o ->].
  exists (to_conn c o). apply to_conn_app.
Qed.

(** A step of the server that does not read from [c]. *)
Definition quiet (c : connid) (s s' : p2pServer) : Prop := up s' c -> up s c /\ buf_of s' c = buf_of s c.

Lemma tame_quiet c s s' : tame s s' -> quiet c s s'.
Proof. intros H Hup. split; [by apply (tame_up s s') | apply (tame_buf _ _ H)]. Qed.

Lemma buf_of_set_buf_ne c b s x : x <> c -> buf_of (set_buf c b s) x = buf_of s x.
Proof. intros H. unfold buf_of, set_buf. simpl. by rewrite lookup_alter_ne. Qed.
Lemma buf_of_set_buf_eq c b s o : conns s !! c = Some o -> buf_of (set_buf c b s) c = Some b.
Proof. intros H. unfold buf_of, set_buf. simpl. by rewrite lookup_alter_eq, H. Qed.

Section server_steps.
Context {host : Host} {lib : TcpLib} {libok : TcpLibOk} (tid idle : Z).

(** Bytes from [c] leave an incomplete frame in its buffer, and do not touch the
    buffers of others. *)
Lemma ev_data_buffers c b k bs t s ms rest bad s' :
  inv s -> up s c -> bytes bs -> buf_of s c = Some b -> rep b k -> writerIndex_ b + zlen bs <= max_size ->
  decodes (k ++ bs) ms rest bad -> ev_data tid c bs t s = Ok (tt, s') ->
  (exists b', buf_of s' c = Some b' /\ rep b' rest) /\ forall x, x <> c -> quiet x s s'.
Proof.
  intros H Hup Hbs Hb Hk Hmax Hd Hrun.
  destruct (ev_data_split tid c b k bs t s ms rest bad s' H Hup Hbs Hb Hk Hmax Hd Hrun)
    as (b1 & s2 & b2 & Hb1 & _ & _ & _ & Ht & Hr & ->).
  set (s3 := if bad then shut c s2 else s2).
  assert (tame (set_buf c b1 s) s3) as Ht3.
  { unfold s3. destruct bad; [etrans; [exact Ht | apply tame_shut] | exact Ht]. }
  split.
  - exists b2. split; [|done]. pose proof (proj2 (tame_some _ _ Ht3 c)) as Hc.
    rewrite state_of_set_buf in Hc. unfold state_of in Hc. rewrite !fmap_is_Some in Hc.
    destruct Hc as [o Ho]; [|by eapply buf_of_set_buf_eq].
    apply fmap_Some in Hb as (o & Ho & _). eauto.
  - intros x Hx. unfold quiet, up. rewrite state_of_set_buf, buf_of_set_buf_ne by done.
    intros Hu. destruct (tame_quiet x _ s3 Ht3 Hu) as [Hu1 ->]. unfold up in Hu1.
    rewrite state_of_set_buf in Hu1. by rewrite buf_of_set_buf_ne.
Qed.

Lemma quiet_up s c b now x : x <> c -> quiet x s (up_post c b now s).
Proof.
  intros Hx Hup. unfold up in *. rewrite state_of_up_post, decide_False in Hup by done. split; [done|].
  unfold buf_of, up_post. simpl. by rewrite lookup_insert_ne.
Qed.

Lemma quiet_destroy s c x : quiet x s (ev_destroy c s).
Proof.
  unfold quiet, up. rewrite state_of_destroy. case_decide as Hx; [by intros (st & ? & _)|]. intros Hup.
  split; [done|]. unfold buf_of, ev_destroy. simpl. by rewrite lookup_delete_ne.
Qed.

Lemma quiet_down s c i x : info s c = Some i -> quiet x s (down_post c s).
Proof.
  intros Hi Hup. unfold down_post in *. rewrite Hi in *.
  set (s1 := erased (position i) (upd_state c (fun _ => kDisconnected) s)) in *.
  destruct (tame_quiet x s1 _ (tame_unregister c s1) Hup) as [Hup1 ->].
  assert (up s x) as Hux.
  { destruct Hup1 as (st & Hst & Hne). change (state_of s1 x) with (state_of (upd_state c (fun _ => kDisconnected) s) x) in Hst.
    rewrite state_of_upd_state in Hst. case_decide; [|by exists st].
    apply fmap_Some in Hst as (? & _ & ->). done. }
  split; [done|]. unfold s1. change (buf_of (upd_state c (fun _ => kDisconnected) s) x = buf_of s x).
  apply buf_of_upd_state.
Qed.

Lemma quiet_timed s now x : quiet x s (timed now s).
Proof. apply tame_quiet. unfold timed. apply visits_frame. Qed.

End server_steps.

(** ** Lemmas: streams of frames *)

Lemma decodes_app_bad c1 c2 ms rest :
  decodes c1 ms rest true -> decodes (c1 ++ c2) ms (rest ++ c2) true.
Proof.
  intros H. remember true as t eqn:Ht. revert Ht.
  induction H as [c|c H1 H2|c|hdr m k ms rest bad H1 H2 H3 _ IH]; intros; try done.
  - apply decodes_bad; [zlia|]. unfold bad_header, header in *. by rewrite ztake_app_l by lia.
  - rewrite <- !app_assoc. apply decodes_frame; auto.
Qed.

Lemma decodes_frames ms :
  Forall (fun m => zlen m <= max_message) ms -> decodes (concat (encode <$> ms)) ms [] false.
Proof.
  intros H. pose proof (decodes_encode_all ms [] [] [] false H) as Hd. rewrite !app_nil_r in Hd.
  apply Hd. by apply decodes_short.
Qed.

(** A reader of frames that has seen some of the bytes has seen some of the frames. *)
Lemma frames_read F X sent ms rest bad :
  Forall (fun m => zlen m <= max_message) sent -> F ++ X = concat (encode <$> sent) ->
  decodes F ms rest bad ->
  bad = false /\ ms `prefix_of` sent /\ (X = [] -> ms = sent /\ rest = []).
Proof.
  intros Hs E Hd. pose proof (decodes_frames sent Hs) as Hall. rewrite <- E in Hall. destruct bad.
  { pose proof (decodes_app_bad F X ms rest Hd) as Hb.
    by destruct (decodes_det _ _ _ _ _ _ _ Hall Hb) as (_ & _ & ?). }
  split; [done|]. destruct (decodes_total (rest ++ X)) as (ms2 & rest2 & bad2 & H2).
  destruct (decodes_det _ _ _ _ _ _ _ Hall (decodes_app F X ms rest ms2 rest2 bad2 Hd H2)) as (-> & <- & <-).
  split; [by exists ms2|]. intros ->. rewrite app_nil_r in Hall.
  by destruct (decodes_det _ _ _ _ _ _ _ Hall Hd) as (-> & <- & _).
Qed.

(** ** The invariant *)

(** A command of a client. *)
Definition well (m : list Z) : Prop := bytes m /\ 1 <= zlen m <= 257.

(** From a client to the server, which were [sent] on the connection. *)
Record upward (s : p2pServer) (ls : list label) (c : connid) (k : link) (sent : list (list Z)) : Prop := {
  u_well : Forall well sent;
  u_sent : fed k ++ up_wire k = concat (encode <$> sent);
  u_read : exists rest, decodes (fed k) (msgs_from c ls) rest false /\
             (up s c -> exists b, buf_of s c = Some b /\ rep b rest)
}.

(** From the server to a client, which has [handled] the messages of the hub up to
    the bytes [unparsed] in its receive buffer. *)
Definition downward (s : p2pServer) (ls : list label) (c : connid) (k : link)
    (handled : list (list Z)) (unparsed : list Z) : Prop :=
  exists todo rest, to_conn c (hub_run ls).2 = handled ++ todo /\
    stream c s = got k ++ rest /\ got k = concat (encode <$> handled) ++ unparsed /\ incomplete unparsed.

Record peer_state (s : p2pServer) (ls : list label) (c : connid) (pr : peer)
    (C : stupid_p2p_t) (its : list item) (unparsed : list Z) (cmds : list command) : Prop := {
  p_client : client_of (ref pr) (process pr) = Some C;
  p_rep : client_rep (C, w_heap (process pr)) its unparsed (zlen (asked pr)) cmds;
  p_array : zlen (send_array pr) = 2048;
  p_well : Forall well (issued pr);
  p_up : exists sent, issued pr = sent ++ cmds.*2 /\ upward s ls c (line pr) sent;
  p_down : exists handled, downward s ls c (line pr) handled unparsed /\
             taken pr ++ (it_payload <$> its) = old_data pr ++ received handled
}.

Definition peer_inv s ls c pr : Prop := exists C its unparsed cmds, peer_state s ls c pr C its unparsed cmds.

(** A connection that is over: what was sent is known to the network, and what came
    was sent by the hub. *)
Record over (ls : list label) (cl : gmap connid (link * list (list Z))) (ss : session) : Prop := {
  o_sent : exists k, cl !! s_conn ss = Some (k, s_sent ss);
  o_data : s_data ss `prefix_of` received (to_conn (s_conn ss) (hub_run ls).2)
}.

Lemma asked_asks w m pr : asked (asks w m pr) = asked pr ++ [m].
Proof. unfold asked. simpl. by rewrite app_assoc. Qed.

Lemma asked_reconnected w c sent data queue pr :
  issued pr = sent ++ queue -> asked (reconnected w c sent data queue pr) = asked pr.
Proof.
  intros E. unfold asked. simpl. rewrite fmap_app, concat_app, E. simpl. by rewrite app_nil_r, <- app_assoc.
Qed.

Lemma old_data_reconnected w c sent data queue pr :
  old_data (reconnected w c sent data queue pr) = old_data pr ++ data.
Proof. unfold old_data. simpl. rewrite fmap_app, concat_app. simpl. by rewrite app_nil_r. Qed.

Section invariant.
Context {host : Host} {lib : TcpLib} {libok : TcpLibOk} {al : Alloc} {os : OS} (tid idle : Z).

Record net_inv (n : net) : Prop := {
  ni_served : served tid idle (history n) (server n);
  ni_small : small (history n);
  ni_peers c pr : peers n !! c = Some pr -> peer_inv (server n) (history n) c pr;
  ni_closed c k sent : closed n !! c = Some (k, sent) -> upward (server n) (history n) c k sent;
  ni_before c pr : peers n !! c = Some pr -> Forall (over (history n) (closed n)) (before pr);
  ni_apart c pr : peers n !! c = Some pr -> closed n !! c = None
}.

Lemma peer_known n c pr C :
  net_inv n -> peers n !! c = Some pr -> client_of (ref pr) (process pr) = Some C ->
  exists its u cmds, peer_state (server n) (history n) c pr C its u cmds.
Proof.
  intros Hn Hc HC. destruct (ni_peers n Hn c pr Hc) as (C' & its & u & cmds & P).
  rewrite (p_client _ _ _ _ _ _ _ _ P) in HC. injection HC as ->. eauto.
Qed.

(** *** The server moves, and reads nothing from [c] *)

Lemma upward_server s ls s' ls' c k sent :
  upward s ls c k sent -> msgs_from c ls' = [] -> quiet c s s' -> upward s' (ls ++ ls') c k sent.
Proof.
  intros [H1 H2 (rest & Hd & Hb)] Hm Hq. split; [done | done |]. exists rest.
  rewrite msgs_from_app, Hm, app_nil_r. split; [done|]. intros [Hup ->]%Hq. auto.
Qed.

Lemma downward_server s ls s' ls' c k handled u :
  downward s ls c k handled u -> served tid idle ls s -> served tid idle (ls ++ ls') s' ->
  downward s' (ls ++ ls') c k handled u.
Proof.
  intros (todo & rest & E1 & E2 & H) Hs Hs'. destruct (to_conn_extends c ls ls') as [more Em].
  exists (todo ++ more), (rest ++ concat (encode <$> more)).
  rewrite Em, E1, app_assoc. split_and!; try apply H; [done|].
  rewrite (served_stream _ _ _ _ c Hs'), Em, concat_encode_app, <- (served_stream _ _ _ _ c Hs), E2.
  by rewrite app_assoc.
Qed.

Lemma over_server ls ls' cl ss : over ls cl ss -> over (ls ++ ls') cl ss.
Proof.
  intros [H1 H2]. split; [done|]. destruct (to_conn_extends (s_conn ss) ls ls') as [more ->].
  unfold received. rewrite omap_app. by apply prefix_app_r.
Qed.

Lemma peer_inv_server s ls s' ls' c pr :
  peer_inv s ls c pr -> served tid idle ls s -> served tid idle (ls ++ ls') s' ->
  msgs_from c ls' = [] -> quiet c s s' -> peer_inv s' (ls ++ ls') c pr.
Proof.
  intros (C & its & u & cmds & [H1 H2 H3 H4 (sent & E5 & H5) (handled & H6 & E6)]) Hs Hs' Hm Hq.
  exists C, its, u, cmds. split; try done.
  - exists sent. split; [done | by apply (upward_server s)].
  - exists handled. split; [by apply (downward_server s) | done].
Qed.

Lemma net_inv_server n s' ls' :
  net_inv n -> served tid idle (history n ++ ls') s' -> small ls' ->
  (forall c, is_Some (peers n !! c) \/ is_Some (closed n !! c) -> msgs_from c ls' = [] /\ quiet c (server n) s') ->
  net_inv (on_server s' ls' n).
Proof.
  intros [H1 H2 H3 H4 H5 H6] Hs Hsm Hq. split; simpl; [done | | | | | done].
  - intros c m Hin. apply elem_of_app in Hin as [?|?]; eauto.
  - intros c pr Hc. destruct (Hq c) as [? ?]; [by eauto|]. apply (peer_inv_server (server n)); auto.
  - intros c k sent Hc. destruct (Hq c) as [? ?]; [by eauto|]. apply (upward_server (server n)); auto.
  - intros c pr Hc. eapply Forall_impl; [by apply (H5 c)|]. intros ss. apply over_server.
Qed.

Lemma small_no_messages ls : (forall c m, LMsg c m ∉ ls) -> small ls.
Proof. intros H c m Hin. by destruct (H c m). Qed.

(** *** One client moves *)

Lemma net_inv_peer n c pr :
  net_inv n -> closed n !! c = None -> Forall (over (history n) (closed n)) (before pr) ->
  peer_inv (server n) (history n) c pr -> net_inv (on_peer c pr n).
Proof.
  intros [H1 H2 H3 H4 H5 H6] Hcl Hb Hc. split; simpl; [done | done | | done | |].
  all: intros x pr' [[<- <-]|[_ ?]]%lookup_insert_Some; eauto.
Qed.

Lemma net_inv_moves n c pr pr' :
  net_inv n -> peers n !! c = Some pr -> before pr' = before pr ->
  peer_inv (server n) (history n) c pr' -> net_inv (on_peer c pr' n).
Proof.
  intros Hn Hc Hb Hp. apply net_inv_peer; [done | by apply (ni_apart n Hn c pr) | | done].
  rewrite Hb. by apply (ni_before n Hn c pr).
Qed.

Lemma net_inv_issue n c pr command f data length d l w' :
  net_inv n -> peers n !! c = Some pr -> zlen (asked pr) < 8192 ->
  0 <= length <= 256 -> deref data length = Ok d -> zlen d = length -> bytes (command :: d) ->
  issue (ref pr) command f data length (process pr) = Ok (Some l, w') ->
  net_inv (on_peer c (asks w' (command :: d) pr) n).
Proof.
  intros Hn Hc Hk Hlen Hd Hdl Hb E. apply (net_inv_moves n c pr); [done..|].
  destruct (ni_peers n Hn c pr Hc) as (C & its & u & cmds & [P1 P2 P3 P4 (sent & E5 & P5) P6]).
  assert (alloc_ok (allocs (w_heap (process pr))) (length + 1) = true) as Hal.
  { destruct (alloc_ok (allocs (w_heap (process pr))) (length + 1)) eqn:Ha; [done|]. exfalso.
    unfold issue, wbind, build_command, alloc in E. rewrite !(wrapu_id 64) in E by lia. by rewrite Ha in E. }
  destruct (issue_queues (process pr) (ref pr) command data length d f its u (zlen (asked pr)) cmds)
    as (w1 & l1 & E1 & [[l2 (C1 & HC1 & Hrep)] _ _ _ _ _] & _); try done; [by exists C|].
  rewrite E1 in E. injection E as -> ->.
  exists C1, its, u, (cmds ++ [(l2, command :: d)]). split; simpl; try done.
  - rewrite asked_asks, zlen_app. exact Hrep.
  - apply Forall_app. split; [done|]. constructor; [|constructor]. split; [done|]. rewrite zlen_cons. lia.
  - exists sent. by rewrite fmap_app, app_assoc, <- E5.
Qed.

(** The system call takes all it is given. *)
Definition sends_all : Prop := forall i d, os_send i d = zlen d.

Lemma written_frames sock cmds es : sends_all -> sends sock cmds es -> written es = concat (encode <$> cmds.*2).
Proof.
  intros Hos Hes. unfold written. induction Hes as [|x e cmds es [i ->] _ IH]; [done|].
  rewrite !fmap_cons. cbn [concat accepted]. rewrite IH, Hos. by rewrite ztake_all by lia.
Qed.

Lemma well_queue (cmds : list command) : Forall well cmds.*2 -> Forall (fun x => zlen x.2 <= 2044) cmds.
Proof. rewrite Forall_fmap. intros H. eapply Forall_impl; [exact H|]. intros x [_ Hx]. simpl in Hx. lia. Qed.

(** A turn of the sending thread: it sends all commands, or it waits for a restart. *)
Lemma peer_send s ls c pr C its u cmds :
  sends_all -> peer_state s ls c pr C its u cmds ->
  exists a w' C' cmds', send_turn (ref pr) (send_array pr) (process pr) = Ok (a, w') /\
    peer_state s ls c (transmits w' a (written_since (process pr) w') pr) C' its u cmds' /\
    need_to_restart_flag C' = need_to_restart_flag C /\
    cmds' = (if need_to_restart_flag C =? 0 then [] else cmds) /\
    written_since (process pr) w' = if need_to_restart_flag C =? 0 then concat (encode <$> cmds.*2) else [].
Proof.
  intros Hos [P1 P2 P3 P4 (sent & E5 & P5) P6]. destruct (Z.eqb_spec (need_to_restart_flag C) 0) as [Hf|Hf].
  - rewrite E5 in P4. apply Forall_app in P4 as [_ Pq].
    destruct (send_loop_spec (process pr) (ref pr) its u _ cmds C (send_array pr) P1 P2 Hf (well_queue _ Pq) P3)
      as (w' & a & es & C' & E & Ht & Hes & HC' & [f1 EC'] & Hrep & _ & Ha).
    exists a, w', C', []. rewrite (send_turn_run _ _ _ _ _ _ _ _ P1 P2). split; [done|].
    unfold written_since. rewrite Ht, drop_app_length, (written_frames _ _ _ Hos Hes).
    split; [|split_and!; [by rewrite EC' | done..]]. split; simpl; try done.
    + rewrite E5. apply Forall_app. by split; [apply P5 |].
    + exists (sent ++ cmds.*2). rewrite app_nil_r. split; [done|]. destruct P5 as [H1 H2 H3]. split; simpl; [|  |done].
      * apply Forall_app. by split.
      * by rewrite app_assoc, H2, concat_encode_app.
  - exists (send_array pr), (process pr), C, cmds. rewrite (send_turn_waits _ _ _ _ _ _ _ _ P1 P2 Hf). split; [done|].
    unfold written_since. rewrite drop_all. split; [|split_and!; done]. split; simpl; try done.
    exists sent. split; [done|]. destruct P5 as [H1 H2 H3]. split; simpl; [done | by rewrite app_nil_r | done].
Qed.

(** Of what a client has read, less than a frame is not handled. *)
Lemma downward_small s ls c k handled u :
  served tid idle ls s -> small ls -> downward s ls c k handled u -> zlen u < 4 + 2048.
Proof.
  intros Hs Hsm (todo & rest & E1 & E2 & E3 & Hi).
  pose proof (to_conn_acceptable ls c Hsm) as Hacc. rewrite E1 in Hacc. apply Forall_app in Hacc as [_ Hacc].
  rewrite (served_stream tid idle ls s c Hs), E1, concat_encode_app, E3, <- app_assoc in E2.
  apply app_inv_head in E2. by apply (unparsed_small u rest todo).
Qed.

(** A turn of the receiving thread. *)
Lemma peer_recv s ls c pr C its u cmds bs rest :
  plenty -> served tid idle ls s -> small ls -> peer_state s ls c pr C its u cmds ->
  need_to_restart_flag C = 0 -> stream c s = got (line pr) ++ bs ++ rest -> 0 < zlen bs <= max_piece ->
  exists a w' C' its' u', recv_turn (ref pr) (chunk bs) (recv_array pr) (process pr) = Ok (a, w') /\
    peer_state s ls c (hears w' a bs pr) C' its' u' cmds /\ need_to_restart_flag C' = 0.
Proof.
  intros Hpl Hs Hsm [P1 P2 P3 P4 P5 (handled & P6 & E6)] Hf E Hbs.
  pose proof (downward_small _ _ _ _ _ _ Hs Hsm P6) as Hu. destruct P6 as (todo & rest0 & E1 & E2 & E3 & Hi).
  unfold max_piece in Hbs. pose proof (to_conn_acceptable ls c Hsm) as Hacc.
  pose proof (served_stream tid idle ls s c Hs) as Est. rewrite E1 in Hacc, Est.
  apply Forall_app in Hacc as [_ Hacc]. rewrite Est, E3 in E.
  destruct (frames_piece handled todo u bs rest (all_framable _ Hacc) E) as (ms & todo' & u' & -> & Eu & Hrest).
  apply Forall_app in Hacc as [Hms _].
  destruct (recv_turn_spec (process pr) (ref pr) its u (zlen (asked pr)) cmds C (chunk bs) (recv_array pr) ms u')
    as (w' & C' & add & Er & HC' & Hrep & _ & Hrs & [_ Hadd] & _); try done; simpl; try lia.
  exists (recv_into (recv_array pr) (chunk bs)), w', C', (its ++ add), u'. split; [done|].
  split; [|congruence]. split; simpl; try done.
  - destruct P5 as (sent & E5 & [H1 H2 H3]). by exists sent.
  - exists (handled ++ ms). split.
    + exists todo', rest. split_and!; simpl; [by rewrite E1, app_assoc | | | done].
      * rewrite Est, E, E3. by rewrite <- !app_assoc.
      * by rewrite E3, <- app_assoc, Eu, concat_encode_app, app_assoc.
    + rewrite fmap_app, Hadd, app_assoc, E6 by done. unfold received. by rewrite omap_app, app_assoc.
Qed.

(** The process changes, but nothing the invariant speaks of. *)
Lemma peer_runs s ls c pr C its u cmds w' a C' :
  peer_state s ls c pr C its u cmds -> client_of (ref pr) w' = Some C' ->
  client_rep (C', w_heap w') its u (zlen (asked pr)) cmds -> peer_state s ls c (hears w' a [] pr) C' its u cmds.
Proof.
  intros [P1 P2 P3 P4 (sent & E5 & [H1 H2 H3]) (handled & (todo & rest & D) & E6)] HC Hrep. split; simpl; try done.
  - by exists sent.
  - exists handled. split; [|done]. exists todo, rest. simpl. by rewrite app_nil_r.
Qed.

Lemma hears_nothing w pr : hears w (recv_array pr) [] pr = runs w pr.
Proof. unfold hears, runs, read_off. rewrite app_nil_r. by destruct (line pr). Qed.

(** The user takes what has arrived. *)
Lemma payloads_at h its :
  Forall (payload_ok h) its -> mapM (payload_at h) (ptrs_of its) = Some (it_payload <$> its).
Proof.
  induction 1 as [|it its [H1 H2] _ IH]; [done|].
  assert (payload_at h (Some (it_data it)) = Some (it_payload it)) as E.
  { unfold payload_at. simpl. rewrite H1. simpl. by rewrite H2. }
  unfold ptrs_of in *. rewrite fmap_cons. cbn [mapM]. rewrite E. cbn [mbind option_bind]. by rewrite IH.
Qed.

Lemma peer_take s ls c pr C its u cmds :
  peer_state s ls c pr C its u cmds -> zlen its <= 1024 ->
  exists ptrs w' C', recv_data_loop (S (S (size (mem (w_heap (process pr)))))) (ref pr)
      (replicate (Z.to_nat 1024) None) 0 (process pr) = Ok (ptrs, zlen its, w') /\
    mapM (payload_at (w_heap w')) (ztake (zlen its) ptrs) = Some (it_payload <$> its) /\
    peer_state s ls c (is_given w' (it_payload <$> its) pr) C' [] u cmds.
Proof.
  intros [P1 P2 P3 P4 P5 (handled & P6 & E6)] Hn.
  destruct (recv_data_loop_spec its (S (S (size (mem (w_heap (process pr)))))) (process pr) (ref pr) C u (zlen (asked pr)) cmds
    (replicate (Z.to_nat 1024) None) []) as (w' & C' & ptrs & Er & Hp & HC' & Hrep & Hok & _ & _ & _ & Hrs); try done.
  - pose proof (items_bound _ _ _ _ _ _ P2). simpl. lia.
  - by intros it x ?%elem_of_nil.
  - exists ptrs, w', C'. split; [exact Er|]. split.
    + change (zlen (@nil item) + zlen its) with (zlen its) in Hp. rewrite Hp. by apply payloads_at.
    + split; simpl; try done. exists handled. split; [done|]. by rewrite app_nil_r.
Qed.

Lemma take_count s ls c pr C its u cmds r :
  peer_state s ls c pr C its u cmds ->
  recv_data_loop (S (S (size (mem (w_heap (process pr)))))) (ref pr) (replicate (Z.to_nat 1024) None) 0
    (process pr) = Ok r -> zlen its <= 1024.
Proof.
  intros [P1 P2 _ _ _ _] E. destruct (decide (zlen its <= 1024)) as [|Hn]; [done|].
  rewrite (recv_data_loop_overflow its _ _ _ C u (zlen (asked pr)) cmds) in E; try done; [lia|].
  pose proof (items_bound _ _ _ _ _ _ P2). simpl. lia.
Qed.

(** *** The server reads *)

Lemma considerate_before ls ls' : considerate (ls ++ ls') -> considerate ls.
Proof. intros H ls1 c m ls2 ->. by apply (H ls1 c m (ls2 ++ ls')); rewrite <- app_assoc. Qed.

Lemma considerate_small ls ls' : considerate (ls ++ ls') -> small ls'.
Proof.
  intros H c m (l1 & l2 & ->)%list_elem_of_split. by apply (H (ls ++ l1) c m l2); rewrite <- app_assoc.
Qed.

Lemma considerate_politely c ms bad : forall ls,
  considerate (ls ++ read_labels c ms bad) -> politely (hub_run ls).1 c ms.
Proof.
  induction ms as [|m ms IH]; intros ls H; [done|]. split; [by apply (H ls c m (read_labels c ms bad))|].
  assert ((hub_message c m (hub_run ls).1).1 = (hub_run (ls ++ [LMsg c m])).1) as ->.
  { rewrite hub_run_snoc. destruct (hub_run ls) as [h o]. simpl. by destruct (hub_message c m h). }
  apply IH. by rewrite <- app_assoc.
Qed.

Lemma net_inv_inv n : net_inv n -> inv (server n).
Proof. intros Hn. apply (g_inv _ (proj1 (served_good tid idle _ _ (ni_served n Hn)))). Qed.

Lemma reads_buffer n c bs t ms bad s' :
  net_inv n -> reads tid c bs t n ms bad s' ->
  exists b k rest, inv (server n) /\ buf_of (server n) c = Some b /\ rep b k /\
    writerIndex_ b + zlen bs <= max_size /\ decodes (k ++ bs) ms rest bad.
Proof.
  intros Hn [_ _ (b & rest & Hb & Hmax & Hd) _]. pose proof (net_inv_inv n Hn) as Hinv.
  destruct (inv_buf _ Hinv c b Hb) as (k & Hk & _).
  rewrite (proj2 (rep_wf _ _ Hk)) in Hd. by exists b, k, rest.
Qed.

Lemma reads_served n c bs t ms bad s' :
  net_inv n -> reads tid c bs t n ms bad s' -> considerate (history n ++ read_labels c ms bad) ->
  served tid idle (history n ++ read_labels c ms bad) s'.
Proof.
  intros Hn R Hcs%considerate_politely. destruct (reads_buffer n c bs t ms bad s' Hn R) as (b & k & rest & _ & Hb & Hk & Hmax & Hd).
  pose proof (ni_served n Hn) as H1. destruct R as [R1 R2 _ R5].
  by apply (served_data tid idle (history n) (server n) c b k bs t ms rest bad s').
Qed.

Lemma reads_quiet n c bs t ms bad s' x :
  net_inv n -> reads tid c bs t n ms bad s' -> x <> c ->
  msgs_from x (read_labels c ms bad) = [] /\ quiet x (server n) s'.
Proof.
  intros Hn R Hx. destruct (reads_buffer n c bs t ms bad s' Hn R) as (b & k & rest & Hi & Hb & Hk & Hmax & Hd).
  destruct R as [R1 R2 _ R5]. rewrite msgs_from_read, decide_False by done. split; [done|].
  by apply (ev_data_buffers tid c b k bs t (server n) ms rest bad s').
Qed.

(** The bytes a client has sent to the server complete some of its commands. *)
Lemma upward_read n c k sent bs rest t ms bad s' :
  net_inv n -> upward (server n) (history n) c k sent -> up_wire k = bs ++ rest -> reads tid c bs t n ms bad s' ->
  upward s' (history n ++ read_labels c ms bad) c (arrive bs rest k) sent.
Proof.
  intros Hn [H1 E2 (r & Hd & Hbuf)] Ew R.
  destruct (reads_buffer n c bs t ms bad s' Hn R) as (b & k' & rest' & Hi & Hb & Hk & Hmax & Hd').
  destruct R as [R1 R2 _ R5]. destruct (Hbuf R1) as (b0 & Hb0 & Hk0). rewrite Hb in Hb0. injection Hb0 as <-.
  assert (k' = r) as -> by (by rewrite <- (proj2 (rep_wf _ _ Hk)), <- (proj2 (rep_wf _ _ Hk0))).
  pose proof (decodes_app _ _ _ _ _ _ _ Hd Hd') as Hall.
  assert (Forall (fun m => zlen m <= max_message) sent) as Hsm.
  { eapply Forall_impl; [exact H1|]. unfold max_message. intros m [_ Hm]. lia. }
  rewrite Ew, app_assoc in E2. destruct (frames_read _ _ _ _ _ _ Hsm E2 Hall) as (-> & [more Em] & _).
  split; simpl; [done | done |]. exists rest'.
  rewrite msgs_from_app, msgs_from_read, decide_True by done. split; [done|]. intros _.
  by apply (ev_data_buffers tid c b r bs t (server n) ms rest' false s').
Qed.

Lemma net_inv_feed n c pr bs rest t ms bad s' :
  net_inv n -> peers n !! c = Some pr -> up_wire (line pr) = bs ++ rest -> reads tid c bs t n ms bad s' ->
  considerate (history n ++ read_labels c ms bad) ->
  net_inv (on_peer c (on_line (arrive bs rest (line pr)) pr) (on_server s' (read_labels c ms bad) n)).
Proof.
  intros Hn Hc Ew R Hcs. pose proof (reads_served n c bs t ms bad s' Hn R Hcs) as Hs.
  destruct (ni_peers n Hn c pr Hc) as (C & its & u & cmds & [P1 P2 P3 P4 (sent & E5 & P5) (handled & P6 & E6)]).
  pose proof (upward_read n c _ sent bs rest t ms bad s' Hn P5 Ew R) as Hup.
  split; simpl; [done | by apply (considerate_small []) | | | |].
  - intros x pr' [[<- <-]|[Hne Hx]]%lookup_insert_Some.
    + exists C, its, u, cmds. split; simpl; try done; [by exists sent|]. exists handled. split; [|done].
      destruct (downward_server _ _ s' (read_labels c ms bad) c _ _ u P6 (ni_served n Hn) Hs) as (t1 & r1 & Hd).
      by exists t1, r1.
    + destruct (reads_quiet n c bs t ms bad s' x Hn R); [done|].
      apply (peer_inv_server (server n)); [by apply Hn | apply Hn | done..].
  - intros x k sent' Hx. assert (x <> c) by (intros ->; by rewrite (ni_apart n Hn c pr Hc) in Hx).
    destruct (reads_quiet n c bs t ms bad s' x Hn R); [done|].
    apply (upward_server (server n)); [by apply Hn | done..].
  - intros x pr' [[<- <-]|[_ Hx]]%lookup_insert_Some; simpl;
      (eapply Forall_impl; [by eapply (ni_before n Hn) | intros ss; apply over_server]).
  - intros x pr' [[<- <-]|[_ Hx]]%lookup_insert_Some; by eapply (ni_apart n Hn).
Qed.

(** Bytes of a connection that is over. *)
Lemma net_inv_late n c k sent bs rest t ms bad s' :
  net_inv n -> closed n !! c = Some (k, sent) -> up_wire k = bs ++ rest -> reads tid c bs t n ms bad s' ->
  considerate (history n ++ read_labels c ms bad) ->
  net_inv (on_closed c (arrive bs rest k) sent (on_server s' (read_labels c ms bad) n)).
Proof.
  intros Hn Hc Ew R Hcs. pose proof (reads_served n c bs t ms bad s' Hn R Hcs) as Hs.
  pose proof (upward_read n c k sent bs rest t ms bad s' Hn (ni_closed n Hn c k sent Hc) Ew R) as Hup.
  assert (forall x pr, peers n !! x = Some pr -> x <> c) as Hne.
  { intros x pr Hx ->. by rewrite (ni_apart n Hn c pr Hx) in Hc. }
  split; simpl; [done | by apply (considerate_small []) | | | |].
  - intros x pr Hx. destruct (reads_quiet n c bs t ms bad s' x Hn R); [by eapply Hne|].
    apply (peer_inv_server (server n)); [by apply Hn | apply Hn | done..].
  - intros x k' sent' [[<- [= <- <-]]|[Hx ?]]%lookup_insert_Some; [done|].
    destruct (reads_quiet n c bs t ms bad s' x Hn R); [done|].
    apply (upward_server (server n)); [by apply Hn | done..].
  - intros x pr Hx. eapply Forall_impl; [by apply (ni_before n Hn x)|].
    intros ss [[k' H1] H2]%(over_server _ (read_labels c ms bad)). split; [|done].
    destruct (decide (s_conn ss = c)) as [Ec|?]; [|exists k'; by rewrite lookup_insert_ne].
    rewrite Ec in H1 |- *. rewrite Hc in H1. injection H1 as _ <-. exists (arrive bs rest k). apply lookup_insert_eq.
  - intros x pr Hx. rewrite lookup_insert_ne by (intros <-; by eapply Hne). by apply (ni_apart n Hn x pr).
Qed.

(** *** Connections come and go *)

Lemma net_inv_up n c now s' :
  net_inv n -> unused c n -> ev_up tid c now (server n) = Ok (tt, s') ->
  net_inv (on_server s' [LUp c] n) /\ exists b, buf_of s' c = Some b /\ rep b [].
Proof.
  intros Hn (U1 & U2 & U3 & U4 & U5) E. destruct (ev_up_run tid c now (server n)) as (b & Eb & Hb).
  split.
  - apply net_inv_server; [done | | |].
    + eapply served_up; [apply Hn | done | done].
    + apply small_no_messages. intros x m. set_solver.
    + intros x Hx. split; [done|]. rewrite Eb in E. injection E as <-.
      apply quiet_up. intros ->. rewrite U1, U2 in Hx. by destruct Hx as [[? ?]|[? ?]].
  - rewrite Eb in E. injection E as <-. exists b. split; [|done].
    unfold buf_of, up_post. simpl. by rewrite lookup_insert_eq.
Qed.

(** A connection on which nothing happened yet. *)
Lemma fresh_link n c now s' :
  net_inv n -> unused c n -> ev_up tid c now (server n) = Ok (tt, s') ->
  upward s' (history n ++ [LUp c]) c link0 [] /\ downward s' (history n ++ [LUp c]) c link0 [] [].
Proof.
  intros Hn Hu E. destruct (net_inv_up n c now s' Hn Hu E) as [_ Hb]. split.
  - split; simpl; [constructor | done |]. exists []. rewrite msgs_from_app.
    destruct Hu as (_ & _ & _ & -> & _). split; [by apply decodes_short | done].
  - exists (to_conn c (hub_run (history n ++ [LUp c])).2), (stream c s'). split_and!; try done. by left.
Qed.

Lemma net_inv_join n c now s' w p a r C :
  net_inv n -> unused c n -> ev_up tid c now (server n) = Ok (tt, s') ->
  client_of p w = Some C -> client_rep (C, w_heap w) [] [] 0 [] -> zlen a = 2048 ->
  net_inv (on_peer c (mkPeer w p a r link0 [] [] []) (on_server s' [LUp c] n)).
Proof.
  intros Hn Hu E HC Hrep Ha. destruct (net_inv_up n c now s' Hn Hu E) as [Hn' _].
  destruct (fresh_link n c now s' Hn Hu E) as [Hup Hdown].
  apply net_inv_peer; [done | apply Hu | constructor |]. exists C, [], [], []. split; simpl; try done.
  - by exists [].
  - by exists [].
Qed.

(** The commands that were sent, when those that wait are known. *)
Lemma splits_sent s ls c pr C its u cmds sent queue :
  peer_state s ls c pr C its u cmds -> splits pr C sent queue -> queue = cmds.*2 /\ upward s ls c (line pr) sent.
Proof.
  intros [P1 P2 P3 P4 (sent' & E5 & P5) P6] [E Hq].
  pose proof (sr_num _ _ _ _ (cr_send _ _ _ _ _ P2)) as Hnum. simpl in Hnum.
  rewrite E5 in E. apply app_inj_2 in E as [-> ->]; [done|]. rewrite length_fmap. unfold zlen in *. lia.
Qed.

Lemma net_inv_leave n c pr C sent queue :
  net_inv n -> peers n !! c = Some pr -> client_of (ref pr) (process pr) = Some C -> splits pr C sent queue ->
  net_inv (leaves c pr sent n).
Proof.
  intros Hn Hc HC Hsp. destruct (peer_known n c pr C Hn Hc HC) as (its & u & cmds & P).
  destruct (splits_sent _ _ _ _ _ _ _ _ _ _ P Hsp) as [_ Hup].
  destruct Hn as [H1 H2 H3 H4 H5 H6]. split; simpl; [done | done | | | |].
  - intros x pr' [_ Hx]%lookup_delete_Some. by apply H3.
  - intros x k sent' [[<- [= <- <-]]|[_ Hx]]%lookup_insert_Some; [done | by apply H4].
  - intros x pr' [_ Hx]%lookup_delete_Some. eapply Forall_impl; [by apply (H5 x)|].
    intros ss [[k Hk] Hd]. split; [|done]. exists k. rewrite lookup_insert_ne; [done|].
    intros Ec. rewrite <- Ec, (H6 _ pr Hc) in Hk. done.
  - intros x pr' [Hne Hx]%lookup_delete_Some. rewrite lookup_insert_ne by done. by apply (H6 x pr').
Qed.

(** Two beginnings of the same list of messages that have the same bytes. *)
Lemma same_frames (l1 l2 l : list (list Z)) :
  l1 `prefix_of` l -> l2 `prefix_of` l -> concat (encode <$> l1) = concat (encode <$> l2) -> l1 = l2.
Proof.
  assert (forall a b : list (list Z), a `prefix_of` b -> concat (encode <$> a) = concat (encode <$> b) -> a = b) as H.
  { intros a b [[|x d] ->] E; [by rewrite app_nil_r|]. exfalso. apply (f_equal zlen) in E.
    rewrite concat_encode_app, zlen_app, fmap_cons in E. cbn [concat] in E. unfold encode at 3 in E.
    rewrite !zlen_app, zlen_be_bytes in E. pose proof (zlen_nonneg x).
    pose proof (zlen_nonneg (concat (encode <$> d))). lia. }
  intros H1 H2 E. destruct (prefix_weak_total _ _ _ H1 H2) as [Hp|Hp]; [by apply H | symmetry; by apply H].
Qed.

Lemma fifo_clear C h its u k cmds :
  client_rep (C, h) its u k cmds -> recv_data_fifo_length (recv_fifo C) = 0 -> u = [].
Proof.
  intros H Hlen. pose proof (fifo_length _ _ (cr_fifo _ _ _ _ _ H)) as Hl. simpl in Hl.
  unfold recv_data_fifo_length in Hlen. apply zlen_0. lia.
Qed.

(** A client reconnects: it keeps its commands and its data. *)
Lemma peer_restart n c pr C its cmds c' now s' sent handled :
  net_inv n -> peer_state (server n) (history n) c pr C its [] cmds ->
  issued pr = sent ++ cmds.*2 -> got (line pr) = concat (encode <$> handled) ->
  handled `prefix_of` to_conn c (hub_run (history n)).2 ->
  unused c' n -> ev_up tid c' now (server n) = Ok (tt, s') ->
  exists C', need_to_restart_flag C' = (if connects (process pr) then 0 else need_to_restart_flag C) /\
    peer_state s' (history n ++ [LUp c']) c'
      (reconnected (restarted (ref pr) C (process pr)) c sent (received handled) cmds.*2 pr) C' its [] cmds.
Proof.
  intros Hn P Esp Eg Hpre Hu Eup. destruct (fresh_link n c' now s' Hn Hu Eup) as [Hup Hdown].
  destruct P as [P1 P2 P3 P4 _ (handled' & (todo & rest & E1 & _ & E3 & _) & E6)].
  rewrite app_nil_r in E3. assert (handled' = handled) as ->.
  { eapply same_frames; [|exact Hpre|congruence]. rewrite E1. by exists todo. }
  destruct (restarted_holds _ _ _ _ _ _ _ P1 P2) as (C2 & HC2 & Hrep2). exists C2. split.
  - rewrite (restarted_client _ _ _ P1) in HC2. injection HC2 as <-. by destruct (connects (process pr)).
  - split; simpl; try done.
    + by rewrite (asked_reconnected _ _ _ _ _ _ Esp).
    + rewrite Esp in P4. by apply Forall_app in P4 as [_ ?].
    + by exists [].
    + exists []. split; [done|]. rewrite old_data_reconnected, app_nil_r. exact E6.
Qed.

Lemma net_inv_restart n c pr C w' c' now s' sent queue handled :
  net_inv n -> peers n !! c = Some pr -> client_of (ref pr) (process pr) = Some C -> need_to_restart_flag C <> 0 ->
  restart_part (ref pr) C (process pr) = Ok (false, w') ->
  recv_data_fifo_length (recv_fifo C) = 0 -> splits pr C sent queue ->
  got (line pr) = concat (encode <$> handled) -> handled `prefix_of` to_conn c (hub_run (history n)).2 ->
  unused c' n -> ev_up tid c' now (server n) = Ok (tt, s') ->
  net_inv (on_peer c' (reconnected w' c sent (received handled) queue pr)
             (leaves c pr sent (on_server s' [LUp c'] n))).
Proof.
  intros Hn Hc HC Hf Er Hlen Hsp Eg Hpre Hu Eup.
  destruct (net_inv_up n c' now s' Hn Hu Eup) as [Hn1 _].
  assert (c' <> c) as Hne by (intros ->; destruct Hu; congruence).
  pose proof (net_inv_leave (on_server s' [LUp c'] n) c pr C sent queue Hn1 Hc HC Hsp) as Hn2.
  destruct (peer_known n c pr C Hn Hc HC) as (its & u & cmds & P).
  destruct (splits_sent _ _ _ _ _ _ _ _ _ _ P Hsp) as [-> _].
  assert (u = []) as -> by (eapply fifo_clear; [apply P | done]).
  rewrite (restart_part_run _ _ _ HC Hf) in Er. injection Er as _ <-.
  destruct (peer_restart n c pr C its cmds c' now s' sent handled Hn P (proj1 Hsp) Eg Hpre Hu Eup) as (C2 & _ & P2).
  apply net_inv_peer; [done | | |by exists C2, its, [], cmds].
  - simpl. rewrite lookup_insert_ne by done. apply Hu.
  - simpl. apply Forall_app. split.
    + pose proof (ni_before _ Hn1 c pr Hc) as Hb. eapply Forall_impl; [exact Hb|]. intros ss [[k Hk] Hd].
      split; [|done]. exists k. rewrite lookup_insert_ne; [done|]. intros Ec. simpl in Hk. rewrite <- Ec in Hk.
      by rewrite (ni_apart n Hn c pr Hc) in Hk.
    + constructor; [|constructor]. split; simpl; [exists (line pr); apply lookup_insert_eq|].
      destruct (to_conn_extends c (history n) [LUp c']) as [more ->]. destruct Hpre as [todo ->]. unfold received.
      rewrite !omap_app, <- !app_assoc. by apply prefix_app_r.
Qed.

(** *** Every step *)

Lemma recv_fails w p c r buf :
  client_of p w = Some c -> rr_ret r <= 0 -> rr_errno r <> EINTR ->
  exists a, recv_turn p r buf w = Ok (a, if need_to_restart_flag c =? 0 then put_client p (set_restart 1 c) w else w).
Proof.
  intros Hc H1 H2. unfold recv_turn, wbind at 1. rewrite (the_client_run p w c Hc). cbn [res_bind].
  destruct (need_to_restart_flag c =? 0); cbn [negb]; [|eauto].
  rewrite (proj2 (Z.leb_le _ _) H1), (proj2 (Z.eqb_neq _ _) H2). cbn [negb andb].
  unfold wbind. rewrite (update_client_run p _ w c Hc). cbn [res_bind]. eauto.
Qed.

Lemma client_rep_beaten ret C h its u k cmds :
  client_rep (C, h) its u k cmds -> client_rep (beaten ret C, h) its u k cmds.
Proof. apply client_rep_same; unfold beaten; by destruct (3 <=? _). Qed.

(** The steps of a client that has lost its connection. *)
Lemma net_inv_lost n c pr r a w' :
  net_inv n -> peers n !! c = Some pr -> rr_ret r <= 0 -> rr_errno r <> EINTR ->
  recv_turn (ref pr) r (recv_array pr) (process pr) = Ok (a, w') -> net_inv (on_peer c (hears w' a [] pr) n).
Proof.
  intros Hn Hc H1 H2 E. apply (net_inv_moves n c pr); [done..|].
  destruct (ni_peers n Hn c pr Hc) as (C & its & u & cmds & P).
  pose proof (p_client _ _ _ _ _ _ _ _ P) as HC. pose proof (p_rep _ _ _ _ _ _ _ _ P) as Hrep.
  destruct (recv_fails (process pr) (ref pr) C r (recv_array pr) HC H1 H2) as [a' E']. rewrite E' in E. injection E as <- <-.
  destruct (need_to_restart_flag C =? 0).
  - exists (set_restart 1 C), its, u, cmds. apply (peer_runs _ _ _ _ C); [done | |].
    + rewrite (client_of_put _ _ _ _ C) by done. by rewrite decide_True.
    + rewrite heap_put. by apply (client_rep_same C).
  - exists C, its, u, cmds. by apply (peer_runs _ _ _ _ C).
Qed.

Lemma net_inv_beat n c pr ret w' :
  net_inv n -> peers n !! c = Some pr -> beat_done (ref pr) ret (process pr) = Ok (tt, w') ->
  net_inv (on_peer c (runs w' pr) n).
Proof.
  intros Hn Hc E. apply (net_inv_moves n c pr); [done..|].
  destruct (ni_peers n Hn c pr Hc) as (C & its & u & cmds & P). pose proof (p_client _ _ _ _ _ _ _ _ P) as HC.
  rewrite (beat_done_run _ _ _ C HC) in E. injection E as <-. rewrite <- hears_nothing.
  exists (beaten ret C), its, u, cmds. apply (peer_runs _ _ _ _ C); [done | |].
  - rewrite (client_of_put _ _ _ _ C) by done. by rewrite decide_True.
  - rewrite heap_put. by apply client_rep_beaten, P.
Qed.

Lemma net_inv_retry n c pr C w' :
  net_inv n -> peers n !! c = Some pr -> client_of (ref pr) (process pr) = Some C ->
  restart_part (ref pr) C (process pr) = Ok (true, w') -> net_inv (on_peer c (runs w' pr) n).
Proof.
  intros Hn Hc HC E. apply (net_inv_moves n c pr); [done..|].
  destruct (peer_known n c pr C Hn Hc HC) as (its & u & cmds & P). rewrite <- hears_nothing.
  destruct (Z.eqb_spec (need_to_restart_flag C) 0) as [Hf|Hf].
  { unfold restart_part in E. by rewrite Hf in E. }
  rewrite (restart_part_run _ _ _ HC Hf) in E. injection E as _ <-.
  destruct (restarted_holds _ _ _ _ _ _ _ HC (p_rep _ _ _ _ _ _ _ _ P)) as (C2 & HC2 & Hrep2).
  exists C2, its, u, cmds. by apply (peer_runs _ _ _ _ C).
Qed.

(** The turns that move data. *)
Lemma net_inv_send n c pr a w' :
  sends_all -> net_inv n -> peers n !! c = Some pr ->
  send_turn (ref pr) (send_array pr) (process pr) = Ok (a, w') ->
  net_inv (on_peer c (transmits w' a (written_since (process pr) w') pr) n).
Proof.
  intros Hos Hn Hc E. apply (net_inv_moves n c pr); [done..|].
  destruct (ni_peers n Hn c pr Hc) as (C & its & u & cmds & P).
  destruct (peer_send _ _ _ _ _ _ _ _ Hos P) as (a1 & w1 & C1 & cmds1 & E1 & P1 & _).
  rewrite E1 in E. injection E as -> ->. by exists C1, its, u, cmds1.
Qed.

Lemma net_inv_recv n c pr C bs rest a w' :
  plenty -> net_inv n -> peers n !! c = Some pr -> client_of (ref pr) (process pr) = Some C ->
  need_to_restart_flag C = 0 -> stream c (server n) = got (line pr) ++ bs ++ rest -> 0 < zlen bs <= max_piece ->
  recv_turn (ref pr) (chunk bs) (recv_array pr) (process pr) = Ok (a, w') -> net_inv (on_peer c (hears w' a bs pr) n).
Proof.
  intros Hpl Hn Hc HC Hf Est Hbs E. apply (net_inv_moves n c pr); [done..|].
  destruct (peer_known n c pr C Hn Hc HC) as (its & u & cmds & P).
  destruct (peer_recv _ _ _ _ _ _ _ _ bs rest Hpl (ni_served n Hn) (ni_small n Hn) P Hf Est Hbs)
    as (a1 & w1 & C1 & its1 & u1 & E1 & P1 & _).
  rewrite E1 in E. injection E as -> ->. by exists C1, its1, u1, cmds.
Qed.

Lemma net_inv_take n c pr ptrs k w' ds :
  net_inv n -> peers n !! c = Some pr ->
  recv_data_loop (S (S (size (mem (w_heap (process pr)))))) (ref pr) (replicate (Z.to_nat 1024) None) 0
    (process pr) = Ok (ptrs, k, w') ->
  mapM (payload_at (w_heap w')) (ztake k ptrs) = Some ds -> net_inv (on_peer c (is_given w' ds pr) n).
Proof.
  intros Hn Hc E Eds. apply (net_inv_moves n c pr); [done..|].
  destruct (ni_peers n Hn c pr Hc) as (C & its & u & cmds & P).
  pose proof (take_count _ _ _ _ _ _ _ _ _ P E) as Hcount.
  destruct (peer_take _ _ _ _ _ _ _ _ P Hcount) as (ptrs1 & w1 & C1 & E1 & Eds1 & P1).
  rewrite E1 in E. injection E as <- <- <-. rewrite Eds1 in Eds. injection Eds as <-. by exists C1, [], u, cmds.
Qed.

(** The events of the server that bring no message. *)
Lemma net_inv_down n c now s' :
  net_inv n -> up (server n) c -> ev_down tid c now (server n) = Ok (tt, s') -> net_inv (on_server s' [LDown c] n).
Proof.
  intros Hn Hup E. pose proof (net_inv_inv n Hn) as Hinv.
  apply net_inv_server; [done | by eapply served_down; [apply Hn|..] | |].
  - apply small_no_messages. intros x m. set_solver.
  - intros x Hx. split; [done|]. destruct (inv_info _ c Hinv Hup) as [i Hi].
    rewrite ev_down_run in E by done. injection E as <-. by eapply quiet_down.
Qed.

Lemma net_inv_timer n now s' :
  net_inv n -> onTimer now (server n) = Ok (tt, s') ->
  net_inv (on_server s' (LClose <$> victims now (server n) (_connectionList (server n)).*2) n).
Proof.
  intros Hn E. pose proof (net_inv_inv n Hn) as Hinv.
  apply net_inv_server; [done | by eapply served_timer; [apply Hn|] | |].
  - apply small_no_messages. intros x m (y & [=] & _)%list_elem_of_fmap.
  - intros x Hx. split; [apply msgs_from_closes|]. rewrite onTimer_run in E by done.
    injection E as <-. apply quiet_timed.
Qed.

Lemma net_inv_step n n' :
  plenty -> sends_all -> net_inv n -> nstep tid n n' -> considerate (history n') -> net_inv n'.
Proof.
  intros Hpl Hos Hn Hstep Hcs. destruct Hstep.
  - by eapply net_inv_join.
  - by eapply net_inv_issue.
  - by eapply net_inv_send.
  - by eapply net_inv_feed.
  - by eapply net_inv_recv.
  - by eapply net_inv_take.
  - by eapply net_inv_lost.
  - by eapply net_inv_beat.
  - by eapply net_inv_retry.
  - by eapply net_inv_restart.
  - by eapply net_inv_leave.
  - by eapply net_inv_late.
  - by eapply net_inv_up.
  - apply net_inv_server; [done | by eapply reads_served | apply (considerate_small (history n)), Hcs |].
    intros x Hx. eapply reads_quiet; [done..|]. intros ->. by destruct Hx as [[? ?]|[? ?]]; congruence.
  - by eapply net_inv_down.
  - apply net_inv_server; [done | rewrite app_nil_r; by apply served_destroy; [apply Hn|] | |].
    + intros x m []%elem_of_nil.
    + intros x Hx. split; [done | apply quiet_destroy].
  - by eapply net_inv_timer.
Qed.

Lemma history_extends n n' : nstep tid n n' -> history n `prefix_of` history n'.
Proof. by destruct 1; simpl; try apply prefix_app_r. Qed.

Lemma histories_extend n n' : rtc (nstep tid) n n' -> history n `prefix_of` history n'.
Proof. induction 1; [done|]. etrans; [by apply history_extends | done]. Qed.

Lemma net_inv_reachable n :
  plenty -> sends_all -> net_reachable tid idle n -> considerate (history n) -> net_inv n.
Proof.
  intros Hpl Hos H Hcs. unfold net_reachable in H.
  assert (forall m, net_inv m -> rtc (nstep tid) m n -> net_inv n) as Hind.
  { intros m Hm Hr. induction Hr as [|n1 n2 n3 Hstep Hr IH]; [done|]. apply IH; [done..|].
    eapply net_inv_step; [done..|exact Hstep|].
    destruct (histories_extend _ _ Hr) as [ls E]. rewrite E in Hcs. by eapply considerate_before. }
  apply (Hind (net0 idle)); [|done]. split; simpl; [constructor | by intros c m []%elem_of_nil |..].
  all: intros c ?; by rewrite lookup_empty.
Qed.

End invariant.
