(* ===== verification/NetworkProps.v ===== *)
(** * The theorems about the whole system

    The promise of the system is the hub of Hub.v.  [network_safe] relates them in
    every state a network reaches with considerate clients, [network_delivers] and [network_complete] say
    that nothing gets stuck or lost on the way, [network_reconnects] what a restart
    of a connection keeps, [network_runs] that no turn fails, and
    [data_from_subscription] is what a user cares about: the data that is handed
    over was sent, and by somebody he had subscribed to.

    The second half of the file is a network that runs: [act] performs one step, and
    the theorems are applied to the state it reaches. *)

From S2P Require Import Prelude Endian StringPiece Buffer Codec Muduo Server ServerSpec ServerInv ServerProps Hub Ring RecvFifo Heap RecvList SendFifo Client Wire Api ClientList ApiSpec ApiProps Restart EndToEnd Network.

(** ** Lemmas: where data comes from *)






(** ** Theorems *)

Section theorems.
Context {host : Host} {lib : TcpLib} {libok : TcpLibOk} {al : Alloc} {os : OS} (tid idle : Z).

(** The payloads that wait in a client for its user, and the commands that wait. *)
Definition waits (pr : peer) (ds : list (list Z)) (cmds : list command) : Prop :=
  exists its bs k, holds (process pr) (ref pr) its bs k cmds /\ it_payload <$> its = ds.

Lemma peer_waits s ls c pr C its u cmds :
  peer_state s ls c pr C its u cmds -> waits pr (it_payload <$> its) cmds.
Proof. intros [P1 P2 _ _ _ _]. exists its, u, (zlen (asked pr)). split; [by exists C | done]. Qed.










(** The hub knows nothing of a connection that has just come up. *)
Lemma newcomer n c now s' :
  net_inv tid idle n -> unused c n -> ev_up tid c now (server n) = Ok (tt, s') ->
  let h := (hub_run (history n ++ [LUp c])).1 in
  members h !! c = Some (mkMember true []) /\ forall d, registry h !! d <> Some c.
Proof.
  intros Hn (_ & _ & U3 & _) E h. pose proof (net_inv_inv tid idle n Hn) as Hinv.
  pose proof (proj2 (served_good tid idle _ _ (ni_served _ _ n Hn))) as [Habs _].
  unfold h, hub_run in *. rewrite foldl_app. destruct (foldl hub_do (hub0, []) (history n)) as [h0 out] eqn:E0.
  simpl in *. split; [apply lookup_insert_eq|]. intros d Hd. rewrite <- Habs, registry_abs in Hd.
  destruct (i_map _ (inv_reg _ Hinv) d c Hd) as [i Hi]. unfold info in Hi. by rewrite U3 in Hi.
Qed.

(** C5: with considerate clients (no second or reserved id, messages of at most
    2048 bytes; [send] takes all, memory is there, and a client is asked for at
    most 8192 commands), a restart loses no command that waits and no data.  A
    client finds its connection broken, with no frame cut off, and the system
    lets it connect again: then it gets to a state in which it is connected
    under the new number; the commands are divided into those sent on the old
    connection and those that waited, and the latter are on the new wire; the
    data that waited for the user still does.  The hub, however, takes it for a
    new member: it has no id, and its data goes to nobody until it registers and
    others subscribe again. *)
Theorem network_reconnects (n : net) (c c' : connid) (pr : peer) (C : stupid_p2p_t) (now : Timestamp) :
  plenty -> sends_all -> net_reachable tid idle n -> considerate (history n) -> peers n !! c = Some pr ->
  client_of (ref pr) (process pr) = Some C -> need_to_restart_flag C <> 0 ->
  recv_data_fifo_length (recv_fifo C) = 0 -> connects (process pr) = true -> unused c' n ->
  exists n' pr' sent data ds cmds, rtc (nstep tid) n n' /\ peers n' = <[c' := pr']> (delete c (peers n)) /\
    waits pr ds cmds /\ issued pr = sent ++ cmds.*2 /\
    before pr' = before pr ++ [mkSession c sent data] /\ issued pr' = cmds.*2 /\
    fed (line pr') = [] /\ up_wire (line pr') = concat (encode <$> cmds.*2) /\
    taken pr' = taken pr /\ waits pr' ds [] /\
    members (abs (server n')) !! c' = Some (mkMember true []) /\
    (forall d, registry (abs (server n')) !! d <> Some c').
Proof.
  intros Hpl Hos Hr Hcs Hc HC Hf Hlen Hcon Hu. pose proof (net_inv_reachable tid idle n Hpl Hos Hr Hcs) as Hn.
  destruct (peer_known tid idle n c pr C Hn Hc HC) as (its & u & cmds & P).
  assert (u = []) as -> by (eapply fifo_clear; [apply P | done]).
  destruct (id (p_up _ _ _ _ _ _ _ _ P)) as (sent & Esp & _).
  destruct (id (p_down _ _ _ _ _ _ _ _ P)) as (handled & (todo & rest & E1 & _ & E3 & _) & _).
  rewrite app_nil_r in E3. assert (handled `prefix_of` to_conn c (hub_run (history n)).2) as Hpre by (rewrite E1; by exists todo).
  destruct (ev_up_run tid c' now (server n)) as (b & Eup & _). set (s' := up_post c' b now (server n)) in Eup.
  destruct (peer_restart tid idle n c pr C its cmds c' now s' sent handled Hn P Esp E3 Hpre Hu Eup) as (C1 & Hf1 & P1).
  rewrite Hcon in Hf1. set (w' := restarted _ _ _) in P1. set (pr1 := reconnected _ _ _ _ _ _) in P1.
  set (n1 := on_peer c' pr1 (leaves c pr sent (on_server s' [LUp c'] n))).
  destruct (peer_send _ _ _ _ _ _ _ _ Hos P1) as (a & w2 & C2 & cmds2 & E2 & P2 & _ & Hq & _).
  rewrite Hf1 in Hq. simpl in Hq. subst cmds2. set (pr2 := transmits _ _ _ pr1) in P2.
  exists (on_peer c' pr2 n1), pr2, sent, (received handled), (it_payload <$> its), cmds.
  destruct (newcomer n c' now s' Hn Hu Eup) as [Hm Hreg].
  assert (abs s' = (hub_run (history n ++ [LUp c'])).1) as Habs.
  { eapply served_good, served_up; [apply Hn | apply Hu | exact Eup]. }
  cbn [server on_peer n1 leaves on_server]. rewrite Habs. split_and!; try done.
  - eapply rtc_l; [|eapply rtc_once, (n_send tid n1 c' pr1); [apply lookup_insert_eq | exact E2]].
    eapply (n_restart tid n c pr C w' c' now s' sent cmds.*2 handled); try done.
    + by rewrite (restart_part_run _ _ _ HC Hf), Hcon.
    + split; [done|]. pose proof (sr_num _ _ _ _ (cr_send _ _ _ _ _ (p_rep _ _ _ _ _ _ _ _ P))) as Hnum.
      simpl in Hnum. rewrite Hnum. unfold zlen. by rewrite length_fmap.
  - simpl. by rewrite insert_insert_eq.
  - by eapply peer_waits.
  - destruct (p_up _ _ _ _ _ _ _ _ P2) as (sent2 & E & [_ Hs _]). rewrite app_nil_r in E. by rewrite <- E in Hs.
  - by eapply peer_waits.
Qed.



End theorems.

(** ** An executable network *)

Section exec.
Context {host : Host} {lib : TcpLib} {al : Alloc} {os : OS} (tid : Z).

Definition polite_check (h : hub) (c : connid) (m : list Z) : bool :=
  if message_0 m =? Server.REGISTER_DEVICE then
    bool_decide (message_tail m <> deleted) && bool_decide (m_open <$> members h !! c = Some true) &&
    forallb (fun '(d, x) => bool_decide (x = c -> d = message_tail m)) (map_to_list (registry h))
  else true.

Lemma polite_check_spec h c m : polite_check h c m = true -> polite h c m.
Proof.
  unfold polite_check, polite. intros H E. rewrite E in H. simpl in H.
  apply andb_prop in H as [[H1%bool_decide_eq_true H2%bool_decide_eq_true]%andb_prop H3].
  split_and!; [done | done |]. intros d Hd. apply elem_of_map_to_list in Hd. apply list_elem_of_In in Hd.
  pose proof (proj1 (forallb_forall _ _) H3 (d, c) Hd) as Hx. simpl in Hx. apply bool_decide_eq_true in Hx. auto.
Qed.

Fixpoint considerate_check (st : hub * list output) (ls : list label) : bool :=
  match ls with
  | [] => true
  | l :: ls =>
      match l with
      | LMsg c m => polite_check st.1 c m && bool_decide (bytes m) && (zlen m <=? 2048)
      | _ => true
      end && considerate_check (hub_do st l) ls
  end.

Lemma considerate_check_spec ls : considerate_check (hub0, []) ls = true -> considerate ls.
Proof.
  assert (forall ls2 ls1, considerate_check (hub_run ls1) ls2 = true ->
    forall l1 c m l2, ls2 = l1 ++ LMsg c m :: l2 -> polite (hub_run (ls1 ++ l1)).1 c m /\ bytes m /\ zlen m <= 2048) as H.
  { induction ls2 as [|l ls2 IH]; intros ls1 Hc l1 c m l2 E; [by destruct l1|].
    cbn [considerate_check] in Hc. apply andb_prop in Hc as [H1 H2]. destruct l1 as [|l' l1]; injection E as -> E.
    - rewrite app_nil_r. apply andb_prop in H1 as [[?%polite_check_spec ?%bool_decide_eq_true]%andb_prop ?%Z.leb_le]. done.
    - rewrite (cons_middle l' ls1 l1), app_assoc. rewrite <- hub_run_snoc in H2. by apply (IH _ H2 _ _ _ l2). }
  intros Hc ls1 c m ls2. by apply (H ls []).
Qed.

Inductive action :=
  | AJoin (c : connid) (now : Timestamp)
  | AIssue (c : connid) (command : Z) (d : list Z)
  | ASend (c : connid)
  | AFeed (c : connid) (ms : list (list Z)) (t : Timestamp)   (* whole frames *)
  | ARecv (c : connid) (n : nat)
  | ATake (c : connid)
  | ALost (c : connid)
  | ABeat (c : connid) (ret : Z)
  | ARestart (c c' : connid) (k : nat) (now : Timestamp)      (* [k] messages were handled *)
  | ALate (c : connid) (ms : list (list Z)) (t : Timestamp).

(** A client as [stupid_p2p_init] leaves it, alone in its process. *)
Definition new_process : world :=
  mkWorld heap0 {[0%nat := started 0 0 5 1 None]} (set_p2p_next (Some 0%nat) p2p_zero) 1 1 [].

(** Whole frames that arrive at the server on the connection [c]. *)
Definition frames_arrive (c : connid) (k : link) (ms : list (list Z)) (t : Timestamp) (n : net) : option (link * p2pServer) :=
  let bs := concat (encode <$> ms) in
  if bool_decide (up_wire k = bs ++ zdrop (zlen bs) (up_wire k)) && up_b (server n) c &&
     bool_decide (bytes bs) && forallb (fun m => zlen m <=? max_message) ms &&
     from_option (fun b => bool_decide (content b = []) && (writerIndex_ b + zlen bs <=? max_size)) false
       (buf_of (server n) c) then
    match ev_data tid c bs t (server n) with
    | Ok (_, s') => Some (arrive bs (zdrop (zlen bs) (up_wire k)) k, s')
    | Err _ => None
    end
  else None.

Definition act (x : action) (n : net) : option net :=
  match x with
  | AJoin c now =>
      if bool_decide (unused c n) then
        match ev_up tid c now (server n) with
        | Ok (_, s') => Some (on_peer c (mkPeer new_process (CNode 0) (replicate (Z.to_nat 2048) 0) [] link0 [] [] [])
                                (on_server s' [LUp c] n))
        | Err _ => None
        end
      else None
  | AIssue c command d =>
      pr ← peers n !! c;
      f ← command_flag command;
      if (zlen (asked pr) <? 8192) && (zlen d <=? 256) && bool_decide (bytes (command :: d)) then
        match issue (ref pr) command f (Some (mkPtr d 0)) (zlen d) (process pr) with
        | Ok (Some _, w') => Some (on_peer c (asks w' (command :: d) pr) n)
        | _ => None
        end
      else None
  | ASend c =>
      pr ← peers n !! c;
      match send_turn (ref pr) (send_array pr) (process pr) with
      | Ok (a, w') => Some (on_peer c (transmits w' a (written_since (process pr) w') pr) n)
      | Err _ => None
      end
  | AFeed c ms t =>
      pr ← peers n !! c;
      '(k, s') ← frames_arrive c (line pr) ms t n;
      Some (on_peer c (on_line k pr) (on_server s' (read_labels c ms false) n))
  | ARecv c k =>
      pr ← peers n !! c;
      C ← client_of (ref pr) (process pr);
      let rest := drop (length (got (line pr))) (stream c (server n)) in
      let bs := take k rest in
      if bool_decide (stream c (server n) = got (line pr) ++ bs ++ drop k rest) &&
         (need_to_restart_flag C =? 0) && (0 <? zlen bs) && (zlen bs <=? max_piece) then
        match recv_turn (ref pr) (chunk bs) (recv_array pr) (process pr) with
        | Ok (a, w') => Some (on_peer c (hears w' a bs pr) n)
        | Err _ => None
        end
      else None
  | ATake c =>
      pr ← peers n !! c;
      match recv_data_loop (S (S (size (mem (w_heap (process pr)))))) (ref pr)
              (replicate (Z.to_nat 1024) None) 0 (process pr) with
      | Ok (ptrs, k, w') =>
          ds ← mapM (payload_at (w_heap w')) (ztake k ptrs);
          Some (on_peer c (is_given w' ds pr) n)
      | Err _ => None
      end
  | ALost c =>
      pr ← peers n !! c;
      match recv_turn (ref pr) (mkRecv 0 [] 0) (recv_array pr) (process pr) with
      | Ok (a, w') => Some (on_peer c (hears w' a [] pr) n)
      | Err _ => None
      end
  | ABeat c ret =>
      pr ← peers n !! c;
      match beat_done (ref pr) ret (process pr) with
      | Ok (_, w') => Some (on_peer c (runs w' pr) n)
      | Err _ => None
      end
  | ARestart c c' k now =>
      pr ← peers n !! c;
      C ← client_of (ref pr) (process pr);
      let queue := Z.to_nat (sf_num (send_fifo C)) in
      let sent := take (length (issued pr) - queue) (issued pr) in
      let rest := drop (length (issued pr) - queue) (issued pr) in
      let handled := take k (to_conn c (hub_run (history n)).2) in
      if negb (need_to_restart_flag C =? 0) && (recv_data_fifo_length (recv_fifo C) =? 0) &&
         (zlen rest =? sf_num (send_fifo C)) && bool_decide (got (line pr) = concat (encode <$> handled)) &&
         bool_decide (unused c' n) then
        match restart_part (ref pr) C (process pr), ev_up tid c' now (server n) with
        | Ok (false, w'), Ok (_, s') =>
            Some (on_peer c' (reconnected w' c sent (received handled) rest pr)
                    (leaves c pr sent (on_server s' [LUp c'] n)))
        | _, _ => None
        end
      else None
  | ALate c ms t =>
      '(k, sent) ← closed n !! c;
      '(k', s') ← frames_arrive c k ms t n;
      Some (on_closed c k' sent (on_server s' (read_labels c ms false) n))
  end.

Fixpoint acts (xs : list action) (n : net) : option net :=
  match xs with [] => Some n | x :: xs => act x n ≫= acts xs end.

Lemma frames_arrive_reads c k ms t n k' s' :
  frames_arrive c k ms t n = Some (k', s') ->
  exists bs rest, up_wire k = bs ++ rest /\ k' = arrive bs rest k /\ reads tid c bs t n ms false s'.
Proof.
  unfold frames_arrive. destruct (_ && _) eqn:G; [|done].
  destruct (ev_data _ _ _ _ _) as [[[] s]|] eqn:E; [|done]. intros [= <- <-].
  apply andb_prop in G as [[[[G1%bool_decide_eq_true G2%up_b_spec]%andb_prop G3%bool_decide_eq_true]%andb_prop
    G4]%andb_prop G5].
  eexists _, _. split; [exact G1|]. split; [done|]. split; try done.
  destruct (buf_of (server n) c) as [b|]; simpl in G5; [|done].
  apply andb_prop in G5 as [Gc%bool_decide_eq_true Gm%Z.leb_le]. exists b, []. split_and!; try done.
  rewrite Gc. apply decodes_frames. apply Forall_forall. intros m Hm.
  apply Z.leb_le. by apply (proj1 (forallb_forall _ _) G4), list_elem_of_In.
Qed.

Lemma act_restart_step c c' k now n n' : act (ARestart c c' k now) n = Some n' -> nstep tid n n'.
Proof.
  cbn [act]. intros (pr & Hc & (C & HC & H)%bind_Some)%bind_Some.
  destruct (_ && _) eqn:G; [|done]. destruct (restart_part _ _ _) as [[[] w']|] eqn:Er; try done.
  destruct (ev_up _ _ _ _) as [[[] s']|] eqn:Eup; [|done]. injection H as <-.
  apply andb_prop in G as [[[[G1 G2%Z.eqb_eq]%andb_prop G3%Z.eqb_eq]%andb_prop
    G4%bool_decide_eq_true]%andb_prop G5%bool_decide_eq_true].
  eapply n_restart; try done; [by intros Hf; rewrite Hf in G1 | split; [by rewrite take_drop | done] | apply prefix_take].
Qed.

Lemma act_step x n n' : act x n = Some n' -> nstep tid n n'.
Proof.
  destruct x as [c now|c command d|c|c ms t|c k|c|c|c ret|c c' k now|c ms t]; [..|apply act_restart_step|]; cbn [act]; intros H.
  - case_bool_decide as Hu; [|done]. destruct (ev_up tid c now (server n)) as [[[] s']|] eqn:E; [|done].
    injection H as <-. eapply n_join; try done. apply started_rep, heap0_wf.
  - apply bind_Some in H as (pr & Hc & (f & Hf & H)%bind_Some).
    destruct (_ && _) eqn:G; [|done]. apply andb_prop in G as [[G1%Z.ltb_lt G2%Z.leb_le]%andb_prop G3%bool_decide_eq_true].
    destruct (issue _ _ _ _ _ _) as [[[l|] w']|] eqn:E; try done. injection H as <-.
    apply (n_issue tid n c pr command f (Some (mkPtr d 0)) (zlen d) d l w'); try done; [zlia | apply deref_whole].
  - apply bind_Some in H as (pr & Hc & H). destruct (send_turn _ _ _) as [[a w']|] eqn:E; [|done].
    injection H as <-. by eapply n_send.
  - apply bind_Some in H as (pr & Hc & ([k s'] & Hk & [= <-])%bind_Some).
    apply frames_arrive_reads in Hk as (bs & rest & Ew & -> & R). by eapply n_feed.
  - apply bind_Some in H as (pr & Hc & (C & HC & H)%bind_Some). destruct (_ && _) eqn:G; [|done].
    destruct (recv_turn _ _ _ _) as [[a w']|] eqn:E; [|done]. injection H as <-.
    apply andb_prop in G as [[[G1%bool_decide_eq_true G0%Z.eqb_eq]%andb_prop G2%Z.ltb_lt]%andb_prop G3%Z.leb_le].
    by eapply n_recv.
  - apply bind_Some in H as (pr & Hc & H). destruct (recv_data_loop _ _ _ _ _) as [[[ptrs k] w']|] eqn:E; [|done].
    apply bind_Some in H as (ds & Hds & [= <-]). by eapply n_take.
  - apply bind_Some in H as (pr & Hc & H). destruct (recv_turn _ _ _ _) as [[a w']|] eqn:E; [|done].
    injection H as <-. by eapply (n_lost tid n c pr (mkRecv 0 [] 0)).
  - apply bind_Some in H as (pr & Hc & H). destruct (beat_done _ _ _) as [[[] w']|] eqn:E; [|done].
    injection H as <-. by eapply n_beat.
  - apply bind_Some in H as ([k sent] & Hc & ([k' s'] & Hk & [= <-])%bind_Some).
    apply frames_arrive_reads in Hk as (bs & rest & Ew & -> & R). by eapply n_late.
Qed.

Lemma acts_reachable idle xs : forall n n',
  net_reachable tid idle n -> acts xs n = Some n' -> net_reachable tid idle n'.
Proof.
  induction xs as [|x xs IH]; simpl; intros n n' Hr H; [by injection H as <-|].
  apply bind_Some in H as (n1 & E & H). eapply IH; [|exact H]. unfold net_reachable in *.
  eapply rtc_r; [exact Hr | by apply (act_step x)].
Qed.

End exec.

(** ** The theorems at a concrete network *)

#[local] Existing Instance demo_host.
#[local] Existing Instance demo_lib.
#[local] Existing Instance demo_lib_ok.
#[local] Existing Instance demo_alloc.
#[local] Existing Instance demo_os.

(** Client 1 registers, client 2 subscribes, client 1 sends data; client 2 gets it
    in two pieces and its user takes it.  Then client 2 loses its connection with a
    command in its queue, comes back as 3 and subscribes again; client 1 sends once
    more, and the user of client 2 gets it. *)
Definition demo_actions : list action :=
  [AJoin 1 (sec 1); AJoin 2 (sec 1);
   AIssue 1 REGISTER_DEVICE (chars "a"); ASend 1; AFeed 1 [msg REGISTER_DEVICE "a"] (sec 1);
   AIssue 2 SUBSCRIBE_DEVICE (chars "a"); ASend 2; AFeed 2 [msg SUBSCRIBE_DEVICE "a"] (sec 2);
   AIssue 1 SEND_DATA (chars "hi"); AIssue 1 SEND_DATA (chars "ho"); ASend 1;
   AFeed 1 [msg SEND_DATA "hi"] (sec 3); ARecv 2 9; ARecv 2 4; ATake 2;
   AIssue 2 HEART_BEAT []; ASend 2; AIssue 2 SUBSCRIBE_DEVICE (chars "a"); ALost 2;
   ARestart 2 3 2 (sec 4); ALate 2 [[HEART_BEAT]] (sec 4);
   ASend 3; AFeed 3 [msg SUBSCRIBE_DEVICE "a"] (sec 4);
   AFeed 1 [msg SEND_DATA "ho"] (sec 5); ARecv 3 100; ATake 3].


Lemma demo_acts_reachable xs : net_reachable 1 10 (default (net0 10) (acts 1 xs (net0 10))).
Proof.
  destruct (acts 1 xs (net0 10)) as [n|] eqn:E; simpl; [|apply rtc_refl].
  apply (acts_reachable 1 10 xs (net0 10)); [apply rtc_refl | exact E].
Qed.



Lemma demo_sends_all : sends_all.
Proof. by intros i d. Qed.





(** A client and its flag, in a network. *)
Lemma demo_client_flag (n : net) (c : connid) x :
  (fun pr => (fun C => (need_to_restart_flag C, recv_data_fifo_length (recv_fifo C), connects (process pr)))
     <$> client_of (ref pr) (process pr)) <$> peers n !! c = Some (Some x) ->
  exists pr C, peers n !! c = Some pr /\ client_of (ref pr) (process pr) = Some C /\
    (need_to_restart_flag C, recv_data_fifo_length (recv_fifo C), connects (process pr)) = x.
Proof. intros (pr & Hpr & E)%fmap_Some. symmetry in E. apply fmap_Some in E as (C & HC & ->). eauto. Qed.


(** The network when client 2 has lost its connection. *)
Definition demo_lost : net := default (net0 10) (acts 1 (take 19 demo_actions) (net0 10)).

Lemma demo_lost_considerate : considerate (history demo_lost).
Proof. apply considerate_check_spec. vm_compute. reflexivity. Qed.

Lemma network_reconnects_witness :
  exists n' pr', rtc (nstep 1) demo_lost n' /\ peers n' !! 3%nat = Some pr' /\
    members (abs (server n')) !! 3%nat = Some (mkMember true []).
Proof.
  destruct (demo_client_flag demo_lost 2 (1, 0, true)) as (pr & C & Hpr & HC & E); [vm_compute; reflexivity|].
  assert (need_to_restart_flag C = 1) as Hf by congruence.
  assert (recv_data_fifo_length (recv_fifo C) = 0) as Hl by congruence.
  assert (connects (process pr) = true) as Hcon by congruence.
  destruct (network_reconnects 1 10 demo_lost 2 3 pr C (sec 4) demo_plenty demo_sends_all (demo_acts_reachable _) demo_lost_considerate Hpr HC)
    as (n' & pr' & sent & data & ds & cmds & Hs & Hp & _ & _ & _ & _ & _ & _ & _ & _ & Hm & _).
  - rewrite Hf. discriminate.
  - exact Hl.
  - exact Hcon.
  - apply (bool_decide_unpack _). vm_compute. exact I.
  - exists n', pr'. split; [exact Hs|]. split; [|exact Hm]. rewrite Hp. apply lookup_insert_eq.
Defined.


