(* ===== verification/Programs.v ===== *)
(** * The two programs (p2pServer/main.cc, API/C/test/main.c)

    [ServerMain]: the server reads its port from its argument.  [TestMain]: the
    program that shows the client library in use: it reads its options, registers,
    waits until the other device is alive, subscribes, starts a thread that prints
    what arrives, and sends the lines it reads.  What [getopt] and [fgets] return
    is an argument; messages on the screen are left out, but for the data the
    thread prints. *)

From S2P Require Import Prelude Endian StringPiece Buffer Codec Muduo Server Ring RecvFifo Heap RecvList SendFifo Client Api ClientList ApiSpec ApiProps.
#[local] Open Scope world_scope.

(** ** C strings *)

(** The characters of the string in an array. *)
Fixpoint cstr (l : list Z) : res (list Z) :=
  match l with
  | [] => Err OutOfBounds
  | c :: l => if c =? 0 then Ok [] else let* k := cstr l in Ok (c :: k)
  end.

(** [snprintf(dst, size, "%s", s)]. *)
Definition snprintf_s (dst : list Z) (size : Z) (s : list Z) : res (list Z) :=
  write_at dst 0 (ztake (size - 1) s ++ [0]).

(** [isspace] and [isdigit] of the C locale. *)
Definition is_space (c : Z) : bool := ((9 <=? c) && (c <=? 13)) || (c =? 32).
Definition is_digit (c : Z) : bool := (48 <=? c) && (c <=? 57).

Fixpoint digits (l : list Z) (n : Z) : Z :=
  match l with
  | c :: l => if is_digit c then digits l (10 * n + (c - 48)) else n
  | [] => n
  end.
Fixpoint skip_space (l : list Z) : list Z :=
  match l with c :: l' => if is_space c then skip_space l' else l | [] => [] end.

(** [atoi]: the behaviour is undefined when the value is no [int]. *)
Definition atoi (s : list Z) : res Z :=
  let v := match skip_space s with
           | c :: l => if c =? 45 then - digits l 0 else if c =? 43 then digits l 0 else digits (c :: l) 0
           | [] => 0
           end in
  if (- 2 ^ 31 <=? v) && (v <? 2 ^ 31) then Ok v else Err SignedOverflow.

(** ** p2pServer/main.cc *)

Module ServerMain.

(** The port of the listening address, and the server the loop works for. *)
Definition main (argv : list (list Z)) : res (Z * p2pServer) :=
  match argv !! 1%nat with
  | None => Err NullDeref
  | Some a => let* v := atoi a in Ok (u16 v, new_p2pServer 300)
  end.

End ServerMain.

(** ** API/C/test/main.c *)

Module TestMain.

Record client_t := mkClient {
  server_ip : list Z;
  server_port : Z;
  my_id : list Z;
  other_id : list Z
}.

Definition g_client : client_t :=
  mkClient (replicate 64 0) 0 (replicate 256 0) (replicate 256 0).

(** One turn of the loop over the options; [ch] and [optarg] are from [getopt].
    The flag says whether the loop goes on. *)
Definition parse_option (g : client_t) (ch : Z) (optarg : list Z) : res (client_t * bool) :=
  if ch =? 115 (* s *) then
    let* b := snprintf_s (server_ip g) 64 optarg in
    Ok (mkClient b (server_port g) (my_id g) (other_id g), true)
  else if ch =? 112 (* p *) then
    let* n := atoi optarg in
    Ok (mkClient (server_ip g) n (my_id g) (other_id g), true)
  else if ch =? 109 (* m *) then
    let* b := snprintf_s (my_id g) 256 optarg in
    Ok (mkClient (server_ip g) (server_port g) b (other_id g), true)
  else if ch =? 111 (* o *) then
    let* b := snprintf_s (other_id g) 256 optarg in
    Ok (mkClient (server_ip g) (server_port g) (my_id g) b, true)
  else Ok (g, false).

Fixpoint parse_options (opts : list (Z * list Z)) (g : client_t) : res (client_t * bool) :=
  match opts with
  | [] => Ok (g, true)
  | (ch, optarg) :: opts =>
      let* (g, go) := parse_option g ch optarg in
      if go : bool then parse_options opts g else Ok (g, false)
  end.

Definition strlen (a : list Z) : res Z := let* s := cstr a in Ok (zlen s).

Definition parse_argv (opts : list (Z * list Z)) (g : client_t) : res (Z * client_t) :=
  let* (g, ok) := parse_options opts g in
  if negb ok then Ok (-1, g)
  else
    let* n1 := strlen (server_ip g) in
    if n1 =? 0 then Ok (-1, g)
    else if server_port g =? 0 then Ok (-1, g)
    else
      let* n2 := strlen (my_id g) in
      if n2 =? 0 then Ok (-1, g)
      else
        let* n3 := strlen (other_id g) in
        if n3 =? 0 then Ok (-1, g) else Ok (0, g).

Section programs.
Context {al : Alloc} {os : OS}.
(** What the other threads do while this one waits for a reply, and while it
    sleeps for a second. *)
Context (others : nat -> world -> res world) (asleep : world -> res world).

(** *** The thread that prints what arrives *)

(** The loop over the payloads; [data] is the local array of 2048 bytes. *)
Fixpoint print_loop (n : nat) (i : Z) (a : ptr) (data : list Z) : W (list Z * list (list Z)) :=
  match n with
  | O => wret (data, [])
  | S n =>
      let% w := wget in
      let% ps := wlift (the_ptrs a (w_heap w)) in
      let% p := wlift (get_at ps i) in
      let% r := wlift (the_recv_data p (w_heap w)) in
      let% src := wlift (the_bytes (rd_data r) (w_heap w)) in
      let% src := wlift (read_at src 0 (rd_length r)) in
      let% data := wlift (write_at data 0 src) in
      let% data := wlift (set_at data (rd_length r) 0) in
      let% line := wlift (cstr data) in
      let% (data, lines) := print_loop n (i + 1) a data in
      wret (data, line :: lines)
  end.

(** One turn of [while (1)] in [_recv_func]: the array and the lines printed. *)
Definition _recv_func (d : Z) (data : list Z) : W (list Z * list (list Z)) :=
  let% recv_data_buf := stupid_p2p_recv_data d in
  match recv_data_buf with
  | None => wret (data, [])
  | Some b =>
      let% w := wget in
      let% blk := wlift (load_block b (w_heap w)) in
      match blk with
      | BRecvBuf r =>
          let% (data, lines) := print_loop (Z.to_nat (num r)) 0 (rb_recv_data r) data in
          let% _ := stupid_p2p_free_recv_data_buf recv_data_buf in
          wret (data, lines)
      | _ => wfail OutOfBounds
      end
  end.

(** *** The loop that waits for the other device: [true] when it is alive,
    [false] after 30 attempts *)

Definition sleep : W unit := fun w => let* w := asleep w in Ok (tt, w).

Fixpoint alive_loop (fuel : nat) (d : Z) (id : list Z) (loop : Z) : W bool :=
  match fuel with
  | O => wfail OutOfFuel
  | S fuel =>
      let% _ := sleep in
      let% ret := stupid_p2p_check_device_alive others d (Some (mkPtr id 0)) in
      if ret =? STUPID_P2P_NO_ERROR then wret true
      else
        let loop := loop + 1 in
        if 30 <=? loop then wret false else alive_loop fuel d id loop
  end.

(** *** The loop that sends the lines *)

(** [fgets]: the line with its newline, or nothing at the end of the input; a
    line of more than 2047 bytes comes in parts. *)
Definition fgets (send_buf : list Z) (line : option (list Z)) : res (list Z) :=
  match line with
  | None => Ok send_buf
  | Some l => write_at send_buf 0 (l ++ [0])
  end.

(** [strcspn(s, "\n")]. *)
Fixpoint strcspn (s : list Z) : Z :=
  match s with c :: s => if c =? 10 then 0 else 1 + strcspn s | [] => 0 end.

Definition quit : list Z := chars "quit".

(** One turn: the array, and whether the loop goes on. *)
Definition input_turn (d : Z) (send_buf : list Z) (line : option (list Z)) : W (list Z * bool) :=
  let% send_buf := wlift (fgets send_buf line) in
  let% s := wlift (cstr send_buf) in
  let% send_buf := wlift (set_at send_buf (strcspn s) 0) in
  let% s := wlift (cstr send_buf) in
  if decide (s = quit) then wret (send_buf, false)
  else
    let% _ := (if negb (zlen s =? 0)
               then let% _ := stupid_p2p_send_data others d (Some (mkPtr send_buf 0)) (zlen s) in wret tt
               else wret tt) in
    wret (send_buf, true).

(** The loop on what [fgets] returns: [true] when a line ended it, [false] when
    it goes on after all of them. *)
Fixpoint input_loop (d : Z) (send_buf : list Z) (lines : list (option (list Z))) : W bool :=
  match lines with
  | [] => wret false
  | l :: lines =>
      let% (send_buf, go) := input_turn d send_buf l in
      if go : bool then input_loop d send_buf lines else wret true
  end.

(** *** The program *)

Definition user_thread : W Z :=
  let% w := wget in
  let r := os_pthread_create (calls w) in
  let% _ := emit (SUserCreate r) in wret r.

(** From the registration to the label [end]: [None] when the program still
    reads lines, else whether [recv_id] is a thread. *)
Definition session (d : Z) (g : client_t) (lines : list (option (list Z))) : W (option bool) :=
  let% ret := stupid_p2p_register_device others d (Some (mkPtr (my_id g) 0)) in
  if ret <? 0 then wret (Some false)
  else
    let% alive := alive_loop 30 d (other_id g) 0 in
    if negb alive then wret (Some false)
    else
      let% ret := stupid_p2p_subscribe_device others d (Some (mkPtr (other_id g) 0)) in
      if negb (ret =? STUPID_P2P_NO_ERROR) then wret (Some false)
      else
        let% ret := user_thread in
        if negb (ret =? 0) then wret (Some false)
        else
          let% ended := input_loop d (replicate (Z.to_nat 2048) 0) lines in
          wret (if ended : bool then Some true else None).

(** [pthread_cancel] and [pthread_join] of [recv_id], which is 0 until the
    thread is created; then the client is ended. *)
Definition at_end (d : Z) (g : client_t) (recv_id : bool) : W unit :=
  if negb recv_id then wfail NullDeref
  else
    let% _ := emit SUserCancel in
    let% _ := emit SUserJoin in
    let% _ := stupid_p2p_unsubscribe_device others d (Some (mkPtr (other_id g) 0)) in
    let% _ := stupid_p2p_unregister_device others d in
    stupid_p2p_deinit d.

(** [main]: its result, or [None] when it still reads lines. *)
Definition main (opts : list (Z * list Z)) (lines : list (option (list Z))) : W (option Z) :=
  let% (ret, g) := wlift (parse_argv opts g_client) in
  if negb (ret =? 0) then wret (Some ret)
  else
    let% ip := wlift (cstr (server_ip g)) in
    let% ret := stupid_p2p_init ip (server_port g) in
    if ret <? 0 then wret (Some ret)
    else
      let% r := session ret g lines in
      match r with
      | None => wret None
      | Some recv_id => let% _ := at_end ret g recv_id in wret (Some 0)
      end.

End programs.

End TestMain.
