(* ===== verification/ProgramsProps.v ===== *)
(** * What the two programs do

    The options of the test program, the lines it sends, the data it prints, and
    the runs in which it ends badly; the port of the server. *)

From S2P Require Import Prelude Endian StringPiece Buffer Codec Muduo Server Ring RecvFifo Heap RecvList SendFifo Client Api ClientList ApiSpec ApiProps Programs.
Import TestMain.
#[local] Open Scope world_scope.

(** ** C strings *)

Definition text (s : list Z) : Prop := Forall (fun c => c <> 0) s.

(** The part of a list that [%s] prints. *)
Fixpoint up_to_nul (l : list Z) : list Z :=
  match l with c :: l => if c =? 0 then [] else c :: up_to_nul l | [] => [] end.

Lemma cstr_up_to_nul s r : cstr (s ++ 0 :: r) = Ok (up_to_nul s).
Proof.
  induction s as [|c s IH]; [done|]. simpl. destruct (c =? 0); [done|]. by rewrite IH.
Qed.

Lemma up_to_nul_text s : text s -> up_to_nul s = s.
Proof.
  induction 1 as [|c s Hc _ IH]; [done|]. simpl. rewrite (proj2 (Z.eqb_neq _ _) Hc). by rewrite IH.
Qed.

Lemma cstr_text s r : text s -> cstr (s ++ 0 :: r) = Ok s.
Proof. intros H. by rewrite cstr_up_to_nul, up_to_nul_text. Qed.

Lemma text_ztake n s : text s -> text (ztake n s).
Proof. apply Forall_take. Qed.

(** The array [b] of [n] bytes holds [s], cut to what fits. *)
Definition field (n : Z) (b s : list Z) : Prop := zlen b = n /\ cstr b = Ok (ztake (n - 1) s).

Lemma zlen_write {A} (l d l' : list A) i : write_at l i d = Ok l' -> zlen l' = zlen l.
Proof.
  intros (H1 & H2 & ->)%write_at_inv. pose proof (zlen_nonneg d).
  rewrite !zlen_app, zlen_ztake, zlen_zdrop by lia. lia.
Qed.

Lemma zlen_ztake_le {A} n (l : list A) : 0 <= n -> zlen (ztake n l) <= n.
Proof. unfold zlen, ztake. rewrite length_take. lia. Qed.

Lemma snprintf_field n dst s :
  zlen dst = n -> 0 < n -> text s -> exists b, snprintf_s dst n s = Ok b /\ field n b s.
Proof.
  intros Hd Hn Hs. unfold snprintf_s. pose proof (zlen_ztake_le (n - 1) s).
  eexists. split; [apply write_at_ok; rewrite ?zlen_app; change (zlen [0]) with 1; lia|].
  split.
  - eapply eq_trans; [eapply zlen_write, write_at_ok|exact Hd]; rewrite ?zlen_app; change (zlen [0]) with 1; lia.
  - rewrite ztake_0 by lia. cbn [app]. rewrite <- app_assoc. simpl. by apply cstr_text, text_ztake.
Qed.

(** ** The options *)

(** An option [getopt] knows, with a string or a number that is an [int]. *)
Definition known (o : Z * list Z) : Prop :=
  o.1 ∈ [115; 112; 109; 111] /\ text o.2 /\ (o.1 = 112 -> exists n, atoi o.2 = Ok n).

(** The last argument of the option [ch]. *)
Fixpoint last_of (ch : Z) (opts : list (Z * list Z)) : option (list Z) :=
  match opts with
  | [] => None
  | (c, x) :: opts =>
      match last_of ch opts with Some y => Some y | None => if c =? ch then Some x else None end
  end.

(** The structure holds these settings. *)
Definition settings (g : client_t) (ip my other : list Z) (port : res Z) : Prop :=
  field 64 (server_ip g) ip /\ field 256 (my_id g) my /\ field 256 (other_id g) other /\
  port = Ok (server_port g).

Definition port_of (p : res Z) (a : option (list Z)) : res Z := match a with Some x => atoi x | None => p end.

Lemma parse_options_spec opts : forall g ip my other port,
  Forall known opts -> settings g ip my other port ->
  exists g', parse_options opts g = Ok (g', true) /\
    settings g' (default ip (last_of 115 opts)) (default my (last_of 109 opts))
      (default other (last_of 111 opts)) (port_of port (last_of 112 opts)).
Proof.
  induction opts as [|[ch x] opts IH]; intros g ip my other port Hk Hs; [by exists g|].
  apply Forall_cons in Hk as [(Hin & Ht & Hp) Hk]. simpl in Hin, Ht, Hp. cbn [parse_options].
  unfold parse_option. destruct Hs as (H1 & H2 & H3 & H4).
  rewrite !elem_of_cons, elem_of_nil in Hin. destruct Hin as [->|[->|[->|[->|[]]]]];
    repeat match goal with |- context [?a =? ?b] => change (a =? b) with false || change (a =? b) with true end;
    cbv beta iota.
  - destruct (snprintf_field 64 (server_ip g) x) as (b & -> & Hb); [apply H1 | lia | done |]. cbn [res_bind].
    destruct (IH (mkClient b (server_port g) (my_id g) (other_id g)) x my other port Hk) as (g' & E & Hg); [done|].
    exists g'. split; [exact E|]. cbn [last_of]. simpl (115 =? _). by destruct (last_of 115 opts), (last_of 112 opts),
      (last_of 109 opts), (last_of 111 opts).
  - destruct (Hp eq_refl) as [n Hn]. rewrite Hn. cbn [res_bind].
    destruct (IH (mkClient (server_ip g) n (my_id g) (other_id g)) ip my other (Ok n) Hk) as (g' & E & Hg); [done|].
    exists g'. split; [exact E|]. cbn [last_of]. simpl (112 =? _).
    destruct (last_of 115 opts), (last_of 112 opts), (last_of 109 opts), (last_of 111 opts); simpl in *; by rewrite ?Hn.
  - destruct (snprintf_field 256 (my_id g) x) as (b & -> & Hb); [apply H2 | lia | done |]. cbn [res_bind].
    destruct (IH (mkClient (server_ip g) (server_port g) b (other_id g)) ip x other port Hk) as (g' & E & Hg); [done|].
    exists g'. split; [exact E|]. cbn [last_of]. simpl (109 =? _). by destruct (last_of 115 opts), (last_of 112 opts),
      (last_of 109 opts), (last_of 111 opts).
  - destruct (snprintf_field 256 (other_id g) x) as (b & -> & Hb); [apply H3 | lia | done |]. cbn [res_bind].
    destruct (IH (mkClient (server_ip g) (server_port g) (my_id g) b) ip my x port Hk) as (g' & E & Hg); [done|].
    exists g'. split; [exact E|]. cbn [last_of]. simpl (111 =? _). by destruct (last_of 115 opts), (last_of 112 opts),
      (last_of 109 opts), (last_of 111 opts).
Qed.

Lemma settings_start : settings g_client [] [] [] (Ok 0).
Proof. repeat split. Qed.

(** With options [getopt] knows, the test program takes the last argument of
    each option, cut to what its array holds; it goes on exactly when all four
    were given, none of the strings is empty and the port is not zero, and then
    its strings end within their arrays. *)
Lemma options_read (opts : list (Z * list Z)) :
  Forall known opts ->
  let arg ch := default [] (last_of ch opts) in
  exists ret g, parse_argv opts g_client = Ok (ret, g) /\
    cstr (server_ip g) = Ok (ztake 63 (arg 115)) /\ cstr (my_id g) = Ok (ztake 255 (arg 109)) /\
    cstr (other_id g) = Ok (ztake 255 (arg 111)) /\ port_of (Ok 0) (last_of 112 opts) = Ok (server_port g) /\
    (ret = 0 \/ ret = -1) /\
    (ret = 0 <-> arg 115 <> [] /\ server_port g <> 0 /\ arg 109 <> [] /\ arg 111 <> []).
Proof.
  intros Hk arg. destruct (parse_options_spec opts g_client [] [] [] (Ok 0) Hk settings_start)
    as (g & E & (_ & F1) & (_ & F2) & (_ & F3) & F4).
  fold (arg 115) in F1. fold (arg 109) in F2. fold (arg 111) in F3.
  change (64 - 1) with 63 in F1. change (256 - 1) with 255 in F2, F3.
  assert (forall n (s : list Z), 0 < n -> (zlen (ztake n s) =? 0) = bool_decide (s = [])) as Hz.
  { intros n [|x s] Hn.
    - rewrite bool_decide_true by done. unfold ztake. by rewrite take_nil.
    - rewrite bool_decide_false by done. apply Z.eqb_neq. unfold zlen, ztake. rewrite length_take. simpl. lia. }
  exists (if bool_decide (arg 115 <> [] /\ server_port g <> 0 /\ arg 109 <> [] /\ arg 111 <> []) then 0 else -1), g.
  split_and!; try done.
  - unfold parse_argv. rewrite E. cbn [res_bind negb]. unfold strlen. rewrite F1, F2, F3. cbn [res_bind].
    rewrite !Hz by lia.
    destruct (Z.eqb_spec (server_port g) 0); repeat case_bool_decide; naive_solver.
  - case_bool_decide; auto.
  - case_bool_decide; naive_solver.
Qed.

(** ** The lines it sends *)

Section lines.
Context {al : Alloc} {os : OS} (others : nat -> world -> res world).

(** What the program does with the line [l] of its array [buf]. *)
Definition on_line (d : Z) (buf l : list Z) : W (list Z * bool) := fun w =>
  if decide (l = quit) then Ok ((buf, false), w)
  else if decide (l = []) then Ok ((buf, true), w)
  else let* (_, w') := stupid_p2p_send_data others d (Some (mkPtr buf 0)) (zlen l) w in Ok ((buf, true), w').

Lemma strcspn_line l r : 10 ∉ l -> strcspn (l ++ 10 :: r) = zlen l.
Proof.
  induction l as [|c l IH]; intros H; [done|]. apply not_elem_of_cons in H as [Hc Hl]. simpl.
  rewrite (proj2 (Z.eqb_neq _ _)) by done. rewrite zlen_cons, IH by done. done.
Qed.

Lemma strcspn_end l : 10 ∉ l -> strcspn l = zlen l.
Proof.
  induction l as [|c l IH]; intros H; [done|]. apply not_elem_of_cons in H as [Hc Hl]. simpl.
  rewrite (proj2 (Z.eqb_neq _ _)) by done. rewrite zlen_cons, IH by done. done.
Qed.

Lemma insert_middle {A} (l r : list A) x y n : n = zlen l -> <[Z.to_nat n := y]> (l ++ x :: r) = l ++ y :: r.
Proof. intros ->. unfold zlen. rewrite Nat2Z.id, insert_app_r_alt, Nat.sub_diag by lia. done. Qed.

(** A turn whose string, after [fgets], is [l] and then a newline or the end. *)
Lemma turn_on_line d buf buf1 line l c r w :
  fgets buf line = Ok buf1 -> buf1 = l ++ c :: r -> c = 0 \/ (c = 10 /\ exists r', r = 0 :: r') ->
  text l -> 10 ∉ l -> input_turn others d buf line w = on_line d (l ++ 0 :: r) l w.
Proof.
  intros Hg -> Hc Ht Hl. unfold input_turn, wlift. unfold wbind at 1. rewrite Hg. cbn [res_bind].
  assert (exists s, cstr (l ++ c :: r) = Ok s /\ strcspn s = zlen l) as (s & -> & Hs).
  { destruct Hc as [->|[-> [r' ->]]].
    - exists l. split; [by apply cstr_text | by apply strcspn_end].
    - exists (l ++ [10]). split; [|by apply strcspn_line].
      rewrite cons_middle, app_assoc. apply cstr_text. apply Forall_app. split; [done|]. by constructor. }
  unfold wbind at 1. cbn [res_bind]. unfold wbind at 1. rewrite Hs.
  rewrite set_at_ok by (rewrite zlen_app, zlen_cons; zlia). rewrite insert_middle by done. cbn [res_bind].
  unfold wbind at 1. rewrite (cstr_text l r Ht). cbn [res_bind]. unfold on_line.
  case_decide; [done|]. destruct (decide (l = [])) as [->|Hne]; [done|].
  assert ((zlen l =? 0) = false) as -> by (destruct l; [done|]; rewrite zlen_cons; zlia).
  cbn [negb]. unfold wbind, wret. by destruct (stupid_p2p_send_data others d _ _ w) as [[? ?]|].
Qed.

(** A line of the user leaves the string without the newline in the array. *)
Lemma typed_line buf l :
  zlen buf = 2048 -> zlen l <= 2046 ->
  exists r, fgets buf (Some (l ++ [10])) = Ok (l ++ 10 :: 0 :: r) /\ zlen (l ++ 0 :: 0 :: r) = 2048.
Proof.
  intros Hb Hl. exists (zdrop (zlen l + 2) buf). pose proof (zlen_nonneg l). split.
  - unfold fgets. rewrite write_at_ok by (rewrite ?zlen_app; change (zlen [0]) with 1; change (zlen [10]) with 1; lia).
    rewrite ztake_0 by lia. rewrite !zlen_app. change (zlen [0]) with 1. change (zlen [10]) with 1.
    rewrite <- !app_assoc. simpl. do 5 f_equal. lia.
  - rewrite zlen_app, !zlen_cons, zlen_zdrop by lia. lia.
Qed.

Lemma deref_line l r : deref (Some (mkPtr (l ++ r) 0)) (zlen l) = Ok l.
Proof.
  unfold deref. destruct (Z.eqb_spec (zlen l) 0) as [E0|_]; [by destruct l; [|rewrite zlen_cons in E0; zlia]|].
  cbn [blk off]. rewrite read_at_ok by (rewrite ?zlen_app; zlia).
  change (zdrop 0 (l ++ r)) with (l ++ r). by rewrite ztake_app_eq.
Qed.

(** A line the user types, of at most 2046 characters, is sent without its
    newline, unless it is empty; [quit] ends the loop and sends nothing; a line
    of more than 256 characters is dropped without a message. *)
Lemma line_is_sent (d : Z) (buf l : list Z) (w : world) :
  zlen buf = 2048 -> text l -> 10 ∉ l -> zlen l <= 2046 ->
  exists buf', zlen buf' = 2048 /\ deref (Some (mkPtr buf' 0)) (zlen l) = Ok l /\
    input_turn others d buf (Some (l ++ [10])) w =
      (if decide (l = quit) then Ok ((buf', false), w)
       else if decide (l = []) then Ok ((buf', true), w)
       else let* (_, w') := need_to_send others d SEND_DATA (Some (mkPtr buf' 0)) (zlen l) w in
            Ok ((buf', true), w')) /\
    (256 < zlen l -> input_turn others d buf (Some (l ++ [10])) w = Ok ((buf', true), w)).
Proof.
  intros Hb Ht Hl Hlen. destruct (typed_line buf l Hb Hlen) as (r & Hg & Hz).
  pose proof (turn_on_line d buf _ _ l 10 (0 :: r) w Hg eq_refl (or_intror (conj eq_refl (ex_intro _ r eq_refl))) Ht Hl) as E.
  exists (l ++ 0 :: 0 :: r). split_and!; [done| |by rewrite E|].
  - apply deref_line.
  - intros Hlong. rewrite E. unfold on_line. rewrite decide_False by (intros ->; vm_compute in Hlong; discriminate).
    rewrite decide_False by (intros ->; done). unfold stupid_p2p_send_data, need_to_send.
    by rewrite (proj2 (Z.ltb_lt _ _) Hlong).
Qed.

(** A turn at the end of the input repeats the last line. *)
Lemma eof_turn d l r w :
  text l -> 10 ∉ l -> input_turn others d (l ++ 0 :: r) None w = on_line d (l ++ 0 :: r) l w.
Proof. intros Ht Hl. eapply turn_on_line; [reflexivity | reflexivity | by left | done | done]. Qed.

Lemma eof_loop n d l r w :
  text l -> 10 ∉ l -> l <> quit -> forall w', input_loop others d (l ++ 0 :: r) (replicate n None) w <> Ok (true, w').
Proof.
  intros Ht Hl Hq. revert w. induction n as [|n IH]; intros w w'; [done|].
  cbn [replicate input_loop]. unfold wbind. rewrite eof_turn by done. unfold on_line. rewrite decide_False by done.
  destruct (decide (l = [])); [apply IH|].
  destruct (stupid_p2p_send_data others d _ _ w) as [[z w1]|e]; cbn [res_bind]; [apply IH | done].
Qed.

(** At the end of its input the program does not stop: after the last line,
    each further turn sends that line again, and no number of turns ends the
    loop. *)
Lemma eof_repeats_line (d : Z) (buf l : list Z) (n : nat) (w : world) :
  zlen buf = 2048 -> text l -> 10 ∉ l -> 0 < zlen l <= 2046 -> l <> quit ->
  exists buf', deref (Some (mkPtr buf' 0)) (zlen l) = Ok l /\
    input_loop others d buf (Some (l ++ [10]) :: replicate (S n) None) w =
      (let* (_, w1) := need_to_send others d SEND_DATA (Some (mkPtr buf' 0)) (zlen l) w in
       let* (_, w2) := need_to_send others d SEND_DATA (Some (mkPtr buf' 0)) (zlen l) w1 in
       input_loop others d buf' (replicate n None) w2) /\
    (forall w2 w', input_loop others d buf' (replicate n None) w2 <> Ok (true, w')).
Proof.
  intros Hb Ht Hl Hlen Hq. destruct (typed_line buf l Hb) as (r & Hg & Hz); [lia|].
  exists (l ++ 0 :: 0 :: r). split_and!; [| |intros w2; by apply eof_loop].
  - apply deref_line.
  - cbn [input_loop]. unfold wbind at 1.
    rewrite (turn_on_line d buf _ _ l 10 (0 :: r) w Hg eq_refl (or_intror (conj eq_refl (ex_intro _ r eq_refl))) Ht Hl).
    assert (l <> []) as Hne by (intros ->; by destruct Hlen).
    unfold on_line. rewrite !decide_False by done. unfold stupid_p2p_send_data.
    destruct (need_to_send others d SEND_DATA _ _ w) as [[z1 w1]|e]; cbn [res_bind]; [|done].
    cbn [replicate input_loop]. unfold wbind at 1. rewrite eof_turn by done. unfold on_line. rewrite !decide_False by done.
    unfold stupid_p2p_send_data. by destruct (need_to_send others d SEND_DATA _ _ w1) as [[z2 w2]|e].
Qed.

End lines.

(** ** The thread that prints *)

Section printing.
Context {al : Alloc} {os : OS}.

Lemma print_loop_spec its1 : forall its0 w a data,
  mem (w_heap w) !! a = Some (BPtrs (ptrs_of (its0 ++ its1))) -> Forall (payload_ok (w_heap w)) its1 ->
  Forall (fun it => zlen (it_payload it) < 2048) its1 -> zlen data = 2048 ->
  exists data', print_loop (length its1) (zlen its0) (Some a) data w =
      Ok ((data', (up_to_nul ∘ it_payload) <$> its1), w) /\ zlen data' = 2048.
Proof.
  induction its1 as [|it its1 IH]; intros its0 w a data Ha Hp Hl Hd; [by exists data|].
  apply Forall_cons in Hp as [[Hr Hb] Hp]. apply Forall_cons in Hl as [Hlt Hl].
  cbn [length print_loop]. unfold wbind at 1, wget at 1. cbn [res_bind]. unfold wlift, wbind at 1.
  cbn [the_ptrs]. unfold load_block at 1. rewrite Ha. cbn [res_bind]. unfold wbind at 1.
  rewrite (get_at_ok _ _ (Some (it_data it))).
  2: apply zlen_nonneg.
  2: { unfold ptrs_of, zlen. rewrite Nat2Z.id, fmap_app, lookup_app_r by (by rewrite length_fmap).
       rewrite length_fmap, Nat.sub_diag. done. }
  cbn [res_bind]. unfold wbind at 1. cbn [the_recv_data]. unfold load_block at 1. rewrite Hr. cbn [res_bind rd_data rd_length].
  unfold wbind at 1. cbn [the_bytes]. unfold load_block at 1. rewrite Hb. cbn [res_bind].
  set (m := it_payload it) in *. unfold wbind at 1. rewrite read_at_ok by (pose proof (zlen_nonneg m); lia).
  change (zdrop 0 m) with m. rewrite ztake_all by lia. cbn [res_bind].
  unfold wbind at 1. rewrite write_at_ok by lia. cbn [res_bind]. rewrite ztake_0 by lia. simpl ([] ++ _).
  rewrite Z.add_0_l.
  assert (exists x r, zdrop (zlen m) data = x :: r /\ zlen (m ++ 0 :: r) = 2048) as (x & r & -> & Hz).
  { pose proof (zlen_zdrop (zlen m) data) as Hzd. pose proof (zlen_nonneg m). specialize (Hzd ltac:(lia)).
    destruct (zdrop (zlen m) data) as [|x r] eqn:Ex; [change (zlen (@nil Z)) with 0 in Hzd; lia|].
    exists x, r. split; [done|]. rewrite zlen_app, !zlen_cons in *. lia. }
  unfold wbind at 1. rewrite set_at_ok by (rewrite zlen_app, zlen_cons; zlia). rewrite insert_middle by done.
  cbn [res_bind]. unfold wbind at 1. rewrite cstr_up_to_nul. cbn [res_bind]. unfold wbind.
  destruct (IH (its0 ++ [it]) w a (m ++ 0 :: r)) as (data' & E & Hd'); [by rewrite <- app_assoc | done | done | done |].
  rewrite zlen_app in E. change (zlen [it]) with 1 in E. rewrite E. by exists data'.
Qed.

Lemma data_locs_items its x : x ∈ data_locs its -> x ∈ concat (item_locs <$> its).
Proof.
  induction its as [|it its IH]; [done|]. unfold data_locs. simpl. rewrite !elem_of_cons.
  intros [->|[->|H]]; auto.
Qed.

Lemma data_locs_nodup its : NoDup (concat (item_locs <$> its)) -> NoDup (data_locs its).
Proof.
  induction its as [|it its IH]; [done|]. unfold data_locs. simpl. rewrite !NoDup_cons, !elem_of_cons.
  intros (_ & H1 & H2 & H3). split_and!; [| |by apply IH].
  - intros [?|H]; [by apply H1; auto|]. apply H1. right. by apply data_locs_items.
  - intros H. apply H2. by apply data_locs_items.
Qed.

(** A client with no payloads is not touched by freeing blocks that hold none of
    its commands. *)
Lemma client_rep_freed c h h' bs k cmds :
  client_rep (c, h) [] bs k cmds -> heap_wf h' -> allocs h' = allocs h ->
  (forall x, x ∈ cmds.*1 -> mem h' !! x = mem h !! x) -> (forall x, mem h !! x = None -> mem h' !! x = None) ->
  client_rep (c, h') [] bs k cmds.
Proof.
  intros [R1 R2 R3 R4] Hwf Ha Hm Hd. simpl in *. split; simpl; [| done | | done].
  - eapply list_rep_frame; [exact R1 | done | by intros x ?%elem_of_nil].
  - eapply send_rep_frame; [exact R3 | done | simpl; lia | |].
    + intros x Hx. apply Hm. apply list_elem_of_fmap. eauto.
    + intros x _ Hx. by apply Hd.
Qed.

(** A turn of the thread prints every payload that waits, oldest first, each
    up to its first zero byte; its array is large enough for what the parser of
    the client lets through; afterwards nothing waits, and the blocks of the
    payloads are free. *)
Lemma thread_prints_data (w : world) ls d l its bs k cmds data :
  clients w ls -> find_in w d ls = Some l -> d <> 0 -> holds w (CNode l) its bs k cmds ->
  zlen its <= 1024 -> (forall i n, n <= 8192 -> alloc_ok i n = true) ->
  Forall (fun it => zlen (it_payload it) < 2048) its -> zlen data = 2048 ->
  exists w' data', _recv_func d data w = Ok ((data', (up_to_nul ∘ it_payload) <$> its), w') /\
    zlen data' = 2048 /\ holds w' (CNode l) [] bs k cmds /\
    (forall x, x ∈ data_locs its -> mem (w_heap w') !! x = None).
Proof.
  intros Hcl Hf Hd0 Hh Hn Hal Hlt Hd.
  assert (NoDup (concat (item_locs <$> its)) /\ forall x, x ∈ data_locs its -> x ∉ cmds.*1) as [Hnd Hdisj].
  { destruct Hh as (c & Hc & Hrep). split; [apply (lr_nodup _ _ (cr_list _ _ _ _ _ Hrep))|].
    intros x Hx. apply (cr_disj _ _ _ _ _ Hrep). by apply data_locs_items. }
  destruct (recv_data_run w ls d l its bs k cmds Hcl Hf Hd0 Hh Hn Hal)
    as (w1 & b & a & E1 & Hb & Ha & Hp & c1 & Hc1 & Hrep1).
  pose proof (lr_wf _ _ (cr_list _ _ _ _ _ Hrep1)) as Hwf1. simpl in Hwf1.
  unfold _recv_func. unfold wbind at 1. rewrite E1. cbn [res_bind]. unfold wbind at 1, wget at 1. cbn [res_bind].
  unfold wlift. unfold wbind at 1. unfold load_block. rewrite Hb. cbn [res_bind num rb_recv_data].
  destruct (print_loop_spec its [] w1 a data Ha Hp Hlt Hd) as (data' & E2 & Hd').
  change (zlen []) with 0 in E2. unfold wbind at 1. unfold zlen at 1. rewrite Nat2Z.id, E2. cbn [res_bind].
  destruct (free_buf_leaks_array w1 b a its Hwf1 Hb Ha Hp (data_locs_nodup _ Hnd))
    as (w2 & h2 & E3 & -> & Hwf2 & Ha2 & _ & Hm & Hmb). unfold wbind. rewrite E3. cbn [res_bind].
  assert (forall x, x ∈ data_locs its -> x <> b) as Hnb.
  { intros x Hx ->. unfold data_locs in Hx. apply list_elem_of_In, in_concat in Hx as (ll & Hll & Hx).
    apply list_elem_of_In, list_elem_of_fmap in Hll as (it & -> & Hit). apply list_elem_of_In in Hx.
    rewrite Forall_forall in Hp. destruct (Hp it Hit) as [P1 P2].
    rewrite !elem_of_cons, elem_of_nil in Hx. destruct Hx as [->|[->|[]]]; congruence. }
  eexists _, data'. split; [done|]. split; [done|]. simpl in Hm, Hmb. split.
  - exists c1. rewrite client_of_set_heap. split; [done|]. simpl.
    eapply client_rep_freed; [exact Hrep1 | done | done | |].
    + intros x Hx. assert (x <> b) as Hxb.
      { intros ->. apply list_elem_of_fmap in Hx as (y & Ey & Hy).
        pose proof (sr_live _ _ _ _ (cr_send _ _ _ _ _ Hrep1) y Hy) as Hlive. simpl in Hlive. congruence. }
      rewrite Hm by done. rewrite decide_False; [done|]. intros Hin. by apply (Hdisj x).
    + intros x Hx. destruct (decide (x = b)) as [->|Hxb]; [done|]. rewrite Hm by done. by case_decide.
  - intros x Hx. simpl. rewrite Hm by auto. by rewrite decide_True.
Qed.

End printing.

(** ** The whole program *)

Section whole.
Context {al : Alloc} {os : OS} (others : nat -> world -> res world) (asleep : world -> res world).

(** 30 turns are enough for the loop that waits for the other device. *)
Lemma alive_loop_enough n m d id loop w :
  0 <= loop -> 30 - loop <= Z.of_nat n -> loop < 30 ->
  alive_loop others asleep (n + m) d id loop w = alive_loop others asleep n d id loop w.
Proof.
  revert loop w. induction n as [|n IH]; intros loop w H0 Hn Hl; [lia|].
  cbn [Nat.add alive_loop]. unfold wbind. destruct (sleep asleep w) as [[[] w1]|]; cbn [res_bind]; [|done].
  destruct (stupid_p2p_check_device_alive others d _ w1) as [[ret w2]|]; cbn [res_bind]; [|done].
  destruct (ret =? STUPID_P2P_NO_ERROR); [done|].
  destruct (Z.leb_spec 30 (loop + 1)); [done|]. apply IH; lia.
Qed.

(** The loop ends whatever the library answers, as long as the library does. *)
Lemma alive_loop_ends n d id loop w :
  (forall w, exists w', asleep w = Ok w') ->
  (forall w, exists ret w', stupid_p2p_check_device_alive others d (Some (mkPtr id 0)) w = Ok (ret, w')) ->
  0 <= loop < 30 -> 30 - loop <= Z.of_nat n -> exists b w', alive_loop others asleep n d id loop w = Ok (b, w').
Proof.
  intros Hs Hc. revert loop w. induction n as [|n IH]; intros loop w Hl Hn; [lia|].
  cbn [alive_loop]. unfold wbind, sleep. destruct (Hs w) as [w1 ->]. cbn [res_bind].
  destruct (Hc w1) as (ret & w2 & ->). cbn [res_bind]. destruct (ret =? STUPID_P2P_NO_ERROR); [by eexists _, _|].
  destruct (Z.leb_spec 30 (loop + 1)); [by eexists _, _|]. apply IH; lia.
Qed.

(** No reply arrives while a command waits. *)
Definition silent : Prop :=
  forall i w, exists w', others i w = Ok w' /\
    (forall p f, flag_of w' p f = flag_of w p f).

Lemma flag_of_client w p f : is_Some (flag_of w p f) <-> is_Some (client_of p w).
Proof. unfold flag_of. apply fmap_is_Some. Qed.

Lemma silent_keeps p : silent -> keeps others p.
Proof.
  intros Hs i w Hc. destruct (Hs i w) as (w' & E & Hf). exists w'. split; [done|].
  apply (flag_of_client w' p FRegister). rewrite Hf. by apply flag_of_client.
Qed.

Lemma silent_run n : forall i w w' p f, silent -> run_others others i n w = Ok w' -> flag_of w' p f = flag_of w p f.
Proof.
  induction n as [|n IH]; intros i w w' p f Hs H; cbn [run_others] in H; [by injection H as <-|].
  destruct (Hs i w) as (w1 & E & Hf). rewrite E in H. cbn [res_bind] in H. by rewrite (IH _ _ _ _ _ Hs H).
Qed.

Lemma strnlen_text (b s r : list Z) :
  text s -> b = s ++ 0 :: r -> zlen s < 256 -> strnlen (Some (mkPtr b 0)) 256 = Ok (zlen s).
Proof.
  intros Ht -> Hl. unfold strnlen. cbn [off blk].
  rewrite !(proj2 (Z.leb_le _ _)) by zlia. cbn [andb]. change (zdrop 0 (s ++ 0 :: r)) with (s ++ 0 :: r).
  assert (forall n (s : list Z), text s -> (length s < n)%nat -> strnlen_list n (s ++ 0 :: r) = Ok (zlen s)) as H.
  { clear. intros n. induction n as [|n IH]; intros s Ht Hn; [lia|].
    destruct s as [|c s]; [done|]. apply Forall_cons in Ht as [Hc Ht]. cbn [app strnlen_list].
    rewrite (proj2 (Z.eqb_neq _ _) Hc), IH by (done || simpl in Hn; lia). by rewrite zlen_cons. }
  apply H; [done|]. unfold zlen in Hl. lia.
Qed.

(** A string in an array, as its characters, a zero byte and the rest. *)
Lemma cstr_split b s : cstr b = Ok s -> text s /\ exists r, b = s ++ 0 :: r.
Proof.
  revert s. induction b as [|c b IH]; intros s H; cbn [cstr] in H; [done|].
  destruct (Z.eqb_spec c 0) as [->|Hc]; [injection H as <-; split; [constructor | by exists b]|].
  destruct (cstr b) as [k|]; [|done]. injection H as <-. destruct (IH k eq_refl) as [Ht [r ->]].
  split; [by constructor | by exists r].
Qed.

(** When the server accepts the connection but does not answer, registering
    fails and the program goes to its end before the thread was created: it calls
    [pthread_cancel] on a thread id that is 0, so that nothing after it, the
    closing of the client included, is done. *)
Lemma silent_server_crashes (opts : list (Z * list Z)) (lines : list (option (list Z))) (w : world) ls ip g addr :
  api_inv w ls -> (_g_init_signal_flag w = 0 \/ _g_init_signal_flag w = 1) -> _g_fd_start w < 2 ^ 31 - 1 ->
  os_grants -> (forall i n, n <= 2 ^ 18 -> alloc_ok i n = true) -> silent ->
  Forall known opts -> parse_argv opts g_client = Ok (0, g) -> cstr (server_ip g) = Ok ip ->
  os_inet_pton ip = Some addr ->
  main others asleep opts lines w = Err NullDeref.
Proof.
  intros Hi Hsig Hmax G Hal Hsil Hk Hg Hip Haddr.
  destruct (parse_options_spec opts g_client [] [] [] (Ok 0) Hk settings_start)
    as (g' & Eo & _ & (_ & F2) & _ & _).
  assert (g' = g) as ->.
  { unfold parse_argv in Hg. rewrite Eo in Hg. cbn [res_bind negb] in Hg.
    repeat (case_match || destruct (strlen _) || (cbn [res_bind] in Hg)); congruence. }
  destruct (cstr_split _ _ F2) as [Htext [r Hmy]]. set (s := ztake (256 - 1) _) in *.
  assert (zlen s < 256) as Hs by (pose proof (zlen_ztake_le (256 - 1) (default [] (last_of 109 opts))) as H; fold s in H; lia).
  unfold main, wlift. unfold wbind at 1. rewrite Hg. cbn [res_bind]. change (negb (0 =? 0)) with false. cbv iota.
  unfold wbind at 1. rewrite Hip. cbn [res_bind].
  destruct (init_run w ls ip (server_port g) addr Hi Hsig Hmax G Haddr)
    as (w1 & d & l & E & Hd & [Hcl Hwf _ _ _] & _ & _ & Hh & _ & Hfind & Hrs & _);
    [apply Hal; unfold sizeof_stupid_p2p_t; lia|].
  unfold wbind at 1. rewrite E. cbn [res_bind]. rewrite (proj2 (Z.ltb_ge _ _)) by lia.
  unfold wbind at 1, session. unfold wbind at 1. unfold stupid_p2p_register_device, wlift. unfold wbind at 1.
  rewrite (strnlen_text (my_id g) s r) by done. cbn [res_bind].
  destruct (need_to_send_queues others w1 (ls ++ [l]) d l REGISTER_DEVICE (Some (mkPtr (my_id g) 0)) (zlen s) s FRegister
    [] [] 0 []) as (w2 & -> & Hq); try done.
  { by rewrite Hrs. }
  { pose proof (zlen_nonneg s). lia. }
  { rewrite Hmy. apply deref_line. }
  { apply Hal. lia. }
  assert (is_Some (client_of (CNode l) w2)) as Hc2.
  { apply (flag_of_client _ _ FRegister). rewrite (q_flag _ _ _ _ _ _ _ _ _ Hq). eauto. }
  destruct (waitting_spec others (CNode l) FRegister w2 (silent_keeps _ Hsil) Hc2) as (i & w3 & v & _ & Hrun & Hv & -> & _).
  rewrite (silent_run _ _ _ _ _ _ Hsil Hrun), (q_flag _ _ _ _ _ _ _ _ _ Hq) in Hv. injection Hv as <-.
  reflexivity.
Qed.

End whole.

(** The port of the server is its argument modulo 65536. *)
Lemma server_port_wraps (name a : list Z) rest v :
  atoi a = Ok v -> ServerMain.main (name :: a :: rest) = Ok (v mod 65536, new_p2pServer 300).
Proof. intros H. unfold ServerMain.main. simpl. rewrite H. done. Qed.

Example port_70000 : ServerMain.main [chars "p2pServer"; chars "70000"] = Ok (4464, new_p2pServer 300).
Proof. reflexivity. Qed.

Example no_argument : ServerMain.main [chars "p2pServer"] = Err NullDeref.
Proof. reflexivity. Qed.

(** ** The theorems at concrete states *)

#[local] Existing Instance demo_alloc.
#[local] Existing Instance demo_os.

Definition demo_opts : list (Z * list Z) :=
  [(115, chars "127.0.0.1"); (112, chars "4040"); (109, chars "a"); (111, chars "b")].

Lemma demo_opts_known : Forall known demo_opts.
Proof.
  repeat (constructor; [split; [set_solver|]; split; [apply (bool_decide_unpack _); vm_compute; exact I |
    by intros _; eexists] |]). constructor.
Qed.

Lemma options_read_witness :
  exists ret g, parse_argv demo_opts g_client = Ok (ret, g) /\ cstr (my_id g) = Ok (chars "a") /\ ret = 0.
Proof.
  destruct (options_read demo_opts demo_opts_known) as (ret & g & E & _ & Hm & _ & Hp & _ & Hr).
  exists ret, g. split; [exact E|]. split; [exact Hm|]. apply Hr. injection Hp as <-. repeat split; discriminate.
Defined.

Lemma line_is_sent_witness :
  exists buf', deref (Some (mkPtr buf' 0)) 300 = Ok (replicate 300 97) /\
    input_turn idle_others 1 (replicate (Z.to_nat 2048) 0) (Some (replicate 300 97 ++ [10])) world0 =
      Ok ((buf', true), world0).
Proof.
  destruct (line_is_sent idle_others 1 (replicate (Z.to_nat 2048) 0) (replicate 300 97) world0) as (buf' & _ & Hd & _ & Hl).
  - reflexivity.
  - apply (bool_decide_unpack _). vm_compute. exact I.
  - apply (bool_decide_unpack _). vm_compute. exact I.
  - vm_compute. discriminate.
  - exists buf'. split; [exact Hd | apply Hl; reflexivity].
Defined.

Lemma eof_repeats_line_witness :
  exists buf', input_loop idle_others 1 (replicate (Z.to_nat 2048) 0) [Some [104; 105; 10]; None; None] world0 =
      (let* (_, w1) := need_to_send idle_others 1 SEND_DATA (Some (mkPtr buf' 0)) 2 world0 in
       let* (_, w2) := need_to_send idle_others 1 SEND_DATA (Some (mkPtr buf' 0)) 2 w1 in
       input_loop idle_others 1 buf' [None] w2).
Proof.
  destruct (eof_repeats_line idle_others 1 (replicate (Z.to_nat 2048) 0) [104; 105] 1 world0) as (buf' & _ & E & _).
  - reflexivity.
  - apply (bool_decide_unpack _). vm_compute. exact I.
  - apply (bool_decide_unpack _). vm_compute. exact I.
  - vm_compute. split; [reflexivity | discriminate].
  - discriminate.
  - exists buf'. exact E.
Defined.

Lemma thread_prints_data_witness :
  exists w w' data' lines, _recv_func 1 (replicate (Z.to_nat 2048) 0) w = Ok ((data', lines), w') /\
    length lines = 3%nat.
Proof.
  destruct (demo_payloads 3) as (c & h & its & H & Hn & _ & Hp).
  destruct (thread_prints_data (demo_world c h) [0%nat] 1 0 its [] 0 [] (replicate (Z.to_nat 2048) 0))
    as (w' & data' & E & _).
  - apply demo_world_clients.
  - reflexivity.
  - discriminate.
  - by apply demo_world_holds.
  - unfold zlen. rewrite Hn. vm_compute. discriminate.
  - intros i n Hi. apply Z.ltb_lt. lia.
  - apply (Forall_impl _ _ _ Hp). intros it ->. reflexivity.
  - reflexivity.
  - exists (demo_world c h), w', data', ((up_to_nul ∘ it_payload) <$> its). split; [exact E|]. by rewrite length_fmap.
Defined.

Lemma silent_server_crashes_witness :
  main idle_others Ok demo_opts [Some (chars "hello"); None] world0 = Err NullDeref.
Proof.
  destruct (parse_argv demo_opts g_client) as [[ret g]|e] eqn:E; [|vm_compute in E; discriminate].
  assert (ret = 0) as -> by (vm_compute in E; congruence).
  apply (silent_server_crashes idle_others Ok demo_opts _ world0 [] (chars "127.0.0.1") g 16777343).
  - apply api_inv_world0.
  - by left.
  - reflexivity.
  - by split.
  - intros i n Hi. apply Z.ltb_lt. lia.
  - intros i w. by exists w.
  - apply demo_opts_known.
  - exact E.
  - vm_compute in E. injection E as <-. reflexivity.
  - reflexivity.
Defined.

(** A run of the whole program against a server that answers every command with
    success: the send thread sends what is queued, and the reply arrives. *)
Definition last_code (w : world) : Z :=
  match last (w_trace w) with Some (SSend _ d _) => nth 4 d 0 | _ => 0 end.

Definition answering (_ : nat) (w : world) : res world :=
  let* (_, w) := send_turn (CNode 0) (replicate (Z.to_nat 2048) 0) w in
  let reply := encode [last_code w + 128; 1] in
  let* (_, w) := recv_turn (CNode 0) (mkRecv 6 reply 0) (replicate (Z.to_nat 4096) 0) w in
  Ok w.

Definition sent (w : world) : list (list Z) :=
  omap (fun e => match e with SSend _ d _ => Some (drop 4 d) | _ => None end) (w_trace w).

Example session_runs :
  (let* (r, w) := main answering Ok demo_opts [Some (chars "hi" ++ [10]); Some [10]; Some (quit ++ [10])] world0 in
   Ok (r, sent w)) =
  Ok (Some 0, [1 :: chars "a"; 6 :: chars "b"; 2 :: chars "b"; 3 :: chars "hi"; 5 :: chars "b"; [4]]).
Proof. vm_compute. reflexivity. Qed.
